(** * Sticker-peel interaction engine: a shallow embedding and its properties

    The definitions follow the TypeScript files of the engine, one module
    per file:
    - [Dom]     : sticker-animation-dom.ts, with the DOM operations it uses;
    - [Events]  : sticker-animation-events.ts (direction classifier,
                  geometry calculator, style applier);
    - [Styles]  : sticker-animation-styles.ts (the shared style sheet);
    - [Auto]    : sticker-animation-auto.ts (eased, frame-driven reveal),
                  with [Binary64] for its easing on binary64 numbers;
    - [Sticker] : sticker-animation.ts (construction, handlers, visibility
                  trigger, destroy, reset, trigger), and the instance as a
                  state machine over the events of the browser.
    [Sample] is a small page to run the engine on.

    Number model.  A number that the engine computes with (a coordinate,
    a size, a time) is an exact rational ([Q]): arithmetic is exact, and
    [x / 0] is [0] as in [Qdiv] (statements that divide assume a non-zero
    divisor).  The 32-bit operator [>>] works on the integer part, with
    its wrap-around written out ([ToInt32]).  A number that the caller
    supplies (a value of the configuration, a threshold, an intensity) is
    a [Numeric]: it may also be [undefined], NaN or an infinity, and the
    engine only compares, prints and stores it.

    Object model.  A DOM node is a reference ([nat]); the document keeps
    one finite map per node property, so that a write through a reference
    always lands, as it does on a live JavaScript object.  There is one
    document, [documentNode], with its head, and the nodes that the engine
    inserts or names as a reference child are elements.

    Exceptions.  A call that throws leaves the state it had reached: a
    function that can throw returns that state together with what it
    threw, and an exception in an event listener ends the listener and
    nothing else. *)

From Stdlib Require Import QArith Qround Qminmax Qabs ZArith Lia Lqa Floats.
From Stdlib Require Import String List.
From stdpp Require Import gmap strings.

Local Open Scope Q_scope.

Set Warnings "-inexact-float".

(** ** JavaScript numbers and completions *)

Module JsNumber.

(** [a < b] on numbers, as a boolean. *)
Definition ltb (a b : Q) : bool := negb (Qle_bool b a).

(** [a <= b] on numbers, as a boolean. *)
Definition leb (a b : Q) : bool := Qle_bool a b.

(** Drop the fraction, towards zero. *)
Definition truncate (v : Q) : Z :=
  if Qle_bool 0 v then Qfloor v else Qceiling v.

(** ECMAScript ToInt32: drop the fraction, reduce modulo 2^32 and read the
    result as a signed 32-bit integer. *)
Definition ToInt32 (v : Q) : Z :=
  let m := (truncate v mod 2 ^ 32)%Z in
  if (2 ^ 31 <=? m)%Z then (m - 2 ^ 32)%Z else m.

(** [v >> k]: signed right shift of the 32-bit integer of [v]. *)
Definition sar (v : Q) (k : Z) : Q := inject_Z (Z.shiftr (ToInt32 v) k).

(** [a || b] on numbers: [0] is the falsy one. *)
Definition or_else (a b : Q) : Q := if Qeq_bool a 0 then b else a.

(** A value typed [number], or [number | undefined], that the caller
    supplies. *)
Inductive Numeric :=
| Undefined
| NaN
| PosInfinity
| NegInfinity
| Finite (v : Q).

Coercion Finite : Q >-> Numeric.

(** ToNumber gives NaN: [undefined] converts to it. *)
Definition isNaN (a : Numeric) : bool :=
  match a with
  | Undefined | NaN => true
  | _ => false
  end.

Definition isFinite (a : Numeric) : bool :=
  match a with
  | Finite _ => true
  | _ => false
  end.

(** [a < b] and [a <= b] on supplied values: false as soon as one side
    converts to NaN. *)
Definition numeric_ltb (a b : Numeric) : bool :=
  match a, b with
  | Finite x, Finite y => ltb x y
  | NegInfinity, (Finite _ | PosInfinity) => true
  | Finite _, PosInfinity => true
  | _, _ => false
  end.

Definition numeric_leb (a b : Numeric) : bool :=
  match a, b with
  | Finite x, Finite y => leb x y
  | NegInfinity, (Finite _ | PosInfinity | NegInfinity) => true
  | (Finite _ | PosInfinity), PosInfinity => true
  | _, _ => false
  end.

(** [Math.min(a, b)] and [Math.max(a, b)]: NaN as soon as one argument
    converts to NaN. *)
Definition Math_min (a b : Numeric) : Numeric :=
  if isNaN a || isNaN b then NaN
  else if numeric_ltb b a then b else a.

Definition Math_max (a b : Numeric) : Numeric :=
  if isNaN a || isNaN b then NaN
  else if numeric_ltb a b then b else a.

(** [a.toString()] exists: reading a property of [undefined] throws a
    TypeError. *)
Definition hasToString (a : Numeric) : bool :=
  match a with
  | Undefined => false
  | _ => true
  end.

(** What a call throws: an [Error] of the engine, an error of the
    language or of the bindings, or a DOMException, by its name. *)
Inductive Exception :=
| Error (message : string)
| TypeError
| RangeError
| SyntaxError
| HierarchyRequestError
| NotFoundError.

(** How a call ends. *)
Inductive Completion (A : Type) :=
| Returned (a : A)
| Thrown (e : Exception).
Arguments Returned {A} a.
Arguments Thrown {A} e.

End JsNumber.

(** ** The DOM and sticker-animation-dom.ts *)

Module Dom.

Import JsNumber.

(** A value of an inline style property.  Template strings built from
    numbers keep the numbers; a supplied value that is [undefined] prints
    as ['undefined'] ([None] for a string). *)
Inductive CssValue :=
| CssText (s : string)                          (* a literal, e.g. 'all 0s' *)
| CssNumber (v : Numeric)                       (* `${v}` *)
| CssPx (v : Q)                                 (* `${v}px` *)
| CssTranslate (tx ty : Q)                      (* `translate(${tx}px, ${ty}px)` *)
| CssScale (sx sy : Q)                          (* `scaleX(${sx}) scaleY(${sy})` *)
| CssTransition (prop : string) (ms : Numeric) (easing : option string).
                                                (* `${prop} ${ms}ms ${easing}` *)

(** The document: an allocation counter and one map per node property.
    [htmlElements] holds the references for which
    [x instanceof HTMLElement] is true; [parentOf] is [parentNode]
    (absent: null) and [childrenOf] is [childNodes] (absent: empty). *)
Record Document := mkDocument {
  nextNode : nat;
  documentNode : nat;
  documentHead : nat;
  htmlElements : gset nat;
  tagOf : gmap nat string;
  idOf : gmap nat string;
  classOf : gmap nat string;
  textOf : gmap nat string;
  parentOf : gmap nat nat;
  childrenOf : gmap nat (list nat);
  styleOf : gmap nat (gmap string CssValue)
}.

Definition parentNode (d : Document) (n : nat) : option nat := parentOf d !! n.

Definition childNodes (d : Document) (n : nat) : list nat :=
  default [] (childrenOf d !! n).

Definition inlineStyle (d : Document) (n : nat) : gmap string CssValue :=
  default ∅ (styleOf d !! n).

(** [n.style[prop]]; a property that was never set reads as ['']. *)
Definition getStyle (d : Document) (n : nat) (prop : string) : CssValue :=
  default (CssText "") (inlineStyle d n !! prop).

Definition set_nextNode (k : nat) (d : Document) : Document :=
  mkDocument k (documentNode d) (documentHead d) (htmlElements d) (tagOf d)
    (idOf d) (classOf d) (textOf d) (parentOf d) (childrenOf d) (styleOf d).

Definition set_htmlElements (v : gset nat) (d : Document) : Document :=
  mkDocument (nextNode d) (documentNode d) (documentHead d) v (tagOf d)
    (idOf d) (classOf d) (textOf d) (parentOf d) (childrenOf d) (styleOf d).

Definition set_tagOf (v : gmap nat string) (d : Document) : Document :=
  mkDocument (nextNode d) (documentNode d) (documentHead d) (htmlElements d) v
    (idOf d) (classOf d) (textOf d) (parentOf d) (childrenOf d) (styleOf d).

Definition set_idOf (v : gmap nat string) (d : Document) : Document :=
  mkDocument (nextNode d) (documentNode d) (documentHead d) (htmlElements d)
    (tagOf d) v (classOf d) (textOf d) (parentOf d) (childrenOf d) (styleOf d).

Definition set_classOf (v : gmap nat string) (d : Document) : Document :=
  mkDocument (nextNode d) (documentNode d) (documentHead d) (htmlElements d)
    (tagOf d) (idOf d) v (textOf d) (parentOf d) (childrenOf d) (styleOf d).

Definition set_textOf (v : gmap nat string) (d : Document) : Document :=
  mkDocument (nextNode d) (documentNode d) (documentHead d) (htmlElements d)
    (tagOf d) (idOf d) (classOf d) v (parentOf d) (childrenOf d) (styleOf d).

Definition set_parentOf (v : gmap nat nat) (d : Document) : Document :=
  mkDocument (nextNode d) (documentNode d) (documentHead d) (htmlElements d)
    (tagOf d) (idOf d) (classOf d) (textOf d) v (childrenOf d) (styleOf d).

Definition set_childrenOf (v : gmap nat (list nat)) (d : Document) : Document :=
  mkDocument (nextNode d) (documentNode d) (documentHead d) (htmlElements d)
    (tagOf d) (idOf d) (classOf d) (textOf d) (parentOf d) v (styleOf d).

Definition set_styleOf (v : gmap nat (gmap string CssValue)) (d : Document)
  : Document :=
  mkDocument (nextNode d) (documentNode d) (documentHead d) (htmlElements d)
    (tagOf d) (idOf d) (classOf d) (textOf d) (parentOf d) (childrenOf d) v.

(** [document.createElement(tag)]: a fresh, detached HTML element. *)
Definition createElement (tag : string) (d : Document) : nat * Document :=
  let n := nextNode d in
  (n, set_nextNode (S n)
        (set_htmlElements ({[ n ]} ∪ htmlElements d)
           (set_tagOf (<[ n := tag ]> (tagOf d)) d))).

(** [n.style[prop] = v]. *)
Definition setStyle (n : nat) (prop : string) (v : CssValue) (d : Document)
  : Document :=
  set_styleOf (<[ n := <[ prop := v ]> (inlineStyle d n) ]> (styleOf d)) d.

(** [n.style.cssText = ...]: the inline style becomes exactly [decls]. *)
Definition setCssText (n : nat) (decls : list (string * CssValue))
  (d : Document) : Document :=
  set_styleOf (<[ n := list_to_map decls ]> (styleOf d)) d.

Definition setClassName (n : nat) (c : string) (d : Document) : Document :=
  set_classOf (<[ n := c ]> (classOf d)) d.

Definition setId (n : nat) (i : string) (d : Document) : Document :=
  set_idOf (<[ n := i ]> (idOf d)) d.

Definition setTextContent (n : nat) (t : string) (d : Document) : Document :=
  set_textOf (<[ n := t ]> (textOf d)) d.

Definition removeFrom (n : nat) (l : list nat) : list nat :=
  List.filter (fun m => negb (Nat.eqb m n)) l.

(** [n.remove()]: detach [n] from its parent, if it has one. *)
Definition remove (n : nat) (d : Document) : Document :=
  match parentNode d n with
  | None => d
  | Some p =>
      set_parentOf (delete n (parentOf d))
        (set_childrenOf (<[ p := removeFrom n (childNodes d p) ]> (childrenOf d)) d)
  end.

(** [l] with [n] placed just before the first occurrence of [ref], for a
    list [l] that holds [ref]. *)
Fixpoint placeBefore (n ref : nat) (l : list nat) : list nat :=
  match l with
  | [] => [n]
  | m :: l' => if Nat.eqb m ref then n :: m :: l' else m :: placeBefore n ref l'
  end.

(** The insertion of [n] into [p] before its child [ref], once it is known
    to be valid: [n] leaves its former parent first. *)
Definition insert (p n ref : nat) (d : Document) : Document :=
  let d1 := remove n d in
  set_parentOf (<[ n := p ]> (parentOf d1))
    (set_childrenOf (<[ p := placeBefore n ref (childNodes d1 p) ]> (childrenOf d1)) d1).

(** [p.insertBefore(n, ref)] for elements [n] and [ref], where [n] is not
    [p] nor above it (the engine inserts a new element or a detached tree
    that does not hold [p]).  The call throws, and inserts nothing, a
    NotFoundError when [ref] is not a child of [p], and a
    HierarchyRequestError when [p] is the document, which has its one
    element child already. *)
Definition insertBefore (p n ref : nat) (d : Document) : Completion Document :=
  if negb (bool_decide (parentNode d ref = Some p)) then Thrown NotFoundError
  else if Nat.eqb p (documentNode d) then Thrown HierarchyRequestError
  else Returned (insert p n ref d).

(** [p.appendChild(n)]: [n] leaves its former parent first. *)
Definition appendChild (p n : nat) (d : Document) : Document :=
  let d1 := remove n d in
  set_parentOf (<[ n := p ]> (parentOf d1))
    (set_childrenOf (<[ p := childNodes d1 p ++ [n] ]> (childrenOf d1)) d1).

(** Copy the own properties of [n] onto the fresh reference [c]. *)
Definition copyNode (n c : nat) (d : Document) : Document :=
  let copy {A} (m : gmap nat A) : gmap nat A :=
    match m !! n with Some v => <[ c := v ]> m | None => m end in
  set_htmlElements
    (if bool_decide (n ∈ htmlElements d) then {[ c ]} ∪ htmlElements d
     else htmlElements d)
    (set_tagOf (copy (tagOf d))
       (set_idOf (copy (idOf d))
          (set_classOf (copy (classOf d))
             (set_textOf (copy (textOf d))
                (set_styleOf (copy (styleOf d)) d))))).

(** [n.cloneNode(true)]: a detached deep copy, children in order.  The
    fuel bounds the depth of the subtree that is copied. *)
Fixpoint cloneNode (fuel : nat) (n : nat) (d : Document) : nat * Document :=
  let c := nextNode d in
  let d1 := set_nextNode (S c) (copyNode n c d) in
  match fuel with
  | O => (c, d1)
  | S fuel' =>
      (c, fold_left
            (fun acc child =>
               let '(k, acc') := cloneNode fuel' child acc in
               appendChild c k acc')
            (childNodes d n) d1)
  end.

(** The nodes below [n], [n] first, in tree order. *)
Fixpoint treeOrder (fuel : nat) (d : Document) (n : nat) : list nat :=
  match fuel with
  | O => [n]
  | S fuel' => n :: flat_map (treeOrder fuel' d) (childNodes d n)
  end.

(** [n.isConnected]: [n] is in the tree of the document. *)
Definition isConnected (d : Document) (n : nat) : bool :=
  bool_decide (n ∈ treeOrder (nextNode d) d (documentNode d)).

(** [document.getElementById(i)]: the first element of the document, in
    tree order, whose id is [i]. *)
Definition getElementById (i : string) (d : Document) : option nat :=
  List.find (fun n => bool_decide (idOf d !! n = Some i))
    (treeOrder (nextNode d) d (documentNode d)).

(** *** sticker-animation-dom.ts *)

Record DOMStructure := mkDOMStructure {
  container : nat;
  mask : nat;
  move : nat;
  front : nat;
  back : nat;
  backImg : nat;
  backShadow : nat;
  depth : nat
}.

Definition createStickerDOM (originalElement : nat) (width height : Q)
  (d : Document) : DOMStructure * Document :=
  (* Create container element *)
  let '(container, d) := createElement "div" d in
  let d := setCssText container
             [("position", CssText "relative"); ("width", CssPx width);
              ("height", CssPx height); ("overflow", CssText "hidden");
              ("display", CssText "inline-block")] d in
  let d := setClassName container "sticker-container" d in
  (* Create mask layer *)
  let '(mask, d) := createElement "div" d in
  let d := setCssText mask
             [("position", CssText "relative"); ("width", CssPx width);
              ("height", CssPx height); ("overflow", CssText "hidden");
              ("transition", CssText "all 0s")] d in
  let d := setClassName mask "sticker-mask" d in
  (* Create move layer *)
  let '(move, d) := createElement "div" d in
  let d := setCssText move
             [("position", CssText "relative"); ("width", CssPx width);
              ("height", CssPx height); ("overflow", CssText "hidden");
              ("transition", CssText "all 0s")] d in
  let d := setClassName move "sticker-move" d in
  (* Create front layer (visible part) *)
  let '(front, d) := createElement "div" d in
  let d := setCssText front
             [("position", CssText "relative"); ("width", CssPx width);
              ("height", CssPx height); ("z-index", CssText "1")] d in
  let d := setClassName front "sticker-front sticker-img" d in
  (* Clone the original element into the front layer *)
  let '(frontContent, d) := cloneNode (nextNode d) originalElement d in
  let d := setCssText frontContent
             [("width", CssText "100%"); ("height", CssText "100%");
              ("object-fit", CssText "cover")] d in
  let d := appendChild front frontContent d in
  (* Create back layer (peeling part) - initially hidden off to the side *)
  let '(back, d) := createElement "div" d in
  let d := setCssText back
             [("position", CssText "absolute"); ("width", CssPx width);
              ("height", CssPx height); ("left", CssText "0");
              ("top", CssText "0"); ("z-index", CssText "3");
              ("background-color", CssText "#ffffff");
              ("transform", CssTranslate width 0);
              ("overflow", CssText "hidden");
              ("transition", CssText "all 0s")] d in
  let d := setClassName back "sticker-back" d in
  (* Create back image (semi-transparent copy) *)
  let '(backImg, d) := createElement "div" d in
  let d := setCssText backImg
             [("position", CssText "relative"); ("width", CssPx width);
              ("height", CssPx height); ("opacity", CssText "0.4")] d in
  let d := setClassName backImg "sticker-back-img sticker-img" d in
  (* Clone the original element into the back image *)
  let '(backContent, d) := cloneNode (nextNode d) originalElement d in
  let d := setCssText backContent
             [("width", CssText "100%"); ("height", CssText "100%");
              ("object-fit", CssText "cover")] d in
  let d := appendChild backImg backContent d in
  (* Create back shadow layer *)
  let '(backShadow, d) := createElement "div" d in
  let d := setCssText backShadow
             [("position", CssText "absolute"); ("width", CssPx width);
              ("height", CssPx height); ("left", CssText "0");
              ("top", CssText "0"); ("z-index", CssText "4");
              ("transition", CssText "all 0s")] d in
  let d := setClassName backShadow "sticker-shadow" d in
  (* Create depth shadow layer *)
  let '(depth, d) := createElement "div" d in
  let d := setCssText depth
             [("position", CssText "absolute"); ("width", CssPx width);
              ("height", CssPx height); ("left", CssText "0");
              ("top", CssText "0"); ("z-index", CssText "1");
              ("transform", CssTranslate (-10000) (-10000));
              ("transition", CssText "all 0s")] d in
  let d := setClassName depth "sticker-shadow sticker-depth" d in
  (* Assemble the DOM structure *)
  let d := appendChild back backImg d in
  let d := appendChild back backShadow d in
  let d := appendChild move front d in
  let d := appendChild move depth d in
  let d := appendChild move back d in
  let d := appendChild mask move d in
  let d := appendChild container mask d in
  (mkDOMStructure container mask move front back backImg backShadow depth, d).

(** What the layout engine reports for an element:
    [getBoundingClientRect()] and the parsed lengths of
    [getComputedStyle()]. *)
Record DOMRect := mkDOMRect {
  rect_left : Q; rect_top : Q; rect_width : Q; rect_height : Q }.

Record ComputedBox := mkComputedBox {
  paddingLeft : Q; paddingRight : Q; paddingTop : Q; paddingBottom : Q;
  borderLeftWidth : Q; borderRightWidth : Q;
  borderTopWidth : Q; borderBottomWidth : Q }.

Record Size := mkSize { width : Q; height : Q }.

Definition getElementSize (rect : DOMRect) (computedStyle : ComputedBox) : Size :=
  (* Get the actual content size excluding padding and border *)
  let width := rect_width rect
               - paddingLeft computedStyle
               - paddingRight computedStyle
               - borderLeftWidth computedStyle
               - borderRightWidth computedStyle in
  let height := rect_height rect
                - paddingTop computedStyle
                - paddingBottom computedStyle
                - borderTopWidth computedStyle
                - borderBottomWidth computedStyle in
  mkSize width height.

(** The [while (wrapper.firstChild)] loop of [insertStickerDOM]: drop the
    children in front of the original element.  The loop ends because each
    turn removes the first child; the recursion is on the child list. *)
Fixpoint clearBefore (wrapper originalElement : nat) (children : list nat)
  (d : Document) : Document :=
  match children with
  | [] => d
  | firstChild :: rest =>
      if negb (Nat.eqb firstChild originalElement)
      then clearBefore wrapper originalElement rest (remove firstChild d)
      else d
  end.

(** The document that comes back is the one the call left behind, whether
    it returned or threw. *)
Definition insertStickerDOM (wrapper : nat) (structure : DOMStructure)
  (originalElement : nat) (d : Document) : Document * Completion unit :=
  (* Hide the original element *)
  let d := setStyle originalElement "display" (CssText "none") d in
  (* Clear any existing content in the wrapper *)
  let d := clearBefore wrapper originalElement (childNodes d wrapper) d in
  (* Insert the sticker structure *)
  match insertBefore wrapper (container structure) originalElement d with
  | Returned d => (d, Returned tt)
  | Thrown e => (d, Thrown e)
  end.

End Dom.

(** ** The browser around the engine *)

Module Browser.

Import JsNumber Dom.

(** The fields of a [MouseEvent] that the engine reads. *)
Record MouseEvent := mkMouseEvent { pageX : Q; pageY : Q }.

(** [new MouseEvent(type, {...})] without page coordinates. *)
Definition newMouseEvent : MouseEvent := mkMouseEvent 0 0.

(** [e.touches[0]] of a [TouchEvent]. *)
Record Touch := mkTouch { touch_pageX : Q; touch_pageY : Q }.

(** The closures that the engine registers as event listeners: the six of
    [setupEventHandlers], and [handleMouseUp] of [handleMouseMove] with the
    event it captured. *)
Inductive Listener :=
| HandleMouseEnter
| HandleMouseLeave
| HandleMouseMove
| HandleTouchStart
| HandleTouchEnd
| HandleTouchMove
| HandleMouseUp (e : MouseEvent).

(** The closures that the engine hands to [setTimeout]. *)
Inductive TimerTask :=
| ShowElement          (* showElement of the visibility trigger *)
| DropShadowFilter.    (* the drop shadow after a leave *)

Record IntersectionObserverEntry := mkEntry {
  isIntersecting : bool;
  entry_target : nat
}.

(** [options.threshold] of an [IntersectionObserverInit]: a number or a
    list of numbers. *)
Inductive Thresholds :=
| OneThreshold (v : Numeric)
| ManyThresholds (l : list Numeric).

(** [IntersectionObserverInit], the keys that the engine sets: [None] is a
    missing key, and [Some None] a [rootMargin] that is [undefined].  The
    key [root] is left out: the constructor takes every value of its
    type, an element, a document or null. *)
Record ObserverOptions := mkObserverOptions {
  threshold : option Thresholds;
  rootMargin : option (option string)
}.

(** What the host provides and the engine cannot change: whether
    [window] has IntersectionObserver, whether a string parses as a
    margin (up to four lengths in pixels or percent), and the layout. *)
Record Env := mkEnv {
  intersectionObserverInWindow : bool;
  parsesAsMargin : string -> bool;
  getBoundingClientRect : Document -> nat -> DOMRect;
  getComputedStyle : Document -> nat -> ComputedBox
}.

(** The numbers of [options.threshold]; a key that is missing or
    [undefined] gives none, and the constructor takes its default. *)
Definition thresholdList (options : ObserverOptions) : list Numeric :=
  match threshold options with
  | None | Some (OneThreshold Undefined) => []
  | Some (OneThreshold v) => [v]
  | Some (ManyThresholds l) => l
  end.

Definition inUnitInterval (v : Numeric) : bool :=
  numeric_leb 0 v && numeric_leb v 1.

(** [new IntersectionObserver(callback, options)]: what the constructor
    throws, if it throws.  The bindings refuse a threshold that is not a
    finite number (TypeError); the constructor refuses a [rootMargin] that
    does not parse (SyntaxError) and a threshold outside [0, 1]
    (RangeError).  A [rootMargin] that is missing or [undefined] stands
    for ['0px']. *)
Definition newIntersectionObserver (env : Env) (options : ObserverOptions)
  : option Exception :=
  if negb (forallb isFinite (thresholdList options)) then Some TypeError
  else if negb (match rootMargin options with
                | Some (Some margin) => parsesAsMargin env margin
                | _ => true
                end) then Some SyntaxError
  else if negb (forallb inUnitInterval (thresholdList options)) then Some RangeError
  else None.

(** The mutable browser state: the document, the registered listeners
    (target, type, callback), the targets observed by the instance's
    IntersectionObserver, the pending timeouts (delay, task), the
    console warnings, the clock and the scroll offsets. *)
Record World := mkWorld {
  document : Document;
  listeners : list (nat * string * Listener);
  observed : list nat;
  timers : list (Numeric * TimerTask);
  warnings : list string;
  dateNow : Q;
  pageXOffset : Q;
  pageYOffset : Q
}.

Definition set_document (v : Document) (w : World) : World :=
  mkWorld v (listeners w) (observed w) (timers w) (warnings w) (dateNow w)
    (pageXOffset w) (pageYOffset w).

Definition set_listeners (v : list (nat * string * Listener)) (w : World) : World :=
  mkWorld (document w) v (observed w) (timers w) (warnings w) (dateNow w)
    (pageXOffset w) (pageYOffset w).

Definition set_observed (v : list nat) (w : World) : World :=
  mkWorld (document w) (listeners w) v (timers w) (warnings w) (dateNow w)
    (pageXOffset w) (pageYOffset w).

Definition set_timers (v : list (Numeric * TimerTask)) (w : World) : World :=
  mkWorld (document w) (listeners w) (observed w) v (warnings w) (dateNow w)
    (pageXOffset w) (pageYOffset w).

Definition set_warnings (v : list string) (w : World) : World :=
  mkWorld (document w) (listeners w) (observed w) (timers w) v (dateNow w)
    (pageXOffset w) (pageYOffset w).

Definition set_dateNow (v : Q) (w : World) : World :=
  mkWorld (document w) (listeners w) (observed w) (timers w) (warnings w) v
    (pageXOffset w) (pageYOffset w).

(** Run a document operation in the world. *)
Definition onDocument (f : Document -> Document) (w : World) : World :=
  set_document (f (document w)) w.

Definition listener_eqb (a b : Listener) : bool :=
  match a, b with
  | HandleMouseEnter, HandleMouseEnter
  | HandleMouseLeave, HandleMouseLeave
  | HandleMouseMove, HandleMouseMove
  | HandleTouchStart, HandleTouchStart
  | HandleTouchEnd, HandleTouchEnd
  | HandleTouchMove, HandleTouchMove => true
  | HandleMouseUp e1, HandleMouseUp e2 =>
      Qeq_bool (pageX e1) (pageX e2) && Qeq_bool (pageY e1) (pageY e2)
  | _, _ => false
  end.

Definition registration_eqb (a b : nat * string * Listener) : bool :=
  let '(t1, ty1, l1) := a in
  let '(t2, ty2, l2) := b in
  Nat.eqb t1 t2 && String.eqb ty1 ty2 && listener_eqb l1 l2.

(** [target.addEventListener(type, callback)]. *)
Definition addEventListener (target : nat) (type : string) (callback : Listener)
  (w : World) : World :=
  set_listeners (listeners w ++ [(target, type, callback)]) w.

(** Drop the first registration equal to [r]. *)
Fixpoint dropFirst (r : nat * string * Listener)
  (l : list (nat * string * Listener)) : list (nat * string * Listener) :=
  match l with
  | [] => []
  | r' :: l' => if registration_eqb r r' then l' else r' :: dropFirst r l'
  end.

(** [target.removeEventListener(type, callback)]. *)
Definition removeEventListener (target : nat) (type : string)
  (callback : Listener) (w : World) : World :=
  set_listeners (dropFirst (target, type, callback) (listeners w)) w.

(** [setTimeout(task, delay)]. *)
Definition setTimeout (task : TimerTask) (delay : Numeric) (w : World) : World :=
  set_timers (timers w ++ [(delay, task)]) w.

(** [console.warn(message)]. *)
Definition consoleWarn (message : string) (w : World) : World :=
  set_warnings (warnings w ++ [message]) w.

(** [observer.observe(n)], [observer.unobserve(n)], [observer.disconnect()]. *)
Definition observe (n : nat) (w : World) : World :=
  set_observed (observed w ++ [n]) w.

Definition unobserve (n : nat) (w : World) : World :=
  set_observed (removeFrom n (observed w)) w.

Definition disconnect (w : World) : World := set_observed [] w.

End Browser.

(** ** sticker-animation-events.ts *)

Module Events.

Import JsNumber Dom Browser.

Inductive Direction := Left | Right | Top | Bottom.

Record Position := mkPosition { pos_x : Q; pos_y : Q }.

Record PeelValues := mkPeelValues {
  bx : Q;      (* back translate X *)
  by_ : Q;     (* back translate Y *)
  sx : Q;      (* scale X *)
  sy : Q;      (* scale Y *)
  bs : string; (* shadow class *)
  bmx : Q;     (* back move X *)
  bmy : Q;     (* back move Y *)
  bsw : Q;     (* shadow width *)
  bsh : Q;     (* shadow height *)
  bsx : Q;     (* shadow X *)
  bsy : Q;     (* shadow Y *)
  cw : Q;      (* mask width *)
  ch : Q;      (* mask height *)
  cx : Q;      (* mask X *)
  cy : Q;      (* mask Y *)
  dw : Q;      (* depth width *)
  dh : Q;      (* depth height *)
  dx : Q;      (* depth X *)
  dy : Q       (* depth Y *)
}.

(** Get the direction based on mouse position relative to element. *)
Definition getDirection (e : MouseEvent) (pos : Position) (sizeQ : Q) : Direction :=
  let fx := pos_x pos in
  let fy := pos_y pos in
  let tx := pageX e - fx in
  let ty := pageY e - fy in
  if ltb tx sizeQ then Left
  else if ltb (sizeQ * 3) tx then Right
  else if ltb ty sizeQ then Top
  else Bottom.

(** Calculate peel values based on mouse position and direction. *)
Definition calculatePeelValues (event : MouseEvent) (pos : Position)
  (size : Size) (direction : Direction) : PeelValues :=
  let fx := pos_x pos in
  let fy := pos_y pos in
  let tx := pageX event - fx in
  let ty := pageY event - fy in
  let a := width size - tx in
  let b := height size - ty in
  let c := sar tx 1 in
  let d := sar ty 1 in
  let e := sar a 1 in
  let f := sar b 1 in
  match direction with
  | Left =>
      {| bx := - width size; by_ := 0; sx := -1; sy := 1; bs := "shadowL";
         bmx := - width size + tx; bmy := 0;
         bsw := tx; bsh := height size; bsx := a; bsy := 0;
         cw := width size - c; ch := height size; cx := c; cy := 0;
         dw := c; dh := height size; dx := c - sar c 1; dy := 0 |}
  | Right =>
      {| bx := width size; by_ := 0; sx := -1; sy := 1; bs := "shadowR";
         bmx := tx; bmy := 0;
         bsw := a; bsh := height size; bsx := 0; bsy := 0;
         cw := width size - e; ch := height size; cx := 0; cy := 0;
         dw := e; dh := height size; dx := width size - a + sar e 1; dy := 0 |}
  | Top =>
      {| bx := 0; by_ := - height size; sx := 1; sy := -1; bs := "shadowT";
         bmx := 0; bmy := - height size + ty;
         bsw := width size; bsh := ty; bsx := 0; bsy := b;
         cw := width size; ch := height size - d; cx := 0; cy := d;
         dw := width size; dh := d; dx := 0; dy := d - sar d 1 |}
  | Bottom =>
      {| bx := 0; by_ := height size; sx := 1; sy := -1; bs := "shadowB";
         bmx := 0; bmy := ty;
         bsw := width size; bsh := b; bsx := 0; bsy := 0;
         cw := width size; ch := height size - f; cx := 0; cy := 0;
         dw := width size; dh := f; dx := 0; dy := height size - b + sar f 1 |}
  end.

(** Setup event handlers for sticker animation: six listeners on the
    container. *)
Definition setupEventHandlers (domStructure : DOMStructure) (w : World) : World :=
  let container := container domStructure in
  (* Add event listeners *)
  let w := addEventListener container "mouseenter" HandleMouseEnter w in
  let w := addEventListener container "mouseleave" HandleMouseLeave w in
  let w := addEventListener container "mousemove" HandleMouseMove w in
  (* Touch support *)
  let w := addEventListener container "touchstart" HandleTouchStart w in
  let w := addEventListener container "touchend" HandleTouchEnd w in
  addEventListener container "touchmove" HandleTouchMove w.

(** The cleanup function that [setupEventHandlers] returns. *)
Definition cleanupEvents (domStructure : DOMStructure) (w : World) : World :=
  let container := container domStructure in
  let w := removeEventListener container "mouseenter" HandleMouseEnter w in
  let w := removeEventListener container "mouseleave" HandleMouseLeave w in
  let w := removeEventListener container "mousemove" HandleMouseMove w in
  let w := removeEventListener container "touchstart" HandleTouchStart w in
  let w := removeEventListener container "touchend" HandleTouchEnd w in
  removeEventListener container "touchmove" HandleTouchMove w.

(** Apply CSS styles based on peel values. *)
Definition applyPeelStyles (domStructure : DOMStructure) (values : PeelValues)
  (transition : CssValue) (d : Document) : Document :=
  let mask := mask domStructure in
  let move := move domStructure in
  let back := back domStructure in
  let backImg := backImg domStructure in
  let backShadow := backShadow domStructure in
  let depth := depth domStructure in
  (* Update mask *)
  let d := setStyle mask "transition" transition d in
  let d := setStyle mask "width" (CssPx (cw values)) d in
  let d := setStyle mask "height" (CssPx (ch values)) d in
  let d := setStyle mask "transform" (CssTranslate (cx values) (cy values)) d in
  (* Update move *)
  let d := setStyle move "transition" transition d in
  let d := setStyle move "transform" (CssTranslate (- cx values) (- cy values)) d in
  (* Update back *)
  let d := setStyle back "transition" transition d in
  let d := setStyle back "transform" (CssTranslate (bmx values) (bmy values)) d in
  (* Update back image *)
  let d := setStyle backImg "transform" (CssScale (sx values) (sy values)) d in
  (* Update shadow *)
  let d := setStyle backShadow "width" (CssPx (bsw values)) d in
  let d := setStyle backShadow "height" (CssPx (bsh values)) d in
  let d := setStyle backShadow "transform" (CssTranslate (bsx values) (bsy values)) d in
  (* Update depth *)
  let d := setStyle depth "width" (CssPx (dw values)) d in
  let d := setStyle depth "height" (CssPx (dh values)) d in
  setStyle depth "transform" (CssTranslate (dx values) (dy values)) d.

End Events.

(** ** sticker-animation-styles.ts *)

Module Styles.

Import JsNumber Dom Browser.

Definition STYLE_ID : string := "sticker-animation-styles".

(** Create and inject global styles for sticker animation.  The boolean
    tells which cleanup function is returned: [true] for the one that
    removes the style element, [false] for the empty one. *)
Definition injectGlobalStyles (d : Document) : bool * Document :=
  (* Check if styles already exist *)
  match getElementById STYLE_ID d with
  | Some _ => (false, d) (* Already injected *)
  | None =>
      let '(styleElement, d) := createElement "style" d in
      let d := setId styleElement STYLE_ID d in
      let d := setTextContent styleElement "gradientStyles" d in
      let d := appendChild (documentHead d) styleElement d in
      (true, d)
  end.

(** The cleanup function of [injectGlobalStyles]. *)
Definition cleanupStyles (injected : bool) (d : Document) : Document :=
  if injected then
    match getElementById STYLE_ID d with
    | Some style => remove style d
    | None => d
    end
  else d.

(** Update CSS variables for dynamic styling. *)
Definition updateCSSVariables (element : nat) (variables : list (string * CssValue))
  (d : Document) : Document :=
  fold_left
    (fun d kv => setStyle element (String.append "--sticker-" (fst kv)) (snd kv) d)
    variables d.

(** *** Vendor prefixes *)

Definition VENDOR_PREFIXES : list string := ["webkit"; "Moz"; "ms"; "O"].

(** [c.toUpperCase()] for one character of a property name (ASCII). *)
Definition toUpperCase (c : Ascii.ascii) : Ascii.ascii :=
  let n := Ascii.nat_of_ascii c in
  if ((97 <=? n) && (n <=? 122))%nat then Ascii.ascii_of_nat (n - 32) else c.

(** [prop.charAt(0).toUpperCase() + prop.slice(1)] *)
Definition capitalize (prop : string) : string :=
  match prop with
  | EmptyString => EmptyString
  | String c rest => String (toUpperCase c) rest
  end.

(** The [style] object of an element seen as a JavaScript object ([el.style
    as any]): the properties it defines, each with its value; a property
    that is not in the map reads [undefined]. *)
Definition StyleObject : Type := gmap string CssValue.

(** [style[name] !== undefined] *)
Definition defined (style : StyleObject) (name : string) : bool :=
  bool_decide (is_Some (style !! name)).

(** Get vendor-prefixed property name. *)
Definition getVendorProperty (style : StyleObject) (prop : string) : option string :=
  let capitalizedProp := capitalize prop in
  match List.find (fun prefix => defined style (String.append prefix capitalizedProp))
          VENDOR_PREFIXES with
  | Some prefix => Some (String.append prefix capitalizedProp)
  | None => if defined style prop then Some prop else None
  end.

(** Apply CSS with vendor prefixes.  [properties] lists the own properties
    of the record in the order of [for ... in]. *)
Definition applyVendorCSS (style : StyleObject) (properties : list (string * CssValue))
  : StyleObject :=
  fold_left
    (fun style kv =>
       let vendorProp := default (fst kv) (getVendorProperty style (fst kv)) in
       <[vendorProp := snd kv]> style)
    properties style.

(** *** Shadow colour *)

(** The colour [rgba(r,g,b,a)], with the alpha that the template string
    prints. *)
Inductive Color : Type := Rgba (r g b : Q) (a : Numeric).

Definition alpha (c : Color) : Numeric := match c with Rgba _ _ _ a => a end.

(** Create dynamic style object with shadow intensity. *)
Definition createShadowStyle (intensity : Numeric) : Color :=
  let opacity := Math_max 0 (Math_min 1 intensity) in
  Rgba 0 0 0 opacity.

(** *** Cache of computed styles *)

(** The module-level [styleCache] together with the timeouts that
    [getCachedComputedStyle] has scheduled and that have not fired yet
    (each deletes one key).  A computed style declaration is a live object
    that belongs to one element, so it is named by that element. *)
Record StyleCache : Type := mkStyleCache {
  styleCache : gmap string nat;
  pendingDeletes : list string
}.

Definition emptyStyleCache : StyleCache := mkStyleCache ∅ [].

(** [element.id || element.className] *)
Definition cacheKey (d : Document) (element : nat) : string :=
  let id := default EmptyString (idOf d !! element) in
  if String.eqb id EmptyString then default EmptyString (classOf d !! element) else id.

(** Get cached computed style for better performance. *)
Definition getCachedComputedStyle (d : Document) (element : nat) (c : StyleCache)
  : nat * StyleCache :=
  let id := cacheKey d element in
  match styleCache c !! id with
  | Some computedStyle => (computedStyle, c)
  | None =>
      let computedStyle := element in
      (computedStyle,
       mkStyleCache (<[id := computedStyle]> (styleCache c)) (pendingDeletes c ++ [id]))
  end.

(** The [k]-th pending timeout fires: [styleCache.delete(id)]. *)
Definition runDelete (k : nat) (c : StyleCache) : StyleCache :=
  match pendingDeletes c !! k with
  | Some id => mkStyleCache (delete id (styleCache c)) (take k (pendingDeletes c) ++ drop (S k) (pendingDeletes c))
  | None => c
  end.

(** What can happen to the cache: a call for an element, or a timeout. *)
Inductive CacheEvent : Type :=
| GetStyle (element : nat)
| DeleteTimeout (k : nat).

Definition cacheStep (d : Document) (c : StyleCache) (ev : CacheEvent) : StyleCache :=
  match ev with
  | GetStyle element => snd (getCachedComputedStyle d element c)
  | DeleteTimeout k => runDelete k c
  end.

End Styles.

(** ** logger.ts *)

Module Logger.

(** One call of a method of [console]. *)
Inductive ConsoleCall : Type :=
| ConsoleLog (args : list string)
| ConsoleWarn (args : list string)
| ConsoleError (args : list string)
| ConsoleGroup (label : option string)
| ConsoleGroupEnd
| ConsoleTable (data : string) (columns : option (list string))
| ConsoleTime (label : option string)
| ConsoleTimeEnd (label : option string).

(** One call of a method of [logger]. *)
Inductive LoggerCall : Type :=
| Log (args : list string)
| Warn (args : list string)
| Error (args : list string)
| Debug (args : list string)
| Group (label : option string)
| GroupEnd
| Table (data : string) (columns : option (list string))
| Time (label : option string)
| TimeEnd (label : option string).

(** The methods of [logger]; [isDev] is [import.meta.env.DEV] and the
    list is what the console has received so far. *)
Definition logger (isDev : bool) (call : LoggerCall) (console : list ConsoleCall)
  : list ConsoleCall :=
  match call with
  | Log args => if isDev then console ++ [ConsoleLog args] else console
  | Warn args => if isDev then console ++ [ConsoleWarn args] else console
  | Error args =>
      (* エラーは本番環境でも出力（重要なエラーの追跡のため） *)
      console ++ [ConsoleError args]
  | Debug args => if isDev then console ++ [ConsoleLog ("[DEBUG]" :: args)] else console
  | Group label => if isDev then console ++ [ConsoleGroup label] else console
  | GroupEnd => if isDev then console ++ [ConsoleGroupEnd] else console
  | Table data columns => if isDev then console ++ [ConsoleTable data columns] else console
  | Time label => if isDev then console ++ [ConsoleTime label] else console
  | TimeEnd label => if isDev then console ++ [ConsoleTimeEnd label] else console
  end.

Definition loggerCalls (isDev : bool) (calls : list LoggerCall) (console : list ConsoleCall)
  : list ConsoleCall :=
  fold_left (fun console call => logger isDev call console) calls console.

End Logger.

(** ** gsap-config.ts *)

Module ScrollTriggers.

Import Logger.

(** The module state: the [scrollTriggers] map from ids to triggers (a
    trigger is a reference), the triggers that GSAP keeps alive (created
    and not yet killed), the number of triggers created so far, the calls
    of [ScrollTrigger.refresh()], the console, and for the resize handler
    the variable [resizeTimer], the timeouts still pending and the number
    of timeouts requested so far. *)
Record Manager : Type := mkManager {
  scrollTriggers : gmap string nat;
  alive : gset nat;
  created : nat;
  refreshes : nat;
  console : list ConsoleCall;
  resizeTimer : option nat;
  pendingTimeouts : gset nat;
  timeouts : nat
}.

Definition initialManager : Manager := mkManager ∅ ∅ 0 0 [] None ∅ 0.

Definition set_scrollTriggers (v : gmap string nat) (m : Manager) : Manager :=
  mkManager v (alive m) (created m) (refreshes m) (console m) (resizeTimer m)
    (pendingTimeouts m) (timeouts m).
Definition set_alive (v : gset nat) (m : Manager) : Manager :=
  mkManager (scrollTriggers m) v (created m) (refreshes m) (console m) (resizeTimer m)
    (pendingTimeouts m) (timeouts m).
Definition set_console (v : list ConsoleCall) (m : Manager) : Manager :=
  mkManager (scrollTriggers m) (alive m) (created m) (refreshes m) v (resizeTimer m)
    (pendingTimeouts m) (timeouts m).

(** [trigger.kill()] *)
Definition kill (trigger : nat) (m : Manager) : Manager :=
  set_alive (alive m ∖ {[trigger]}) m.

(** [ScrollTrigger.create(vars)]: a new live trigger, or an exception when
    [throws] is set. *)
Definition create (throws : bool) (m : Manager) : option nat * Manager :=
  if throws then (None, m)
  else
    let trigger := created m in
    (Some trigger,
     mkManager (scrollTriggers m) (alive m ∪ {[trigger]}) (S (created m)) (refreshes m)
       (console m) (resizeTimer m) (pendingTimeouts m) (timeouts m)).

(** ScrollTriggerを作成・管理するヘルパー関数 *)
Definition createManagedScrollTrigger (isDev : bool) (id : string) (throws : bool)
  (m : Manager) : option nat * Manager :=
  (* 既存のトリガーがあれば削除 *)
  let m :=
    match scrollTriggers m !! id with
    | Some trigger => kill trigger m
    | None => m
    end in
  match create throws m with
  | (Some trigger, m) =>
      let m := set_scrollTriggers (<[id := trigger]> (scrollTriggers m)) m in
      (Some trigger, m)
  | (None, m) =>
      let m :=
        set_console
          (logger isDev
             (Error [String.append "Failed to create ScrollTrigger for " (String.append id ":");
                     "error"])
             (console m)) m in
      (None, m)
  end.

(** 特定のScrollTriggerを削除 *)
Definition killScrollTrigger (id : string) (m : Manager) : Manager :=
  match scrollTriggers m !! id with
  | Some trigger =>
      let m := kill trigger m in
      set_scrollTriggers (delete id (scrollTriggers m)) m
  | None => m
  end.

(** すべてのScrollTriggerを削除 *)
Definition killAllScrollTriggers (m : Manager) : Manager :=
  let m := map_fold (fun _ trigger m => kill trigger m) m (scrollTriggers m) in
  set_scrollTriggers ∅ m.

(** ScrollTriggerをリフレッシュ *)
Definition refreshScrollTriggers (m : Manager) : Manager :=
  mkManager (scrollTriggers m) (alive m) (created m) (S (refreshes m)) (console m)
    (resizeTimer m) (pendingTimeouts m) (timeouts m).

(** [clearTimeout(handle)] *)
Definition clearTimeout (handle : option nat) (m : Manager) : Manager :=
  match handle with
  | Some h =>
      mkManager (scrollTriggers m) (alive m) (created m) (refreshes m) (console m)
        (resizeTimer m) (pendingTimeouts m ∖ {[h]}) (timeouts m)
  | None => m
  end.

(** The listener of [resize]: リサイズ時の自動リフレッシュ *)
Definition onResize (m : Manager) : Manager :=
  let m := clearTimeout (resizeTimer m) m in
  let h := timeouts m in
  mkManager (scrollTriggers m) (alive m) (created m) (refreshes m) (console m)
    (Some h) (pendingTimeouts m ∪ {[h]}) (S (timeouts m)).

(** The timeout [h] of the resize listener fires after 250 ms. *)
Definition onTimeout (h : nat) (m : Manager) : Manager :=
  if bool_decide (h ∈ pendingTimeouts m) then
    let m :=
      mkManager (scrollTriggers m) (alive m) (created m) (refreshes m) (console m)
        (resizeTimer m) (pendingTimeouts m ∖ {[h]}) (timeouts m) in
    refreshScrollTriggers m
  else m.

(** The listener of [astro:before-swap]. *)
Definition onBeforeSwap (m : Manager) : Manager := killAllScrollTriggers m.

(** What can happen to the module: a call of one of its functions or one
    of its two global listeners. *)
Inductive Op : Type :=
| Create (id : string) (throws : bool)
| Kill (id : string)
| KillAll
| Refresh
| Resize
| TimeoutFires (h : nat)
| BeforeSwap.

Definition apply (isDev : bool) (m : Manager) (op : Op) : Manager :=
  match op with
  | Create id throws => snd (createManagedScrollTrigger isDev id throws m)
  | Kill id => killScrollTrigger id m
  | KillAll => killAllScrollTriggers m
  | Refresh => refreshScrollTriggers m
  | Resize => onResize m
  | TimeoutFires h => onTimeout h m
  | BeforeSwap => onBeforeSwap m
  end.

Definition applyAll (isDev : bool) (ops : list Op) (m : Manager) : Manager :=
  fold_left (apply isDev) ops m.

End ScrollTriggers.

(** ** sticker-animation-auto.ts *)

Module Auto.

Import JsNumber Dom Events.

Record AutoAnimationConfig := mkAutoConfig {
  duration : Q;
  easing : string;
  direction : Direction;
  shadowIntensity : Q
}.

(** The Newton-Raphson loop of [cubicBezier]: at most [iterations] turns,
    left early once the residual is below the tolerance. *)
Fixpoint newtonRaphson (iterations : nat) (ax bx cx t x : Q) : Q :=
  match iterations with
  | O => x
  | S i =>
      let currentX := ((ax * x + bx) * x + cx) * x in
      let currentSlope := (3 * ax * x + 2 * bx) * x + cx in
      if ltb (Qabs (currentX - t)) 0.001 then x
      else newtonRaphson i ax bx cx t (x - (currentX - t) / currentSlope)
  end.

(** Cubic bezier easing function. *)
Definition cubicBezier (x1 y1 x2 y2 t : Q) : Q :=
  (* Simplified cubic bezier calculation *)
  let cx := 3 * x1 in
  let bx := 3 * (x2 - x1) - cx in
  let ax := 1 - cx - bx in
  let cy := 3 * y1 in
  let by_ := 3 * (y2 - y1) - cy in
  let ay := 1 - cy - by_ in
  (* Newton-Raphson iteration *)
  let x := newtonRaphson 4 ax bx cx t t in
  ((ay * x + by_) * x + cy) * x.

(** [shadowProgress] of [calculateAutoAnimationValues]: the shadow appears
    faster. *)
Definition shadowProgress (progress : Q) : Q := Qmin (progress * 1.5) 1.

(** Calculate animation values for automatic peel. *)
Definition calculateAutoAnimationValues (size : Q) (direction : Direction)
  (progress shadowIntensity : Q) : PeelValues :=
  (* Progress from 0 (hidden) to 1 (fully revealed) *)
  let revealProgress := progress in
  let shadowProgress := shadowProgress progress in
  match direction with
  | Left =>
      let revealedWidth := size * revealProgress in
      let shadowWidth := Qmax 0 (revealedWidth - 20) * shadowProgress in
      {| bx := 0; by_ := 0; sx := -1; sy := 1; bs := "shadowL";
         bmx := revealedWidth; bmy := 0;
         bsw := shadowWidth; bsh := size; bsx := size - shadowWidth; bsy := 0;
         cw := or_else revealedWidth 1; ch := size; cx := 0; cy := 0;
         dw := Qmin (revealedWidth * 0.3) (size * 0.2); dh := size;
         dx := if ltb 10 revealedWidth then revealedWidth - 10 else -10000;
         dy := 0 |}
  | Right =>
      let revealedWidth := size * revealProgress in
      let shadowWidth := Qmax 0 (revealedWidth - 20) * shadowProgress in
      {| bx := 0; by_ := 0; sx := -1; sy := 1; bs := "shadowR";
         bmx := - revealedWidth; bmy := 0;
         bsw := shadowWidth; bsh := size; bsx := 0; bsy := 0;
         cw := or_else revealedWidth 1; ch := size;
         cx := size - revealedWidth; cy := 0;
         dw := Qmin (revealedWidth * 0.3) (size * 0.2); dh := size;
         dx := if ltb 10 revealedWidth then size - revealedWidth + 10 else -10000;
         dy := 0 |}
  | Top =>
      let revealedHeight := size * revealProgress in
      let shadowHeight := Qmax 0 (revealedHeight - 20) * shadowProgress in
      {| bx := 0; by_ := - size + revealedHeight; sx := 1; sy := -1;
         bs := "shadowT";
         bmx := 0; bmy := - size + revealedHeight;
         bsw := size; bsh := shadowHeight; bsx := 0; bsy := size - shadowHeight;
         cw := size; ch := size; cx := 0; cy := 0;
         dw := size; dh := Qmin (revealedHeight * 0.3) (size * 0.2);
         dx := 0; dy := revealedHeight - 10 |}
  | Bottom =>
      let revealedHeight := size * revealProgress in
      let shadowHeight := Qmax 0 (revealedHeight - 20) * shadowProgress in
      {| bx := 0; by_ := size - revealedHeight; sx := 1; sy := -1;
         bs := "shadowB";
         bmx := 0; bmy := size - revealedHeight;
         bsw := size; bsh := shadowHeight; bsx := 0; bsy := 0;
         cw := size; ch := size; cx := 0; cy := 0;
         dw := size; dh := Qmin (revealedHeight * 0.3) (size * 0.2);
         dx := 0; dy := size - revealedHeight + 10 |}
  end.

(** [progress] of [animate], from the elapsed time. *)
Definition progressAt (config : AutoAnimationConfig) (elapsed : Q) : Q :=
  Qmin (elapsed / duration config) 1.

(** [easedProgress] of [animate], from the elapsed time. *)
Definition easedProgressAt (config : AutoAnimationConfig) (elapsed : Q) : Q :=
  cubicBezier 0.23 1 0.32 1 (progressAt config elapsed).

(** The variables of one [createAutoAnimation] closure, with the document
    it draws on and the last handle that [requestAnimationFrame] gave out
    (handles are positive). *)
Record Driver := mkDriver {
  animationFrame : option nat;
  startTime : option Q;
  isAnimating : bool;
  frameHandles : nat;
  page : Document
}.

(** [animationFrame = requestAnimationFrame(animate)]. *)
Definition requestFrame (s : Driver) : Driver :=
  mkDriver (Some (S (frameHandles s))) (startTime s) (isAnimating s)
    (S (frameHandles s)) (page s).

(** The frame callback [animate]. *)
Definition animate (domStructure : DOMStructure) (size : Q)
  (config : AutoAnimationConfig) (currentTime : Q) (s : Driver) : Driver :=
  (* if (!startTime) startTime = currentTime *)
  let startTime :=
    match startTime s with
    | None => currentTime
    | Some t0 => if Qeq_bool t0 0 then currentTime else t0
    end in
  let elapsed := currentTime - startTime in
  let progress := progressAt config elapsed in
  (* Easing function (cubic-bezier approximation) *)
  let easedProgress := easedProgressAt config elapsed in
  (* Calculate peel values based on progress *)
  let peelValues :=
    calculateAutoAnimationValues size (direction config) easedProgress
      (shadowIntensity config) in
  (* Apply styles without transition (we're animating manually) *)
  let d := applyPeelStyles domStructure peelValues (CssText "all 0s") (page s) in
  let s := mkDriver (animationFrame s) (Some startTime) (isAnimating s)
             (frameHandles s) d in
  if ltb progress 1 then requestFrame s
  else
    (* Animation complete: add final drop shadow *)
    mkDriver (animationFrame s) (Some startTime) false (frameHandles s)
      (setStyle (container domStructure) "filter"
         (CssText "drop-shadow(0 2px 4px rgba(0, 0, 0, 0.2))") d).

Definition start (domStructure : DOMStructure) (size : Q)
  (config : AutoAnimationConfig) (s : Driver) : Driver :=
  if isAnimating s then s
  else
    (* Set initial state - sticker is completely hidden *)
    let initialValues :=
      calculateAutoAnimationValues size (direction config) 0
        (shadowIntensity config) in
    let d := applyPeelStyles domStructure initialValues (CssText "all 0s") (page s) in
    (* Start animation *)
    requestFrame (mkDriver (animationFrame s) None true (frameHandles s) d).

Definition stop (s : Driver) : Driver :=
  mkDriver None (startTime s) false (frameHandles s) (page s).

(** Create automatic peel animation: the state after the call; [stop] is
    what it returns. *)
Definition createAutoAnimation (domStructure : DOMStructure) (size : Q)
  (config : AutoAnimationConfig) (frameHandles : nat) (d : Document) : Driver :=
  start domStructure size config (mkDriver None None false frameHandles d).

End Auto.

(** ** The easing at binary64

    The eased progress of [animate] once more, on IEEE 754 binary64
    numbers instead of exact rationals, to evaluate it on concrete inputs
    with the rounding that JavaScript applies. *)

Module Binary64.

Local Open Scope float_scope.

(** [Math.min(a, b)]. *)
Definition min (a b : float) : float :=
  if is_nan a || is_nan b then nan
  else if a <? b then a
  else if b <? a then b
  else if get_sign a then a else b.

Fixpoint newtonRaphson (iterations : nat) (ax bx cx t x : float) : float :=
  match iterations with
  | O => x
  | S i =>
      let currentX := ((ax * x + bx) * x + cx) * x in
      let currentSlope := (3 * ax * x + 2 * bx) * x + cx in
      if abs (currentX - t) <? 0.001 then x
      else newtonRaphson i ax bx cx t (x - (currentX - t) / currentSlope)
  end.

Definition cubicBezier (x1 y1 x2 y2 t : float) : float :=
  let cx := 3 * x1 in
  let bx := 3 * (x2 - x1) - cx in
  let ax := 1 - cx - bx in
  let cy := 3 * y1 in
  let by_ := 3 * (y2 - y1) - cy in
  let ay := 1 - cy - by_ in
  let x := newtonRaphson 4 ax bx cx t t in
  ((ay * x + by_) * x + cy) * x.

Definition easedProgressAt (duration elapsed : float) : float :=
  cubicBezier 0.23 1 0.32 1 (min (elapsed / duration) 1).

End Binary64.

(** ** sticker-animation.ts *)

Module Sticker.

Import JsNumber Dom Browser Events Styles.

(** Configuration options for the sticker animation; [None] is an absent
    property.  A property that is present holds a value of its type or
    [undefined]: [Undefined] for a number, [Some None] for the easing.
    For [observerOptions], absent and [undefined] spread alike.  A
    [direction] is taken as defined when it is present: the handlers
    assign a computed direction before they read one, so that a
    [direction] of [undefined] would show in the first [direction] of the
    state only, which no statement below is about. *)
Record StickerAnimationConfig := mkConfig {
  cfg_duration : option Numeric;
  cfg_easing : option (option string);
  cfg_direction : option Direction;
  cfg_delay : option Numeric;
  cfg_shadowIntensity : option Numeric;
  cfg_perspective : option Numeric;
  cfg_observerOptions : option ObserverOptions
}.

(** [Required<StickerAnimationConfig>], with the values that the merge can
    leave in it: every key is present, but a number may be [undefined],
    NaN or an infinity, and the easing may be [undefined] ([None]). *)
Record RequiredConfig := mkRequiredConfig {
  duration : Numeric;
  easing : option string;
  direction : Direction;
  delay : Numeric;
  shadowIntensity : Numeric;
  perspective : Numeric;
  observerOptions : ObserverOptions
}.

Inductive AnimationPhase := idle | peeling | stuck | paused.

Record Transform3D := mkTransform3D {
  translateX : Q;
  translateY : Q;
  rotateY : Q;
  scaleX : Q;
  scaleY : Q;
  clipPath : string
}.

Record AnimationState := mkAnimationState {
  phase : AnimationPhase;
  progress : Q;
  state_direction : Direction;
  startTime : Q;
  currentTransform : Transform3D
}.

(** Default configuration values. *)
Definition DEFAULT_CONFIG : RequiredConfig :=
  {| duration := 800;
     easing := Some "cubic-bezier(0.23, 1, 0.32, 1)";
     direction := Left;
     delay := 0;
     shadowIntensity := 0.7;
     perspective := 800;
     observerOptions :=
       {| threshold := Some (OneThreshold 0.2);
          rootMargin := Some (Some "0px 0px -100px 0px") |} |}.

(** The value passed as [targetElement]: TypeScript types are gone at run
    time. *)
Inductive JsValue :=
| JsNull
| JsUndefined
| JsPrimitive            (* a number, string or boolean *)
| JsObject (ref : nat).  (* an object, maybe a DOM node *)

(** The closures pushed on [cleanupFunctions]. *)
Inductive Cleanup :=
| CleanupStyles (injected : bool)   (* what injectGlobalStyles returned *)
| CleanupEvents                     (* what setupEventHandlers returned *)
| CleanupObserver                   (* observer.disconnect() *)
| CleanupNothing.                   (* the empty one pushed last *)

(** The variables that the closures of one [useStickerAnimation] call
    share. *)
Record Instance := mkInstance {
  finalConfig : RequiredConfig;
  targetElement : nat;
  wrapperElement : nat;
  elementSize : Size;
  stickerDOM : DOMStructure;
  cleanupFunctions : list Cleanup;
  animationState : AnimationState;
  currentDirection : Direction;
  savePos : option PeelValues;
  elementPos : option Position;
  hasTriggered : bool
}.

Record State := mkState { world : World; instance : Instance }.

Definition set_world (w : World) (st : State) : State := mkState w (instance st).

Definition onWorld (f : World -> World) (st : State) : State :=
  mkState (f (world st)) (instance st).

Definition set_animationState (v : AnimationState) (i : Instance) : Instance :=
  mkInstance (finalConfig i) (targetElement i) (wrapperElement i) (elementSize i)
    (stickerDOM i) (cleanupFunctions i) v (currentDirection i) (savePos i)
    (elementPos i) (hasTriggered i).

Definition set_currentDirection (v : Direction) (i : Instance) : Instance :=
  mkInstance (finalConfig i) (targetElement i) (wrapperElement i) (elementSize i)
    (stickerDOM i) (cleanupFunctions i) (animationState i) v (savePos i)
    (elementPos i) (hasTriggered i).

Definition set_savePos (v : option PeelValues) (i : Instance) : Instance :=
  mkInstance (finalConfig i) (targetElement i) (wrapperElement i) (elementSize i)
    (stickerDOM i) (cleanupFunctions i) (animationState i) (currentDirection i) v
    (elementPos i) (hasTriggered i).

Definition set_elementPos (v : option Position) (i : Instance) : Instance :=
  mkInstance (finalConfig i) (targetElement i) (wrapperElement i) (elementSize i)
    (stickerDOM i) (cleanupFunctions i) (animationState i) (currentDirection i)
    (savePos i) v (hasTriggered i).

Definition set_hasTriggered (v : bool) (i : Instance) : Instance :=
  mkInstance (finalConfig i) (targetElement i) (wrapperElement i) (elementSize i)
    (stickerDOM i) (cleanupFunctions i) (animationState i) (currentDirection i)
    (savePos i) (elementPos i) v.

Definition onInstance (f : Instance -> Instance) (st : State) : State :=
  mkState (world st) (f (instance st)).

Definition set_phase (v : AnimationPhase) (a : AnimationState) : AnimationState :=
  mkAnimationState v (progress a) (state_direction a) (startTime a)
    (currentTransform a).

Definition set_progress (v : Q) (a : AnimationState) : AnimationState :=
  mkAnimationState (phase a) v (state_direction a) (startTime a)
    (currentTransform a).

Definition set_state_direction (v : Direction) (a : AnimationState)
  : AnimationState :=
  mkAnimationState (phase a) (progress a) v (startTime a) (currentTransform a).

Definition set_startTime (v : Q) (a : AnimationState) : AnimationState :=
  mkAnimationState (phase a) (progress a) (state_direction a) v
    (currentTransform a).

Definition onAnimationState (f : AnimationState -> AnimationState) (st : State)
  : State :=
  onInstance (fun i => set_animationState (f (animationState i)) i) st.

(** [{ ...DEFAULT_CONFIG, ...config, observerOptions: { ... } }]: a key
    that is present replaces the default, also when its value is
    [undefined]. *)
Definition mergeConfig (config : option StickerAnimationConfig) : RequiredConfig :=
  let get {A} (f : StickerAnimationConfig -> option A) (dflt : A) : A :=
    match config with
    | Some c => default dflt (f c)
    | None => dflt
    end in
  let given := get cfg_observerOptions (mkObserverOptions None None) in
  {| duration := get cfg_duration (duration DEFAULT_CONFIG);
     easing := get cfg_easing (easing DEFAULT_CONFIG);
     direction := get cfg_direction (direction DEFAULT_CONFIG);
     delay := get cfg_delay (delay DEFAULT_CONFIG);
     shadowIntensity := get cfg_shadowIntensity (shadowIntensity DEFAULT_CONFIG);
     perspective := get cfg_perspective (perspective DEFAULT_CONFIG);
     observerOptions :=
       {| threshold :=
            match threshold given with
            | Some v => Some v
            | None => threshold (observerOptions DEFAULT_CONFIG)
            end;
          rootMargin :=
            match rootMargin given with
            | Some v => Some v
            | None => rootMargin (observerOptions DEFAULT_CONFIG)
            end |} |}.

Definition set_duration (v : Numeric) (c : RequiredConfig) : RequiredConfig :=
  mkRequiredConfig v (easing c) (direction c) (delay c) (shadowIntensity c)
    (perspective c) (observerOptions c).

Definition set_shadowIntensity (v : Numeric) (c : RequiredConfig) : RequiredConfig :=
  mkRequiredConfig (duration c) (easing c) (direction c) (delay c) v
    (perspective c) (observerOptions c).

(** [!targetElement || !(targetElement instanceof HTMLElement)]. *)
Definition invalidTarget (targetElement : JsValue) (d : Document) : bool :=
  match targetElement with
  | JsObject ref => negb (bool_decide (ref ∈ htmlElements d))
  | _ => true
  end.

(** The two soft checks of the configuration, with their warnings. *)
Definition checkDuration (cw : RequiredConfig * World) : RequiredConfig * World :=
  let '(finalConfig, w) := cw in
  if numeric_leb (duration finalConfig) 0
  then (set_duration (duration DEFAULT_CONFIG) finalConfig,
        consoleWarn "useStickerAnimation: duration must be positive, using default" w)
  else (finalConfig, w).

Definition checkShadowIntensity (cw : RequiredConfig * World)
  : RequiredConfig * World :=
  let '(finalConfig, w) := cw in
  if numeric_ltb (shadowIntensity finalConfig) 0
     || numeric_ltb 1 (shadowIntensity finalConfig)
  then (set_shadowIntensity (shadowIntensity DEFAULT_CONFIG) finalConfig,
        consoleWarn
          "useStickerAnimation: shadowIntensity must be between 0 and 1, using default"
          w)
  else (finalConfig, w).

Definition initialAnimationState (finalConfig : RequiredConfig) : AnimationState :=
  {| phase := idle;
     progress := 0;
     state_direction := direction finalConfig;
     startTime := 0;
     currentTransform :=
       {| translateX := 0; translateY := 0; rotateY := 0; scaleX := 1;
          scaleY := 1; clipPath := "polygon(0 0, 100% 0, 100% 100%, 0 100%)" |} |}.

(** *** Event handlers *)

(** The three calls of [toString()] in [handleMouseEnter] go through: none
    of the three configured numbers is [undefined]. *)
Definition stringifiable (finalConfig : RequiredConfig) : bool :=
  hasToString (shadowIntensity finalConfig)
  && hasToString (perspective finalConfig)
  && hasToString (duration finalConfig).

(** The state that comes back is the one the handler left behind: when a
    [toString()] throws its TypeError, the variables and the classes are
    set, and the styles and the phase are not. *)
Definition handleMouseEnter (env : Env) (e : MouseEvent) (st : State) : State :=
  let i := instance st in
  let w := world st in
  let rect := getBoundingClientRect env (document w) (container (stickerDOM i)) in
  let elementPos :=
    {| pos_x := rect_left rect + pageXOffset w;
       pos_y := rect_top rect + pageYOffset w |} in
  (* Get direction and initial peel values *)
  let sizeQ := Qmin (width (elementSize i)) (height (elementSize i)) / 4 in
  let currentDirection := getDirection e elementPos sizeQ in
  let savePos := calculatePeelValues e elementPos (elementSize i) currentDirection in
  (* Update shadow classes *)
  let shadowClass := String.append "sticker-shadow " (bs savePos) in
  let d := setClassName (backShadow (stickerDOM i)) shadowClass (document w) in
  let d := setClassName (depth (stickerDOM i)) shadowClass d in
  if stringifiable (finalConfig i) then
    (* Update CSS variables for dynamic styling *)
    let d := updateCSSVariables (container (stickerDOM i))
               [("shadow-intensity", CssNumber (shadowIntensity (finalConfig i)));
                ("perspective", CssNumber (perspective (finalConfig i)));
                ("duration", CssNumber (duration (finalConfig i)))] d in
    (* Apply initial styles without transition *)
    let d := applyPeelStyles (stickerDOM i) savePos (CssText "all 0s") d in
    (* Update state *)
    let a := animationState i in
    let a := set_phase peeling a in
    let a := set_state_direction currentDirection a in
    let a := set_startTime (dateNow w) a in
    mkState (set_document d w)
      (set_animationState a
         (set_savePos (Some savePos)
            (set_currentDirection currentDirection
               (set_elementPos (Some elementPos) i))))
  else
    mkState (set_document d w)
      (set_savePos (Some savePos)
         (set_currentDirection currentDirection
            (set_elementPos (Some elementPos) i))).

(** [elementPos!] in [handleMouseLeave]: the position is set whenever
    [savePos] is; the default stands for a null position. *)
Definition handleMouseLeave (e : MouseEvent) (st : State) : State :=
  let i := instance st in
  let w := world st in
  match savePos i with
  | None => st
  | Some _ =>
      (* Apply transition for smooth return *)
      let transition :=
        CssTransition "all" (duration (finalConfig i)) (easing (finalConfig i)) in
      (* Reset to initial position *)
      let resetValues :=
        calculatePeelValues e (default (mkPosition 0 0) (elementPos i))
          (elementSize i) (currentDirection i) in
      let values :=
        {| bx := bx resetValues; by_ := by_ resetValues;
           sx := sx resetValues; sy := sy resetValues; bs := bs resetValues;
           bmx := match currentDirection i with
                  | Left => - width (elementSize i)
                  | Right => width (elementSize i)
                  | _ => 0
                  end;
           bmy := match currentDirection i with
                  | Top => - height (elementSize i)
                  | Bottom => height (elementSize i)
                  | _ => 0
                  end;
           bsw := bsw resetValues; bsh := bsh resetValues;
           bsx := bsx resetValues; bsy := bsy resetValues;
           cw := width (elementSize i);
           ch := height (elementSize i);
           cx := 0;
           cy := 0;
           dw := dw resetValues; dh := dh resetValues;
           dx := -10000;
           dy := -10000 |} in
      let d := applyPeelStyles (stickerDOM i) values transition (document w) in
      (* Update state *)
      let a := set_progress 1 (set_phase stuck (animationState i)) in
      (* Add drop shadow effect after animation *)
      let w := setTimeout DropShadowFilter (duration (finalConfig i))
                 (set_document d w) in
      mkState w (set_animationState a (set_savePos None i))
  end.

(** [!savePos || !elementPos] *)
Definition noSession (i : Instance) : bool :=
  match savePos i, elementPos i with
  | Some _, Some _ => false
  | _, _ => true
  end.

(** When [handleMouseEnter] throws, [handleMouseMove] ends with it. *)
Definition handleMouseMove (env : Env) (e : MouseEvent) (st : State) : State :=
  if noSession (instance st) && negb (stringifiable (finalConfig (instance st)))
  then handleMouseEnter env e st
  else
  let st :=
    match savePos (instance st), elementPos (instance st) with
    | Some _, Some _ => st
    | _, _ =>
        let st := handleMouseEnter env e st in
        (* Setup document mouseup listener for touch-like behavior *)
        onWorld (fun w => addEventListener (documentNode (document w)) "mouseup"
                            (HandleMouseUp e) w) st
    end in
  let i := instance st in
  let w := world st in
  match elementPos i with
  | None => st
  | Some pos =>
      (* Calculate new peel values based on mouse position *)
      let newValues := calculatePeelValues e pos (elementSize i) (currentDirection i) in
      let d := applyPeelStyles (stickerDOM i) newValues (CssText "all 0s") (document w) in
      (* Update progress *)
      let horizontal :=
        match currentDirection i with Left | Right => true | _ => false end in
      let maxDistance :=
        if horizontal then width (elementSize i) else height (elementSize i) in
      let currentDistance :=
        if horizontal then Qabs (bmx newValues) else Qabs (bmy newValues) in
      mkState (set_document d w)
        (set_animationState
           (set_progress (1 - currentDistance / maxDistance) (animationState i)) i)
  end.

(** [handleMouseUp] of [handleMouseMove], with the event [e] it closed
    over. *)
Definition handleMouseUp (e : MouseEvent) (st : State) : State :=
  let st := onWorld (fun w => removeEventListener (documentNode (document w))
                                "mouseup" (HandleMouseUp e) w) st in
  handleMouseLeave e st.

(** The touch handlers of [setupEventHandlers], which turn a touch into a
    mouse event.  Reading [e.touches[0]] of an empty list throws inside
    the listener before anything is done. *)
Definition handleTouchStart (env : Env) (touches : list Touch) (st : State) : State :=
  match touches with
  | [] => st
  | touch :: _ =>
      handleMouseEnter env (mkMouseEvent (touch_pageX touch) (touch_pageY touch)) st
  end.

Definition handleTouchEnd (st : State) : State :=
  handleMouseLeave newMouseEvent st.

Definition handleTouchMove (env : Env) (touches : list Touch) (st : State) : State :=
  match touches with
  | [] => st
  | touch :: _ =>
      handleMouseMove env (mkMouseEvent (touch_pageX touch) (touch_pageY touch)) st
  end.

(** *** Visibility trigger *)

Definition showElement (st : State) : State :=
  let container := container (stickerDOM (instance st)) in
  onWorld (fun w => unobserve container
                      (onDocument (setStyle container "opacity" (CssText "1")) w)) st.

(** The body of the [entries.forEach] callback. *)
Definition onEntry (st : State) (entry : IntersectionObserverEntry) : State :=
  if isIntersecting entry && negb (hasTriggered (instance st)) then
    let st := onInstance (set_hasTriggered true) st in
    (* Apply delay if configured *)
    if numeric_ltb 0 (delay (finalConfig (instance st)))
    then onWorld (setTimeout ShowElement (delay (finalConfig (instance st)))) st
    else showElement st
  else st.

(** The callback of the IntersectionObserver. *)
Definition observerCallback (entries : list IntersectionObserverEntry)
  (st : State) : State :=
  fold_left onEntry entries st.

(** *** Control methods *)

Definition runCleanup (st : State) (cleanup : Cleanup) : State :=
  match cleanup with
  | CleanupStyles injected => onWorld (onDocument (cleanupStyles injected)) st
  | CleanupEvents => onWorld (cleanupEvents (stickerDOM (instance st))) st
  | CleanupObserver => onWorld disconnect st
  | CleanupNothing => st
  end.

(** [n.style[prop] = '']: the declaration goes away. *)
Definition clearStyle (n : nat) (prop : string) (d : Document) : Document :=
  set_styleOf (<[ n := delete prop (inlineStyle d n) ]> (styleOf d)) d.

(** The insertion that puts the target back is valid: by the test, the
    wrapper is a child of [parent], and [parent] is not the document, for
    construction can put a wrapper only where an element may go. *)
Definition destroy (st : State) : State :=
  let i := instance st in
  (* Run all cleanup functions *)
  let st := fold_left runCleanup (cleanupFunctions i) st in
  (* Remove sticker DOM *)
  let st := onWorld (onDocument (remove (container (stickerDOM i)))) st in
  (* Restore original element *)
  let st := onWorld (onDocument (clearStyle (targetElement i) "display")) st in
  (* Restore original DOM structure *)
  let d := document (world st) in
  let st :=
    match parentNode d (wrapperElement i) with
    | Some parent =>
        if bool_decide (parentNode d (targetElement i) = Some (wrapperElement i))
        then onWorld (onDocument (fun d =>
               remove (wrapperElement i)
                 (insert parent (targetElement i) (wrapperElement i) d))) st
        else st
    | None => st
    end in
  (* Reset state *)
  onAnimationState (fun a => set_progress 0 (set_phase idle a)) st.

Definition reset (st : State) : State :=
  onAnimationState
    (fun a =>
       {| phase := idle;
          progress := 0;
          state_direction := state_direction a;
          startTime := 0;
          currentTransform :=
            {| translateX := 0; translateY := 0; rotateY := 0; scaleX := 1;
               scaleY := 1;
               clipPath := "polygon(0 0, 100% 0, 100% 100%, 0 100%)" |} |}) st.

Definition trigger (st : State) : State :=
  match phase (animationState (instance st)) with
  | idle | stuck =>
      onAnimationState
        (fun a => set_startTime (dateNow (world st)) (set_phase peeling a)) st
  | _ => st
  end.

(** *** Construction *)

(** Main hook for creating sticker peel animation.  The world that comes
    back is the one the call left behind, whether it returned or threw. *)
Definition useStickerAnimation (env : Env) (targetElement : JsValue)
  (config : option StickerAnimationConfig) (w : World)
  : World * Completion Instance :=
  (* Merge configuration with defaults *)
  let finalConfig := mergeConfig config in
  (* Validate configuration *)
  match targetElement with
  | JsObject target =>
      if invalidTarget targetElement (document w)
      then (w, Thrown (Error
                 "useStickerAnimation: targetElement must be a valid HTMLElement"))
      else
        let '(finalConfig, w) := checkDuration (finalConfig, w) in
        let '(finalConfig, w) := checkShadowIntensity (finalConfig, w) in
        (* Initialize animation state *)
        let animationState := initialAnimationState finalConfig in
        (* Inject global styles *)
        let '(injected, d) := injectGlobalStyles (document w) in
        let cleanupFunctions := [CleanupStyles injected] in
        (* Create wrapper element *)
        let '(wrapperElement, d) := createElement "div" d in
        let d := setStyle wrapperElement "position" (CssText "relative") d in
        let d := setStyle wrapperElement "display" (CssText "inline-block") d in
        (* Wrap the target element *)
        match match parentNode d target with
              | Some parent => insertBefore parent wrapperElement target d
              | None => Returned d
              end with
        | Thrown e => (set_document d w, Thrown e)
        | Returned d =>
        let d := appendChild wrapperElement target d in
        (* Get element size and create DOM structure *)
        let elementSize :=
          getElementSize (getBoundingClientRect env d target)
            (getComputedStyle env d target) in
        let '(domStructure, d) :=
          createStickerDOM target (width elementSize) (height elementSize) d in
        (* Insert the sticker DOM structure *)
        match insertStickerDOM wrapperElement domStructure target d with
        | (d, Thrown e) => (set_document d w, Thrown e)
        | (d, Returned _) =>
        let w := set_document d w in
        (* Setup event handlers *)
        let w := setupEventHandlers domStructure w in
        let cleanupFunctions := cleanupFunctions ++ [CleanupEvents] in
        (* Setup Intersection Observer for scroll trigger *)
        match (if intersectionObserverInWindow env
               then newIntersectionObserver env (observerOptions finalConfig)
               else None) with
        | Some e => (w, Thrown e)
        | None =>
        let '(w, cleanupFunctions) :=
          if intersectionObserverInWindow env then
            (* Start observing *)
            let w := observe (container domStructure) w in
            (* Initially hide the sticker *)
            let w := onDocument
                       (setStyle (container domStructure) "opacity" (CssText "0")) w in
            let w := onDocument
                       (setStyle (container domStructure) "transition"
                          (CssTransition "opacity" (duration finalConfig)
                             (easing finalConfig))) w in
            (w, cleanupFunctions ++ [CleanupObserver])
          else (w, cleanupFunctions) in
        (* Add cleanup for potential future event listeners *)
        let cleanupFunctions := cleanupFunctions ++ [CleanupNothing] in
        (w, Returned
              {| finalConfig := finalConfig;
                 targetElement := target;
                 wrapperElement := wrapperElement;
                 elementSize := elementSize;
                 stickerDOM := domStructure;
                 cleanupFunctions := cleanupFunctions;
                 animationState := animationState;
                 currentDirection := direction finalConfig;
                 savePos := None;
                 elementPos := None;
                 hasTriggered := false |})
        end end end
  | _ => (w, Thrown (Error
               "useStickerAnimation: targetElement must be a valid HTMLElement"))
  end.

(** *** The instance as a state machine *)

(** What a dispatched DOM event carries. *)
Inductive DomEvent :=
| MouseEv (e : MouseEvent)
| TouchEv (touches : list Touch).

(** What can happen to an instance: the browser dispatches an event to a
    target, delivers intersection entries, fires a pending timeout (by its
    position in the queue), time passes, or the host calls a control
    method. *)
Inductive Event :=
| Dispatch (target : nat) (type : string) (ev : DomEvent)
| Intersection (entries : list IntersectionObserverEntry)
| Timeout (k : nat)
| ClockTick (now : Q)
| CallDestroy
| CallReset
| CallTrigger.

Definition callListener (env : Env) (ev : DomEvent) (st : State) (l : Listener)
  : State :=
  match l, ev with
  | HandleMouseEnter, MouseEv e => handleMouseEnter env e st
  | HandleMouseLeave, MouseEv e => handleMouseLeave e st
  | HandleMouseMove, MouseEv e => handleMouseMove env e st
  | HandleTouchStart, TouchEv touches => handleTouchStart env touches st
  | HandleTouchEnd, TouchEv _ => handleTouchEnd st
  | HandleTouchMove, TouchEv touches => handleTouchMove env touches st
  | HandleMouseUp e, MouseEv _ => handleMouseUp e st
  | _, _ => st
  end.

Definition runTask (task : TimerTask) (st : State) : State :=
  match task with
  | ShowElement => showElement st
  | DropShadowFilter =>
      onWorld (onDocument
                 (setStyle (container (stickerDOM (instance st))) "filter"
                    (CssText "drop-shadow(0 2px 4px rgba(0, 0, 0, 0.2))"))) st
  end.

Definition dropNth {A} (k : nat) (l : list A) : list A :=
  firstn k l ++ skipn (S k) l.

Definition step (env : Env) (st : State) (ev : Event) : State :=
  match ev with
  | Dispatch target type ev =>
      (* the listeners registered for this target and type when the
         dispatch starts *)
      let called :=
        List.filter
          (fun r => Nat.eqb (fst (fst r)) target && String.eqb (snd (fst r)) type)
          (listeners (world st)) in
      fold_left (callListener env ev) (List.map snd called) st
  | Intersection entries =>
      (* entries are delivered while the observer has a target *)
      match observed (world st) with
      | [] => st
      | _ :: _ => observerCallback entries st
      end
  | Timeout k =>
      match nth_error (timers (world st)) k with
      | Some (_, task) =>
          runTask task (onWorld (fun w => set_timers (dropNth k (timers w)) w) st)
      | None => st
      end
  | ClockTick now => onWorld (set_dateNow now) st
  | CallDestroy => destroy st
  | CallReset => reset st
  | CallTrigger => trigger st
  end.

Definition run (env : Env) (evs : list Event) (st : State) : State :=
  fold_left (step env) evs st.

End Sticker.

(** ** A page to run the engine on *)

Module Sample.

Import JsNumber Dom Browser Events Sticker.

(** The page [<html><head/><body><div/><div class=card><img/></div><p/>
    </body></html>], references 0 (the document) to 7, and a detached
    [<div>], reference 8.  The card, reference 5, has no inline style. *)
Definition page : Document :=
  {| nextNode := 9;
     documentNode := 0;
     documentHead := 2;
     htmlElements := list_to_set [1; 2; 3; 4; 5; 6; 7; 8]%nat;
     tagOf := list_to_map
                [(1, "html"); (2, "head"); (3, "body"); (4, "div"); (5, "div");
                 (6, "p"); (7, "img"); (8, "div")]%nat;
     idOf := list_to_map [(4%nat, "header")];
     classOf := list_to_map [(5%nat, "card")];
     textOf := ∅;
     parentOf := list_to_map [(1, 0); (2, 1); (3, 1); (4, 3); (5, 3); (6, 3); (7, 5)]%nat;
     childrenOf := list_to_map
                     [(0, [1]); (1, [2; 3]); (3, [4; 5; 6]); (5, [7])]%nat;
     styleOf := list_to_map
                  [(4%nat, {[ "display" := CssText "block" ]})] |}.

(** The margins that the browser of the example takes: up to four
    lengths, each an optional minus sign, digits with an optional
    fraction, and [px] or [%], with spaces between them. *)
Definition isDigit (c : Ascii.ascii) : bool :=
  let n := Ascii.nat_of_ascii c in
  ((48 <=? n) && (n <=? 57))%nat.

Fixpoint skipDigits (s : string) : string :=
  match s with
  | String c rest => if isDigit c then skipDigits rest else s
  | EmptyString => s
  end.

Definition isChar (code : nat) (c : Ascii.ascii) : bool :=
  Nat.eqb (Ascii.nat_of_ascii c) code.

Definition isLength (token : string) : bool :=
  let unsigned :=
    match token with
    | String c rest => if isChar 45 c then rest else token
    | EmptyString => token
    end in
  match unsigned with
  | String c _ =>
      isDigit c &&
      let rest := skipDigits unsigned in
      let rest :=
        match rest with
        | String c1 (String c2 rest') =>
            if isChar 46 c1 && isDigit c2 then skipDigits rest' else rest
        | _ => rest
        end in
      (String.eqb rest "px" || String.eqb rest "%")
  | EmptyString => false
  end.

Fixpoint words (s word : string) : list string :=
  match s with
  | EmptyString => if String.eqb word "" then [] else [word]
  | String c rest =>
      if isChar 32 c
      then (if String.eqb word "" then words rest "" else word :: words rest "")
      else words rest (String.append word (String c ""))
  end.

Definition parsesAsMargin (margin : string) : bool :=
  (length (words margin "") <=? 4)%nat && forallb isLength (words margin "").

(** Every element is laid out at (100, 50) as a 420x420 box with a padding
    of 10 on each side; the browser has IntersectionObserver. *)
Definition env : Env :=
  {| intersectionObserverInWindow := true;
     Browser.parsesAsMargin := parsesAsMargin;
     getBoundingClientRect := fun _ _ => mkDOMRect 100 50 420 420;
     getComputedStyle := fun _ _ => mkComputedBox 10 10 10 10 0 0 0 0 |}.

Definition world : World :=
  {| document := page;
     listeners := [];
     observed := [];
     timers := [];
     warnings := [];
     dateNow := 1000;
     pageXOffset := 0;
     pageYOffset := 20 |}.

(** The state after [useStickerAnimation(target, config)]; a throw leaves
    no instance, and [None] stands for it. *)
Definition construct (target : JsValue) (config : option StickerAnimationConfig)
  : option State :=
  match useStickerAnimation env target config world with
  | (w, Returned i) => Some (mkState w i)
  | (_, Thrown _) => None
  end.

End Sample.

(** ** Deciding the equality of states

    Two states of the model can be compared by computation, which is how
    the statements about the example page are checked. *)

Module Decide.

Import JsNumber Dom Browser Events Sticker.

#[global] Instance Q_eq_dec : EqDecision Q.
Proof. solve_decision. Defined.

#[global] Instance Numeric_eq_dec : EqDecision Numeric.
Proof. solve_decision. Defined.

#[global] Instance Exception_eq_dec : EqDecision Exception.
Proof. solve_decision. Defined.

#[global] Instance Thresholds_eq_dec : EqDecision Thresholds.
Proof. solve_decision. Defined.

#[global] Instance CssValue_eq_dec : EqDecision CssValue.
Proof. solve_decision. Defined.

#[global] Instance Document_eq_dec : EqDecision Document.
Proof. solve_decision. Defined.

#[global] Instance MouseEvent_eq_dec : EqDecision MouseEvent.
Proof. solve_decision. Defined.

#[global] Instance Listener_eq_dec : EqDecision Listener.
Proof. solve_decision. Defined.

#[global] Instance TimerTask_eq_dec : EqDecision TimerTask.
Proof. solve_decision. Defined.

#[global] Instance World_eq_dec : EqDecision World.
Proof. solve_decision. Defined.

#[global] Instance Direction_eq_dec : EqDecision Direction.
Proof. solve_decision. Defined.

#[global] Instance Position_eq_dec : EqDecision Position.
Proof. solve_decision. Defined.

#[global] Instance PeelValues_eq_dec : EqDecision PeelValues.
Proof. solve_decision. Defined.

#[global] Instance Size_eq_dec : EqDecision Size.
Proof. solve_decision. Defined.

#[global] Instance DOMStructure_eq_dec : EqDecision DOMStructure.
Proof. solve_decision. Defined.

#[global] Instance ObserverOptions_eq_dec : EqDecision ObserverOptions.
Proof. solve_decision. Defined.

#[global] Instance RequiredConfig_eq_dec : EqDecision RequiredConfig.
Proof. solve_decision. Defined.

#[global] Instance AnimationPhase_eq_dec : EqDecision AnimationPhase.
Proof. solve_decision. Defined.

#[global] Instance Transform3D_eq_dec : EqDecision Transform3D.
Proof. solve_decision. Defined.

#[global] Instance AnimationState_eq_dec : EqDecision AnimationState.
Proof. solve_decision. Defined.

#[global] Instance Cleanup_eq_dec : EqDecision Cleanup.
Proof. solve_decision. Defined.

#[global] Instance Instance_eq_dec : EqDecision Instance.
Proof. solve_decision. Defined.

#[global] Instance State_eq_dec : EqDecision State.
Proof. solve_decision. Defined.

End Decide.

(** ** The vocabulary of the statements *)

Import JsNumber Dom Browser Events Styles Sticker.

(** The pointer at offset [(ox, oy)] from the element's corner [pos]. *)
Definition pointerAt (pos : Position) (ox oy : Q) : MouseEvent :=
  mkMouseEvent (pos_x pos + ox) (pos_y pos + oy).

(** The layers that [applyPeelStyles] writes are six different elements. *)
Definition distinctLayers (s : DOMStructure) : Prop :=
  NoDup [mask s; move s; back s; backImg s; backShadow s; depth s].

(** The registrations that [setupEventHandlers] makes on the container. *)
Definition containerListeners (c : nat) : list (nat * string * Listener) :=
  [(c, "mouseenter", HandleMouseEnter); (c, "mouseleave", HandleMouseLeave);
   (c, "mousemove", HandleMouseMove); (c, "touchstart", HandleTouchStart);
   (c, "touchend", HandleTouchEnd); (c, "touchmove", HandleTouchMove)].

(** The two messages of [console.warn]. *)
Definition durationWarning : string :=
  "useStickerAnimation: duration must be positive, using default".

Definition shadowIntensityWarning : string :=
  "useStickerAnimation: shadowIntensity must be between 0 and 1, using default".

(** A pointer session and a visibility trigger on the container (reference
    11) of the instance built on the card of the example page. *)
Definition exampleSession : list Event :=
  [Dispatch 11 "mouseenter" (MouseEv (mkMouseEvent 150 120));
   Dispatch 11 "mousemove" (MouseEv (mkMouseEvent 260 130));
   Intersection [mkEntry true 11];
   ClockTick 1400;
   Dispatch 11 "mouseleave" (MouseEv (mkMouseEvent 520 130));
   Dispatch 11 "touchmove" (TouchEv [mkTouch 200 200])].

(** The instance hides [target] inside its wrapper. *)
Definition wrapped (target : nat) (st : State) : Prop :=
  parentNode (document (world st)) target = Some (wrapperElement (instance st)) /\
  getStyle (document (world st)) target "display" = CssText "none" /\
  isConnected (document (world st)) (container (stickerDOM (instance st))) = true.

(** The state [st] shows the page [before] again: [target] has its parent
    and its inline display, its parent has its children in their order,
    every node of [before] has its parent, children and inline style, and
    the document tree is that of [before]; the animation is idle. *)
Definition restored (target : nat) (before : Document) (st : State) : Prop :=
  let after := document (world st) in
  parentNode after target = parentNode before target /\
  getStyle after target "display" = getStyle before target "display" /\
  match parentNode before target with
  | Some p => childNodes after p = childNodes before p
  | None => False
  end /\
  Forall (fun n => parentNode after n = parentNode before n /\
                   childNodes after n = childNodes before n /\
                   inlineStyle after n = inlineStyle before n)
    (seq 0 (nextNode before)) /\
  treeOrder (nextNode after) after (documentNode after)
  = treeOrder (nextNode before) before (documentNode before) /\
  phase (animationState (instance st)) = idle.

(** Nothing of the instance is registered with the browser any more. *)
Definition released (st : State) : Prop :=
  listeners (world st) = [] /\ observed (world st) = [].

(** [d'] has the document node of [d] and the same [opacity] on every
    node. *)
Definition docQuiet (d d' : Document) : Prop :=
  documentNode d' = documentNode d /\
  forall n, getStyle d' n "opacity" = getStyle d n "opacity".

(** A listener that [handleMouseMove] put on the document. *)
Definition isMouseUp (dn : nat) (r : nat * string * Listener) : Prop :=
  exists e, r = (dn, "mouseup", HandleMouseUp e).

(** [st'] differs from [st] in nothing that the visibility trigger reads
    or writes: the trigger flag, the layers and the configuration are the
    same, no [opacity] changed, no [showElement] timeout and no observed
    target was added, and the only new listeners are mouseup listeners on
    the document. *)
Definition quiet (st st' : State) : Prop :=
  hasTriggered (instance st') = hasTriggered (instance st) /\
  stickerDOM (instance st') = stickerDOM (instance st) /\
  finalConfig (instance st') = finalConfig (instance st) /\
  docQuiet (document (world st)) (document (world st')) /\
  (forall dl, In (dl, ShowElement) (timers (world st')) ->
              In (dl, ShowElement) (timers (world st))) /\
  (forall n, In n (observed (world st')) -> In n (observed (world st))) /\
  (forall r, In r (listeners (world st')) ->
             In r (listeners (world st)) \/
             isMouseUp (documentNode (document (world st))) r).

(** What [onEntry] does the one time it passes its guard. *)
Definition fire (st : State) : State :=
  let st := onInstance (set_hasTriggered true) st in
  if numeric_ltb 0 (delay (finalConfig (instance st)))
  then onWorld (setTimeout ShowElement (delay (finalConfig (instance st)))) st
  else showElement st.

(** The invariant of the trigger: while it has not fired, the container
    has opacity '0' and no [showElement] timeout is pending; only the
    container is ever observed. *)
Definition triggerInv (dom : DOMStructure) (cfg : RequiredConfig) (st : State)
  : Prop :=
  stickerDOM (instance st) = dom /\
  finalConfig (instance st) = cfg /\
  (hasTriggered (instance st) = false ->
   getStyle (document (world st)) (container dom) "opacity" = CssText "0" /\
   forall dl, ~ In (dl, ShowElement) (timers (world st))) /\
  (forall n, In n (observed (world st)) -> n = container dom).

(** Every listener of a reachable state is one of the container's six or a
    mouseup listener on the document. *)
Definition listenersInv (c dn : nat) (st : State) : Prop :=
  container (stickerDOM (instance st)) = c /\
  documentNode (document (world st)) = dn /\
  forall r, In r (listeners (world st)) ->
            In r (containerListeners c) \/ isMouseUp dn r.

(** The offset that is peeled along the axis of [direction] for a pointer
    at offset [(tx, ty)] from the element's corner, and the extent of the
    element along that axis. *)
Definition peeledOffset (size : Size) (direction : Direction) (tx ty : Q) : Q :=
  match direction with
  | Left => tx
  | Right => width size - tx
  | Top => ty
  | Bottom => height size - ty
  end.

Definition extent (size : Size) (direction : Direction) : Q :=
  match direction with
  | Left | Right => width size
  | Top | Bottom => height size
  end.

(** Where [handleMouseLeave] sends the back face: out of the element on
    the side of [direction]. *)
Definition restingBack (size : Size) (direction : Direction) : CssValue :=
  match direction with
  | Left => CssTranslate (- width size) 0
  | Right => CssTranslate (width size) 0
  | Top => CssTranslate 0 (- height size)
  | Bottom => CssTranslate 0 (height size)
  end.

(** The variables of an instance that are bound once: no closure assigns
    them. *)
Definition sameConstants (i i' : Instance) : Prop :=
  finalConfig i' = finalConfig i /\
  targetElement i' = targetElement i /\
  wrapperElement i' = wrapperElement i /\
  elementSize i' = elementSize i /\
  stickerDOM i' = stickerDOM i /\
  cleanupFunctions i' = cleanupFunctions i.

(** The invariant of the session variables: a saved position comes with an
    element position, the phase is never [paused], and, where
    [handleMouseEnter] cannot throw, a stuck sticker has no session. *)
Definition sessionInv (i : Instance) : Prop :=
  (is_Some (savePos i) -> is_Some (elementPos i)) /\
  phase (animationState i) <> paused /\
  (stringifiable (finalConfig i) = true ->
   phase (animationState i) = stuck -> savePos i = None).

(** A step from [st] to [st'] that keeps the constants of the instance and
    the invariant of its session variables. *)
Definition keeps (st st' : State) : Prop :=
  sameConstants (instance st) (instance st') /\
  (sessionInv (instance st) -> sessionInv (instance st')).

(** The instance on the card of the example page, and the session that an
    enter at (150, 120), near its left edge, opens on it. *)
Definition sampleEnter : MouseEvent := mkMouseEvent 150 120.

Definition onSamplePage (st0 : State) : Prop :=
  (elementSize (instance st0) = mkSize 400 400 /\
   distinctLayers (stickerDOM (instance st0)) /\
   stickerDOM (instance st0) = mkDOMStructure 11 12 13 14 17 18 21 22 /\
   savePos (instance st0) = None /\
   listeners (world st0) = containerListeners 11 /\
   documentNode (document (world st0)) = 0%nat /\
   timers (world st0) = [] /\
   finalConfig (instance st0) = DEFAULT_CONFIG) /\
  (savePos (instance (handleMouseEnter Sample.env sampleEnter st0))
   = Some (calculatePeelValues sampleEnter (mkPosition 100 70) (mkSize 400 400) Left) /\
   elementPos (instance (handleMouseEnter Sample.env sampleEnter st0))
   = Some (mkPosition 100 70) /\
   currentDirection (instance (handleMouseEnter Sample.env sampleEnter st0)) = Left /\
   elementSize (instance (handleMouseEnter Sample.env sampleEnter st0))
   = mkSize 400 400 /\
   stickerDOM (instance (handleMouseEnter Sample.env sampleEnter st0))
   = stickerDOM (instance st0) /\
   finalConfig (instance (handleMouseEnter Sample.env sampleEnter st0))
   = DEFAULT_CONFIG).

(** The extent and the offset of the mask, and the extent of the depth
    shadow, along the axis of [direction]. *)
Definition maskExtent (direction : Direction) (v : PeelValues) : Q :=
  match direction with Left | Right => cw v | Top | Bottom => ch v end.

Definition maskOffset (direction : Direction) (v : PeelValues) : Q :=
  match direction with Left | Right => cx v | Top | Bottom => cy v end.

Definition depthExtent (direction : Direction) (v : PeelValues) : Q :=
  match direction with Left | Right => dw v | Top | Bottom => dh v end.

(** The extent of the shadow rectangle along the axis of [direction]. *)
Definition shadowExtent (direction : Direction) (v : PeelValues) : Q :=
  match direction with Left | Right => bsw v | Top | Bottom => bsh v end.

(** The container is none of the six layers that [applyPeelStyles]
    writes. *)
Definition containerApart (s : DOMStructure) : Prop :=
  container s ∉ [mask s; move s; back s; backImg s; backShadow s; depth s].

(** The filter that ends an animation. *)
Definition dropShadow : CssValue :=
  CssText "drop-shadow(0 2px 4px rgba(0, 0, 0, 0.2))".

(** The names that [getVendorProperty] tries for [prop], in its order. *)
Definition vendorCandidates (prop : string) : list string :=
  List.map (fun prefix => String.append prefix (capitalize prop)) VENDOR_PREFIXES
  ++ [prop].

(** The name that [applyVendorCSS] writes for [prop]. *)
Definition vendorName (style : StyleObject) (prop : string) : string :=
  default prop (getVendorProperty style prop).

(** The cache after a sequence of calls and timeouts on the page [d],
    starting empty. *)
Definition cacheRun (d : Document) (evs : list CacheEvent) : StyleCache :=
  fold_left (cacheStep d) evs emptyStyleCache.

(** Every cached key has its one pending deletion, and every pending
    deletion is for a cached key. *)
Definition cacheInv (c : StyleCache) : Prop :=
  NoDup (pendingDeletes c) /\
  forall id, is_Some (styleCache c !! id) <-> In id (pendingDeletes c).

(** The invariant of the trigger registry: every trigger that is alive is
    registered under some id, and every registered trigger was created. *)
Definition registryInv (m : ScrollTriggers.Manager) : Prop :=
  (forall t, t ∈ ScrollTriggers.alive m ->
     exists id, ScrollTriggers.scrollTriggers m !! id = Some t) /\
  (forall id t, ScrollTriggers.scrollTriggers m !! id = Some t ->
     (t < ScrollTriggers.created m)%nat).

(** The invariant of the resize listener: at most one timeout is pending,
    and it is the one that [resizeTimer] holds. *)
Definition debounceInv (m : ScrollTriggers.Manager) : Prop :=
  (ScrollTriggers.pendingTimeouts m = ∅ \/
   exists h, ScrollTriggers.resizeTimer m = Some h /\
             ScrollTriggers.pendingTimeouts m = {[ h ]}) /\
  (forall h, ScrollTriggers.resizeTimer m = Some h ->
     (h < ScrollTriggers.timeouts m)%nat).

(** The console calls that a list of logger calls makes in production. *)
Definition errorsOf (calls : list Logger.LoggerCall) : list Logger.ConsoleCall :=
  flat_map (fun call => match call with
                        | Logger.Error args => [Logger.ConsoleError args]
                        | _ => []
                        end) calls.

(** The registrations of a list that are not mouseup listeners of
    [handleMouseMove]. *)
Definition isUp (r : nat * string * Listener) : bool :=
  match snd r with
  | HandleMouseUp _ => true
  | _ => false
  end.

Definition ownListeners (l : list (nat * string * Listener))
  : list (nat * string * Listener) :=
  List.filter (fun r => negb (isUp r)) l.

(** The six listeners of the container are registered, each once, or none
    of them is. *)
Definition sixOrNone (c : nat) (st : State) : Prop :=
  ownListeners (listeners (world st)) = containerListeners c \/
  ownListeners (listeners (world st)) = [].

(** No reference from [k] on has a parent or children in [d]. *)
Definition unusedFrom (k : nat) (d : Document) : Prop :=
  map_Forall (fun n _ => (n < k)%nat) (parentOf d) /\
  map_Forall (fun n _ => (n < k)%nat) (childrenOf d).

(** The references that [d] has not given out yet are not in its tree. *)
Definition allocated (d : Document) : Prop := unusedFrom (nextNode d) d.

(** The nodes of [d0] have in [d] the parent, the children, the inline
    style and the class that they have in [d0]. *)
Definition oldFrame (d0 d : Document) : Prop :=
  forall m, (m < nextNode d0)%nat ->
    parentOf d !! m = parentOf d0 !! m /\
    childrenOf d !! m = childrenOf d0 !! m /\
    styleOf d !! m = styleOf d0 !! m /\
    classOf d !! m = classOf d0 !! m.

(** What is known of a node that was created after [d0]: its parent, its
    children and its inline style. *)
Record Tracked : Type := mkTracked {
  t_node : nat;
  t_parent : option nat;
  t_children : list nat;
  t_style : option (gmap string CssValue)
}.

Definition tracks (d : Document) (e : Tracked) : Prop :=
  parentOf d !! t_node e = t_parent e /\
  childNodes d (t_node e) = t_children e /\
  styleOf d !! t_node e = t_style e.

(** [d] comes from [d0] by creating the nodes of [T], the latest first,
    and by changing nothing but them. *)
Definition shape (d0 d : Document) (T : list Tracked) : Prop :=
  allocated d /\
  oldFrame d0 d /\
  Forall (tracks d) T /\
  Forall (fun e => (nextNode d0 <= t_node e < nextNode d)%nat) T /\
  NoDup (List.map t_node T).

(** The inline styles that [createStickerDOM] gives to the container, to
    the back face, to the depth shadow and to the two copies of the
    original. *)
Definition containerStyle (w h : Q) : gmap string CssValue :=
  list_to_map
    [("position", CssText "relative"); ("width", CssPx w); ("height", CssPx h);
     ("overflow", CssText "hidden"); ("display", CssText "inline-block")].

Definition backStyle (w h : Q) : gmap string CssValue :=
  list_to_map
    [("position", CssText "absolute"); ("width", CssPx w); ("height", CssPx h);
     ("left", CssText "0"); ("top", CssText "0"); ("z-index", CssText "3");
     ("background-color", CssText "#ffffff"); ("transform", CssTranslate w 0);
     ("overflow", CssText "hidden"); ("transition", CssText "all 0s")].

Definition depthStyle (w h : Q) : gmap string CssValue :=
  list_to_map
    [("position", CssText "absolute"); ("width", CssPx w); ("height", CssPx h);
     ("left", CssText "0"); ("top", CssText "0"); ("z-index", CssText "1");
     ("transform", CssTranslate (-10000) (-10000));
     ("transition", CssText "all 0s")].

Definition contentStyle : gmap string CssValue :=
  list_to_map
    [("width", CssText "100%"); ("height", CssText "100%");
     ("object-fit", CssText "cover")].

(** What a deep copy changes below the allocation counter: nothing. *)
Definition cloneFrame (d d1 : Document) : Prop :=
  forall m, (m < nextNode d)%nat ->
    parentOf d1 !! m = parentOf d !! m /\
    childrenOf d1 !! m = childrenOf d !! m /\
    styleOf d1 !! m = styleOf d !! m /\
    classOf d1 !! m = classOf d !! m.

(** [target] is a child of [p], between [pre] and [post], in a document
    whose unallocated references are not in use and whose head is
    allocated and is not [p]. *)
Definition childAt (d : Document) (target p : nat) (pre post : list nat) : Prop :=
  allocated d /\
  (documentHead d < nextNode d)%nat /\
  parentNode d target = Some p /\
  childNodes d p = pre ++ target :: post /\
  (target ∉ pre) /\ (target ∉ post) /\
  p <> documentHead d.

(** What the constructor of the observer throws for the options of the
    merged [config], if the window has IntersectionObserver and the
    constructor throws. *)
Definition observerError (env : Env) (config : option StickerAnimationConfig)
  : option Exception :=
  if intersectionObserverInWindow env
  then newIntersectionObserver env (observerOptions (mergeConfig config))
  else None.


(** [d'] has the tree of [d]: the same nodes, with the same parents,
    children, tags and ids. *)
Definition sameTree (d d' : Document) : Prop :=
  nextNode d' = nextNode d /\
  parentOf d' = parentOf d /\
  childrenOf d' = childrenOf d /\
  tagOf d' = tagOf d /\
  idOf d' = idOf d /\
  htmlElements d' = htmlElements d.

(** An event other than a call of [destroy()]. *)
Definition notDestroy (ev : Event) : Prop :=
  match ev with CallDestroy => False | _ => True end.

(** * Properties *)

(** ** Comparisons and shifts on numbers *)

Section NumberFacts.

Lemma ltb_lt (a b : Q) : ltb a b = true <-> a < b.
Proof.
  unfold ltb. rewrite negb_true_iff. split; intros H.
  - apply Qnot_le_lt. intros Hle. apply Qle_bool_iff in Hle. congruence.
  - destruct (Qle_bool b a) eqn:E; [|reflexivity].
    apply Qle_bool_iff in E. exfalso. exact (Qlt_not_le _ _ H E).
Qed.

Lemma ltb_ge (a b : Q) : ltb a b = false <-> b <= a.
Proof. unfold ltb. rewrite negb_false_iff. apply Qle_bool_iff. Qed.

Lemma leb_le (a b : Q) : leb a b = true <-> a <= b.
Proof. apply Qle_bool_iff. Qed.

Lemma leb_gt (a b : Q) : leb a b = false <-> b < a.
Proof.
  unfold leb. split; intros H.
  - apply Qnot_le_lt. intros Hle. apply Qle_bool_iff in Hle. congruence.
  - destruct (Qle_bool a b) eqn:E; [|reflexivity].
    apply Qle_bool_iff in E. exfalso. exact (Qlt_not_le _ _ H E).
Qed.

#[local] Instance ltb_Proper : Proper (Qeq ==> Qeq ==> eq) ltb.
Proof.
  intros a a' Ha b b' Hb.
  destruct (ltb a b) eqn:E1, (ltb a' b') eqn:E2; try reflexivity.
  - apply ltb_lt in E1. apply ltb_ge in E2. rewrite Ha, Hb in E1.
    exfalso. exact (Qlt_not_le _ _ E1 E2).
  - apply ltb_ge in E1. apply ltb_lt in E2. rewrite Ha, Hb in E1.
    exfalso. exact (Qlt_not_le _ _ E2 E1).
Qed.

(** The integer part, [ToInt32] and [>>] see the value of a number, not
    its representation. *)
#[local] Instance truncate_Proper : Proper (Qeq ==> eq) truncate.
Proof.
  intros a b H. unfold truncate.
  assert (Hs : Qle_bool 0 a = Qle_bool 0 b).
  { destruct (Qle_bool 0 a) eqn:Ea, (Qle_bool 0 b) eqn:Eb; try reflexivity.
    - apply Qle_bool_iff in Ea. rewrite H in Ea. apply Qle_bool_iff in Ea.
      congruence.
    - apply Qle_bool_iff in Eb. rewrite <- H in Eb. apply Qle_bool_iff in Eb.
      congruence. }
  rewrite Hs. destruct (Qle_bool 0 b).
  - apply Qfloor_comp; assumption.
  - apply Qceiling_comp; assumption.
Qed.

#[local] Instance ToInt32_Proper : Proper (Qeq ==> eq) ToInt32.
Proof.
  intros a b H. unfold ToInt32. rewrite (truncate_Proper _ _ H). reflexivity.
Qed.

#[local] Instance sar_Proper : Proper (Qeq ==> eq ==> eq) sar.
Proof.
  intros a b H k k' <-. unfold sar. rewrite (ToInt32_Proper _ _ H). reflexivity.
Qed.

Lemma truncate_inject_Z (n : Z) : truncate (inject_Z n) = n.
Proof.
  unfold truncate. destruct (Qle_bool 0 (inject_Z n)).
  - apply Qfloor_Z.
  - apply Qceiling_Z.
Qed.

(** On an integer of the signed 32-bit range [ToInt32] is the identity. *)
Lemma ToInt32_inject_Z (n : Z) :
  (- 2 ^ 31 <= n < 2 ^ 31)%Z -> ToInt32 (inject_Z n) = n.
Proof.
  intros Hn. unfold ToInt32. rewrite truncate_inject_Z.
  destruct (Z.leb_spec (2 ^ 31) (n mod 2 ^ 32)) as [Hm|Hm].
  - destruct (Z_lt_le_dec n 0) as [Hneg|Hge].
    + replace n with ((n + 2 ^ 32) + (-1) * 2 ^ 32)%Z at 1 by ring.
      rewrite Z.mod_add by lia. rewrite Z.mod_small by lia. ring.
    + rewrite Z.mod_small in Hm by lia. lia.
  - destruct (Z_lt_le_dec n 0) as [Hneg|Hge].
    + exfalso.
      replace n with ((n + 2 ^ 32) + (-1) * 2 ^ 32)%Z in Hm by ring.
      rewrite Z.mod_add in Hm by lia. rewrite Z.mod_small in Hm by lia. lia.
    + apply Z.mod_small. lia.
Qed.

(** Halving an even integer of the 32-bit range with [>> 1] is exact. *)
Lemma sar_1_even (v : Q) (n : Z) :
  (- 2 ^ 30 <= n < 2 ^ 30)%Z -> v == inject_Z (2 * n) -> sar v 1 == v / 2.
Proof.
  intros Hn Hv. rewrite Hv at 2. rewrite (sar_Proper _ _ Hv 1%Z 1%Z eq_refl).
  unfold sar. rewrite ToInt32_inject_Z by lia.
  rewrite Z.shiftr_div_pow2 by lia.
  replace (2 ^ 1)%Z with 2%Z by reflexivity.
  rewrite Z.mul_comm, Z.div_mul by lia.
  rewrite Z.mul_comm, inject_Z_mult. field.
Qed.

End NumberFacts.

(** ** Direction classifier *)

Section DirectionClassifier.

Variables (e : MouseEvent) (pos : Position).

Let tx : Q := pageX e - pos_x pos.
Let ty : Q := pageY e - pos_y pos.

Lemma getDirection_left (q : Q) : tx < q -> getDirection e pos q = Left.
Proof.
  intros H. unfold getDirection. fold tx.
  apply ltb_lt in H. rewrite H. reflexivity.
Qed.

Lemma getDirection_right (q : Q) :
  q <= tx -> 3 * q < tx -> getDirection e pos q = Right.
Proof.
  intros H1 H2. unfold getDirection. fold tx.
  apply ltb_ge in H1. rewrite H1.
  assert (H3 : ltb (q * 3) tx = true) by (apply ltb_lt; lra).
  rewrite H3. reflexivity.
Qed.

Lemma getDirection_top (q : Q) :
  q <= tx -> tx <= 3 * q -> ty < q -> getDirection e pos q = Top.
Proof.
  intros H1 H2 H3. unfold getDirection. fold tx ty.
  apply ltb_ge in H1. rewrite H1.
  assert (H4 : ltb (q * 3) tx = false) by (apply ltb_ge; lra).
  rewrite H4. apply ltb_lt in H3. rewrite H3. reflexivity.
Qed.

Lemma getDirection_bottom (q : Q) :
  q <= tx -> tx <= 3 * q -> q <= ty -> getDirection e pos q = Bottom.
Proof.
  intros H1 H2 H3. unfold getDirection. fold tx ty.
  apply ltb_ge in H1. rewrite H1.
  assert (H4 : ltb (q * 3) tx = false) by (apply ltb_ge; lra).
  rewrite H4. apply ltb_ge in H3. rewrite H3. reflexivity.
Qed.

End DirectionClassifier.

(** C1.  With [q = min(width, height) / 4], as [handleMouseEnter] passes
    it, [getDirection] answers 'left' when [tx < q]; otherwise 'right'
    when [tx > 3q]; otherwise 'top' when [ty < q]; otherwise 'bottom'.
    For an extent that is not negative, [tx > 3q] alone gives 'right'.
    The answer is always one of the four directions.  For a 400x400
    element the offsets (50,50), (350,50), (200,50) and (200,350) give
    left, right, top and bottom. *)
Theorem getDirection_quadrants (e : MouseEvent) (pos : Position) (size : Size) :
  let q := Qmin (width size) (height size) / 4 in
  let tx := pageX e - pos_x pos in
  let ty := pageY e - pos_y pos in
  let d := getDirection e pos q in
  (tx < q -> d = Left) /\
  (q <= tx -> 3 * q < tx -> d = Right) /\
  (0 <= q -> 3 * q < tx -> d = Right) /\
  (q <= tx -> tx <= 3 * q -> ty < q -> d = Top) /\
  (q <= tx -> tx <= 3 * q -> q <= ty -> d = Bottom) /\
  (d = Left \/ d = Right \/ d = Top \/ d = Bottom) /\
  (forall env st,
      Sticker.elementSize (Sticker.instance st) = size ->
      exists p,
        let i := Sticker.instance (Sticker.handleMouseEnter env e st) in
        Sticker.elementPos i = Some p /\
        Sticker.currentDirection i = getDirection e p q) /\
  (let q400 := Qmin 400 400 / 4 in
   getDirection (pointerAt pos 50 50) pos q400 = Left /\
   getDirection (pointerAt pos 350 50) pos q400 = Right /\
   getDirection (pointerAt pos 200 50) pos q400 = Top /\
   getDirection (pointerAt pos 200 350) pos q400 = Bottom).
Proof.
  intros q tx ty d.
  split; [apply getDirection_left|].
  split; [apply getDirection_right|].
  split; [intros Hq H; apply getDirection_right; fold tx; lra|].
  split; [apply getDirection_top|].
  split; [apply getDirection_bottom|].
  split; [destruct d; auto|].
  split.
  - intros env st Hsize. unfold Sticker.handleMouseEnter. cbv zeta.
    destruct (Sticker.stringifiable _); eexists; cbn;
      (split; [reflexivity|]); rewrite Hsize; reflexivity.
  - intros q400.
    assert (Hq : q400 == 100) by reflexivity.
    repeat split.
    + apply getDirection_left. cbn. lra.
    + apply getDirection_right; cbn; lra.
    + apply getDirection_top; cbn; lra.
    + apply getDirection_bottom; cbn; lra.
Qed.

(** ** Geometry calculator and style applier *)

Section StyleWrites.

Lemma inlineStyle_setStyle_eq n prop v d :
  inlineStyle (setStyle n prop v d) n = <[ prop := v ]> (inlineStyle d n).
Proof. unfold inlineStyle, setStyle. cbn. rewrite lookup_insert_eq. reflexivity. Qed.

Lemma inlineStyle_setStyle_ne n m prop v d :
  n <> m -> inlineStyle (setStyle n prop v d) m = inlineStyle d m.
Proof.
  intros H. unfold inlineStyle, setStyle. cbn.
  rewrite lookup_insert_ne by assumption. reflexivity.
Qed.

(** A style that was written reads back. *)
Lemma getStyle_setStyle_eq n prop v d : getStyle (setStyle n prop v d) n prop = v.
Proof.
  unfold getStyle. rewrite inlineStyle_setStyle_eq, lookup_insert_eq. reflexivity.
Qed.

(** A write leaves the other properties and the other nodes alone. *)
Lemma getStyle_setStyle_ne n m prop prop' v d :
  n <> m \/ prop <> prop' ->
  getStyle (setStyle n prop v d) m prop' = getStyle d m prop'.
Proof.
  intros H. unfold getStyle.
  destruct (decide (n = m)) as [->|Hn].
  - destruct H as [H|H]; [congruence|].
    rewrite inlineStyle_setStyle_eq, lookup_insert_ne by assumption. reflexivity.
  - rewrite inlineStyle_setStyle_ne by assumption. reflexivity.
Qed.

End StyleWrites.

Lemma applyPeelStyles_move (s : DOMStructure) (v : PeelValues) (t : CssValue)
  (d : Document) :
  distinctLayers s ->
  getStyle (applyPeelStyles s v t d) (move s) "transform"
  = CssTranslate (- cx v) (- cy v).
Proof.
  unfold distinctLayers. intros H.
  repeat match goal with
         | H : NoDup (_ :: _) |- _ => apply NoDup_cons in H; destruct H
         end.
  repeat match goal with
         | H : _ ∉ _ :: _ |- _ => apply not_elem_of_cons in H; destruct H
         end.
  unfold applyPeelStyles.
  repeat (rewrite getStyle_setStyle_ne by (left; congruence)).
  apply getStyle_setStyle_eq.
Qed.

Lemma applyPeelStyles_mask (s : DOMStructure) (v : PeelValues) (t : CssValue)
  (d : Document) :
  distinctLayers s ->
  getStyle (applyPeelStyles s v t d) (mask s) "transform"
  = CssTranslate (cx v) (cy v).
Proof.
  unfold distinctLayers. intros H.
  repeat match goal with
         | H : NoDup (_ :: _) |- _ => apply NoDup_cons in H; destruct H
         end.
  repeat match goal with
         | H : _ ∉ _ :: _ |- _ => apply not_elem_of_cons in H; destruct H
         end.
  unfold applyPeelStyles.
  repeat (rewrite getStyle_setStyle_ne by (left; congruence)).
  apply getStyle_setStyle_eq.
Qed.

(** *** The layers that [createStickerDOM] builds *)

Section FreshLayers.

Lemma nextNode_remove n d : nextNode (remove n d) = nextNode d.
Proof. unfold remove. destruct (parentNode d n); reflexivity. Qed.

Lemma nextNode_appendChild p n d : nextNode (appendChild p n d) = nextNode d.
Proof. unfold appendChild. cbn. apply nextNode_remove. Qed.

Lemma nextNode_insert p n r d : nextNode (insert p n r d) = nextNode d.
Proof. unfold insert. cbn. apply nextNode_remove. Qed.

Lemma nextNode_setCssText n l d : nextNode (setCssText n l d) = nextNode d.
Proof. reflexivity. Qed.

Lemma nextNode_setClassName n c d : nextNode (setClassName n c d) = nextNode d.
Proof. reflexivity. Qed.

Lemma nextNode_setStyle n p v d : nextNode (setStyle n p v d) = nextNode d.
Proof. reflexivity. Qed.

Lemma createElement_fresh tag d x d1 :
  createElement tag d = (x, d1) ->
  x = nextNode d /\ nextNode d1 = S (nextNode d).
Proof. unfold createElement. intros H. inversion H. split; reflexivity. Qed.

(** A deep copy takes at least one fresh reference and returns the first. *)
Lemma cloneNode_fresh fuel : forall n d x d1,
  cloneNode fuel n d = (x, d1) ->
  x = nextNode d /\ (nextNode d < nextNode d1)%nat.
Proof.
  induction fuel as [|fuel IH]; intros n d x d1.
  - cbn. intros H. inversion H. cbn. split; [reflexivity|lia].
  - cbn [cloneNode]. intros H. inversion H as [[Hx Hd]]. clear H.
    split; [reflexivity|].
    set (c := nextNode d).
    set (d0 := set_nextNode (S c) (copyNode n c d)).
    assert (Hd0 : (c < nextNode d0)%nat) by (cbn; lia).
    revert Hd0. generalize d0. clear d0 Hd.
    induction (childNodes d n) as [|child l IHl]; intros d0 Hd0; cbn [fold_left].
    + exact Hd0.
    + apply IHl.
      destruct (cloneNode fuel child d0) as [k acc'] eqn:E.
      rewrite nextNode_appendChild.
      apply IH in E. destruct E as [_ Hlt]. lia.
Qed.

(** One allocation of [createStickerDOM] at a time: name the reference and
    the document it leaves, and keep what is known of the allocation
    counter. *)
Ltac createStickerDOM_step :=
  let x := fresh "x" in
  let d1 := fresh "d" in
  let E := fresh "E" in
  let Hx := fresh "Hx" in
  let Hd := fresh "Hd" in
  lazymatch goal with
  | |- context [createElement ?tag ?d0] =>
      destruct (createElement tag d0) as [x d1] eqn:E;
      apply createElement_fresh in E; destruct E as [Hx Hd]
  | |- context [cloneNode ?f ?n ?d0] =>
      destruct (cloneNode f n d0) as [x d1] eqn:E;
      apply cloneNode_fresh in E; destruct E as [Hx Hd]
  end;
  rewrite ?nextNode_appendChild in Hx, Hd;
  cbn [nextNode setCssText setClassName set_styleOf set_classOf] in Hx, Hd.

(** The eight layers are fresh references, in the order of creation. *)
Lemma createStickerDOM_fresh (o : nat) (w h : Q) (d : Document) s d' :
  createStickerDOM o w h d = (s, d') ->
  container s = nextNode d /\
  (container s < mask s < move s)%nat /\
  (move s < front s < back s)%nat /\
  (back s < backImg s < backShadow s)%nat /\
  (backShadow s < depth s)%nat.
Proof.
  unfold createStickerDOM.
  repeat createStickerDOM_step.
  intros Hs. apply (f_equal fst) in Hs. cbn [fst] in Hs. subst s.
  cbn [container mask move front back backImg backShadow depth]. lia.
Qed.

Lemma createStickerDOM_distinct (o : nat) (w h : Q) (d : Document) :
  distinctLayers (fst (createStickerDOM o w h d)).
Proof.
  destruct (createStickerDOM o w h d) as [s d'] eqn:E.
  apply createStickerDOM_fresh in E.
  destruct s; cbn in *.
  unfold distinctLayers. cbn.
  repeat (apply NoDup_cons; split;
          [rewrite ?not_elem_of_cons; repeat split;
           try (apply not_elem_of_nil); lia|]).
  apply NoDup_nil. trivial.
Qed.

(** No operation on the tree moves the document node. *)
Lemma documentNode_remove n d : documentNode (remove n d) = documentNode d.
Proof. unfold remove. destruct (parentNode d n); reflexivity. Qed.

Lemma documentNode_appendChild p n d :
  documentNode (appendChild p n d) = documentNode d.
Proof. unfold appendChild. cbn. apply documentNode_remove. Qed.

Lemma documentNode_insert p n r d :
  documentNode (insert p n r d) = documentNode d.
Proof. unfold insert. cbn. apply documentNode_remove. Qed.

Lemma documentNode_createElement tag d x d1 :
  createElement tag d = (x, d1) -> documentNode d1 = documentNode d.
Proof. unfold createElement. intros H. inversion H. reflexivity. Qed.

Lemma documentNode_cloneNode fuel : forall n d x d1,
  cloneNode fuel n d = (x, d1) -> documentNode d1 = documentNode d.
Proof.
  induction fuel as [|fuel IH]; intros n d x d1.
  - cbn. intros H. inversion H. reflexivity.
  - cbn [cloneNode]. intros H. inversion H as [[Hx Hd]]. clear H Hx.
    set (d0 := set_nextNode (S (nextNode d)) (copyNode n (nextNode d) d)).
    assert (Hd0 : documentNode d0 = documentNode d) by reflexivity.
    revert Hd0. generalize d0. clear d0 Hd.
    induction (childNodes d n) as [|child l IHl]; intros d0 Hd0; cbn [fold_left].
    + exact Hd0.
    + apply IHl.
      destruct (cloneNode fuel child d0) as [k acc'] eqn:E.
      rewrite documentNode_appendChild.
      apply IH in E. congruence.
Qed.

Ltac documentNode_step :=
  let x := fresh "x" in
  let d1 := fresh "d" in
  let E := fresh "E" in
  lazymatch goal with
  | |- context [createElement ?tag ?d0] =>
      destruct (createElement tag d0) as [x d1] eqn:E;
      apply documentNode_createElement in E
  | |- context [cloneNode ?f ?n ?d0] =>
      destruct (cloneNode f n d0) as [x d1] eqn:E;
      apply documentNode_cloneNode in E
  end;
  rewrite ?documentNode_appendChild in E;
  cbn [documentNode setCssText setClassName set_styleOf set_classOf] in E.

Lemma documentNode_createStickerDOM (o : nat) (w h : Q) (d : Document) :
  documentNode (snd (createStickerDOM o w h d)) = documentNode d.
Proof.
  unfold createStickerDOM.
  repeat documentNode_step.
  cbn [snd]. rewrite ?documentNode_appendChild.
  cbn [documentNode setCssText setClassName set_styleOf set_classOf].
  congruence.
Qed.

Lemma documentNode_injectGlobalStyles d :
  documentNode (snd (injectGlobalStyles d)) = documentNode d.
Proof.
  unfold injectGlobalStyles. destruct (getElementById STYLE_ID d); [reflexivity|].
  cbn [createElement snd]. rewrite documentNode_appendChild. reflexivity.
Qed.

End FreshLayers.

(** C2 as stated fails: [>>] halves the integer part of the offset
    rounding down, so at the odd offset 5 the mask moves by 2, not by 2.5,
    and keeps a width of 398, not 397.5. *)
Lemma calculatePeelValues_half_counterexample :
  let v := calculatePeelValues (mkMouseEvent 5 0) (mkPosition 0 0)
             (mkSize 400 400) Left in
  cx v == 2 /\ cw v == 398 /\ ~ cx v == 5 / 2 /\ ~ cw v == 400 - 5 / 2.
Proof.
  vm_compute. repeat split; try reflexivity; discriminate.
Qed.

(** C2, amended.  The mask shrinks on the peel axis by the integer half
    [t >> 1] of the peeled offset [t] (the offset cut to a 32-bit integer and
    halved rounding down): for 'left' [cw = width - (tx >> 1)] with mask
    offset [cx = tx >> 1], for 'top' likewise on the vertical axis; for
    'right' and 'bottom' the mask shrinks by [(extent - t) >> 1] and the
    mask offset stays 0.  The integer half is the exact half for an even
    integer offset of the 30-bit range.  [applyPeelStyles] writes
    [translate(cx, cy)] on the mask and [translate(-cx, -cy)] on the moving
    layer, for layers that are different elements, as those of
    [createStickerDOM] are. *)
Theorem calculatePeelValues_mask (event : MouseEvent) (pos : Position)
  (size : Size) :
  let tx := pageX event - pos_x pos in
  let ty := pageY event - pos_y pos in
  let peel := calculatePeelValues event pos size in
  (cx (peel Left) = sar tx 1 /\ cw (peel Left) = width size - sar tx 1 /\
   cy (peel Left) = 0 /\ ch (peel Left) = height size) /\
  (cx (peel Right) = 0 /\ cw (peel Right) = width size - sar (width size - tx) 1 /\
   cy (peel Right) = 0 /\ ch (peel Right) = height size) /\
  (cy (peel Top) = sar ty 1 /\ ch (peel Top) = height size - sar ty 1 /\
   cx (peel Top) = 0 /\ cw (peel Top) = width size) /\
  (cy (peel Bottom) = 0 /\ ch (peel Bottom) = height size - sar (height size - ty) 1 /\
   cx (peel Bottom) = 0 /\ cw (peel Bottom) = width size) /\
  (forall n : Z, (- 2 ^ 30 <= n < 2 ^ 30)%Z -> tx == inject_Z (2 * n) ->
     cx (peel Left) == tx / 2 /\ cw (peel Left) == width size - tx / 2) /\
  (forall n : Z, (- 2 ^ 30 <= n < 2 ^ 30)%Z -> ty == inject_Z (2 * n) ->
     cy (peel Top) == ty / 2 /\ ch (peel Top) == height size - ty / 2) /\
  (forall direction s transition d, distinctLayers s ->
     let d' := applyPeelStyles s (peel direction) transition d in
     getStyle d' (mask s) "transform"
     = CssTranslate (cx (peel direction)) (cy (peel direction)) /\
     getStyle d' (move s) "transform"
     = CssTranslate (- cx (peel direction)) (- cy (peel direction))) /\
  (forall o w h d, distinctLayers (fst (createStickerDOM o w h d))).
Proof.
  intros tx ty peel.
  split; [repeat split|].
  split; [repeat split|].
  split; [repeat split|].
  split; [repeat split|].
  split.
  { intros n Hn Hx. subst peel. cbn [calculatePeelValues cx cw]. fold tx.
    rewrite (sar_1_even tx n Hn Hx). split; reflexivity. }
  split.
  { intros n Hn Hy. subst peel. cbn [calculatePeelValues cy ch]. fold ty.
    rewrite (sar_1_even ty n Hn Hy). split; reflexivity. }
  split.
  { intros direction s transition d Hs. split.
    - apply applyPeelStyles_mask; assumption.
    - apply applyPeelStyles_move; assumption. }
  apply createStickerDOM_distinct.
Qed.

(** C3.  Along the peel axis the back face is translated by
    [-extent + peeledOffset] for 'left' and 'top', where the peeled offset
    is the pointer's distance [tx], [ty] from the left or top edge, and by
    the mirrored [extent - peeledOffset] for 'right' and 'bottom', where it
    is the distance [width - tx], [height - ty] from the right or bottom
    edge, which is also the extent of the shadow rectangle (the code writes
    the translation as [tx], [ty]); the other axis gets 0.  At a peeled
    offset of zero the back face is a whole extent away. *)
Theorem calculatePeelValues_backFace (event : MouseEvent) (pos : Position)
  (size : Size) :
  let tx := pageX event - pos_x pos in
  let ty := pageY event - pos_y pos in
  let peel := calculatePeelValues event pos size in
  (bmx (peel Left) = - width size + tx /\ bmy (peel Left) = 0 /\
   bsw (peel Left) = tx) /\
  (bmy (peel Top) = - height size + ty /\ bmx (peel Top) = 0 /\
   bsh (peel Top) = ty) /\
  (bmx (peel Right) = tx /\
   bmx (peel Right) == width size - (width size - tx) /\
   bmy (peel Right) = 0 /\ bsw (peel Right) = width size - tx) /\
  (bmy (peel Bottom) = ty /\
   bmy (peel Bottom) == height size - (height size - ty) /\
   bmx (peel Bottom) = 0 /\ bsh (peel Bottom) = height size - ty) /\
  (tx == 0 -> bmx (peel Left) == - width size) /\
  (ty == 0 -> bmy (peel Top) == - height size) /\
  (width size - tx == 0 -> bmx (peel Right) == width size) /\
  (height size - ty == 0 -> bmy (peel Bottom) == height size).
Proof.
  intros tx ty peel. subst peel. cbn [calculatePeelValues bmx bmy bsw bsh].
  fold tx ty.
  repeat split; try reflexivity; try (intros H); try lra.
Qed.

(** ** Auto-animation driver *)

Section AutoAnimation.

(** C5 as stated fails at the start of the animation: at progress 0 the
    shadow progress is 0 too, and 0 is below 2/3. *)
Lemma shadowProgress_equal_at_zero :
  0 <= 0 <= 1 /\ Auto.shadowProgress 0 == 0 /\ ~ 2 / 3 <= 0.
Proof.
  split; [split; apply Qle_bool_iff; reflexivity|].
  split; [reflexivity|].
  intros H. apply Qle_bool_iff in H. discriminate H.
Qed.

(** C5, amended.  For a progress in [0,1] the shadow progress
    [min(progress * 1.5, 1)] is at least the progress; the two are equal
    exactly at progress 0 and at progress 1, so that for a positive
    progress equality needs progress >= 2/3; from 2/3 on the shadow
    progress is 1.  It is the factor of the shadow extent that
    [calculateAutoAnimationValues] returns. *)
Theorem shadowProgress_leads (p : Q) :
  0 <= p <= 1 ->
  p <= Auto.shadowProgress p /\
  (Auto.shadowProgress p == p <-> p == 0 \/ p == 1) /\
  (0 < p -> Auto.shadowProgress p == p -> 2 / 3 <= p) /\
  (2 / 3 <= p -> Auto.shadowProgress p == 1) /\
  (forall size intensity,
     bsw (Auto.calculateAutoAnimationValues size Left p intensity)
     = Qmax 0 (size * p - 20) * Auto.shadowProgress p).
Proof.
  intros [H0 H1].
  split; [|split; [|split; [|split]]].
  5: { intros size intensity. reflexivity. }
  all: unfold Auto.shadowProgress;
    destruct (Q.min_spec (p * 1.5) 1) as [[Hlt Heq]|[Hle Heq]];
    rewrite !Heq.
  all: try lra.
  all: try (intros; lra).
  all: assert (E23 : 2 / 3 == 2 # 3) by reflexivity; rewrite E23; intros; lra.
Qed.

Lemma shadowProgress_leads_witness :
  0 <= 1 / 2 <= 1 /\
  1 / 2 <= Auto.shadowProgress (1 / 2) /\
  ~ Auto.shadowProgress (1 / 2) == 1 / 2.
Proof.
  assert (H : 0 <= 1 / 2 <= 1) by (split; apply Qle_bool_iff; reflexivity).
  split; [exact H|].
  destruct (shadowProgress_leads (1 / 2) H) as (Hle & Heq & _).
  split; [exact Hle|].
  intros E. apply Heq in E. destruct E as [E|E]; discriminate E.
Defined.

(** The solver and the curve see the value of a number, not its
    representation. *)
Lemma newtonRaphson_Qeq (k : nat) (ax bx cx t t' : Q) :
  t == t' ->
  forall x x', x == x' ->
  Auto.newtonRaphson k ax bx cx t x == Auto.newtonRaphson k ax bx cx t' x'.
Proof.
  intros Ht. induction k as [|k IH]; intros x x' Hx; cbn [Auto.newtonRaphson].
  - exact Hx.
  - assert (E : ltb (Qabs (((ax * x + bx) * x + cx) * x - t)) 0.001
                = ltb (Qabs (((ax * x' + bx) * x' + cx) * x' - t')) 0.001).
    { apply ltb_Proper; [|reflexivity]. rewrite Hx, Ht. reflexivity. }
    rewrite E.
    destruct (ltb (Qabs (((ax * x' + bx) * x' + cx) * x' - t')) 0.001).
    + exact Hx.
    + apply IH. rewrite Hx, Ht. reflexivity.
Qed.

Lemma cubicBezier_Qeq (x1 y1 x2 y2 t t' : Q) :
  t == t' -> Auto.cubicBezier x1 y1 x2 y2 t == Auto.cubicBezier x1 y1 x2 y2 t'.
Proof.
  intros Ht. unfold Auto.cubicBezier.
  rewrite (newtonRaphson_Qeq 4 _ _ _ t t' Ht t t' Ht). reflexivity.
Qed.

Lemma progressAt_monotone (config : Auto.AutoAnimationConfig) (e1 e2 : Q) :
  0 < Auto.duration config -> e1 <= e2 ->
  Auto.progressAt config e1 <= Auto.progressAt config e2.
Proof.
  intros Hd He. unfold Auto.progressAt.
  apply Q.min_le_compat_r.
  unfold Qdiv. apply Qmult_le_compat_r; [exact He|].
  apply Qlt_le_weak, Qinv_lt_0_compat, Hd.
Qed.

Lemma progressAt_complete (config : Auto.AutoAnimationConfig) (elapsed : Q) :
  0 < Auto.duration config -> Auto.duration config <= elapsed ->
  Auto.progressAt config elapsed == 1.
Proof.
  intros Hd He. unfold Auto.progressAt.
  apply Q.min_r. apply Qle_shift_div_l; [exact Hd|]. lra.
Qed.

(** C4 as stated fails: where the solver starts to take one more turn
    before the residual is below the tolerance, the eased progress drops.
    With a duration of 10000 ms it is about 0.66112 at 1897 ms and about
    0.65906 at 1898 ms; with the default duration of 800 ms the same
    happens between 151.76 ms and 151.84 ms. *)
Lemma easedProgressAt_drop_counterexample :
  let config := Auto.mkAutoConfig 10000 "linear" Left 0.7 in
  let config800 := Auto.mkAutoConfig 800 "linear" Left 0.7 in
  1897 < 1898 /\
  Auto.easedProgressAt config 1898 < Auto.easedProgressAt config 1897 /\
  0.66 < Auto.easedProgressAt config 1897 /\
  Auto.easedProgressAt config 1898 < 0.6591 /\
  151.76 < 151.84 /\
  Auto.easedProgressAt config800 151.84 < Auto.easedProgressAt config800 151.76.
Proof.
  vm_compute. repeat split; reflexivity.
Qed.

(** The same drop with the rounding of binary64, and the exact ends. *)
Lemma easedProgressAt_binary64 :
  PrimFloat.ltb (Binary64.easedProgressAt 10000 1898)
    (Binary64.easedProgressAt 10000 1897) = true /\
  PrimFloat.ltb (Binary64.easedProgressAt 800 151.84)
    (Binary64.easedProgressAt 800 151.76) = true /\
  Binary64.easedProgressAt 10000 0 = 0%float /\
  Binary64.easedProgressAt 10000 10000 = 1%float /\
  Binary64.easedProgressAt 10000 12500 = 1%float.
Proof. vm_compute. repeat split. Qed.

(** C4, amended.  For a positive duration the progress
    [min(elapsed / duration, 1)] that [animate] computes never decreases as
    the elapsed time grows, and the eased progress is exactly 0 at an
    elapsed time of 0 and exactly 1 for every elapsed time of at least the
    duration.  (In between, the eased progress is not monotone.) *)
Theorem easedProgressAt_ends (config : Auto.AutoAnimationConfig) :
  0 < Auto.duration config ->
  (forall e1 e2, e1 <= e2 ->
     Auto.progressAt config e1 <= Auto.progressAt config e2) /\
  Auto.easedProgressAt config 0 == 0 /\
  (forall elapsed, Auto.duration config <= elapsed ->
     Auto.progressAt config elapsed == 1 /\
     Auto.easedProgressAt config elapsed == 1).
Proof.
  intros Hd. split; [|split].
  - intros e1 e2. apply progressAt_monotone, Hd.
  - unfold Auto.easedProgressAt.
    rewrite (cubicBezier_Qeq _ _ _ _ (Auto.progressAt config 0) 0).
    + vm_compute. reflexivity.
    + unfold Auto.progressAt. rewrite Q.min_l.
      * unfold Qdiv. ring.
      * unfold Qdiv. ring_simplify. apply Qle_bool_iff. reflexivity.
  - intros elapsed He.
    pose proof (progressAt_complete config elapsed Hd He) as Hp.
    split; [exact Hp|].
    unfold Auto.easedProgressAt.
    rewrite (cubicBezier_Qeq _ _ _ _ _ 1 Hp).
    vm_compute. reflexivity.
Qed.

Lemma easedProgressAt_ends_witness :
  let config := Auto.mkAutoConfig 800 "linear" Left 0.7 in
  0 < Auto.duration config /\
  Auto.easedProgressAt config 0 == 0 /\
  Auto.easedProgressAt config 800 == 1 /\
  Auto.easedProgressAt config 1000 == 1.
Proof.
  assert (H : 0 < Auto.duration (Auto.mkAutoConfig 800 "linear" Left 0.7))
    by reflexivity.
  split; [exact H|].
  destruct (easedProgressAt_ends _ H) as (_ & H0 & H1).
  split; [exact H0|].
  split; apply H1; apply Qle_bool_iff; reflexivity.
Defined.

End AutoAnimation.

(** ** Construction *)

(** The insertion of the wrapper went through, in a goal about a call of
    [useStickerAnimation] that returned. *)
Ltac wrapped_or_thrown :=
  match goal with
  | |- context [match ?x with Returned _ => _ | Thrown _ => _ end] =>
      destruct x as [?d|?e]; [|discriminate]
  end.

Section Construction.

Variable env : Env.

(** The two checks of the configuration touch the warnings only. *)
Lemma checks_world (fc : RequiredConfig) (w : World) :
  let w2 := snd (checkShadowIntensity (checkDuration (fc, w))) in
  document w2 = document w /\ timers w2 = timers w /\
  observed w2 = observed w /\ listeners w2 = listeners w.
Proof.
  unfold checkShadowIntensity, checkDuration.
  destruct (numeric_leb _ 0); destruct (_ || _); cbn; repeat split; reflexivity.
Qed.

(** What [useStickerAnimation] leaves behind when it returns: the target
    passed the check, and the instance has the checked configuration, its
    warnings, the untouched timers, the six listeners, and the fresh
    closure variables. *)
Lemma useStickerAnimation_returns (target : nat)
  (config : option StickerAnimationConfig) (w w' : World) (i : Instance) :
  useStickerAnimation env (JsObject target) config w = (w', Returned i) ->
  target ∈ htmlElements (document w) /\
  finalConfig i
  = fst (checkShadowIntensity (checkDuration (mergeConfig config, w))) /\
  warnings w'
  = warnings (snd (checkShadowIntensity (checkDuration (mergeConfig config, w)))) /\
  timers w' = timers w /\
  listeners w' = listeners w ++ containerListeners (container (stickerDOM i)) /\
  targetElement i = target /\
  hasTriggered i = false /\
  savePos i = None /\
  elementPos i = None /\
  phase (animationState i) = idle /\
  (intersectionObserverInWindow env = true ->
   getStyle (document w') (container (stickerDOM i)) "opacity" = CssText "0" /\
   observed w' = observed w ++ [container (stickerDOM i)]).
Proof.
  intros Hr. unfold useStickerAnimation, invalidTarget in Hr.
  destruct (bool_decide (target ∈ htmlElements (document w))) eqn:Hin;
    [|discriminate Hr].
  apply bool_decide_eq_true_1 in Hin. split; [exact Hin|].
  cbn [negb] in Hr.
  destruct (checks_world (mergeConfig config) w) as (_ & Ht & Ho & Hl).
  cbv zeta in Ht, Ho, Hl.
  destruct (checkDuration (mergeConfig config, w)) as [fc1 w1].
  destruct (checkShadowIntensity (fc1, w1)) as [fc2 w2].
  cbn [fst snd] in *.
  destruct (injectGlobalStyles (document w2)) as [injected d1].
  destruct (createElement "div" d1) as [wrapper d2].
  match type of Hr with
  | match ?x with Returned _ => _ | Thrown _ => _ end = _ =>
      destruct x as [d3|e]; [|discriminate Hr]
  end.
  destruct (createStickerDOM _ _ _ _) as [dom d4].
  destruct (insertStickerDOM _ _ _ _) as [d5 [[]|e]]; [|discriminate Hr].
  destruct (intersectionObserverInWindow env).
  - destruct (newIntersectionObserver env _); [discriminate Hr|].
    inversion Hr; subst w' i; clear Hr.
    cbn [finalConfig targetElement hasTriggered savePos elementPos
         animationState phase initialAnimationState stickerDOM fst snd].
    repeat split; try assumption.
    + cbn. rewrite Hl, <- !app_assoc. reflexivity.
    + cbn [document onDocument set_document].
      rewrite getStyle_setStyle_ne by (right; discriminate).
      apply getStyle_setStyle_eq.
    + cbn. rewrite Ho. reflexivity.
  - inversion Hr; subst w' i; clear Hr.
    cbn [finalConfig targetElement hasTriggered savePos elementPos
         animationState phase initialAnimationState stickerDOM fst snd].
    repeat split; try assumption; try discriminate.
    cbn. rewrite Hl, <- !app_assoc. reflexivity.
Qed.

End Construction.

Section ConfigurationChecks.

Variable env : Env.

Lemma isHTMLElement_decide (n : nat) (d : Document) :
  bool_decide (n ∈ htmlElements d) = true -> n ∈ htmlElements d.
Proof. apply bool_decide_eq_true_1. Qed.

(** Which supplied values the two checks catch: the comparisons are false
    for NaN and for [undefined]. *)
Lemma numeric_leb_zero (v : Numeric) :
  numeric_leb v 0 = true <->
  v = NegInfinity \/ exists q, v = Finite q /\ q <= 0.
Proof.
  destruct v as [| | | |q]; cbn [numeric_leb].
  1, 2, 3: split; [discriminate|intros [H|(q' & H & _)]; discriminate H].
  - split; [intros _; left; reflexivity|reflexivity].
  - rewrite leb_le. split.
    + intros H. right. exists q. split; [reflexivity|exact H].
    + intros [H|(q' & H & Hq)]; [discriminate H|].
      inversion H. subst q'. exact Hq.
Qed.

Lemma outside_unit_interval (v : Numeric) :
  numeric_ltb v 0 || numeric_ltb 1 v = true <->
  v = NegInfinity \/ v = PosInfinity \/
  exists q, v = Finite q /\ (q < 0 \/ 1 < q).
Proof.
  destruct v as [| | | |q]; cbn [numeric_ltb orb].
  1, 2: split; [discriminate|
                intros [H|[H|(q' & H & _)]]; discriminate H].
  - split; [intros _; right; left; reflexivity|reflexivity].
  - split; [intros _; left; reflexivity|reflexivity].
  - rewrite orb_true_iff, !ltb_lt. split.
    + intros H. right. right. exists q. split; [reflexivity|exact H].
    + intros [H|[H|(q' & H & Hq)]]; [discriminate H|discriminate H|].
      inversion H. subst q'. exact Hq.
Qed.

Lemma checkDuration_spec (fc : RequiredConfig) (w : World) :
  let r := checkDuration (fc, w) in
  shadowIntensity (fst r) = shadowIntensity fc /\
  duration (fst r)
  = (if numeric_leb (duration fc) 0 then Finite 800 else duration fc) /\
  warnings (snd r)
  = warnings w ++ (if numeric_leb (duration fc) 0 then [durationWarning] else []).
Proof.
  unfold checkDuration. destruct (numeric_leb (duration fc) 0); cbn.
  - repeat split.
  - rewrite app_nil_r. repeat split.
Qed.

Lemma checkShadowIntensity_spec (fc : RequiredConfig) (w : World) :
  let r := checkShadowIntensity (fc, w) in
  let outside :=
    numeric_ltb (shadowIntensity fc) 0 || numeric_ltb 1 (shadowIntensity fc) in
  duration (fst r) = duration fc /\
  shadowIntensity (fst r)
  = (if outside then Finite 0.7 else shadowIntensity fc) /\
  warnings (snd r)
  = warnings w ++ (if outside then [shadowIntensityWarning] else []).
Proof.
  unfold checkShadowIntensity. cbv zeta.
  destruct (numeric_ltb (shadowIntensity fc) 0 || numeric_ltb 1 (shadowIntensity fc));
    cbn.
  - repeat split.
  - rewrite app_nil_r. repeat split.
Qed.

(** The warnings are written before the document is touched: they are
    there whether the call goes on to return or to throw. *)
Lemma useStickerAnimation_warnings (target : nat)
  (config : option StickerAnimationConfig) (w : World) :
  target ∈ htmlElements (document w) ->
  warnings (fst (useStickerAnimation env (JsObject target) config w))
  = warnings (snd (checkShadowIntensity (checkDuration (mergeConfig config, w)))).
Proof.
  intros Hin. unfold useStickerAnimation, invalidTarget.
  rewrite (bool_decide_eq_true_2 _ Hin). cbn [negb].
  destruct (checkDuration (mergeConfig config, w)) as [fc1 w1].
  destruct (checkShadowIntensity (fc1, w1)) as [fc2 w2].
  cbn [fst snd].
  destruct (injectGlobalStyles (document w2)) as [injected d1].
  destruct (createElement "div" d1) as [wrapper d2].
  match goal with
  | |- context [match ?x with Returned _ => _ | Thrown _ => _ end] =>
      destruct x as [d3|e]; [|reflexivity]
  end.
  destruct (createStickerDOM _ _ _ _) as [dom d4].
  destruct (insertStickerDOM _ _ _ _) as [d5 [[]|e]]; [|reflexivity].
  destruct (intersectionObserverInWindow env).
  - destruct (newIntersectionObserver env _); reflexivity.
  - reflexivity.
Qed.

(** C6 as stated fails: NaN is outside [0, 1] and is not positive, yet a
    configuration that asks for a shadow intensity of NaN and a duration
    of NaN on the card of the example page keeps both, and no warning is
    written. *)
Lemma useStickerAnimation_NaN_counterexample :
  let c := mkConfig (Some NaN) None None None (Some NaN) None None in
  inUnitInterval NaN = false /\
  numeric_ltb 0 NaN = false /\
  5%nat ∈ htmlElements (document Sample.world) /\
  exists w' i,
    useStickerAnimation Sample.env (JsObject 5) (Some c) Sample.world
    = (w', Returned i) /\
    shadowIntensity (finalConfig i) = NaN /\
    duration (finalConfig i) = NaN /\
    warnings w' = [].
Proof.
  intros c.
  split; [reflexivity|]. split; [reflexivity|].
  split; [apply isHTMLElement_decide; vm_compute; reflexivity|].
  assert (H : match useStickerAnimation Sample.env (JsObject 5) (Some c) Sample.world with
              | (w', Returned i) =>
                  bool_decide (shadowIntensity (finalConfig i) = NaN /\
                               duration (finalConfig i) = NaN /\
                               warnings w' = [])
              | (_, Thrown _) => false
              end = true) by (vm_compute; reflexivity).
  destruct (useStickerAnimation Sample.env (JsObject 5) (Some c) Sample.world)
    as [w' [i|e]]; [|discriminate H].
  exists w', i. split; [reflexivity|].
  apply bool_decide_eq_true_1 in H. exact H.
Qed.

(** C6, amended.  For a target that is an HTMLElement the two checks run
    before the document is touched.  A [shadowIntensity] that is a number
    below 0 or above 1 (an infinity too) becomes the default 0.7, and a
    [duration] that is a number of at most 0 (minus infinity too) becomes
    the default 800; each substitution writes its warning, whether the
    call then returns or throws, and no other warning is written.  Every
    other value is kept as it is, without a warning: a [shadowIntensity]
    of [0,1], a positive [duration], and also NaN and [undefined], for
    which the comparisons are false.  A key that is absent has its
    default. *)
Theorem useStickerAnimation_substitutes_defaults (target : nat)
  (c : StickerAnimationConfig) (w w' : World) (r : Completion Instance) :
  target ∈ htmlElements (document w) ->
  useStickerAnimation env (JsObject target) (Some c) w = (w', r) ->
  let merged := mergeConfig (Some c) in
  let lowDuration := numeric_leb (duration merged) 0 in
  let outside :=
    numeric_ltb (shadowIntensity merged) 0
    || numeric_ltb 1 (shadowIntensity merged) in
  warnings w'
  = warnings w ++ (if lowDuration then [durationWarning] else [])
               ++ (if outside then [shadowIntensityWarning] else []) /\
  (forall i, r = Returned i ->
     duration (finalConfig i)
     = (if lowDuration then Finite 800 else duration merged) /\
     shadowIntensity (finalConfig i)
     = (if outside then Finite 0.7 else shadowIntensity merged)) /\
  (lowDuration = true <->
   duration merged = NegInfinity \/
   exists q, duration merged = Finite q /\ q <= 0) /\
  (outside = true <->
   shadowIntensity merged = NegInfinity \/ shadowIntensity merged = PosInfinity \/
   exists q, shadowIntensity merged = Finite q /\ (q < 0 \/ 1 < q)) /\
  duration merged = default (Finite 800) (cfg_duration c) /\
  shadowIntensity merged = default (Finite 0.7) (cfg_shadowIntensity c).
Proof.
  intros Hin Hr merged lowDuration outside.
  pose proof (useStickerAnimation_warnings target (Some c) w Hin) as Hw.
  rewrite Hr in Hw. cbn [fst] in Hw.
  pose proof (checkDuration_spec merged w) as HD.
  pose proof (checkShadowIntensity_spec (fst (checkDuration (merged, w)))
                (snd (checkDuration (merged, w)))) as HS.
  cbv zeta in HD, HS.
  destruct HD as (HDs & HDd & HDw). destruct HS as (HSd & HSs & HSw).
  rewrite <- surjective_pairing in HSd, HSs, HSw.
  rewrite HDs in HSs, HSw. fold outside in HSs, HSw.
  fold lowDuration in HDd, HDw.
  split; [|split; [|split; [|split; [|split]]]].
  - rewrite Hw. fold merged. rewrite HSw, HDw, <- app_assoc. reflexivity.
  - intros i ->.
    destruct (useStickerAnimation_returns env target (Some c) w w' i Hr)
      as (_ & Hfc & _).
    rewrite Hfc. fold merged. rewrite HSd, HSs, HDd. split; reflexivity.
  - apply numeric_leb_zero.
  - apply outside_unit_interval.
  - reflexivity.
  - reflexivity.
Qed.

(** The target is no HTMLElement: the call throws at once and leaves the
    world as it was. *)
Lemma useStickerAnimation_invalid (target : JsValue)
  (config : option StickerAnimationConfig) (w : World) :
  ~ (exists n, target = JsObject n /\ n ∈ htmlElements (document w)) ->
  useStickerAnimation env target config w
  = (w, Thrown (Error
          "useStickerAnimation: targetElement must be a valid HTMLElement")).
Proof.
  intros Hn. unfold useStickerAnimation, invalidTarget.
  destruct target as [| | |n]; try reflexivity.
  destruct (bool_decide (n ∈ htmlElements (document w))) eqn:E; [|reflexivity].
  exfalso. apply Hn. exists n. split; [reflexivity|].
  apply isHTMLElement_decide. exact E.
Qed.

End ConfigurationChecks.

(** A configuration that asks for a shadow intensity of 1.5 and a duration
    of -5 on the card of the example page. *)
Lemma useStickerAnimation_substitutes_defaults_witness :
  let c := mkConfig (Some (Finite (-5))) None None None (Some (Finite 1.5))
             None None in
  5%nat ∈ htmlElements (document Sample.world) /\
  exists w' i,
    useStickerAnimation Sample.env (JsObject 5) (Some c) Sample.world
    = (w', Returned i) /\
    shadowIntensity (finalConfig i) = 0.7 /\
    duration (finalConfig i) = 800 /\
    warnings w' = [durationWarning; shadowIntensityWarning].
Proof.
  intros c.
  assert (Hin : 5%nat ∈ htmlElements (document Sample.world))
    by (apply isHTMLElement_decide; vm_compute; reflexivity).
  split; [exact Hin|].
  assert (H : match snd (useStickerAnimation Sample.env (JsObject 5) (Some c)
                           Sample.world) with
              | Returned _ => true
              | Thrown _ => false
              end = true) by (vm_compute; reflexivity).
  destruct (useStickerAnimation Sample.env (JsObject 5) (Some c) Sample.world)
    as [w' [i|e]] eqn:E; [|discriminate H].
  destruct (useStickerAnimation_substitutes_defaults Sample.env 5 c
              Sample.world w' (Returned i) Hin E)
    as (Hw & Hi & _).
  destruct (Hi i eq_refl) as [Hd Hs].
  exists w', i. split; [reflexivity|].
  split; [exact Hs|]. split; [exact Hd|exact Hw].
Defined.

(** Construction on the card of the example page returns. *)
Lemma sample_returns :
  exists w0 i0,
    useStickerAnimation Sample.env (JsObject 5) None Sample.world
    = (w0, Returned i0).
Proof.
  assert (H : match snd (useStickerAnimation Sample.env (JsObject 5) None
                           Sample.world) with
              | Returned _ => true
              | Thrown _ => false
              end = true) by (vm_compute; reflexivity).
  destruct (useStickerAnimation Sample.env (JsObject 5) None Sample.world)
    as [w0 [i0|e]]; [|discriminate H].
  exists w0, i0. reflexivity.
Qed.


(** ** Construction and destruction *)

Import Decide.

#[local] Instance wrapped_dec target st : Decision (wrapped target st).
Proof. unfold wrapped. apply _. Defined.

#[local] Instance released_dec st : Decision (released st).
Proof. unfold released. apply _. Defined.

#[local] Instance restored_dec target before st : Decision (restored target before st).
Proof.
  unfold restored. cbv zeta.
  destruct (parentNode before target); apply _.
Defined.

Lemma holds_by_decision {A : Type} (o : option A) (P : A -> Prop)
  `{forall a, Decision (P a)} :
  match o with Some a => bool_decide (P a) | None => false end = true ->
  match o with Some a => P a | None => False end.
Proof.
  destruct o as [a|]; [|discriminate].
  apply bool_decide_eq_true_1.
Qed.

(** C8.  There is an element, the card of the example page, an attached
    element without inline style, for which construction followed at once
    by [destroy()] gives back the page as it was: same parent, same
    children of that parent in the same order, same inline display, and
    indeed the same document tree and the same parent, children and inline
    style for every node of the original page, with no listener and no
    observed target left.  A second [destroy()] changes nothing.  The page
    is also restored, and the second [destroy()] changes nothing, when a
    pointer session came between construction and the first
    [destroy()]. *)
Theorem construct_destroy_roundtrip :
  exists target : nat,
    isConnected Sample.page target = true /\
    getStyle Sample.page target "display" = CssText "" /\
    match Sample.construct (JsObject target) None with
    | Some st =>
        wrapped target st /\
        restored target Sample.page (destroy st) /\
        released (destroy st) /\
        destroy (destroy st) = destroy st /\
        restored target Sample.page (destroy (run Sample.env exampleSession st)) /\
        destroy (destroy (run Sample.env exampleSession st))
        = destroy (run Sample.env exampleSession st)
    | None => False
    end.
Proof.
  exists 5%nat.
  split; [vm_compute; reflexivity|].
  split; [vm_compute; reflexivity|].
  apply (holds_by_decision _
           (fun st =>
              wrapped 5 st /\
              restored 5 Sample.page (destroy st) /\
              released (destroy st) /\
              destroy (destroy st) = destroy st /\
              restored 5 Sample.page (destroy (run Sample.env exampleSession st)) /\
              destroy (destroy (run Sample.env exampleSession st))
              = destroy (run Sample.env exampleSession st))).
  vm_compute. reflexivity.
Qed.

(** ** What the handlers leave alone *)

Section Frames.

Lemma docQuiet_refl d : docQuiet d d.
Proof. split; reflexivity. Qed.

Lemma docQuiet_trans d1 d2 d3 : docQuiet d1 d2 -> docQuiet d2 d3 -> docQuiet d1 d3.
Proof.
  intros [H1 H2] [H3 H4]. split; [congruence|].
  intros n. rewrite H4. apply H2.
Qed.

Lemma docQuiet_setStyle d d1 n p v :
  p <> "opacity" -> docQuiet d d1 -> docQuiet d (setStyle n p v d1).
Proof.
  intros Hp [H1 H2]. split; [exact H1|].
  intros m. rewrite getStyle_setStyle_ne by (right; exact Hp). apply H2.
Qed.

Lemma docQuiet_setClassName d d1 n c :
  docQuiet d d1 -> docQuiet d (setClassName n c d1).
Proof. intros [H1 H2]. split; [exact H1|exact H2]. Qed.

Lemma docQuiet_remove d d1 n : docQuiet d d1 -> docQuiet d (remove n d1).
Proof.
  intros [H1 H2]. unfold remove. destruct (parentNode d1 n); split; assumption.
Qed.

Lemma docQuiet_insert d d1 p n r :
  docQuiet d d1 -> docQuiet d (insert p n r d1).
Proof.
  intros H. apply (docQuiet_remove _ _ n) in H. destruct H as [H1 H2].
  split; [exact H1|exact H2].
Qed.

Lemma docQuiet_clearStyle d d1 n p :
  p <> "opacity" -> docQuiet d d1 -> docQuiet d (clearStyle n p d1).
Proof.
  intros Hp [H1 H2]. split; [exact H1|].
  intros m. rewrite <- H2. unfold getStyle, inlineStyle, clearStyle. cbn.
  destruct (decide (n = m)) as [->|Hn].
  - rewrite lookup_insert_eq. cbn. rewrite lookup_delete_ne by exact Hp.
    reflexivity.
  - rewrite lookup_insert_ne by exact Hn. reflexivity.
Qed.

Lemma docQuiet_applyPeelStyles d d1 s v t :
  docQuiet d d1 -> docQuiet d (applyPeelStyles s v t d1).
Proof.
  intros H. unfold applyPeelStyles.
  repeat (apply docQuiet_setStyle; [discriminate|]). exact H.
Qed.

Lemma docQuiet_updateCSSVariables d element variables : forall d1,
  docQuiet d d1 -> docQuiet d (updateCSSVariables element variables d1).
Proof.
  unfold updateCSSVariables.
  induction variables as [|[k v] l IH]; intros d1 H; cbn [fold_left].
  - exact H.
  - apply IH. apply docQuiet_setStyle; [|exact H]. cbn. discriminate.
Qed.

Lemma docQuiet_cleanupStyles d d1 injected :
  docQuiet d d1 -> docQuiet d (cleanupStyles injected d1).
Proof.
  intros H. unfold cleanupStyles. destruct injected; [|exact H].
  destruct (getElementById STYLE_ID d1); [|exact H].
  apply docQuiet_remove, H.
Qed.

Lemma quiet_refl st : quiet st st.
Proof.
  repeat split; auto using docQuiet_refl.
Qed.

Lemma quiet_trans st1 st2 st3 : quiet st1 st2 -> quiet st2 st3 -> quiet st1 st3.
Proof.
  intros (A1 & A2 & A3 & A4 & A5 & A6 & A7) (B1 & B2 & B3 & B4 & B5 & B6 & B7).
  split; [congruence|]. split; [congruence|]. split; [congruence|].
  split; [eapply docQuiet_trans; eassumption|].
  split; [auto|]. split; [auto|].
  intros r Hr. destruct (B7 r Hr) as [H|H].
  - apply A7, H.
  - right. destruct A4 as [A4 _]. rewrite <- A4. exact H.
Qed.

Lemma In_dropFirst r x l : In r (dropFirst x l) -> In r l.
Proof.
  induction l as [|y l IH]; cbn; [tauto|].
  destruct (registration_eqb x y); cbn; tauto.
Qed.

Lemma In_dropNth {A} (a : A) k l : In a (dropNth k l) -> In a l.
Proof.
  unfold dropNth. intros H. apply in_app_or in H. destruct H as [H|H].
  - rewrite <- (firstn_skipn k l). apply in_or_app. left. exact H.
  - rewrite <- (firstn_skipn (S k) l). apply in_or_app. right. exact H.
Qed.

Lemma In_removeFrom n m l : In n (removeFrom m l) -> In n l /\ n <> m.
Proof.
  unfold removeFrom. intros H. apply filter_In in H. destruct H as [H1 H2].
  split; [exact H1|]. intros ->. rewrite Nat.eqb_refl in H2. discriminate.
Qed.

Lemma handleMouseEnter_quiet env e st : quiet st (handleMouseEnter env e st).
Proof.
  unfold handleMouseEnter, quiet. cbv zeta.
  destruct (stringifiable (finalConfig (instance st)));
    cbn [instance world hasTriggered stickerDOM
      finalConfig set_animationState set_savePos set_currentDirection
      set_elementPos document timers observed listeners set_document];
    (split; [reflexivity|]); (split; [reflexivity|]); (split; [reflexivity|]);
    (split; [|repeat split; auto]).
  - apply docQuiet_applyPeelStyles, docQuiet_updateCSSVariables.
    do 2 apply docQuiet_setClassName. apply docQuiet_refl.
  - do 2 apply docQuiet_setClassName. apply docQuiet_refl.
Qed.

Lemma handleMouseLeave_quiet e st : quiet st (handleMouseLeave e st).
Proof.
  unfold handleMouseLeave. destruct (savePos (instance st)); [|apply quiet_refl].
  unfold quiet. cbn [instance world hasTriggered stickerDOM
    finalConfig set_animationState set_savePos document timers observed
    listeners set_document setTimeout set_timers].
  split; [reflexivity|]. split; [reflexivity|]. split; [reflexivity|].
  split; [apply docQuiet_applyPeelStyles, docQuiet_refl|].
  split; [|split; auto].
  intros dl H. apply in_app_or in H. destruct H as [H|[H|[]]]; [exact H|].
  discriminate H.
Qed.

Lemma addMouseUp_quiet e st :
  quiet st (onWorld (fun w => addEventListener (documentNode (document w))
                                "mouseup" (HandleMouseUp e) w) st).
Proof.
  unfold quiet, onWorld, addEventListener. cbn.
  repeat split; auto.
  intros r H. apply in_app_or in H. destruct H as [H|[H|[]]]; [left; exact H|].
  right. exists e. symmetry. exact H.
Qed.

Lemma handleMouseMove_quiet env e st : quiet st (handleMouseMove env e st).
Proof.
  unfold handleMouseMove.
  destruct (noSession _ && negb _); [apply handleMouseEnter_quiet|].
  set (st1 := match savePos (instance st), elementPos (instance st) with
              | Some _, Some _ => st
              | _, _ => _
              end).
  assert (H1 : quiet st st1).
  { subst st1.
    destruct (savePos (instance st)); [destruct (elementPos (instance st))|].
    - apply quiet_refl.
    - eapply quiet_trans; [apply handleMouseEnter_quiet|apply addMouseUp_quiet].
    - eapply quiet_trans; [apply handleMouseEnter_quiet|apply addMouseUp_quiet]. }
  clearbody st1. eapply quiet_trans; [exact H1|].
  destruct (elementPos (instance st1)); [|apply quiet_refl].
  unfold quiet. cbn [instance world hasTriggered stickerDOM finalConfig
    set_animationState document timers observed listeners set_document].
  split; [reflexivity|]. split; [reflexivity|]. split; [reflexivity|].
  split; [|repeat split; auto].
  apply docQuiet_applyPeelStyles, docQuiet_refl.
Qed.

Lemma handleMouseUp_quiet e st : quiet st (handleMouseUp e st).
Proof.
  unfold handleMouseUp. eapply quiet_trans; [|apply handleMouseLeave_quiet].
  unfold quiet, onWorld, removeEventListener. cbn.
  repeat split; auto.
  intros r H. left. eapply In_dropFirst, H.
Qed.

Lemma callListener_quiet env ev st l : quiet st (callListener env ev st l).
Proof.
  destruct l, ev; cbn [callListener]; try apply quiet_refl.
  - apply handleMouseEnter_quiet.
  - apply handleMouseLeave_quiet.
  - apply handleMouseMove_quiet.
  - unfold handleTouchStart. destruct touches; [apply quiet_refl|].
    apply handleMouseEnter_quiet.
  - apply handleMouseLeave_quiet.
  - unfold handleTouchMove. destruct touches; [apply quiet_refl|].
    apply handleMouseMove_quiet.
  - apply handleMouseUp_quiet.
Qed.

Lemma callListeners_quiet env ev ls : forall st,
  quiet st (fold_left (callListener env ev) ls st).
Proof.
  induction ls as [|l ls IH]; intros st; cbn [fold_left].
  - apply quiet_refl.
  - eapply quiet_trans; [apply callListener_quiet|apply IH].
Qed.

Lemma runCleanup_quiet st c : quiet st (runCleanup st c).
Proof.
  destruct c; cbn [runCleanup]; try apply quiet_refl.
  - unfold quiet, onWorld, onDocument. cbn.
    split; [reflexivity|]. split; [reflexivity|]. split; [reflexivity|].
    split; [|repeat split; auto].
    apply docQuiet_cleanupStyles, docQuiet_refl.
  - unfold quiet, onWorld, cleanupEvents, removeEventListener. cbn.
    repeat split; auto.
    intros r H. left. repeat (apply In_dropFirst in H). exact H.
  - unfold quiet, onWorld, disconnect. cbn.
    repeat split; auto. intros n [].
Qed.

Lemma runCleanups_quiet cs : forall st, quiet st (fold_left runCleanup cs st).
Proof.
  induction cs as [|c cs IH]; intros st; cbn [fold_left].
  - apply quiet_refl.
  - eapply quiet_trans; [apply runCleanup_quiet|apply IH].
Qed.

Lemma onDocument_quiet f st :
  (forall d, docQuiet d (f d)) -> quiet st (onWorld (onDocument f) st).
Proof.
  intros H. unfold quiet, onWorld, onDocument. cbn.
  split; [reflexivity|]. split; [reflexivity|]. split; [reflexivity|].
  split; [apply H|repeat split; auto].
Qed.

Lemma onAnimationState_quiet f st : quiet st (onAnimationState f st).
Proof.
  unfold quiet, onAnimationState, onInstance. cbn.
  repeat split; auto.
Qed.

Lemma destroy_quiet st : quiet st (destroy st).
Proof.
  unfold destroy.
  eapply quiet_trans; [|apply onAnimationState_quiet].
  match goal with
  | |- quiet _ (match ?x with Some _ => _ | None => ?s end) =>
      assert (H : quiet st s)
  end.
  { eapply quiet_trans; [apply runCleanups_quiet|].
    eapply quiet_trans; apply onDocument_quiet; intros d.
    - apply docQuiet_remove, docQuiet_refl.
    - apply docQuiet_clearStyle; [discriminate|apply docQuiet_refl]. }
  destruct (parentNode _ _); [|exact H].
  destruct (bool_decide _); [|exact H].
  eapply quiet_trans; [exact H|].
  apply onDocument_quiet. intros d.
  apply docQuiet_remove, docQuiet_insert, docQuiet_refl.
Qed.

Lemma reset_quiet st : quiet st (reset st).
Proof. apply onAnimationState_quiet. Qed.

Lemma trigger_quiet st : quiet st (trigger st).
Proof.
  unfold trigger. destruct (phase _); try apply quiet_refl;
    apply onAnimationState_quiet.
Qed.

End Frames.

(** ** Visibility trigger *)

Section VisibilityTrigger.

Lemma onEntry_fire st entry :
  onEntry st entry
  = if isIntersecting entry && negb (hasTriggered (instance st)) then fire st else st.
Proof. reflexivity. Qed.

Lemma fire_hasTriggered st : hasTriggered (instance (fire st)) = true.
Proof.
  unfold fire. cbv zeta.
  destruct (numeric_ltb 0 _); reflexivity.
Qed.

(** Once the trigger has fired the callback ignores every entry. *)
Lemma observerCallback_triggered entries : forall st,
  hasTriggered (instance st) = true -> observerCallback entries st = st.
Proof.
  unfold observerCallback.
  induction entries as [|entry l IH]; intros st H; cbn [fold_left].
  - reflexivity.
  - rewrite onEntry_fire, H, andb_false_r. apply IH, H.
Qed.

(** Before that, the first intersecting entry fires it. *)
Lemma observerCallback_untriggered entries : forall st,
  hasTriggered (instance st) = false ->
  observerCallback entries st
  = if existsb isIntersecting entries then fire st else st.
Proof.
  unfold observerCallback.
  induction entries as [|entry l IH]; intros st H; cbn [fold_left existsb].
  - reflexivity.
  - rewrite onEntry_fire, H, andb_true_r.
    destruct (isIntersecting entry); cbn [orb].
    + apply (observerCallback_triggered l), fire_hasTriggered.
    + apply IH, H.
Qed.

Lemma showElement_spec st :
  let c := container (stickerDOM (instance st)) in
  let st' := showElement st in
  getStyle (document (world st')) c "opacity" = CssText "1" /\
  ~ In c (observed (world st')) /\
  (forall n, In n (observed (world st')) -> In n (observed (world st))) /\
  instance st' = instance st /\
  timers (world st') = timers (world st) /\
  listeners (world st') = listeners (world st) /\
  documentNode (document (world st')) = documentNode (document (world st)).
Proof.
  unfold showElement, onWorld, unobserve, onDocument. cbn.
  split; [apply getStyle_setStyle_eq|].
  split; [intros H; apply In_removeFrom in H; destruct H as [_ H]; congruence|].
  split; [intros n H; apply In_removeFrom in H; tauto|].
  repeat split.
Qed.

(** The three kinds of step: one that the trigger does not notice, the
    firing of the trigger, and the timeout that shows the element. *)
Lemma step_cases env st ev :
  quiet st (step env st ev) \/
  (hasTriggered (instance st) = false /\ step env st ev = fire st) \/
  (exists k dl, ev = Timeout k /\
     nth_error (timers (world st)) k = Some (dl, ShowElement) /\
     step env st ev
     = showElement (onWorld (fun w => set_timers (dropNth k (timers w)) w) st)).
Proof.
  destruct ev as [target type ev|entries|k|now| | |]; cbn [step].
  - left. apply callListeners_quiet.
  - destruct (observed (world st)); [left; apply quiet_refl|].
    destruct (hasTriggered (instance st)) eqn:H.
    + left. rewrite observerCallback_triggered by exact H. apply quiet_refl.
    + rewrite observerCallback_untriggered by exact H.
      destruct (existsb isIntersecting entries).
      * right. left. split; reflexivity.
      * left. apply quiet_refl.
  - destruct (nth_error (timers (world st)) k) as [[dl task]|] eqn:E;
      [|left; apply quiet_refl].
    destruct task.
    + right. right. exists k, dl. repeat split. exact E.
    + left. cbn [runTask].
      eapply quiet_trans; [|apply onDocument_quiet].
      * unfold quiet, onWorld. cbn.
        repeat split; auto using docQuiet_refl.
        intros dl' H. eapply In_dropNth, H.
      * intros d. apply docQuiet_setStyle; [discriminate|apply docQuiet_refl].
  - left. unfold quiet, onWorld. cbn. repeat split; auto using docQuiet_refl.
  - left. apply destroy_quiet.
  - left. apply reset_quiet.
  - left. apply trigger_quiet.
Qed.

(** The trigger flag is never reset. *)
Lemma step_hasTriggered env st ev :
  hasTriggered (instance st) = true ->
  hasTriggered (instance (step env st ev)) = true.
Proof.
  intros H. destruct (step_cases env st ev) as [Hq|[[Hf _]|(k & dl & _ & _ & Hs)]].
  - destruct Hq as [Hq _]. congruence.
  - congruence.
  - rewrite Hs. destruct (showElement_spec
      (onWorld (fun w => set_timers (dropNth k (timers w)) w) st))
      as (_ & _ & _ & Hi & _).
    rewrite Hi. exact H.
Qed.

Lemma run_app env evs evs' st : run env (evs ++ evs') st = run env evs' (run env evs st).
Proof. unfold run. apply fold_left_app. Qed.

Lemma run_hasTriggered env evs : forall st,
  hasTriggered (instance st) = true ->
  hasTriggered (instance (run env evs st)) = true.
Proof.
  unfold run. induction evs as [|ev evs IH]; intros st H; cbn [fold_left].
  - exact H.
  - apply IH, step_hasTriggered, H.
Qed.

Lemma triggerInv_quiet dom cfg st st' :
  quiet st st' -> triggerInv dom cfg st -> triggerInv dom cfg st'.
Proof.
  intros (Q1 & Q2 & Q3 & [_ Q4] & Q5 & Q6 & _) (I1 & I2 & I3 & I4).
  split; [congruence|]. split; [congruence|].
  split; [|auto].
  intros H. rewrite Q1 in H. destruct (I3 H) as [Ho Ht].
  split; [rewrite Q4; exact Ho|].
  intros dl Hd. exact (Ht dl (Q5 dl Hd)).
Qed.

Lemma triggerInv_showElement dom cfg st :
  hasTriggered (instance st) = true ->
  triggerInv dom cfg st -> triggerInv dom cfg (showElement st).
Proof.
  intros H (I1 & I2 & I3 & I4).
  destruct (showElement_spec st) as (_ & _ & Ho & Hi & _).
  unfold triggerInv. rewrite Hi.
  split; [exact I1|]. split; [exact I2|].
  split; [congruence|]. auto.
Qed.

Lemma triggerInv_fire dom cfg st :
  triggerInv dom cfg st -> triggerInv dom cfg (fire st).
Proof.
  intros (I1 & I2 & I3 & I4). unfold fire. cbv zeta.
  destruct (numeric_ltb 0 _).
  - unfold triggerInv. cbn. repeat split; auto; discriminate.
  - apply triggerInv_showElement; [reflexivity|].
    unfold triggerInv. cbn. repeat split; auto; discriminate.
Qed.

Lemma triggerInv_step env dom cfg st ev :
  triggerInv dom cfg st -> triggerInv dom cfg (step env st ev).
Proof.
  intros HI. destruct (step_cases env st ev) as [Hq|[[_ Hf]|(k & dl & _ & Hn & Hs)]].
  - eapply triggerInv_quiet; eassumption.
  - rewrite Hf. apply triggerInv_fire, HI.
  - rewrite Hs.
    assert (Ht : hasTriggered (instance st) = true).
    { destruct (hasTriggered (instance st)) eqn:E; [reflexivity|].
      destruct HI as (_ & _ & I3 & _). destruct (I3 E) as [_ Hno].
      exfalso. apply (Hno dl). eapply nth_error_In, Hn. }
    apply triggerInv_showElement; [exact Ht|].
    destruct HI as (I1 & I2 & I3 & I4).
    unfold triggerInv, onWorld. cbn. repeat split; auto; congruence.
Qed.

Lemma triggerInv_run env dom cfg evs : forall st,
  triggerInv dom cfg st -> triggerInv dom cfg (run env evs st).
Proof.
  unfold run. induction evs as [|ev evs IH]; intros st H; cbn [fold_left].
  - exact H.
  - apply IH, triggerInv_step, H.
Qed.

End VisibilityTrigger.

Section Reachable.

Variable env : Env.

(** A call that returned was made on an HTMLElement. *)
Lemma useStickerAnimation_returned_valid target config w w0 i0 :
  useStickerAnimation env target config w = (w0, Returned i0) ->
  exists n, target = JsObject n /\ n ∈ htmlElements (document w).
Proof.
  unfold useStickerAnimation, invalidTarget. intros H.
  destruct target as [| | |n]; try discriminate H.
  exists n. split; [reflexivity|].
  destruct (bool_decide (n ∈ htmlElements (document w))) eqn:E.
  - apply isHTMLElement_decide, E.
  - cbn [negb] in H. discriminate H.
Qed.

(** The state that a returned call leaves, with no timeout pending and
    nothing observed before the call. *)
Lemma useStickerAnimation_triggerInv target config w w0 i0 :
  timers w = [] -> observed w = [] ->
  intersectionObserverInWindow env = true ->
  useStickerAnimation env target config w = (w0, Returned i0) ->
  triggerInv (stickerDOM i0) (finalConfig i0) (mkState w0 i0) /\
  hasTriggered i0 = false /\
  observed w0 = [container (stickerDOM i0)].
Proof.
  intros Ht Ho Hio Hr.
  destruct (useStickerAnimation_returned_valid _ _ _ _ _ Hr) as (n & -> & Hin).
  destruct (useStickerAnimation_returns env n config w w0 i0 Hr)
    as (_ & _ & _ & Ht' & _ & _ & Htr & _ & _ & _ & Hobs).
  destruct (Hobs Hio) as [Hop Hob]. rewrite Ho in Hob. cbn in Hob.
  split; [|split; [exact Htr|exact Hob]].
  unfold triggerInv. cbn.
  split; [reflexivity|]. split; [reflexivity|].
  split.
  - intros _. split; [exact Hop|]. rewrite Ht', Ht. intros dl [].
  - rewrite Hob. intros m [<-|[]]. reflexivity.
Qed.

Lemma listenersInv_step c dn st ev :
  listenersInv c dn st -> listenersInv c dn (step env st ev).
Proof.
  intros (I1 & I2 & I3).
  destruct (step_cases env st ev) as [Hq|[[_ Hf]|(k & dl & _ & _ & Hs)]].
  - destruct Hq as (_ & Q2 & _ & [Q4 _] & _ & _ & Q7).
    split; [congruence|]. split; [congruence|].
    intros r Hr. destruct (Q7 r Hr) as [H|H]; [auto|].
    right. rewrite <- I2. exact H.
  - rewrite Hf. unfold fire. cbv zeta. destruct (numeric_ltb 0 _).
    + unfold listenersInv. cbn. auto.
    + destruct (showElement_spec (onInstance (set_hasTriggered true) st))
        as (_ & _ & _ & Hi & _ & Hl & Hd).
      unfold listenersInv. rewrite Hi, Hl, Hd. cbn. auto.
  - rewrite Hs.
    destruct (showElement_spec
                (onWorld (fun w => set_timers (dropNth k (timers w)) w) st))
      as (_ & _ & _ & Hi & _ & Hl & Hd).
    unfold listenersInv. rewrite Hi, Hl, Hd. cbn. auto.
Qed.

Lemma listenersInv_run c dn evs : forall st,
  listenersInv c dn st -> listenersInv c dn (run env evs st).
Proof.
  unfold run. induction evs as [|ev evs IH]; intros st H; cbn [fold_left].
  - exact H.
  - apply IH, listenersInv_step, H.
Qed.

Lemma useStickerAnimation_listenersInv target config w w0 i0 :
  listeners w = [] ->
  useStickerAnimation env target config w = (w0, Returned i0) ->
  listenersInv (container (stickerDOM i0)) (documentNode (document w0))
    (mkState w0 i0).
Proof.
  intros Hl Hr.
  destruct (useStickerAnimation_returned_valid _ _ _ _ _ Hr) as (n & -> & Hin).
  destruct (useStickerAnimation_returns env n config w w0 i0 Hr)
    as (_ & _ & _ & _ & Hl' & _).
  unfold listenersInv. cbn. split; [reflexivity|]. split; [reflexivity|].
  rewrite Hl', Hl. cbn [app]. auto.
Qed.

(** Listeners that do nothing in a state leave it as it is. *)
Lemma callListeners_noop ev (st : State) (ls : list Listener) :
  (forall l, In l ls -> callListener env ev st l = st) ->
  fold_left (callListener env ev) ls st = st.
Proof.
  induction ls as [|l ls IH]; intros H; cbn [fold_left]; [reflexivity|].
  rewrite (H l) by (left; reflexivity).
  apply IH. intros l' Hl'. apply H. right. exact Hl'.
Qed.

(** In a reachable state with no session, a mouseleave or touchend
    dispatched to the container changes nothing. *)
Lemma dispatch_leave_noop c dn st type ev :
  listenersInv c dn st ->
  savePos (instance st) = None ->
  type = "mouseleave" \/ type = "touchend" ->
  step env st (Dispatch c type ev) = st.
Proof.
  intros (_ & _ & I3) Hs Ht. cbn [step].
  apply callListeners_noop. intros l Hl.
  apply in_map_iff in Hl. destruct Hl as ([[t ty] l'] & <- & Hr).
  apply filter_In in Hr. destruct Hr as [Hr Hf]. cbn [fst snd] in *.
  apply andb_true_iff in Hf. destruct Hf as [_ Hty].
  apply String.eqb_eq in Hty. subst ty.
  assert (Hleave : forall e, handleMouseLeave e st = st).
  { intros e. unfold handleMouseLeave. rewrite Hs. reflexivity. }
  destruct (I3 _ Hr) as [H6|[e He]].
  - cbn in H6.
    destruct H6 as [H|[H|[H|[H|[H|[H|[]]]]]]]; inversion H; subst;
      destruct Ht as [Ht|Ht]; try discriminate Ht;
      destruct ev; cbn [callListener]; try reflexivity; apply Hleave.
  - inversion He. subst. destruct Ht as [Ht|Ht]; discriminate Ht.
Qed.

End Reachable.

(** C9.  With IntersectionObserver in the window, and no timeout pending
    and nothing observed before the call, an instance starts with its
    container observed and at opacity '0', and the container stays at '0'
    for as long as the trigger has not fired.  The first delivery of
    entries with an intersecting one fires the trigger: without a positive
    delay (the test [delay > 0] fails, as it does for NaN and [undefined]
    too) the container gets opacity '1' and is no longer observed at
    once; with one, a timeout is queued that does the same when it fires.
    From then on no delivery of entries changes the state at all (so the
    opacity is not written again), the trigger flag is never reset, and
    the trigger can therefore fire at one step of a run only. *)
Theorem visibility_trigger_one_shot (env : Env) (target : JsValue)
  (config : option StickerAnimationConfig) (w w0 : World) (i0 : Instance) :
  timers w = [] -> observed w = [] ->
  intersectionObserverInWindow env = true ->
  useStickerAnimation env target config w = (w0, Returned i0) ->
  let c := container (stickerDOM i0) in
  let st0 := mkState w0 i0 in
  let opacity := fun st => getStyle (document (world st)) c "opacity" in
  let triggered := fun st => hasTriggered (instance st) in
  (opacity st0 = CssText "0" /\ triggered st0 = false /\ observed w0 = [c]) /\
  (forall evs, triggered (run env evs st0) = false ->
     opacity (run env evs st0) = CssText "0") /\
  (forall evs entries,
     let st := run env evs st0 in
     triggered st = false ->
     observed (world st) <> [] ->
     existsb isIntersecting entries = true ->
     let st1 := step env st (Intersection entries) in
     triggered st1 = true /\
     (numeric_ltb 0 (delay (finalConfig i0)) = false ->
      opacity st1 = CssText "1" /\ ~ In c (observed (world st1))) /\
     (numeric_ltb 0 (delay (finalConfig i0)) = true ->
      opacity st1 = CssText "0" /\
      timers (world st1)
      = timers (world st) ++ [(delay (finalConfig i0), ShowElement)] /\
      let st2 := step env st1 (Timeout (length (timers (world st)))) in
      opacity st2 = CssText "1" /\ ~ In c (observed (world st2)))) /\
  (forall evs entries,
     triggered (run env evs st0) = true ->
     step env (run env evs st0) (Intersection entries) = run env evs st0) /\
  (forall evs evs',
     triggered (run env evs st0) = true ->
     triggered (run env (evs ++ evs') st0) = true) /\
  (forall evs1 entries1 evs2 entries2,
     triggered (run env evs1 st0) = false ->
     triggered (step env (run env evs1 st0) (Intersection entries1)) = true ->
     let st := run env (evs1 ++ Intersection entries1 :: evs2) st0 in
     step env st (Intersection entries2) = st).
Proof.
  intros Ht Ho Hio Hr c st0 opacity triggered.
  destruct (useStickerAnimation_triggerInv env _ _ _ _ _ Ht Ho Hio Hr)
    as (HI & Htr & Hob).
  assert (Hrun : forall evs,
             triggerInv (stickerDOM i0) (finalConfig i0) (run env evs st0)).
  { intros evs. apply triggerInv_run. exact HI. }
  assert (Hnoop : forall st entries,
             triggered st = true -> step env st (Intersection entries) = st).
  { intros st entries H. cbn [step].
    destruct (observed (world st)); [reflexivity|].
    apply observerCallback_triggered, H. }
  split; [|split; [|split; [|split; [|split]]]].
  - destruct HI as (_ & _ & I3 & _). destruct (I3 Htr) as [Hop _].
    repeat split; assumption.
  - intros evs H. destruct (Hrun evs) as (_ & _ & I3 & _).
    destruct (I3 H) as [Hop _]. exact Hop.
  - intros evs entries st Hun Hobs Hex st1.
    destruct (Hrun evs) as (I1 & I2 & I3 & I4). fold st in I1, I2, I3, I4.
    destruct (I3 Hun) as [Hop Hno].
    assert (Hst1 : st1 = fire st).
    { subst st1. cbn [step].
      destruct (observed (world st)); [congruence|].
      rewrite observerCallback_untriggered by exact Hun.
      rewrite Hex. reflexivity. }
    split; [rewrite Hst1; apply fire_hasTriggered|].
    split.
    + intros Hd. rewrite Hst1. unfold fire. cbv zeta.
      cbn [instance onInstance finalConfig set_hasTriggered].
      rewrite I2, Hd.
      destruct (showElement_spec (onInstance (set_hasTriggered true) st))
        as (S1 & S2 & _).
      cbn [instance onInstance stickerDOM set_hasTriggered] in S1, S2.
      rewrite I1 in S1, S2. split; assumption.
    + intros Hd.
      assert (Hf : fire st
                   = onWorld (setTimeout ShowElement (delay (finalConfig i0)))
                       (onInstance (set_hasTriggered true) st)).
      { unfold fire. cbv zeta.
        cbn [instance onInstance finalConfig set_hasTriggered].
        rewrite I2, Hd. reflexivity. }
      rewrite Hst1, Hf.
      split; [exact Hop|]. split; [reflexivity|].
      cbv zeta. cbn [step].
      cbn [world onWorld onInstance timers setTimeout set_timers].
      rewrite nth_error_app2 by apply Nat.le_refl.
      rewrite Nat.sub_diag. cbn [nth_error runTask].
      match goal with
      | |- context [showElement ?s] =>
          destruct (showElement_spec s) as (S1 & S2 & _);
          cbn [instance onWorld onInstance stickerDOM set_hasTriggered] in S1, S2
      end.
      rewrite I1 in S1, S2. split; assumption.
  - intros evs entries H. apply Hnoop, H.
  - intros evs evs' H. rewrite run_app. apply run_hasTriggered, H.
  - intros evs1 entries1 evs2 entries2 _ Hfired st. apply Hnoop.
    subst st. rewrite run_app. unfold run at 1. cbn [fold_left].
    apply (run_hasTriggered env evs2). exact Hfired.
Qed.

(** On the card of the example page: the container starts hidden, and once
    a delivery with an intersecting entry has fired the trigger, a second
    delivery changes nothing. *)
Lemma visibility_trigger_one_shot_witness :
  exists st0 : State,
    Sample.construct (JsObject 5) None = Some st0 /\
    timers Sample.world = [] /\
    observed Sample.world = [] /\
    intersectionObserverInWindow Sample.env = true /\
    getStyle (document (world st0)) (container (stickerDOM (instance st0)))
      "opacity" = CssText "0" /\
    forall entries,
      step Sample.env
        (run Sample.env [Intersection [mkEntry true 11]] st0)
        (Intersection entries)
      = run Sample.env [Intersection [mkEntry true 11]] st0.
Proof.
  assert (Hin : 5%nat ∈ htmlElements (document Sample.world))
    by (apply isHTMLElement_decide; vm_compute; reflexivity).
  destruct sample_returns as (w0 & i0 & Hr).
  exists (mkState w0 i0).
  split; [unfold Sample.construct; rewrite Hr; reflexivity|].
  split; [reflexivity|]. split; [reflexivity|]. split; [reflexivity|].
  destruct (visibility_trigger_one_shot Sample.env (JsObject 5) None
              Sample.world w0 i0 eq_refl eq_refl eq_refl Hr)
    as ((Hop & Hun & Hob) & _ & Hfire & Hnoop & _).
  split; [exact Hop|].
  intros entries. apply Hnoop.
  apply (Hfire [] [mkEntry true 11%nat]).
  - exact Hun.
  - cbn [run fold_left world]. rewrite Hob. discriminate.
  - reflexivity.
Defined.

(** ** The leave handler without a session *)

(** C10.  While no peel session is active ([savePos] is null) the leave
    handler returns the state it was given: the animation state, every
    style, the timeouts and the listeners are as before.  So do the
    touchend handler, which calls it with a fresh mouse event, and, in
    every state that an instance can reach, the dispatch of a mouseleave
    or touchend event to the container. *)
Theorem leave_without_session_noop (env : Env) (st : State) :
  savePos (instance st) = None ->
  (forall e, handleMouseLeave e st = st) /\
  handleTouchEnd st = st /\
  (forall e, callListener env (MouseEv e) st HandleMouseLeave = st) /\
  (forall touches, callListener env (TouchEv touches) st HandleTouchEnd = st) /\
  (forall target config w w0 i0 evs,
     listeners w = [] ->
     useStickerAnimation env target config w = (w0, Returned i0) ->
     st = run env evs (mkState w0 i0) ->
     let c := container (stickerDOM i0) in
     (forall e, step env st (Dispatch c "mouseleave" (MouseEv e)) = st) /\
     (forall touches, step env st (Dispatch c "touchend" (TouchEv touches)) = st)).
Proof.
  intros Hs.
  assert (Hleave : forall e, handleMouseLeave e st = st).
  { intros e. unfold handleMouseLeave. rewrite Hs. reflexivity. }
  split; [exact Hleave|].
  split; [apply Hleave|].
  split; [exact Hleave|].
  split; [intros touches; apply Hleave|].
  intros target config w w0 i0 evs Hl Hr Hst c.
  assert (HI : listenersInv c (documentNode (document w0)) st).
  { rewrite Hst. apply listenersInv_run.
    apply (useStickerAnimation_listenersInv env target config w w0 i0 Hl Hr). }
  split; intros x.
  - eapply dispatch_leave_noop; [exact HI|exact Hs|left; reflexivity].
  - eapply dispatch_leave_noop; [exact HI|exact Hs|right; reflexivity].
Qed.

(** On the card of the example page, right after construction and after a
    session that a leave has ended. *)
Lemma leave_without_session_noop_witness :
  exists st0 : State,
    Sample.construct (JsObject 5) None = Some st0 /\
    savePos (instance st0) = None /\
    handleMouseLeave (mkMouseEvent 520 130) st0 = st0 /\
    handleTouchEnd st0 = st0 /\
    step Sample.env st0 (Dispatch 11 "touchend" (TouchEv [])) = st0.
Proof.
  assert (Hin : 5%nat ∈ htmlElements (document Sample.world))
    by (apply isHTMLElement_decide; vm_compute; reflexivity).
  destruct sample_returns as (w0 & i0 & Hr).
  destruct (useStickerAnimation_returns Sample.env 5 None Sample.world w0 i0 Hr)
    as (_ & _ & _ & _ & _ & _ & _ & Hs & _).
  exists (mkState w0 i0).
  split; [unfold Sample.construct; rewrite Hr; reflexivity|].
  split; [exact Hs|].
  destruct (leave_without_session_noop Sample.env (mkState w0 i0) Hs)
    as (H1 & H2 & _ & _ & H5).
  split; [apply H1|]. split; [exact H2|].
  destruct (H5 (JsObject 5) None Sample.world w0 i0 [] eq_refl Hr eq_refl)
    as [_ Ht].
  assert (Hc : container (stickerDOM i0) = 11%nat).
  { assert (E : snd (useStickerAnimation Sample.env (JsObject 5) None
                       Sample.world) = Returned i0) by (rewrite Hr; reflexivity).
    assert (E' : option_map (fun i => container (stickerDOM i))
                   (match snd (useStickerAnimation Sample.env (JsObject 5) None
                                 Sample.world) with
                    | Returned i => Some i
                    | Thrown _ => None
                    end) = Some 11%nat) by (vm_compute; reflexivity).
    rewrite E in E'. cbn in E'. inversion E'. reflexivity. }
  rewrite <- Hc. apply Ht.
Defined.

(** ** The pointer session *)

Section PointerSession.

(** What [applyPeelStyles] leaves on the six layers. *)
Lemma applyPeelStyles_layers (s : DOMStructure) (v : PeelValues) (t : CssValue)
  (d : Document) :
  distinctLayers s ->
  let d' := applyPeelStyles s v t d in
  (getStyle d' (mask s) "transition" = t /\
   getStyle d' (mask s) "width" = CssPx (cw v) /\
   getStyle d' (mask s) "height" = CssPx (ch v) /\
   getStyle d' (mask s) "transform" = CssTranslate (cx v) (cy v)) /\
  (getStyle d' (move s) "transition" = t /\
   getStyle d' (move s) "transform" = CssTranslate (- cx v) (- cy v)) /\
  (getStyle d' (back s) "transition" = t /\
   getStyle d' (back s) "transform" = CssTranslate (bmx v) (bmy v)) /\
  getStyle d' (backImg s) "transform" = CssScale (sx v) (sy v) /\
  (getStyle d' (backShadow s) "width" = CssPx (bsw v) /\
   getStyle d' (backShadow s) "height" = CssPx (bsh v) /\
   getStyle d' (backShadow s) "transform" = CssTranslate (bsx v) (bsy v)) /\
  (getStyle d' (depth s) "width" = CssPx (dw v) /\
   getStyle d' (depth s) "height" = CssPx (dh v) /\
   getStyle d' (depth s) "transform" = CssTranslate (dx v) (dy v)).
Proof.
  unfold distinctLayers. intros H.
  repeat match goal with
         | H : NoDup (_ :: _) |- _ => apply NoDup_cons in H; destruct H
         end.
  repeat match goal with
         | H : _ ∉ _ :: _ |- _ => apply not_elem_of_cons in H; destruct H
         end.
  cbv zeta. unfold applyPeelStyles.
  repeat split;
    repeat (rewrite getStyle_setStyle_ne
              by first [left; congruence | right; discriminate]);
    apply getStyle_setStyle_eq.
Qed.

(** [applyPeelStyles] writes to the six layers only. *)
Lemma applyPeelStyles_frame (s : DOMStructure) (v : PeelValues) (t : CssValue)
  (d : Document) (n : nat) (prop : string) :
  n ∉ [mask s; move s; back s; backImg s; backShadow s; depth s] ->
  getStyle (applyPeelStyles s v t d) n prop = getStyle d n prop.
Proof.
  intros H.
  repeat match goal with
         | H : _ ∉ _ :: _ |- _ => apply not_elem_of_cons in H; destruct H
         end.
  unfold applyPeelStyles.
  repeat (rewrite getStyle_setStyle_ne by (left; congruence)).
  reflexivity.
Qed.

End PointerSession.

(** X1.  A leave that ends a session snaps the sticker back whatever the
    coordinates of the event are: the mask is the full element at the
    origin, the move layer is at the origin, the back face is moved out of
    the element on the side of the current direction, the depth shadow is
    parked at (-10000, -10000), the three animated layers get the
    transition of the configuration, the phase is [stuck] with progress 1,
    the session is over, and one timeout of the configured duration for
    the drop shadow is appended to the pending ones.  The listeners and
    the element position stay. *)
Theorem handleMouseLeave_snaps_back (e : MouseEvent) (st : State) :
  is_Some (savePos (instance st)) ->
  distinctLayers (stickerDOM (instance st)) ->
  let i := instance st in
  let dom := stickerDOM i in
  let size := elementSize i in
  let st' := handleMouseLeave e st in
  let d' := document (world st') in
  let transition :=
    CssTransition "all" (duration (finalConfig i)) (easing (finalConfig i)) in
  (getStyle d' (mask dom) "width" = CssPx (width size) /\
   getStyle d' (mask dom) "height" = CssPx (height size) /\
   getStyle d' (mask dom) "transform" = CssTranslate 0 0 /\
   getStyle d' (move dom) "transform" = CssTranslate 0 0 /\
   getStyle d' (back dom) "transform" = restingBack size (currentDirection i) /\
   getStyle d' (depth dom) "transform" = CssTranslate (-10000) (-10000)) /\
  (getStyle d' (mask dom) "transition" = transition /\
   getStyle d' (move dom) "transition" = transition /\
   getStyle d' (back dom) "transition" = transition) /\
  (phase (animationState (instance st')) = stuck /\
   progress (animationState (instance st')) = 1 /\
   savePos (instance st') = None /\
   elementPos (instance st') = elementPos i /\
   currentDirection (instance st') = currentDirection i) /\
  timers (world st')
  = timers (world st) ++ [(duration (finalConfig i), DropShadowFilter)] /\
  listeners (world st') = listeners (world st).
Proof.
  intros [v Hv] Hd. cbv zeta.
  unfold handleMouseLeave. rewrite Hv. cbv zeta.
  cbn [world instance document set_document setTimeout set_timers timers
       listeners animationState set_animationState set_savePos savePos
       elementPos currentDirection phase progress set_progress set_phase].
  match goal with
  | |- context [applyPeelStyles ?s ?vals ?t ?d] =>
      pose proof (applyPeelStyles_layers s vals t d Hd) as HL
  end.
  cbv zeta in HL.
  cbn [cw ch cx cy bmx bmy dx dy] in HL.
  destruct HL as ((M1 & M2 & M3 & M4) & (V1 & V2) & (B1 & B2) & _ & _ & (_ & _ & D3)).
  repeat split; try assumption.
  rewrite B2. unfold restingBack. destruct (currentDirection (instance st)); reflexivity.
Qed.

(** X2.  During a session a move sets [progress] to the peeled fraction:
    with the pointer inside an element of positive extent, the progress
    is the peeled offset along the axis of the current direction divided
    by the extent of the element along that axis, a number between 0 and
    1.  The move writes the back face where [calculatePeelValues] puts
    it and keeps the phase, the saved position of the enter and the
    listeners. *)
Theorem handleMouseMove_progress (env : Env) (e : MouseEvent) (st : State)
  (v : PeelValues) (pos : Position) :
  savePos (instance st) = Some v ->
  elementPos (instance st) = Some pos ->
  distinctLayers (stickerDOM (instance st)) ->
  let i := instance st in
  let size := elementSize i in
  let tx := pageX e - pos_x pos in
  let ty := pageY e - pos_y pos in
  let peeled := peeledOffset size (currentDirection i) tx ty in
  let st' := handleMouseMove env e st in
  0 < extent size (currentDirection i) ->
  0 <= peeled <= extent size (currentDirection i) ->
  progress (animationState (instance st'))
  == peeled / extent size (currentDirection i) /\
  0 <= progress (animationState (instance st')) <= 1 /\
  getStyle (document (world st')) (back (stickerDOM i)) "transform"
  = CssTranslate (bmx (calculatePeelValues e pos size (currentDirection i)))
      (bmy (calculatePeelValues e pos size (currentDirection i))) /\
  phase (animationState (instance st')) = phase (animationState i) /\
  savePos (instance st') = Some v /\
  listeners (world st') = listeners (world st).
Proof.
  intros Hs Hp Hd. cbv zeta. intros Hext Hpeel.
  unfold handleMouseMove, noSession. rewrite Hs, Hp. cbn [andb]. cbv zeta.
  rewrite Hp.
  cbn [world instance document set_document listeners animationState
       set_animationState savePos phase progress set_progress].
  match goal with
  | |- context [applyPeelStyles ?s ?vals ?t ?d] =>
      pose proof (applyPeelStyles_layers s vals t d Hd) as HL
  end.
  cbv zeta in HL.
  destruct HL as (_ & _ & (_ & B2) & _).
  assert (Hprog :
    1 - (if match currentDirection (instance st) with
            | Left | Right => true
            | _ => false
            end
         then Qabs (bmx (calculatePeelValues e pos (elementSize (instance st))
                           (currentDirection (instance st))))
         else Qabs (bmy (calculatePeelValues e pos (elementSize (instance st))
                           (currentDirection (instance st))))) /
        (if match currentDirection (instance st) with
            | Left | Right => true
            | _ => false
            end
         then width (elementSize (instance st))
         else height (elementSize (instance st)))
    == peeledOffset (elementSize (instance st)) (currentDirection (instance st))
         (pageX e - pos_x pos) (pageY e - pos_y pos)
       / extent (elementSize (instance st)) (currentDirection (instance st))).
  { revert Hext Hpeel.
    destruct (currentDirection (instance st));
      unfold peeledOffset, extent, calculatePeelValues; cbv zeta; cbn [bmx bmy];
      intros Hext [Hp0 Hp1].
    - rewrite Qabs_neg by lra. field. lra.
    - rewrite Qabs_pos by lra. field. lra.
    - rewrite Qabs_neg by lra. field. lra.
    - rewrite Qabs_pos by lra. field. lra. }
  split; [exact Hprog|].
  split.
  { rewrite Hprog. destruct Hpeel as [Hp0 Hp1]. split.
    - apply Qle_shift_div_l; [exact Hext|]. lra.
    - apply Qle_shift_div_r; [exact Hext|]. lra. }
  split; [exact B2|].
  repeat split; assumption.
Qed.

(** ** What every run keeps *)

Section SessionInvariant.

Variable env : Env.

Lemma keeps_refl st : keeps st st.
Proof. unfold keeps, sameConstants. auto 10. Qed.

Lemma keeps_trans st1 st2 st3 : keeps st1 st2 -> keeps st2 st3 -> keeps st1 st3.
Proof.
  unfold keeps, sameConstants.
  intros [(A1 & A2 & A3 & A4 & A5 & A6) HA] [(B1 & B2 & B3 & B4 & B5 & B6) HB].
  split; [|auto]. repeat split; congruence.
Qed.

Lemma keeps_instance st st' : instance st' = instance st -> keeps st st'.
Proof. unfold keeps. intros ->. unfold sameConstants. auto 10. Qed.

Lemma keeps_onWorld f st : keeps st (onWorld f st).
Proof. apply keeps_instance. reflexivity. Qed.

Lemma keeps_handleMouseEnter e st : keeps st (handleMouseEnter env e st).
Proof.
  unfold keeps, sameConstants, sessionInv, handleMouseEnter. cbv zeta.
  destruct (stringifiable (finalConfig (instance st))) eqn:E; cbn.
  - split; [auto 10|]. intros _.
    split; [eauto|]. split; discriminate.
  - split; [auto 10|]. intros (_ & I2 & _).
    split; [eauto|]. split; [exact I2|]. rewrite E. discriminate.
Qed.

Lemma keeps_handleMouseLeave e st : keeps st (handleMouseLeave e st).
Proof.
  unfold handleMouseLeave. destruct (savePos (instance st)) eqn:E.
  - unfold keeps, sameConstants, sessionInv. cbn.
    split; [auto 10|]. intros _.
    split; [intros [x Hx]; discriminate Hx|]. split; [discriminate|reflexivity].
  - apply keeps_refl.
Qed.

Lemma keeps_set_progress p st :
  keeps st
    (mkState (world st)
       (set_animationState (set_progress p (animationState (instance st)))
          (instance st))).
Proof. unfold keeps, sameConstants, sessionInv. cbn. auto 10. Qed.

Lemma keeps_world w p st :
  keeps st
    (mkState w
       (set_animationState (set_progress p (animationState (instance st)))
          (instance st))).
Proof. unfold keeps, sameConstants, sessionInv. cbn. auto 10. Qed.

Lemma keeps_handleMouseMove e st : keeps st (handleMouseMove env e st).
Proof.
  unfold handleMouseMove.
  destruct (noSession _ && negb _); [apply keeps_handleMouseEnter|].
  set (st1 := match savePos (instance st), elementPos (instance st) with
              | Some _, Some _ => st
              | _, _ => _
              end).
  assert (H1 : keeps st st1).
  { subst st1.
    destruct (savePos (instance st)); [destruct (elementPos (instance st))|];
      first [apply keeps_refl
            | eapply keeps_trans; [apply keeps_handleMouseEnter|apply keeps_onWorld]]. }
  cbv zeta. destruct (elementPos (instance st1)).
  - eapply keeps_trans; [exact H1|]. apply keeps_world.
  - exact H1.
Qed.

Lemma keeps_handleMouseUp e st : keeps st (handleMouseUp e st).
Proof.
  unfold handleMouseUp.
  eapply keeps_trans; [apply keeps_onWorld|apply keeps_handleMouseLeave].
Qed.

Lemma keeps_callListener ev st l : keeps st (callListener env ev st l).
Proof.
  destruct l, ev; cbn [callListener]; try apply keeps_refl.
  - apply keeps_handleMouseEnter.
  - apply keeps_handleMouseLeave.
  - apply keeps_handleMouseMove.
  - unfold handleTouchStart. destruct touches; [apply keeps_refl|].
    apply keeps_handleMouseEnter.
  - apply keeps_handleMouseLeave.
  - unfold handleTouchMove. destruct touches; [apply keeps_refl|].
    apply keeps_handleMouseMove.
  - apply keeps_handleMouseUp.
Qed.

Lemma keeps_callListeners ev ls : forall st,
  keeps st (fold_left (callListener env ev) ls st).
Proof.
  induction ls as [|l ls IH]; intros st; cbn [fold_left].
  - apply keeps_refl.
  - eapply keeps_trans; [apply keeps_callListener|apply IH].
Qed.

Lemma keeps_onEntry st entry : keeps st (onEntry st entry).
Proof.
  unfold onEntry. destruct (_ && _); [|apply keeps_refl].
  cbv zeta. destruct (numeric_ltb 0 _);
    unfold keeps, sameConstants, sessionInv; cbn; auto 10.
Qed.

Lemma keeps_observerCallback entries : forall st,
  keeps st (observerCallback entries st).
Proof.
  unfold observerCallback.
  induction entries as [|x entries IH]; intros st; cbn [fold_left].
  - apply keeps_refl.
  - eapply keeps_trans; [apply keeps_onEntry|apply IH].
Qed.

Lemma keeps_runCleanups cs : forall st, keeps st (fold_left runCleanup cs st).
Proof.
  induction cs as [|c cs IH]; intros st; cbn [fold_left].
  - apply keeps_refl.
  - eapply keeps_trans; [|apply IH].
    destruct c; cbn [runCleanup]; apply keeps_instance; reflexivity.
Qed.

Lemma keeps_destroy st : keeps st (destroy st).
Proof.
  unfold destroy. cbv zeta.
  set (st1 := fold_left runCleanup _ st).
  assert (H1 : keeps st st1) by apply keeps_runCleanups.
  match goal with
  | |- keeps _ (onAnimationState _ ?x) => set (st2 := x)
  end.
  assert (H2 : keeps st st2).
  { subst st2. destruct (parentNode _ _); [destruct (bool_decide _)|];
      try exact H1;
      (eapply keeps_trans; [exact H1|apply keeps_instance; reflexivity]). }
  eapply keeps_trans; [exact H2|].
  unfold keeps, sameConstants, sessionInv. cbn.
  split; [auto 10|]. intros (I1 & I2 & I3).
  split; [exact I1|]. split; discriminate.
Qed.

Lemma keeps_reset st : keeps st (reset st).
Proof.
  unfold keeps, sameConstants, sessionInv, reset. cbn.
  split; [auto 10|]. intros (I1 & I2 & I3).
  split; [exact I1|]. split; discriminate.
Qed.

Lemma keeps_trigger st : keeps st (trigger st).
Proof.
  unfold trigger.
  destruct (phase (animationState (instance st))) eqn:E;
    try apply keeps_refl;
    unfold keeps, sameConstants, sessionInv; cbn;
    (split; [auto 10|]); intros (I1 & I2 & I3);
    (split; [exact I1|]); split; discriminate.
Qed.

Lemma keeps_step st ev : keeps st (step env st ev).
Proof.
  destruct ev; cbn [step].
  - apply keeps_callListeners.
  - destruct (observed (world st)); [apply keeps_refl|].
    apply keeps_observerCallback.
  - destruct (nth_error _ _) as [[dl task]|]; [|apply keeps_refl].
    destruct task; cbn [runTask]; apply keeps_instance; reflexivity.
  - apply keeps_instance. reflexivity.
  - apply keeps_destroy.
  - apply keeps_reset.
  - apply keeps_trigger.
Qed.

Lemma keeps_run evs : forall st, keeps st (run env evs st).
Proof.
  unfold run. induction evs as [|ev evs IH]; intros st; cbn [fold_left].
  - apply keeps_refl.
  - eapply keeps_trans; [apply keeps_step|apply IH].
Qed.

(** A new instance has no session. *)
Lemma useStickerAnimation_sessionInv target config w w0 i0 :
  useStickerAnimation env target config w = (w0, Returned i0) ->
  sessionInv i0.
Proof.
  intros Hr.
  destruct (useStickerAnimation_returned_valid _ _ _ _ _ _ Hr) as (n & -> & Hin).
  destruct (useStickerAnimation_returns env n config w w0 i0 Hr)
    as (_ & _ & _ & _ & _ & _ & _ & Hs & _ & Hph & _).
  unfold sessionInv. rewrite Hs, Hph.
  split; [intros [x Hx]; discriminate Hx|]. split; [discriminate|reflexivity].
Qed.

End SessionInvariant.

(** X3.  In every state that an instance reaches from its construction,
    by any sequence of dispatched events, intersection entries, timeouts,
    clock ticks and calls of [destroy], [reset] and [trigger], a saved
    position comes with an element position: when [handleMouseLeave]
    passes its guard, the [elementPos] it asserts to be non-null is
    non-null.  The configuration, the target, the wrapper, the measured
    size, the layers and the cleanup functions of the instance are those
    of the construction. *)
Theorem session_has_element_position (env : Env) (target : JsValue)
  (config : option StickerAnimationConfig) (w w0 : World) (i0 : Instance)
  (evs : list Event) :
  useStickerAnimation env target config w = (w0, Returned i0) ->
  let st := run env evs (mkState w0 i0) in
  (is_Some (savePos (instance st)) -> is_Some (elementPos (instance st))) /\
  sameConstants i0 (instance st).
Proof.
  intros Hr st.
  destruct (keeps_run env evs (mkState w0 i0)) as [Hc Hi].
  split; [|exact Hc].
  apply Hi. exact (useStickerAnimation_sessionInv env _ _ _ _ _ Hr).
Qed.

(** X4.  In every state that an instance reaches from its construction the
    phase is one of [idle], [peeling] and [stuck], never [paused], so
    [trigger()] never finds a phase that it ignores: after it the phase is
    [peeling].  When none of the three configured numbers that
    [handleMouseEnter] prints (the shadow intensity, the perspective and
    the duration) is [undefined], a stuck sticker has no session:
    [savePos] is null whenever the phase is [stuck].  With one of them
    [undefined] the handler throws after it has saved the position and
    before it sets the phase, and this no longer holds. *)
Theorem phase_never_paused (env : Env) (target : JsValue)
  (config : option StickerAnimationConfig) (w w0 : World) (i0 : Instance)
  (evs : list Event) :
  useStickerAnimation env target config w = (w0, Returned i0) ->
  let st := run env evs (mkState w0 i0) in
  phase (animationState (instance st)) <> paused /\
  (stringifiable (finalConfig i0) = true ->
   phase (animationState (instance st)) = stuck -> savePos (instance st) = None) /\
  phase (animationState (instance (trigger st))) = peeling.
Proof.
  intros Hr st.
  destruct (keeps_run env evs (mkState w0 i0)) as [Hc Hi].
  destruct (Hi (useStickerAnimation_sessionInv env _ _ _ _ _ Hr)) as (_ & I2 & I3).
  fold st in I2, I3, Hc. destruct Hc as (Hfc & _).
  cbn [instance] in Hfc. rewrite Hfc in I3.
  split; [exact I2|]. split; [exact I3|].
  unfold trigger.
  destruct (phase (animationState (instance st))) eqn:E;
    first [reflexivity | exact E | contradiction I2; reflexivity].
Qed.

(** ** What [destroy] leaves behind *)

Section Destroy.

Lemma In_dropFirst_other r x l :
  registration_eqb x r = false -> In r l -> In r (dropFirst x l).
Proof.
  intros Hx. induction l as [|r' l IH]; cbn [dropFirst In]; [tauto|].
  intros [->|H].
  - rewrite Hx. left. reflexivity.
  - destruct (registration_eqb x r'); [exact H|]. right. apply IH, H.
Qed.

Lemma mouseUp_cleanupEvents dom w t ty e :
  In (t, ty, HandleMouseUp e) (listeners w) ->
  In (t, ty, HandleMouseUp e) (listeners (cleanupEvents dom w)).
Proof.
  intros H. unfold cleanupEvents, removeEventListener. cbn.
  repeat (apply In_dropFirst_other;
          [cbn; rewrite andb_false_r; reflexivity|]).
  exact H.
Qed.

Lemma runCleanups_world cs : forall st,
  let st' := fold_left runCleanup cs st in
  instance st' = instance st /\
  timers (world st') = timers (world st) /\
  forall t ty e, In (t, ty, HandleMouseUp e) (listeners (world st)) ->
                 In (t, ty, HandleMouseUp e) (listeners (world st')).
Proof.
  induction cs as [|c cs IH]; intros st; cbn [fold_left]; [auto|].
  destruct (IH (runCleanup st c)) as (I1 & I2 & I3).
  cbv zeta. rewrite I1, I2.
  destruct c; cbn [runCleanup]; (split; [reflexivity|]);
    (split; [reflexivity|]); intros t ty e H; apply I3; cbn; try exact H.
  apply mouseUp_cleanupEvents, H.
Qed.

Lemma destroy_world st :
  timers (world (destroy st)) = timers (world st) /\
  listeners (world (destroy st))
  = listeners (world (fold_left runCleanup (cleanupFunctions (instance st)) st)) /\
  instance (destroy st)
  = set_animationState
      (set_progress 0 (set_phase idle (animationState (instance st)))) (instance st).
Proof.
  unfold destroy. cbv zeta.
  destruct (runCleanups_world (cleanupFunctions (instance st)) st) as (I1 & I2 & _).
  set (st1 := fold_left runCleanup _ st) in *.
  destruct (parentNode _ _); [destruct (bool_decide _)|]; cbn; rewrite I1, I2;
    auto.
Qed.

End Destroy.

(** X5.  [destroy()] cancels no timeout and ends no session: the pending
    timeouts, the saved position, the element position and the trigger
    flag are as before, and every mouseup listener that a move put on the
    document is still registered; only the phase and the progress are
    reset.  So the mouseup listener of a destroyed instance with an open
    session still runs the leave: the phase goes from [idle] to [stuck]
    and another timeout is scheduled. *)
Theorem destroy_keeps_session (st : State) :
  let st' := destroy st in
  timers (world st') = timers (world st) /\
  (forall t ty e, In (t, ty, HandleMouseUp e) (listeners (world st)) ->
                  In (t, ty, HandleMouseUp e) (listeners (world st'))) /\
  savePos (instance st') = savePos (instance st) /\
  elementPos (instance st') = elementPos (instance st) /\
  hasTriggered (instance st') = hasTriggered (instance st) /\
  phase (animationState (instance st')) = idle /\
  progress (animationState (instance st')) = 0 /\
  (is_Some (savePos (instance st)) ->
   forall e,
     phase (animationState (instance (handleMouseUp e st'))) = stuck /\
     timers (world (handleMouseUp e st'))
     = timers (world st) ++ [(duration (finalConfig (instance st)), DropShadowFilter)]).
Proof.
  cbv zeta.
  destruct (destroy_world st) as (Ht & Hl & Hi).
  destruct (runCleanups_world (cleanupFunctions (instance st)) st) as (_ & _ & Hm).
  split; [exact Ht|].
  split; [intros t ty e H; rewrite Hl; apply Hm, H|].
  rewrite Hi. cbn.
  repeat (split; [reflexivity|]).
  intros [v Hv] e.
  unfold handleMouseUp, handleMouseLeave. cbn [onWorld instance world].
  rewrite Hi. cbn [savePos set_animationState]. rewrite Hv.
  cbn [world instance timers setTimeout set_timers set_document
       removeEventListener set_listeners finalConfig animationState
       set_animationState set_savePos phase set_progress set_phase].
  rewrite Ht. split; reflexivity.
Qed.

(** ** A session that a move starts *)

Section MoveSession.

Variable env : Env.

Lemma handleMouseEnter_world e st :
  let st' := handleMouseEnter env e st in
  listeners (world st') = listeners (world st) /\
  timers (world st') = timers (world st) /\
  documentNode (document (world st')) = documentNode (document (world st)) /\
  is_Some (savePos (instance st')) /\
  is_Some (elementPos (instance st')) /\
  (stringifiable (finalConfig (instance st)) = true ->
   phase (animationState (instance st')) = peeling) /\
  finalConfig (instance st') = finalConfig (instance st).
Proof.
  cbv zeta.
  destruct (handleMouseEnter_quiet env e st) as (_ & _ & _ & [Hd _] & _).
  split; [|split; [|split; [exact Hd|]]].
  1, 2: unfold handleMouseEnter; cbv zeta; destruct (stringifiable _); reflexivity.
  unfold handleMouseEnter. cbv zeta.
  destruct (stringifiable (finalConfig (instance st)));
    cbn [instance savePos elementPos set_animationState
      set_savePos set_currentDirection set_elementPos animationState phase
      set_phase set_state_direction set_startTime finalConfig];
    (split; [eauto|]); (split; [eauto|]); (split; [|reflexivity]).
  - reflexivity.
  - discriminate.
Qed.

Lemma registration_eqb_refl r : registration_eqb r r = true.
Proof.
  destruct r as [[t ty] l]. cbn.
  rewrite Nat.eqb_refl, String.eqb_refl. cbn.
  destruct l; cbn; try reflexivity.
  rewrite !Qeq_bool_refl. reflexivity.
Qed.

Lemma dropFirst_last r l :
  (forall r', In r' l -> registration_eqb r r' = false) ->
  dropFirst r (l ++ [r]) = l.
Proof.
  induction l as [|x l IH]; intros H; cbn [app dropFirst].
  - rewrite registration_eqb_refl. reflexivity.
  - rewrite (H x) by (left; reflexivity).
    rewrite IH; [reflexivity|]. intros r' Hr'. apply H. right. exact Hr'.
Qed.

Lemma filter_none {A} (f : A -> bool) (l : list A) :
  (forall x, In x l -> f x = false) -> List.filter f l = [].
Proof.
  induction l as [|a l IH]; intros H; cbn [List.filter]; [reflexivity|].
  rewrite (H a) by (left; reflexivity).
  apply IH. intros x Hx. apply H. right. exact Hx.
Qed.

(** The state in which a leave that ends a session leaves the instance. *)
Lemma handleMouseLeave_ends e st :
  is_Some (savePos (instance st)) ->
  let st' := handleMouseLeave e st in
  phase (animationState (instance st')) = stuck /\
  progress (animationState (instance st')) = 1 /\
  savePos (instance st') = None /\
  timers (world st')
  = timers (world st) ++ [(duration (finalConfig (instance st)), DropShadowFilter)] /\
  listeners (world st') = listeners (world st).
Proof.
  intros [v Hv]. cbv zeta. unfold handleMouseLeave. rewrite Hv.
  repeat split; reflexivity.
Qed.

(** The state in which a move without a session leaves the instance. *)
Lemma handleMouseMove_starts e st :
  savePos (instance st) = None ->
  stringifiable (finalConfig (instance st)) = true ->
  let st' := handleMouseMove env e st in
  listeners (world st')
  = listeners (world st)
    ++ [(documentNode (document (world st)), "mouseup", HandleMouseUp e)] /\
  timers (world st') = timers (world st) /\
  documentNode (document (world st')) = documentNode (document (world st)) /\
  is_Some (savePos (instance st')) /\
  phase (animationState (instance st')) = peeling /\
  finalConfig (instance st') = finalConfig (instance st).
Proof.
  intros Hs Hstr. cbv zeta.
  destruct (handleMouseMove_quiet env e st) as (_ & _ & Hfc & [Hd _] & _).
  destruct (handleMouseEnter_world e st) as (El & Et & Ed & Es & Ep & Eph & _).
  cbv zeta in El, Et, Ed, Es, Ep, Eph. specialize (Eph Hstr).
  split; [|split; [|split; [exact Hd|split; [|split; [|exact Hfc]]]]];
    unfold handleMouseMove; rewrite Hstr; cbn [negb]; rewrite andb_false_r, Hs;
    cbv zeta;
    cbn [onWorld instance world]; destruct Ep as [pos Ep]; rewrite Ep;
    cbn [instance world listeners timers set_document addEventListener
         set_listeners savePos set_animationState animationState phase
         set_progress].
  - rewrite El, Ed. reflexivity.
  - exact Et.
  - exact Es.
  - exact Eph.
Qed.

End MoveSession.

(** X6.  A move that arrives while no session is open opens one and puts
    one mouseup listener on the document; when that listener runs it
    takes itself off again and ends the session like a leave.  With no
    other listener for mouseup on the document, the dispatch of a mouseup
    to the document after such a move leaves the listeners exactly as
    they were before the move, the phase [stuck] with progress 1, no saved
    position, and one more pending timeout, of the configured duration.
    This is so whenever none of the three configured numbers that
    [handleMouseEnter] prints is [undefined] (NaN and the infinities
    included).  With one of them [undefined] the enter inside the move
    throws: the position is saved, but the phase stays as it was and no
    mouseup listener is put on the document, so that the mouseup finds
    nothing to run. *)
Theorem move_then_mouseup (env : Env) (e e' : MouseEvent) (st : State) :
  savePos (instance st) = None ->
  (forall r, In r (listeners (world st)) ->
             fst r <> (documentNode (document (world st)), "mouseup")) ->
  let dn := documentNode (document (world st)) in
  let st1 := handleMouseMove env e st in
  let st2 := step env st1 (Dispatch dn "mouseup" (MouseEv e')) in
  (stringifiable (finalConfig (instance st)) = true ->
   (listeners (world st1) = listeners (world st) ++ [(dn, "mouseup", HandleMouseUp e)] /\
    is_Some (savePos (instance st1)) /\
    phase (animationState (instance st1)) = peeling) /\
   (listeners (world st2) = listeners (world st) /\
    savePos (instance st2) = None /\
    phase (animationState (instance st2)) = stuck /\
    progress (animationState (instance st2)) = 1 /\
    timers (world st2)
    = timers (world st) ++ [(duration (finalConfig (instance st)), DropShadowFilter)])) /\
  (stringifiable (finalConfig (instance st)) = false ->
   listeners (world st1) = listeners (world st) /\
   is_Some (savePos (instance st1)) /\
   phase (animationState (instance st1)) = phase (animationState (instance st)) /\
   st2 = st1).
Proof.
  intros Hs Hno. cbv zeta. split; intros Hstr.
  - destruct (handleMouseMove_starts env e st Hs Hstr)
      as (Hl & Ht & Hd & [v Hv] & Hph & Hfc).
    cbv zeta in Hl, Ht, Hd, Hv, Hph, Hfc.
    split; [split; [exact Hl|split; [eauto|exact Hph]]|].
    set (st1 := handleMouseMove env e st) in *.
    set (dn := documentNode (document (world st))) in *.
    assert (Hnone : forall r', In r' (listeners (world st)) ->
              registration_eqb (dn, "mouseup", HandleMouseUp e) r' = false).
    { intros [[t ty] l] Hr. specialize (Hno _ Hr). cbn [fst] in Hno.
      unfold registration_eqb.
      destruct (Nat.eqb_spec dn t) as [<-|]; [|reflexivity].
      destruct (String.eqb_spec "mouseup" ty) as [<-|]; [|reflexivity].
      contradiction Hno. reflexivity. }
    assert (Hcalled :
      List.map snd
        (List.filter
           (fun r => Nat.eqb (fst (fst r)) dn && String.eqb (snd (fst r)) "mouseup")
           (listeners (world st1))) = [HandleMouseUp e]).
    { rewrite Hl, List.filter_app, List.map_app.
      rewrite filter_none.
      - cbn [List.filter fst snd]. rewrite Nat.eqb_refl. reflexivity.
      - intros [[t ty] l] Hr. specialize (Hno _ Hr). cbn [fst snd] in Hno |- *.
        destruct (Nat.eqb_spec t dn) as [->|]; [|reflexivity].
        destruct (String.eqb_spec ty "mouseup") as [->|]; [|reflexivity].
        contradiction Hno. reflexivity. }
    cbn [step]. rewrite Hcalled. cbn [fold_left callListener].
    unfold handleMouseUp.
    set (st1' := onWorld _ st1).
    assert (Hv' : is_Some (savePos (instance st1'))) by (subst st1'; cbn; eauto).
    destruct (handleMouseLeave_ends e st1' Hv') as (L1 & L2 & L3 & L4 & L5).
    rewrite L1, L2, L3, L4, L5. subst st1'.
    cbn [onWorld world instance removeEventListener set_listeners listeners timers].
    rewrite Hd, Hl, Ht, Hfc.
    rewrite dropFirst_last by exact Hnone.
    repeat split; reflexivity.
  - assert (E : handleMouseMove env e st = handleMouseEnter env e st).
    { unfold handleMouseMove, noSession. rewrite Hs, Hstr. reflexivity. }
    rewrite E.
    destruct (handleMouseEnter_world env e st) as (El & _ & _ & Es & _).
    cbv zeta in El, Es.
    split; [exact El|]. split; [exact Es|]. split.
    + unfold handleMouseEnter. cbv zeta. rewrite Hstr. reflexivity.
    + cbn [step]. rewrite El. rewrite filter_none; [reflexivity|].
      intros [[t ty] l] Hr. specialize (Hno _ Hr). cbn [fst snd] in Hno |- *.
      destruct (Nat.eqb_spec t (documentNode (document (world st)))) as [->|];
        [|reflexivity].
      destruct (String.eqb_spec ty "mouseup") as [->|]; [|reflexivity].
      contradiction Hno. reflexivity.
Qed.

(** ** The example page *)

#[local] Instance onSamplePage_dec st0 : Decision (onSamplePage st0).
Proof. unfold onSamplePage, distinctLayers. apply _. Defined.

Lemma sample_session :
  exists st0 : State,
    Sample.construct (JsObject 5) None = Some st0 /\ onSamplePage st0.
Proof.
  assert (H : match Sample.construct (JsObject 5) None with
              | Some st0 => onSamplePage st0
              | None => False
              end).
  { apply (holds_by_decision _ onSamplePage). vm_compute. reflexivity. }
  destruct (Sample.construct (JsObject 5) None) as [st0|]; [|destruct H].
  exists st0. split; [reflexivity|exact H].
Qed.

(** A leave at (520, 130) on the card of the example page, after an enter
    near its left edge: the back face goes 400 to the left. *)
Lemma handleMouseLeave_snaps_back_witness :
  exists st : State,
    is_Some (savePos (instance st)) /\
    distinctLayers (stickerDOM (instance st)) /\
    let st' := handleMouseLeave (mkMouseEvent 520 130) st in
    getStyle (document (world st')) 17 "transform" = CssTranslate (-400) 0 /\
    getStyle (document (world st')) 12 "width" = CssPx 400 /\
    phase (animationState (instance st')) = stuck /\
    timers (world st') = [(Finite 800, DropShadowFilter)].
Proof.
  destruct sample_session
    as (st0 & _ & (_ & S2 & S3 & _ & _ & _ & S7 & _) & (E1 & _ & E3 & E4 & E5 & E6)).
  exists (handleMouseEnter Sample.env sampleEnter st0).
  assert (Hs : is_Some (savePos (instance (handleMouseEnter Sample.env sampleEnter st0))))
    by (rewrite E1; eauto).
  assert (Hd : distinctLayers
                 (stickerDOM (instance (handleMouseEnter Sample.env sampleEnter st0))))
    by (rewrite E5; exact S2).
  split; [exact Hs|]. split; [exact Hd|].
  destruct (handleMouseLeave_snaps_back (mkMouseEvent 520 130) _ Hs Hd)
    as ((M1 & _ & _ & _ & B & _) & _ & (P1 & _) & T & _).
  destruct (handleMouseEnter_world Sample.env sampleEnter st0) as (_ & Et & _).
  cbv zeta in Et.
  rewrite E3, E4, E5, S3 in B. rewrite E4, E5, S3 in M1.
  rewrite E6, Et, S7 in T.
  cbv zeta. split; [exact B|]. split; [exact M1|]. split; [exact P1|exact T].
Defined.

(** A move to (200, 130) in the same session: a quarter of the card is
    peeled. *)
Lemma handleMouseMove_progress_witness :
  exists st : State,
    is_Some (savePos (instance st)) /\
    progress (animationState
                (instance (handleMouseMove Sample.env (mkMouseEvent 200 130) st)))
    == 1 # 4.
Proof.
  destruct sample_session
    as (st0 & _ & (_ & S2 & _) & (E1 & E2 & E3 & E4 & E5 & _)).
  exists (handleMouseEnter Sample.env sampleEnter st0).
  split; [rewrite E1; eauto|].
  assert (Hd : distinctLayers
                 (stickerDOM (instance (handleMouseEnter Sample.env sampleEnter st0))))
    by (rewrite E5; exact S2).
  pose proof (handleMouseMove_progress Sample.env (mkMouseEvent 200 130) _ _ _
                E1 E2 Hd) as H.
  cbv zeta in H. rewrite E3, E4 in H.
  destruct H as (H & _).
  - reflexivity.
  - split; discriminate.
  - rewrite H. reflexivity.
Defined.

(** The instance on the card of the example page after the example
    session. *)
Lemma session_has_element_position_witness :
  exists w0 i0,
    useStickerAnimation Sample.env (JsObject 5) None Sample.world = (w0, Returned i0) /\
    let st := run Sample.env exampleSession (mkState w0 i0) in
    (is_Some (savePos (instance st)) -> is_Some (elementPos (instance st))) /\
    stickerDOM (instance st) = stickerDOM i0.
Proof.
  assert (Hin : 5%nat ∈ htmlElements (document Sample.world))
    by (apply isHTMLElement_decide; vm_compute; reflexivity).
  destruct sample_returns as (w0 & i0 & Hr).
  exists w0, i0. split; [exact Hr|].
  destruct (session_has_element_position Sample.env _ _ _ _ _ exampleSession Hr)
    as (H1 & _ & _ & _ & _ & H5 & _).
  split; [exact H1|exact H5].
Defined.

(** The instance on the card of the example page after the example
    session; and an instance with [perspective: undefined] after an enter,
    a leave and a second enter: it is stuck with a saved position. *)
Lemma phase_never_paused_witness :
  (exists w0 i0,
     useStickerAnimation Sample.env (JsObject 5) None Sample.world = (w0, Returned i0) /\
     let st := run Sample.env exampleSession (mkState w0 i0) in
     phase (animationState (instance st)) <> paused /\
     (phase (animationState (instance st)) = stuck -> savePos (instance st) = None) /\
     phase (animationState (instance (trigger st))) = peeling) /\
  match Sample.construct (JsObject 5)
          (Some (mkConfig None None None None None (Some Undefined) None)) with
  | Some st0 =>
      let st :=
        run Sample.env
          [Dispatch 11 "mouseenter" (MouseEv (mkMouseEvent 150 120));
           Dispatch 11 "mouseleave" (MouseEv (mkMouseEvent 520 130));
           Dispatch 11 "mouseenter" (MouseEv (mkMouseEvent 150 120))] st0 in
      stringifiable (finalConfig (instance st0)) = false /\
      phase (animationState (instance st)) = stuck /\
      is_Some (savePos (instance st))
  | None => False
  end.
Proof.
  split.
  - destruct sample_returns as (w0 & i0 & Hr).
    exists w0, i0. split; [exact Hr|].
    destruct (phase_never_paused Sample.env _ _ _ _ _ exampleSession Hr)
      as (H1 & H2 & H3).
    split; [exact H1|]. split; [|exact H3].
    apply H2.
    destruct (useStickerAnimation_returns Sample.env 5 None Sample.world w0 i0 Hr)
      as (_ & Hfc & _).
    rewrite Hfc. reflexivity.
  - apply (holds_by_decision _
             (fun st0 =>
                stringifiable (finalConfig (instance st0)) = false /\
                phase (animationState
                         (instance
                            (run Sample.env
                               [Dispatch 11 "mouseenter" (MouseEv (mkMouseEvent 150 120));
                                Dispatch 11 "mouseleave" (MouseEv (mkMouseEvent 520 130));
                                Dispatch 11 "mouseenter" (MouseEv (mkMouseEvent 150 120))]
                               st0))) = stuck /\
                is_Some (savePos
                           (instance
                              (run Sample.env
                                 [Dispatch 11 "mouseenter" (MouseEv (mkMouseEvent 150 120));
                                  Dispatch 11 "mouseleave" (MouseEv (mkMouseEvent 520 130));
                                  Dispatch 11 "mouseenter" (MouseEv (mkMouseEvent 150 120))]
                                 st0))))).
    vm_compute. reflexivity.
Defined.

(** A move to (260, 130) on the new instance of the example page, and the
    mouseup that follows it. *)
Lemma move_then_mouseup_witness :
  exists st : State,
    savePos (instance st) = None /\
    let st1 := handleMouseMove Sample.env (mkMouseEvent 260 130) st in
    let st2 := step Sample.env st1 (Dispatch 0 "mouseup" (MouseEv (mkMouseEvent 300 90))) in
    listeners (world st1)
    = containerListeners 11 ++ [(0%nat, "mouseup", HandleMouseUp (mkMouseEvent 260 130))] /\
    listeners (world st2) = containerListeners 11 /\
    phase (animationState (instance st2)) = stuck /\
    timers (world st2) = [(Finite 800, DropShadowFilter)].
Proof.
  destruct sample_session
    as (st0 & _ & (_ & _ & _ & S4 & S5 & S6 & S7 & S8) & _).
  exists st0. split; [exact S4|].
  assert (Hno : forall r, In r (listeners (world st0)) ->
                          fst r <> (documentNode (document (world st0)), "mouseup")).
  { intros r Hr. rewrite S5 in Hr. rewrite S6.
    cbn [containerListeners In] in Hr.
    destruct Hr as [<-|[<-|[<-|[<-|[<-|[<-|[]]]]]]]; cbn [fst]; intros H;
      inversion H. }
  assert (Hstr : stringifiable (finalConfig (instance st0)) = true)
    by (rewrite S8; reflexivity).
  pose proof (move_then_mouseup Sample.env (mkMouseEvent 260 130)
                (mkMouseEvent 300 90) st0 S4 Hno) as H.
  cbv zeta in H. destruct H as [H _]. specialize (H Hstr).
  rewrite S5, S6, S7, S8 in H.
  destruct H as ((H1 & _) & (H2 & _ & H3 & _ & H4)).
  cbv zeta. split; [exact H1|]. split; [exact H2|]. split; [exact H3|exact H4].
Defined.

(** ** A configuration that passes the checks *)

(** A value that passes a test is not caught by the opposite one. *)
Lemma positive_not_low (v : Numeric) :
  numeric_ltb 0 v = true -> numeric_leb v 0 = false.
Proof.
  destruct v as [| | | |q]; cbn [numeric_ltb numeric_leb]; try discriminate;
    try reflexivity.
  rewrite ltb_lt, leb_gt. trivial.
Qed.

Lemma inUnitInterval_not_outside (v : Numeric) :
  inUnitInterval v = true -> numeric_ltb v 0 || numeric_ltb 1 v = false.
Proof.
  unfold inUnitInterval.
  destruct v as [| | | |q]; cbn [numeric_ltb numeric_leb andb orb];
    try discriminate.
  rewrite andb_true_iff, orb_false_iff, !leb_le, !ltb_ge. trivial.
Qed.

(** The two checks write the duration and the shadow intensity only. *)
Lemma checks_keep (fc : RequiredConfig) (w : World) :
  let fc' := fst (checkShadowIntensity (checkDuration (fc, w))) in
  easing fc' = easing fc /\
  direction fc' = direction fc /\
  delay fc' = delay fc /\
  perspective fc' = perspective fc /\
  observerOptions fc' = observerOptions fc.
Proof.
  unfold checkDuration, checkShadowIntensity.
  destruct (numeric_leb (duration fc) 0); cbn [fst snd];
    match goal with
    | |- context [if ?b then _ else _] => destruct b
    end; cbn; auto.
Qed.

(** X7.  For a target that is an HTMLElement, only the duration and the
    shadow intensity are checked.  Whenever the call returns, the easing,
    the direction, the delay, the perspective and the observer options of
    the effective configuration are those of the merged configuration,
    whatever their values (a negative delay is kept).  When neither test
    catches its value, no warning is written, and a call that returns has
    the merged configuration as its effective one; this is so for a
    positive duration with a shadow intensity in [0, 1], both bounds
    included. *)
Theorem useStickerAnimation_keeps_valid_config (env : Env) (target : nat)
  (config : option StickerAnimationConfig) (w w' : World)
  (r : Completion Instance) :
  target ∈ htmlElements (document w) ->
  useStickerAnimation env (JsObject target) config w = (w', r) ->
  let merged := mergeConfig config in
  let caught :=
    numeric_leb (duration merged) 0
    || (numeric_ltb (shadowIntensity merged) 0
        || numeric_ltb 1 (shadowIntensity merged)) in
  (forall i, r = Returned i ->
     easing (finalConfig i) = easing merged /\
     direction (finalConfig i) = direction merged /\
     delay (finalConfig i) = delay merged /\
     perspective (finalConfig i) = perspective merged /\
     observerOptions (finalConfig i) = observerOptions merged) /\
  (caught = false ->
   warnings w' = warnings w /\
   forall i, r = Returned i -> finalConfig i = merged) /\
  (numeric_ltb 0 (duration merged) = true ->
   inUnitInterval (shadowIntensity merged) = true -> caught = false).
Proof.
  intros Hin Hr merged caught.
  pose proof (useStickerAnimation_warnings env target config w Hin) as Hw.
  rewrite Hr in Hw. cbn [fst] in Hw. fold merged in Hw.
  assert (Hfc : forall i, r = Returned i ->
            finalConfig i = fst (checkShadowIntensity (checkDuration (merged, w)))).
  { intros i ->.
    destruct (useStickerAnimation_returns env target config w w' i Hr)
      as (_ & Hfc & _). exact Hfc. }
  split; [|split].
  - intros i Hi. rewrite (Hfc i Hi). apply checks_keep.
  - intros Hc. subst caught.
    apply orb_false_iff in Hc. destruct Hc as [Hd Hs].
    assert (E : checkShadowIntensity (checkDuration (merged, w)) = (merged, w)).
    { unfold checkDuration. rewrite Hd.
      unfold checkShadowIntensity. rewrite Hs. reflexivity. }
    rewrite E in Hw. split; [exact Hw|].
    intros i Hi. rewrite (Hfc i Hi), E. reflexivity.
  - intros Hd Hs. subst caught.
    rewrite (positive_not_low _ Hd), (inUnitInterval_not_outside _ Hs).
    reflexivity.
Qed.

(** The defaults pass the checks, and so does a shadow intensity of 1 with
    a duration of 1. *)
Lemma useStickerAnimation_keeps_valid_config_witness :
  let c := mkConfig (Some (Finite 1)) None None (Some (Finite (-3)))
             (Some (Finite 1)) None None in
  5%nat ∈ htmlElements (document Sample.world) /\
  (exists w' i,
     useStickerAnimation Sample.env (JsObject 5) None Sample.world = (w', Returned i) /\
     finalConfig i = DEFAULT_CONFIG /\ warnings w' = []) /\
  (exists w' i,
     useStickerAnimation Sample.env (JsObject 5) (Some c) Sample.world
     = (w', Returned i) /\
     duration (finalConfig i) = 1 /\ shadowIntensity (finalConfig i) = 1 /\
     delay (finalConfig i) = -3 /\ warnings w' = []).
Proof.
  intros c.
  assert (Hin : 5%nat ∈ htmlElements (document Sample.world))
    by (apply isHTMLElement_decide; vm_compute; reflexivity).
  split; [exact Hin|]. split.
  - destruct sample_returns as (w' & i & Hr).
    destruct (useStickerAnimation_keeps_valid_config Sample.env 5 None
                Sample.world w' (Returned i) Hin Hr) as (_ & H & _).
    exists w', i. split; [exact Hr|].
    destruct H as [H1 H2]; [reflexivity|].
    split; [exact (H2 i eq_refl)|exact H1].
  - assert (H : match snd (useStickerAnimation Sample.env (JsObject 5) (Some c)
                             Sample.world) with
                | Returned _ => true
                | Thrown _ => false
                end = true) by (vm_compute; reflexivity).
    destruct (useStickerAnimation Sample.env (JsObject 5) (Some c) Sample.world)
      as [w' [i|e]] eqn:Hr; [|discriminate H].
    destruct (useStickerAnimation_keeps_valid_config Sample.env 5 (Some c)
                Sample.world w' (Returned i) Hin Hr) as (_ & H' & _).
    exists w', i. split; [reflexivity|].
    destruct H' as [H1 H2]; [reflexivity|].
    rewrite (H2 i eq_refl). repeat split; try reflexivity. exact H1.
Defined.

(** ** What [destroy] releases *)

Section Release.

Variable env : Env.

Lemma ownListeners_app_up l t ty e :
  ownListeners (l ++ [(t, ty, HandleMouseUp e)]) = ownListeners l.
Proof.
  unfold ownListeners. rewrite List.filter_app. cbn. apply app_nil_r.
Qed.

Lemma ownListeners_dropFirst_up l t ty e :
  ownListeners (dropFirst (t, ty, HandleMouseUp e) l) = ownListeners l.
Proof.
  unfold ownListeners.
  induction l as [|[[t' ty'] l'] l IH]; cbn [dropFirst List.filter]; [reflexivity|].
  destruct (registration_eqb (t, ty, HandleMouseUp e) (t', ty', l')) eqn:E.
  - unfold registration_eqb in E.
    destruct l'; cbn [listener_eqb] in E; rewrite ?andb_false_r in E;
      try discriminate E.
    reflexivity.
  - cbn [List.filter]. rewrite IH. reflexivity.
Qed.

Lemma ownListeners_dropFirst_own r l :
  isUp r = false ->
  ownListeners (dropFirst r l) = dropFirst r (ownListeners l).
Proof.
  intros Hr. unfold ownListeners.
  induction l as [|x l IH]; cbn [dropFirst List.filter]; [reflexivity|].
  destruct (registration_eqb r x) eqn:E.
  - assert (Hx : isUp x = false).
    { destruct r as [[t ty] lr], x as [[t' ty'] lx]. unfold isUp in *.
      cbn [snd] in *. unfold registration_eqb in E.
      destruct lr; try discriminate Hr;
        destruct lx; cbn [listener_eqb] in E; rewrite ?andb_false_r in E;
        try discriminate E; reflexivity. }
    rewrite Hx. cbn [negb dropFirst]. rewrite E. reflexivity.
  - cbn [List.filter]. destruct (negb (isUp x)); cbn [dropFirst].
    + rewrite E, IH. reflexivity.
    + exact IH.
Qed.

Lemma own_handleMouseEnter e st :
  listeners (world (handleMouseEnter env e st)) = listeners (world st).
Proof.
  unfold handleMouseEnter. cbv zeta. destruct (stringifiable _); reflexivity.
Qed.

Lemma own_handleMouseLeave e st :
  listeners (world (handleMouseLeave e st)) = listeners (world st).
Proof.
  unfold handleMouseLeave. destruct (savePos (instance st)); reflexivity.
Qed.

Lemma own_handleMouseMove e st :
  ownListeners (listeners (world (handleMouseMove env e st)))
  = ownListeners (listeners (world st)).
Proof.
  unfold handleMouseMove.
  destruct (noSession _ && negb _); [rewrite own_handleMouseEnter; reflexivity|].
  set (st1 := match savePos (instance st), elementPos (instance st) with
              | Some _, Some _ => st
              | _, _ => _
              end).
  assert (H1 : ownListeners (listeners (world st1)) = ownListeners (listeners (world st))).
  { subst st1.
    destruct (savePos (instance st)); [destruct (elementPos (instance st))|];
      try reflexivity;
      cbn [onWorld world addEventListener listeners set_listeners];
      rewrite ownListeners_app_up, own_handleMouseEnter; reflexivity. }
  cbv zeta. destruct (elementPos (instance st1)); exact H1.
Qed.

Lemma own_handleMouseUp e st :
  ownListeners (listeners (world (handleMouseUp e st)))
  = ownListeners (listeners (world st)).
Proof.
  unfold handleMouseUp. rewrite own_handleMouseLeave.
  cbn [onWorld world removeEventListener listeners set_listeners].
  apply ownListeners_dropFirst_up.
Qed.

Lemma own_callListener ev st l :
  ownListeners (listeners (world (callListener env ev st l)))
  = ownListeners (listeners (world st)).
Proof.
  destruct l, ev; cbn [callListener]; try reflexivity.
  - rewrite own_handleMouseEnter. reflexivity.
  - rewrite own_handleMouseLeave. reflexivity.
  - apply own_handleMouseMove.
  - unfold handleTouchStart. destruct touches; [reflexivity|].
    rewrite own_handleMouseEnter. reflexivity.
  - unfold handleTouchEnd. rewrite own_handleMouseLeave. reflexivity.
  - unfold handleTouchMove. destruct touches; [reflexivity|].
    apply own_handleMouseMove.
  - apply own_handleMouseUp.
Qed.

Lemma own_callListeners ev ls : forall st,
  ownListeners (listeners (world (fold_left (callListener env ev) ls st)))
  = ownListeners (listeners (world st)).
Proof.
  induction ls as [|l ls IH]; intros st; cbn [fold_left]; [reflexivity|].
  rewrite IH. apply own_callListener.
Qed.

Lemma own_observerCallback entries : forall st,
  listeners (world (observerCallback entries st)) = listeners (world st).
Proof.
  unfold observerCallback.
  induction entries as [|x entries IH]; intros st; cbn [fold_left]; [reflexivity|].
  rewrite IH. unfold onEntry. destruct (_ && _); [|reflexivity].
  cbv zeta. destruct (numeric_ltb 0 _); reflexivity.
Qed.

(** The cleanup of the six listeners. *)
Lemma own_cleanupEvents dom w :
  ownListeners (listeners w) = containerListeners (container dom) \/
  ownListeners (listeners w) = [] ->
  ownListeners (listeners (cleanupEvents dom w)) = [].
Proof.
  intros H. unfold cleanupEvents, removeEventListener. cbv zeta.
  cbn [listeners set_listeners].
  rewrite !ownListeners_dropFirst_own by reflexivity.
  destruct H as [-> | ->]; [|reflexivity].
  unfold containerListeners.
  repeat (cbn [dropFirst]; rewrite registration_eqb_refl).
  reflexivity.
Qed.

Lemma own_runCleanups cs : forall st,
  sixOrNone (container (stickerDOM (instance st))) st ->
  let st' := fold_left runCleanup cs st in
  sixOrNone (container (stickerDOM (instance st))) st' /\
  (In CleanupEvents cs -> ownListeners (listeners (world st')) = []) /\
  (In CleanupObserver cs -> observed (world st') = []) /\
  (observed (world st) = [] -> observed (world st') = []).
Proof.
  induction cs as [|c cs IH]; intros st H; cbn [fold_left]; cbv zeta.
  - split; [exact H|]. split; [intros []|]. split; [intros []|auto].
  - assert (Hi : instance (runCleanup st c) = instance st)
      by (destruct c; reflexivity).
    assert (H1 : sixOrNone (container (stickerDOM (instance st))) (runCleanup st c) /\
                 (c = CleanupEvents ->
                  ownListeners (listeners (world (runCleanup st c))) = []) /\
                 (c = CleanupObserver -> observed (world (runCleanup st c)) = []) /\
                 (observed (world st) = [] -> observed (world (runCleanup st c)) = [])).
    { destruct c; cbn [runCleanup onWorld world].
      - split; [exact H|]. split; [discriminate|]. split; [discriminate|auto].
      - pose proof (own_cleanupEvents (stickerDOM (instance st)) (world st) H) as E.
        split; [right; exact E|]. split; [intros _; exact E|].
        split; [discriminate|auto].
      - split; [exact H|]. split; [discriminate|]. split; reflexivity.
      - split; [exact H|]. split; [discriminate|]. split; [discriminate|auto]. }
    destruct H1 as (A1 & A2 & A3 & A4).
    rewrite <- Hi in A1.
    destruct (IH (runCleanup st c) A1) as (B1 & B2 & B3 & B4).
    cbv zeta in B1, B2, B3, B4. rewrite Hi in B1.
    split; [exact B1|]. split; [|split].
    + intros [->|Hin]; [|apply B2, Hin].
      destruct B1 as [B|B]; [|exact B].
      (* the six were removed and nothing puts them back *)
      specialize (A2 eq_refl).
      clear - A2 IH Hi. revert A2. generalize (runCleanup st CleanupEvents).
      clear. induction cs as [|c cs IHc]; intros st0 H0; cbn [fold_left];
        [exact H0|].
      apply IHc. destruct c; cbn [runCleanup onWorld world]; try exact H0.
      apply own_cleanupEvents. right. exact H0.
    + intros [->|Hin]; [|apply B3, Hin]. apply B4, A3. reflexivity.
    + intros Ho. apply B4, A4, Ho.
Qed.

Lemma own_step c st ev :
  container (stickerDOM (instance st)) = c ->
  sixOrNone c st -> sixOrNone c (step env st ev).
Proof.
  intros Hc H. unfold sixOrNone in *.
  destruct ev; cbn [step].
  - rewrite own_callListeners. exact H.
  - destruct (observed (world st)); [exact H|].
    rewrite own_observerCallback. exact H.
  - destruct (nth_error _ _) as [[dl task]|]; [|exact H].
    destruct task; exact H.
  - exact H.
  - destruct (destroy_world st) as (_ & Hl & _). rewrite Hl.
    subst c.
    destruct (own_runCleanups (cleanupFunctions (instance st)) st H) as (B1 & _).
    exact B1.
  - exact H.
  - unfold trigger. destruct (phase _); exact H.
Qed.

Lemma own_run c evs : forall st,
  container (stickerDOM (instance st)) = c ->
  sixOrNone c st -> sixOrNone c (run env evs st).
Proof.
  unfold run. induction evs as [|ev evs IH]; intros st Hc H; cbn [fold_left];
    [exact H|].
  apply IH.
  - destruct (keeps_step env st ev) as [(_ & _ & _ & _ & E & _) _]. congruence.
  - apply own_step; assumption.
Qed.

(** The cleanup functions of a new instance. *)
Lemma useStickerAnimation_cleanups target config w w0 i0 :
  useStickerAnimation env target config w = (w0, Returned i0) ->
  In CleanupEvents (cleanupFunctions i0) /\
  (intersectionObserverInWindow env = true ->
   In CleanupObserver (cleanupFunctions i0)).
Proof.
  unfold useStickerAnimation, invalidTarget.
  destruct target as [| | |n]; try discriminate.
  destruct (negb _); [discriminate|].
  destruct (checkDuration (mergeConfig config, w)) as [fc1 w1].
  destruct (checkShadowIntensity (fc1, w1)) as [fc2 w2].
  destruct (injectGlobalStyles (document w2)) as [injected d1].
  destruct (createElement "div" d1) as [wrapper d2].
  wrapped_or_thrown.
  destruct (createStickerDOM _ _ _ _) as [dom d4].
  destruct (insertStickerDOM _ _ _ _) as [d5 [[]|e]]; [|discriminate].
  destruct (intersectionObserverInWindow env);
    [destruct (newIntersectionObserver env _); [discriminate|]|];
    intros H; inversion H;
    cbn [cleanupFunctions]; split; try discriminate;
    rewrite ?in_app_iff; cbn [In]; auto 10.
Qed.

End Release.

Lemma destroy_observed st :
  observed (world (destroy st))
  = observed (world (fold_left runCleanup (cleanupFunctions (instance st)) st)).
Proof.
  unfold destroy. cbv zeta.
  set (st1 := fold_left runCleanup _ st).
  destruct (parentNode _ _); [destruct (bool_decide _)|]; reflexivity.
Qed.

Lemma ownListeners_nil l r : ownListeners l = [] -> In r l -> isUp r = true.
Proof.
  unfold ownListeners. intros H Hr.
  destruct (isUp r) eqn:E; [reflexivity|].
  assert (Hin : In r (List.filter (fun r => negb (isUp r)) l)).
  { apply List.filter_In. split; [exact Hr|]. rewrite E. reflexivity. }
  rewrite H in Hin. destruct Hin.
Qed.

(** X27.  In every state that an instance reaches from a construction in
    a world without listeners, [destroy()] takes the six listeners off the
    container and, when the browser has IntersectionObserver, disconnects
    the observer: every listener that is left is a mouseup listener that a
    move put on the document, and nothing is observed.  This holds for a
    second [destroy()] too, and whatever happened before. *)
Theorem destroy_releases (env : Env) (target : JsValue)
  (config : option StickerAnimationConfig) (w w0 : World) (i0 : Instance)
  (evs : list Event) :
  listeners w = [] ->
  useStickerAnimation env target config w = (w0, Returned i0) ->
  let st := run env evs (mkState w0 i0) in
  let dn := documentNode (document w0) in
  (forall r, In r (listeners (world (destroy st))) -> isMouseUp dn r) /\
  (forall r, In r (containerListeners (container (stickerDOM i0))) ->
             ~ In r (listeners (world (destroy st)))) /\
  (intersectionObserverInWindow env = true ->
   observed (world (destroy st)) = []).
Proof.
  intros Hl Hr. cbv zeta.
  set (st := run env evs (mkState w0 i0)).
  set (c := container (stickerDOM i0)).
  destruct (keeps_run env evs (mkState w0 i0)) as [(_ & _ & _ & _ & Kd & Kc) _].
  fold st in Kd, Kc. cbn [instance] in Kd, Kc.
  assert (Hc : container (stickerDOM (instance st)) = c) by (rewrite Kd; reflexivity).
  assert (H0 : sixOrNone c (mkState w0 i0)).
  { destruct (useStickerAnimation_returned_valid env _ _ _ _ _ Hr) as (n & -> & Hin).
    destruct (useStickerAnimation_returns env n config w w0 i0 Hr)
      as (_ & _ & _ & _ & Hl' & _).
    left. cbn [world]. rewrite Hl', Hl. reflexivity. }
  assert (H1 : sixOrNone c st) by (apply own_run; [reflexivity|exact H0]).
  destruct (useStickerAnimation_cleanups env _ _ _ _ _ Hr) as [Ce Co].
  rewrite <- Hc in H1.
  destruct (own_runCleanups (cleanupFunctions (instance st)) st H1)
    as (_ & B2 & B3 & _).
  cbv zeta in B2, B3. rewrite Kc in B2, B3.
  destruct (destroy_world st) as (_ & Dl & _). rewrite Kc in Dl.
  assert (HI : listenersInv c (documentNode (document w0)) (destroy st)).
  { apply (listenersInv_step env _ _ st CallDestroy).
    apply listenersInv_run.
    apply (useStickerAnimation_listenersInv env target config w w0 i0 Hl Hr). }
  destruct HI as (_ & _ & I3).
  assert (Hup : forall r, In r (listeners (world (destroy st))) -> isUp r = true).
  { intros r Hin. rewrite Dl in Hin.
    exact (ownListeners_nil _ r (B2 Ce) Hin). }
  split; [|split].
  - intros r Hin. destruct (I3 r Hin) as [H6|H]; [|exact H].
    exfalso. pose proof (Hup r Hin) as Hu.
    cbn in H6.
    destruct H6 as [<-|[<-|[<-|[<-|[<-|[<-|[]]]]]]]; discriminate Hu.
  - intros r H6 Hin. pose proof (Hup r Hin) as Hu.
    cbn in H6.
    destruct H6 as [<-|[<-|[<-|[<-|[<-|[<-|[]]]]]]]; discriminate Hu.
  - intros Hio. rewrite destroy_observed, Kc. apply B3, Co, Hio.
Qed.

(** The instance on the card of the example page after the example
    session, which ends with an open session and a mouseup listener on the
    document. *)
Lemma destroy_releases_witness :
  exists w0 i0,
    useStickerAnimation Sample.env (JsObject 5) None Sample.world = (w0, Returned i0) /\
    let st := run Sample.env exampleSession (mkState w0 i0) in
    (forall r, In r (listeners (world (destroy st))) ->
               isMouseUp (documentNode (document w0)) r) /\
    observed (world (destroy st)) = [].
Proof.
  assert (Hin : 5%nat ∈ htmlElements (document Sample.world))
    by (apply isHTMLElement_decide; vm_compute; reflexivity).
  destruct sample_returns as (w0 & i0 & Hr).
  exists w0, i0. split; [exact Hr|].
  destruct (destroy_releases Sample.env _ _ Sample.world w0 i0 exampleSession
              eq_refl Hr) as (H1 & _ & H3).
  split; [exact H1|]. apply H3. reflexivity.
Defined.

(** ** The integer half and the mask *)

Section IntegerHalf.

(** [t >> 1] for an offset of the 31-bit range is the floor of its half. *)
Lemma sar_1_floor (t : Q) :
  0 <= t -> t < inject_Z (2 ^ 31) ->
  sar t 1 = inject_Z (Qfloor t / 2).
Proof.
  intros H0 H1. unfold sar, ToInt32, truncate.
  assert (E : Qle_bool 0 t = true) by (apply Qle_bool_iff; exact H0).
  rewrite E.
  assert (Hf0 : (0 <= Qfloor t)%Z).
  { change 0%Z with (Qfloor 0). apply Qfloor_resp_le. exact H0. }
  assert (Hf1 : (Qfloor t < 2 ^ 31)%Z).
  { apply Z.lt_nge. intros Hge.
    assert (inject_Z (2 ^ 31) <= t).
    { eapply Qle_trans; [|apply Qfloor_le]. rewrite <- Zle_Qle. exact Hge. }
    lra. }
  rewrite Z.mod_small by lia.
  destruct (Z.leb_spec (2 ^ 31) (Qfloor t)); [lia|].
  rewrite Z.shiftr_div_pow2 by lia. reflexivity.
Qed.

Lemma sar_1_bounds (t : Q) :
  0 <= t -> t < inject_Z (2 ^ 31) ->
  0 <= sar t 1 /\ t / 2 - 1 < sar t 1 /\ sar t 1 <= t / 2.
Proof.
  intros H0 H1. rewrite (sar_1_floor t H0 H1).
  assert (Hf0 : (0 <= Qfloor t)%Z).
  { change 0%Z with (Qfloor 0). apply Qfloor_resp_le. exact H0. }
  pose proof (Qfloor_le t) as Hle.
  pose proof (Qlt_floor t) as Hlt.
  assert (Hz : (2 * (Qfloor t / 2) <= Qfloor t <= 2 * (Qfloor t / 2) + 1)%Z).
  { pose proof (Z.div_mod (Qfloor t) 2 ltac:(lia)).
    pose proof (Z.mod_pos_bound (Qfloor t) 2 ltac:(lia)). lia. }
  destruct Hz as [Hz1 Hz2].
  rewrite Zle_Qle in Hz1. rewrite Zle_Qle in Hz2.
  rewrite inject_Z_mult in Hz1.
  rewrite inject_Z_plus, inject_Z_mult in Hz2.
  rewrite inject_Z_plus in Hlt.
  change (inject_Z 2) with 2 in *. change (inject_Z 1) with 1 in *.
  assert (Hq0 : (0 <= Qfloor t / 2)%Z) by (apply Z.div_pos; lia).
  rewrite Zle_Qle in Hq0. change (inject_Z 0) with 0 in Hq0.
  split; [exact Hq0|].
  assert (Eh : t / 2 == t * (1 # 2)) by field.
  rewrite Eh. split; lra.
Qed.

End IntegerHalf.

(** X8.  Peeling never hides more than half of the sticker.  In each of
    the four directions the extent of the depth shadow and the extent of
    the mask add up to the extent of the element.  While the pointer is
    inside an element of less than 2^31 pixels, the mask keeps between
    half of the extent and all of it, it is less than one pixel larger
    than the extent minus the exact half of the peeled offset, and it
    stays inside the element: its offset is not negative and offset plus
    extent is at most the extent of the element. *)
Theorem calculatePeelValues_mask_bounds (event : MouseEvent) (pos : Position)
  (size : Size) (direction : Direction) :
  let tx := pageX event - pos_x pos in
  let ty := pageY event - pos_y pos in
  let peeled := peeledOffset size direction tx ty in
  let v := calculatePeelValues event pos size direction in
  depthExtent direction v + maskExtent direction v == extent size direction /\
  (0 <= peeled <= extent size direction ->
   extent size direction < inject_Z (2 ^ 31) ->
   extent size direction / 2 <= maskExtent direction v <= extent size direction /\
   (extent size direction - peeled / 2 <= maskExtent direction v /\
    maskExtent direction v < extent size direction - peeled / 2 + 1) /\
   0 <= maskOffset direction v /\
   maskOffset direction v + maskExtent direction v <= extent size direction).
Proof.
  cbv zeta. split.
  - destruct direction; cbn; ring.
  - intros [Hp0 Hp1] Hext.
    assert (Hb : 0 <= sar (peeledOffset size direction (pageX event - pos_x pos)
                             (pageY event - pos_y pos)) 1 /\
                 peeledOffset size direction (pageX event - pos_x pos)
                   (pageY event - pos_y pos) / 2 - 1
                 < sar (peeledOffset size direction (pageX event - pos_x pos)
                          (pageY event - pos_y pos)) 1 /\
                 sar (peeledOffset size direction (pageX event - pos_x pos)
                        (pageY event - pos_y pos)) 1
                 <= peeledOffset size direction (pageX event - pos_x pos)
                      (pageY event - pos_y pos) / 2).
    { apply sar_1_bounds; [exact Hp0|]. eapply Qle_lt_trans; eassumption. }
    revert Hp0 Hp1 Hext Hb.
    set (half := fun x : Q => x / 2).
    change (extent size direction / 2) with (half (extent size direction)).
    assert (Eh : forall x, half x == x * (1 # 2)) by (intros x; unfold half; field).
    destruct direction; unfold peeledOffset, extent, maskExtent, maskOffset;
      cbn [calculatePeelValues cw ch cx cy];
      match goal with
      | |- context [sar ?t 1] =>
          generalize (sar t 1);
          change (t / 2) with (half t)
      end;
      intros s Hp0 Hp1 Hext (B0 & B1 & B2);
      rewrite ?Eh in *; repeat split; lra.
Qed.

(** The pointer 101 pixels inside the left edge of a 400 by 300 element:
    the mask keeps 350 pixels, not 349.5. *)
Lemma calculatePeelValues_mask_bounds_witness :
  let v := calculatePeelValues (mkMouseEvent 111 40) (mkPosition 10 20)
             (mkSize 400 300) Left in
  200 <= cw v <= 400 /\ cw v == 350 /\ cx v + cw v <= 400.
Proof.
  destruct (calculatePeelValues_mask_bounds (mkMouseEvent 111 40)
              (mkPosition 10 20) (mkSize 400 300) Left) as [_ H].
  cbv zeta in H.
  destruct H as ((H1 & H2) & _ & _ & H4).
  - split; discriminate.
  - reflexivity.
  - cbv zeta. split; [split|split].
    + exact H1.
    + exact H2.
    + reflexivity.
    + exact H4.
Defined.

(** ** The geometry and the frames of the automatic animation *)

(** X9.  The geometry of the automatic peel, for a size that is not
    negative and a progress in [0, 1].  The shadow rectangle is never
    larger than the revealed part less 20 pixels, and never negative; the
    depth shadow is at most a fifth of the size and at most three tenths of
    the revealed part.  For 'left' and 'right' the mask has the revealed
    width, except that a revealed width of zero gives a mask of one pixel:
    the mask is never of width zero, and it can be narrower than one
    pixel.  For 'top' and 'bottom' the mask is the whole element at every
    progress. *)
Theorem calculateAutoAnimationValues_bounds (size progress shadowIntensity : Q)
  (direction : Direction) :
  0 <= size -> 0 <= progress <= 1 ->
  let v := Auto.calculateAutoAnimationValues size direction progress shadowIntensity in
  let revealed := size * progress in
  (0 <= shadowExtent direction v /\
   shadowExtent direction v <= Qmax 0 (revealed - 20) /\
   shadowExtent direction v <= revealed) /\
  (0 <= depthExtent direction v /\
   depthExtent direction v <= size * 0.2 /\
   depthExtent direction v <= revealed * 0.3) /\
  match direction with
  | Left | Right =>
      ~ cw v == 0 /\
      (~ revealed == 0 -> cw v = revealed) /\
      (revealed == 0 -> cw v = 1) /\
      ch v = size
  | Top | Bottom => cw v = size /\ ch v = size /\ cx v = 0 /\ cy v = 0
  end.
Proof.
  intros Hs [Hp0 Hp1]. cbv zeta.
  assert (Hr0 : 0 <= size * progress) by (apply Qmult_le_0_compat; assumption).
  assert (Hsp : 0 <= Auto.shadowProgress progress <= 1).
  { unfold Auto.shadowProgress. split.
    - apply Q.min_glb; [|discriminate].
      apply Qmult_le_0_compat; [exact Hp0|discriminate].
    - apply Q.le_min_r. }
  assert (Hm0 : 0 <= Qmax 0 (size * progress - 20)) by apply Q.le_max_l.
  assert (Hm1 : Qmax 0 (size * progress - 20) <= size * progress).
  { apply Q.max_lub; [exact Hr0|]. lra. }
  assert (Hsh : 0 <= Qmax 0 (size * progress - 20) * Auto.shadowProgress progress /\
                Qmax 0 (size * progress - 20) * Auto.shadowProgress progress
                <= Qmax 0 (size * progress - 20)).
  { destruct Hsp as [S0 S1]. split.
    - apply Qmult_le_0_compat; assumption.
    - rewrite <- (Qmult_1_r (Qmax 0 (size * progress - 20))) at 2.
      rewrite !(Qmult_comm (Qmax 0 (size * progress - 20))).
      apply Qmult_le_compat_r; assumption. }
  assert (Hdp : 0 <= Qmin (size * progress * 0.3) (size * 0.2) /\
                Qmin (size * progress * 0.3) (size * 0.2) <= size * 0.2 /\
                Qmin (size * progress * 0.3) (size * 0.2) <= size * progress * 0.3).
  { split; [|split].
    - apply Q.min_glb; lra.
    - apply Q.le_min_r.
    - apply Q.le_min_l. }
  destruct Hsh as [Sh0 Sh1]. destruct Hdp as (D0 & D1 & D2).
  assert (Hcw : ~ or_else (size * progress) 1 == 0 /\
                (~ size * progress == 0 -> or_else (size * progress) 1 = size * progress) /\
                (size * progress == 0 -> or_else (size * progress) 1 = 1)).
  { unfold or_else. destruct (Qeq_bool (size * progress) 0) eqn:E.
    - apply Qeq_bool_iff in E. split; [discriminate|]. split; [|reflexivity].
      intros H. contradiction.
    - apply Qeq_bool_neq in E. split; [exact E|]. split; [reflexivity|].
      intros H. contradiction. }
  destruct direction; unfold shadowExtent, depthExtent;
    cbn [Auto.calculateAutoAnimationValues bsw bsh dw dh cw ch cx cy];
    (split; [split; [exact Sh0|split; [exact Sh1|lra]]|]);
    (split; [split; [exact D0|split; [exact D1|exact D2]]|]).
  - destruct Hcw as (C1 & C2 & C3). repeat split; assumption.
  - destruct Hcw as (C1 & C2 & C3). repeat split; assumption.
  - repeat split.
  - repeat split.
Qed.

(** A sticker of 400 pixels, half revealed from the left, and the same
    sticker before anything is revealed. *)
Lemma calculateAutoAnimationValues_bounds_witness :
  let v := Auto.calculateAutoAnimationValues 400 Left (1 # 2) 0.7 in
  let v0 := Auto.calculateAutoAnimationValues 400 Left 0 0.7 in
  bsw v <= 180 /\ dw v <= 60 /\ cw v = 400 * (1 # 2) /\ cw v0 = 1.
Proof.
  destruct (calculateAutoAnimationValues_bounds 400 (1 # 2) 0.7 Left)
    as ((_ & H1 & _) & (_ & _ & H2) & (_ & H3 & _)).
  - discriminate.
  - split; discriminate.
  - destruct (calculateAutoAnimationValues_bounds 400 0 0.7 Left)
      as (_ & _ & (_ & _ & H4 & _)).
    + discriminate.
    + split; discriminate.
    + cbv zeta in *.
      split; [exact H1|]. split; [exact H2|].
      split; [apply H3; discriminate|apply H4; reflexivity].
Defined.

Section AutoFrames.

Lemma easedProgressAt_zero (config : Auto.AutoAnimationConfig) (e : Q) :
  e == 0 -> Auto.easedProgressAt config e == 0.
Proof.
  intros He. unfold Auto.easedProgressAt.
  rewrite (cubicBezier_Qeq _ _ _ _ (Auto.progressAt config e) 0).
  - vm_compute. reflexivity.
  - unfold Auto.progressAt. rewrite He. rewrite Q.min_l.
    + unfold Qdiv. ring.
    + unfold Qdiv. ring_simplify. apply Qle_bool_iff. reflexivity.
Qed.

Lemma easedProgressAt_one (config : Auto.AutoAnimationConfig) (e : Q) :
  0 < Auto.duration config -> Auto.duration config <= e ->
  Auto.easedProgressAt config e == 1.
Proof.
  intros Hd He. unfold Auto.easedProgressAt.
  rewrite (cubicBezier_Qeq _ _ _ _ _ 1 (progressAt_complete config e Hd He)).
  vm_compute. reflexivity.
Qed.

(** The back face that [applyPeelStyles] leaves. *)
Lemma applyPeelStyles_back (s : DOMStructure) (v : PeelValues) (t : CssValue)
  (d : Document) :
  distinctLayers s ->
  getStyle (applyPeelStyles s v t d) (back s) "transform"
  = CssTranslate (bmx v) (bmy v).
Proof.
  intros H. destruct (applyPeelStyles_layers s v t d H) as (_ & _ & (_ & B) & _).
  exact B.
Qed.

Lemma progressAt_running (config : Auto.AutoAnimationConfig) (e : Q) :
  0 < Auto.duration config ->
  ltb (Auto.progressAt config e) 1 = true <-> e < Auto.duration config.
Proof.
  intros Hd. rewrite ltb_lt. unfold Auto.progressAt. split.
  - intros H.
    destruct (Qlt_le_dec e (Auto.duration config)) as [Hl|Hg]; [exact Hl|].
    exfalso. apply (Qlt_not_le _ _ H). apply Q.min_glb; [|apply Qle_refl].
    apply Qle_shift_div_l; [exact Hd|]. lra.
  - intros H. eapply Qle_lt_trans; [apply Q.le_min_l|].
    apply Qlt_shift_div_r; [exact Hd|]. lra.
Qed.

(** The first frame, or a frame that finds a start time of 0. *)
Lemma animate_first (dom : DOMStructure) (size : Q)
  (config : Auto.AutoAnimationConfig) (now : Q) (s : Auto.Driver) :
  0 < Auto.duration config -> distinctLayers dom -> containerApart dom ->
  Auto.startTime s = None \/ (exists t0, Auto.startTime s = Some t0 /\ t0 == 0) ->
  let s' := Auto.animate dom size config now s in
  Auto.startTime s' = Some now /\
  Auto.animationFrame s' = Some (S (Auto.frameHandles s)) /\
  Auto.frameHandles s' = S (Auto.frameHandles s) /\
  Auto.isAnimating s' = Auto.isAnimating s /\
  getStyle (Auto.page s') (container dom) "filter"
  = getStyle (Auto.page s) (container dom) "filter" /\
  exists p, p == 0 /\
    getStyle (Auto.page s') (back dom) "transform"
    = CssTranslate
        (bmx (Auto.calculateAutoAnimationValues size (Auto.direction config) p
                (Auto.shadowIntensity config)))
        (bmy (Auto.calculateAutoAnimationValues size (Auto.direction config) p
                (Auto.shadowIntensity config))).
Proof.
  intros Hd HL HC Hst. cbv zeta.
  assert (Est : match Auto.startTime s with
                | None => now
                | Some t0 => if Qeq_bool t0 0 then now else t0
                end = now).
  { destruct Hst as [->|(t0 & -> & Hz)]; [reflexivity|].
    apply Qeq_bool_iff in Hz. rewrite Hz. reflexivity. }
  unfold Auto.animate. rewrite Est. cbv zeta.
  assert (E : ltb (Auto.progressAt config (now - now)) 1 = true).
  { apply progressAt_running; [exact Hd|]. lra. }
  rewrite E.
  cbn [Auto.requestFrame Auto.animationFrame Auto.frameHandles
       Auto.isAnimating Auto.page Auto.startTime].
  split; [reflexivity|]. split; [reflexivity|]. split; [reflexivity|].
  split; [reflexivity|].
  split; [apply applyPeelStyles_frame; exact HC|].
  exists (Auto.easedProgressAt config (now - now)).
  split; [apply easedProgressAt_zero; ring|].
  apply applyPeelStyles_back. exact HL.
Qed.

(** A frame before the duration has elapsed. *)
Lemma animate_continues (dom : DOMStructure) (size : Q)
  (config : Auto.AutoAnimationConfig) (now t0 : Q) (s : Auto.Driver) :
  0 < Auto.duration config -> containerApart dom ->
  Auto.startTime s = Some t0 -> ~ t0 == 0 ->
  now - t0 < Auto.duration config ->
  let s' := Auto.animate dom size config now s in
  Auto.startTime s' = Some t0 /\
  Auto.animationFrame s' = Some (S (Auto.frameHandles s)) /\
  Auto.frameHandles s' = S (Auto.frameHandles s) /\
  Auto.isAnimating s' = Auto.isAnimating s /\
  getStyle (Auto.page s') (container dom) "filter"
  = getStyle (Auto.page s) (container dom) "filter".
Proof.
  intros Hd HC Ht0 Hnz Hlt. cbv zeta.
  assert (E0 : Qeq_bool t0 0 = false).
  { destruct (Qeq_bool t0 0) eqn:E; [|reflexivity].
    apply Qeq_bool_iff in E. contradiction. }
  unfold Auto.animate. rewrite Ht0, E0. cbv zeta.
  rewrite (proj2 (progressAt_running config (now - t0) Hd) Hlt).
  cbn [Auto.requestFrame Auto.animationFrame Auto.frameHandles
       Auto.isAnimating Auto.page Auto.startTime].
  repeat split. apply applyPeelStyles_frame. exact HC.
Qed.

(** A frame when the duration has elapsed. *)
Lemma animate_completes (dom : DOMStructure) (size : Q)
  (config : Auto.AutoAnimationConfig) (now t0 : Q) (s : Auto.Driver) :
  0 < Auto.duration config -> distinctLayers dom -> containerApart dom ->
  Auto.startTime s = Some t0 -> ~ t0 == 0 ->
  Auto.duration config <= now - t0 ->
  let s' := Auto.animate dom size config now s in
  Auto.startTime s' = Some t0 /\
  Auto.animationFrame s' = Auto.animationFrame s /\
  Auto.frameHandles s' = Auto.frameHandles s /\
  Auto.isAnimating s' = false /\
  getStyle (Auto.page s') (container dom) "filter" = dropShadow /\
  exists p, p == 1 /\
    getStyle (Auto.page s') (back dom) "transform"
    = CssTranslate
        (bmx (Auto.calculateAutoAnimationValues size (Auto.direction config) p
                (Auto.shadowIntensity config)))
        (bmy (Auto.calculateAutoAnimationValues size (Auto.direction config) p
                (Auto.shadowIntensity config))).
Proof.
  intros Hd HL HC Ht0 Hnz Hge. cbv zeta.
  assert (E0 : Qeq_bool t0 0 = false).
  { destruct (Qeq_bool t0 0) eqn:E; [|reflexivity].
    apply Qeq_bool_iff in E. contradiction. }
  unfold Auto.animate. rewrite Ht0, E0. cbv zeta.
  destruct (ltb (Auto.progressAt config (now - t0)) 1) eqn:E.
  { apply progressAt_running in E; [|exact Hd].
    exfalso. exact (Qlt_not_le _ _ E Hge). }
  cbn [Auto.animationFrame Auto.frameHandles Auto.isAnimating Auto.page
       Auto.startTime].
  split; [reflexivity|]. split; [reflexivity|]. split; [reflexivity|].
  split; [reflexivity|].
  split; [apply getStyle_setStyle_eq|].
  exists (Auto.easedProgressAt config (now - t0)).
  split; [apply easedProgressAt_one; assumption|].
  rewrite getStyle_setStyle_ne.
  - apply applyPeelStyles_back. exact HL.
  - left. intros Hc. apply HC. rewrite Hc. rewrite !elem_of_cons. auto.
Qed.

End AutoFrames.

(** X10.  One frame of the automatic animation, for a positive duration
    and layers that are different elements, the container not among them.
    With a start time that is set and not 0, a frame that comes before the
    duration has elapsed requests exactly one further frame and leaves the
    running flag and the container's filter as they are; a frame that comes
    when the duration has elapsed requests no frame, clears the running
    flag, keeps the stale frame handle and sets the drop shadow filter on
    the container.  A start time that is unset, or set to 0, is taken from
    the frame: that frame draws the back face of a progress equal to 0,
    the hidden sticker, and requests a further frame.  The frame that ends
    the animation draws the back face of a progress equal to 1. *)
Theorem animate_frame (dom : DOMStructure) (size : Q)
  (config : Auto.AutoAnimationConfig) (now : Q) (s : Auto.Driver) :
  0 < Auto.duration config ->
  distinctLayers dom -> containerApart dom ->
  let s' := Auto.animate dom size config now s in
  let filter := fun d => getStyle d (container dom) "filter" in
  (forall t0, Auto.startTime s = Some t0 -> ~ t0 == 0 ->
     Auto.startTime s' = Some t0 /\
     (now - t0 < Auto.duration config ->
      Auto.animationFrame s' = Some (S (Auto.frameHandles s)) /\
      Auto.frameHandles s' = S (Auto.frameHandles s) /\
      Auto.isAnimating s' = Auto.isAnimating s /\
      filter (Auto.page s') = filter (Auto.page s)) /\
     (Auto.duration config <= now - t0 ->
      Auto.animationFrame s' = Auto.animationFrame s /\
      Auto.frameHandles s' = Auto.frameHandles s /\
      Auto.isAnimating s' = false /\
      filter (Auto.page s') = dropShadow /\
      exists p, p == 1 /\
        getStyle (Auto.page s') (back dom) "transform"
        = CssTranslate
            (bmx (Auto.calculateAutoAnimationValues size (Auto.direction config) p
                    (Auto.shadowIntensity config)))
            (bmy (Auto.calculateAutoAnimationValues size (Auto.direction config) p
                    (Auto.shadowIntensity config))))) /\
  (Auto.startTime s = None \/ (exists t0, Auto.startTime s = Some t0 /\ t0 == 0) ->
   Auto.startTime s' = Some now /\
   Auto.animationFrame s' = Some (S (Auto.frameHandles s)) /\
   Auto.isAnimating s' = Auto.isAnimating s /\
   exists p, p == 0 /\
     getStyle (Auto.page s') (back dom) "transform"
     = CssTranslate
         (bmx (Auto.calculateAutoAnimationValues size (Auto.direction config) p
                 (Auto.shadowIntensity config)))
         (bmy (Auto.calculateAutoAnimationValues size (Auto.direction config) p
                 (Auto.shadowIntensity config)))).
Proof.
  intros Hd HL HC. cbv zeta. split.
  - intros t0 Ht0 Hnz. split.
    + unfold Auto.animate. rewrite Ht0.
      destruct (Qeq_bool t0 0) eqn:E; [apply Qeq_bool_iff in E; contradiction|].
      cbv zeta. destruct (ltb _ 1); reflexivity.
    + split.
      * intros Hlt.
        destruct (animate_continues dom size config now t0 s Hd HC Ht0 Hnz Hlt)
          as (_ & A2 & A3 & A4 & A5).
        auto.
      * intros Hge.
        destruct (animate_completes dom size config now t0 s Hd HL HC Ht0 Hnz Hge)
          as (_ & A2 & A3 & A4 & A5 & A6).
        auto 10.
  - intros Hst.
    destruct (animate_first dom size config now s Hd HL HC Hst)
      as (A1 & A2 & _ & A4 & _ & A6).
    auto.
Qed.

(** Three frames, at 16, 416 and 816 ms, of an animation of 800 ms on the
    layers built for the card of the example page. *)
Lemma animate_frame_witness :
  let dom := fst (createStickerDOM 5 400 400 Sample.page) in
  let config := Auto.mkAutoConfig 800 "cubic-bezier(0.23, 1, 0.32, 1)" Left 0.7 in
  let s0 := Auto.createAutoAnimation dom 400 config 0
              (snd (createStickerDOM 5 400 400 Sample.page)) in
  let s1 := Auto.animate dom 400 config 16 s0 in
  let s2 := Auto.animate dom 400 config 416 s1 in
  let s3 := Auto.animate dom 400 config 816 s2 in
  Auto.startTime s1 = Some 16 /\
  Auto.animationFrame s2 = Some (S (Auto.frameHandles s1)) /\
  Auto.isAnimating s3 = false /\
  getStyle (Auto.page s3) (container dom) "filter" = dropShadow.
Proof.
  intros dom config s0 s1 s2 s3.
  assert (Hd : 0 < Auto.duration config) by reflexivity.
  assert (HL : distinctLayers dom) by apply createStickerDOM_distinct.
  assert (HC : containerApart dom).
  { unfold containerApart. subst dom.
    destruct (createStickerDOM 5 400 400 Sample.page) as [s d'] eqn:E.
    apply createStickerDOM_fresh in E. cbn [fst].
    rewrite !elem_of_cons, elem_of_nil. lia. }
  assert (H0 : Auto.startTime s0 = None) by reflexivity.
  destruct (animate_frame dom 400 config 16 s0 Hd HL HC) as [_ A1].
  destruct (A1 (or_introl H0)) as (T1 & _). fold s1 in T1.
  destruct (animate_frame dom 400 config 416 s1 Hd HL HC) as [A2 _].
  destruct (A2 16 T1) as (T2 & F2 & _); [discriminate|]. fold s2 in T2, F2.
  destruct F2 as (F2 & _); [reflexivity|].
  destruct (animate_frame dom 400 config 816 s2 Hd HL HC) as [A3 _].
  destruct (A3 16 T2) as (_ & _ & F3); [discriminate|]. fold s3 in F3.
  destruct F3 as (_ & _ & F3 & F4 & _); [discriminate|].
  split; [exact T1|]. split; [exact F2|]. split; [exact F3|exact F4].
Defined.

(** X24.  The automatic animation runs to its end.  [createAutoAnimation]
    draws the hidden sticker and requests one frame.  While the frames
    arrive before the duration has elapsed since the first one (whose
    time is not 0), every frame requests exactly one further frame, the
    animation keeps running, the start time stays that of the first
    frame, and the container's filter is untouched.  The first frame that
    arrives when the duration has elapsed ends the animation: the running
    flag is cleared, no further frame is requested, and the container gets
    its drop shadow. *)
Theorem auto_animation_completes (dom : DOMStructure) (size : Q)
  (config : Auto.AutoAnimationConfig) (handles : nat) (d : Document)
  (first : Q) (next : list Q) (last : Q) :
  0 < Auto.duration config ->
  distinctLayers dom -> containerApart dom ->
  ~ first == 0 ->
  (forall t, In t next -> t - first < Auto.duration config) ->
  Auto.duration config <= last - first ->
  let s0 := Auto.createAutoAnimation dom size config handles d in
  let s1 := fold_left (fun s t => Auto.animate dom size config t s) (first :: next) s0 in
  let s2 := Auto.animate dom size config last s1 in
  (Auto.isAnimating s0 = true /\
   Auto.animationFrame s0 = Some (S handles) /\
   Auto.startTime s0 = None) /\
  (Auto.isAnimating s1 = true /\
   Auto.animationFrame s1 = Some (handles + 2 + length next)%nat /\
   Auto.frameHandles s1 = (handles + 2 + length next)%nat /\
   Auto.startTime s1 = Some first /\
   getStyle (Auto.page s1) (container dom) "filter" = getStyle d (container dom) "filter") /\
  (Auto.isAnimating s2 = false /\
   Auto.frameHandles s2 = Auto.frameHandles s1 /\
   getStyle (Auto.page s2) (container dom) "filter" = dropShadow).
Proof.
  intros Hd HL HC Hnz Hnext Hlast. cbv zeta.
  set (s0 := Auto.createAutoAnimation dom size config handles d).
  assert (H0 : Auto.isAnimating s0 = true /\
               Auto.animationFrame s0 = Some (S handles) /\
               Auto.frameHandles s0 = S handles /\
               Auto.startTime s0 = None /\
               getStyle (Auto.page s0) (container dom) "filter"
               = getStyle d (container dom) "filter").
  { subst s0. unfold Auto.createAutoAnimation, Auto.start.
    cbn [Auto.isAnimating Auto.requestFrame Auto.animationFrame
         Auto.frameHandles Auto.startTime Auto.page].
    repeat split. apply applyPeelStyles_frame. exact HC. }
  destruct H0 as (Z1 & Z2 & Z3 & Z4 & Z5).
  split; [auto|].
  cbn [fold_left].
  destruct (animate_first dom size config first s0 Hd HL HC (or_introl Z4))
    as (A1 & A2 & A3 & A4 & A5 & _).
  set (sa := Auto.animate dom size config first s0) in *.
  assert (Hinv : Auto.isAnimating sa = true /\
                 Auto.animationFrame sa = Some (Auto.frameHandles sa) /\
                 Auto.frameHandles sa = (handles + 2 + 0)%nat /\
                 Auto.startTime sa = Some first /\
                 getStyle (Auto.page sa) (container dom) "filter"
                 = getStyle d (container dom) "filter").
  { rewrite A1, A2, A3, A4, A5, Z1, Z3, Z5. repeat split; lia. }
  clearbody sa. clear A1 A2 A3 A4 A5.
  assert (Hgen : forall (l : list Q) (n : nat) (sx : Auto.Driver),
             (forall t, In t l -> t - first < Auto.duration config) ->
             Auto.isAnimating sx = true /\
             Auto.animationFrame sx = Some (Auto.frameHandles sx) /\
             Auto.frameHandles sx = (handles + 2 + n)%nat /\
             Auto.startTime sx = Some first /\
             getStyle (Auto.page sx) (container dom) "filter"
             = getStyle d (container dom) "filter" ->
             let sb := fold_left (fun s t => Auto.animate dom size config t s) l sx in
             Auto.isAnimating sb = true /\
             Auto.animationFrame sb = Some (Auto.frameHandles sb) /\
             Auto.frameHandles sb = (handles + 2 + (n + length l))%nat /\
             Auto.startTime sb = Some first /\
             getStyle (Auto.page sb) (container dom) "filter"
             = getStyle d (container dom) "filter").
  { clear Hinv. induction l as [|t l IH]; intros n sx Hl (I1 & I2 & I3 & I4 & I5);
      cbn [fold_left length].
    - rewrite Nat.add_0_r. auto.
    - destruct (animate_continues dom size config t first sx Hd HC I4 Hnz
                  (Hl t (or_introl eq_refl))) as (B1 & B2 & B3 & B4 & B5).
      cbv zeta in B1, B2, B3, B4, B5.
      replace (n + S (length l))%nat with (S n + length l)%nat by lia.
      apply IH.
      + intros t' Ht'. apply Hl. right. exact Ht'.
      + rewrite B1, B2, B3, B4, B5, I1, I3, I5. repeat split; lia. }
  destruct (Hgen next 0%nat sa Hnext Hinv) as (C1 & C2 & C3 & C4 & C5).
  cbv zeta in C1, C2, C3, C4, C5.
  set (s1 := fold_left (fun s t => Auto.animate dom size config t s) next sa) in *.
  destruct (animate_completes dom size config last first s1 Hd HL HC C4 Hnz Hlast)
    as (_ & _ & E3 & E4 & E5 & _).
  split; [|auto].
  split; [exact C1|]. split; [rewrite C2, C3; reflexivity|].
  split; [exact C3|auto].
Qed.

(** An animation of 800 ms with frames at 16, 116, 416 and 816 ms. *)
Lemma auto_animation_completes_witness :
  let dom := fst (createStickerDOM 5 400 400 Sample.page) in
  let config := Auto.mkAutoConfig 800 "cubic-bezier(0.23, 1, 0.32, 1)" Top 0.7 in
  let s0 := Auto.createAutoAnimation dom 400 config 0
              (snd (createStickerDOM 5 400 400 Sample.page)) in
  let s1 := fold_left (fun s t => Auto.animate dom 400 config t s) [16; 116; 416] s0 in
  let s2 := Auto.animate dom 400 config 816 s1 in
  Auto.animationFrame s1 = Some 4%nat /\
  Auto.isAnimating s1 = true /\
  Auto.isAnimating s2 = false /\
  Auto.frameHandles s2 = 4%nat /\
  getStyle (Auto.page s2) (container dom) "filter" = dropShadow.
Proof.
  intros dom config s0 s1 s2.
  assert (Hd : 0 < Auto.duration config) by reflexivity.
  assert (HL : distinctLayers dom) by apply createStickerDOM_distinct.
  assert (HC : containerApart dom).
  { unfold containerApart. subst dom.
    destruct (createStickerDOM 5 400 400 Sample.page) as [s d'] eqn:E.
    apply createStickerDOM_fresh in E. cbn [fst].
    rewrite !elem_of_cons, elem_of_nil. lia. }
  destruct (auto_animation_completes dom 400 config 0
              (snd (createStickerDOM 5 400 400 Sample.page)) 16 [116; 416] 816
              Hd HL HC)
    as (_ & (B1 & B2 & B3 & _) & (C1 & C2 & C3)).
  - discriminate.
  - intros t [<-|[<-|[]]]; reflexivity.
  - discriminate.
  - fold s0 in B1, B2, B3, C1, C2, C3.
    split; [exact B2|]. split; [exact B1|]. split; [exact C1|].
    split; [exact (eq_trans C2 B3)|exact C3].
Defined.

(** X26.  The two ends of [cubicBezier].  In exact arithmetic, whatever
    the control points are, it maps 0 to 0 and 1 to 1: at both ends the
    solver starts on the solution, leaves its loop in the first turn, and
    the curve is evaluated at the end point itself.  The code computes in
    binary64, and there the same holds for the one curve that the engine
    calls it with, (0.23, 1, 0.32, 1), but not for every curve: with the
    control points (0, 0.05) and (0, 0) the value at 1 is
    0.99999999999999989, below 1, and with [x1 = 1e16] it is NaN. *)
Theorem cubicBezier_endpoints :
  (forall x1 y1 x2 y2 t : Q,
     (t == 0 -> Auto.cubicBezier x1 y1 x2 y2 t == 0) /\
     (t == 1 -> Auto.cubicBezier x1 y1 x2 y2 t == 1)) /\
  Binary64.cubicBezier 0.23 1 0.32 1 0 = 0%float /\
  Binary64.cubicBezier 0.23 1 0.32 1 1 = 1%float /\
  PrimFloat.ltb (Binary64.cubicBezier 0 0.05 0 0 1) 1 = true /\
  PrimFloat.is_nan (Binary64.cubicBezier 1e16 0 0 0 1) = true.
Proof.
  split; [|vm_compute; repeat split].
  intros x1 y1 x2 y2 t. split; intros Ht.
  - rewrite (cubicBezier_Qeq x1 y1 x2 y2 t 0 Ht).
    unfold Auto.cubicBezier. cbv zeta. cbn [Auto.newtonRaphson].
    match goal with
    | |- context [ltb (Qabs ?e) 0.001] =>
        assert (E : ltb (Qabs e) 0.001 = true)
    end.
    { apply ltb_lt. match goal with |- Qabs ?e < _ => assert (E0 : e == 0) by ring end.
      rewrite E0. reflexivity. }
    rewrite E. ring.
  - rewrite (cubicBezier_Qeq x1 y1 x2 y2 t 1 Ht).
    unfold Auto.cubicBezier. cbv zeta. cbn [Auto.newtonRaphson].
    match goal with
    | |- context [ltb (Qabs ?e) 0.001] =>
        assert (E : ltb (Qabs e) 0.001 = true)
    end.
    { apply ltb_lt. match goal with |- Qabs ?e < _ => assert (E0 : e == 0) by ring end.
      rewrite E0. reflexivity. }
    rewrite E. ring.
Qed.

(** The ease-in-out curve at its two ends, in exact arithmetic. *)
Lemma cubicBezier_endpoints_witness :
  Auto.cubicBezier 0.42 0 0.58 1 0 == 0 /\ Auto.cubicBezier 0.42 0 0.58 1 1 == 1.
Proof.
  destruct cubicBezier_endpoints as [H _].
  split.
  - apply (H 0.42 0 0.58 1 0). reflexivity.
  - apply (H 0.42 0 0.58 1 1). reflexivity.
Defined.

(** ** Vendor prefixes *)

Section VendorPrefixes.

Lemma defined_is_Some (style : StyleObject) (name : string) :
  defined style name = true <-> is_Some (style !! name).
Proof. unfold defined. apply bool_decide_eq_true. Qed.

Lemma getVendorProperty_find (style : StyleObject) (prop : string) :
  getVendorProperty style prop = List.find (defined style) (vendorCandidates prop).
Proof.
  unfold getVendorProperty, vendorCandidates, VENDOR_PREFIXES.
  cbn [List.map List.find app].
  repeat match goal with
         | |- context [defined style ?n] => destruct (defined style n); try reflexivity
         end.
Qed.

(** The lookup sees only which names are defined. *)
Lemma getVendorProperty_dom (style style' : StyleObject) (prop : string) :
  dom style' =@{gset string} dom style ->
  getVendorProperty style' prop = getVendorProperty style prop.
Proof.
  intros Hd.
  assert (E : forall n, defined style' n = defined style n).
  { intros n. unfold defined. apply bool_decide_ext.
    unfold StyleObject in *.
    pose proof (elem_of_dom (D:=gset string) style n) as H1.
    pose proof (elem_of_dom (D:=gset string) style' n) as H2.
    rewrite Hd in H2. tauto. }
  unfold getVendorProperty. cbv zeta.
  assert (Ef : List.find (fun prefix => defined style' (String.append prefix (capitalize prop)))
                 VENDOR_PREFIXES
               = List.find (fun prefix => defined style (String.append prefix (capitalize prop)))
                   VENDOR_PREFIXES).
  { unfold VENDOR_PREFIXES. cbn [List.find]. rewrite !E. reflexivity. }
  rewrite Ef, E. reflexivity.
Qed.

Lemma getVendorProperty_defined (style : StyleObject) (prop name : string) :
  getVendorProperty style prop = Some name -> is_Some (style !! name).
Proof.
  rewrite getVendorProperty_find. intros H.
  apply List.find_some in H. apply defined_is_Some, H.
Qed.

End VendorPrefixes.

(** X11.  [getVendorProperty] returns the first name that the style object
    defines among webkitX, MozX, msX, OX and x, in this order, where X is
    the property with its first letter in upper case: a prefixed name wins
    over the standard one.  What it returns is a name that the style
    object defines, and it returns nothing exactly when none of the five
    is defined. *)
Theorem getVendorProperty_first_defined (style : StyleObject) (prop : string) :
  getVendorProperty style prop = List.find (defined style) (vendorCandidates prop) /\
  (forall name, getVendorProperty style prop = Some name ->
     In name (vendorCandidates prop) /\ is_Some (style !! name)) /\
  (getVendorProperty style prop = None <->
   forall name, In name (vendorCandidates prop) -> style !! name = None) /\
  (is_Some (style !! String.append "webkit" (capitalize prop)) ->
   getVendorProperty style prop = Some (String.append "webkit" (capitalize prop))).
Proof.
  split; [apply getVendorProperty_find|].
  split; [|split].
  - intros name H. split; [|exact (getVendorProperty_defined _ _ _ H)].
    rewrite getVendorProperty_find in H. apply List.find_some in H. apply H.
  - rewrite getVendorProperty_find. split.
    + intros H name Hin.
      pose proof (List.find_none _ _ H name Hin) as Hn.
      destruct (style !! name) eqn:E; [|reflexivity].
      assert (Hd : defined style name = true) by (apply defined_is_Some; eauto).
      rewrite Hd in Hn. discriminate Hn.
    + intros H.
      destruct (List.find (defined style) (vendorCandidates prop)) as [n|] eqn:E;
        [|reflexivity].
      apply List.find_some in E. destruct E as [Hin Hd].
      apply defined_is_Some in Hd. rewrite (H n Hin) in Hd.
      destruct Hd as [x Hx]. discriminate Hx.
  - intros H. apply defined_is_Some in H.
    unfold getVendorProperty, VENDOR_PREFIXES. cbn [List.find].
    rewrite H. reflexivity.
Qed.

Section VendorWrites.

Lemma vendorName_dom (style style' : StyleObject) (prop : string) :
  dom style' =@{gset string} dom style -> vendorName style' prop = vendorName style prop.
Proof.
  intros H. unfold vendorName. rewrite (getVendorProperty_dom _ _ _ H). reflexivity.
Qed.

Lemma applyVendorCSS_from (style0 : StyleObject)
  (properties : list (string * CssValue)) : forall style : StyleObject,
  dom style =@{gset string} dom style0 ->
  (forall kv, In kv properties -> is_Some (getVendorProperty style0 (fst kv))) ->
  NoDup (List.map (fun kv => vendorName style0 (fst kv)) properties) ->
  dom (applyVendorCSS style properties) =@{gset string} dom style0 /\
  (forall prop v, In (prop, v) properties ->
     applyVendorCSS style properties !! vendorName style0 prop = Some v) /\
  (forall name,
     ~ In name (List.map (fun kv => vendorName style0 (fst kv)) properties) ->
     applyVendorCSS style properties !! name = style !! name).
Proof.
  unfold applyVendorCSS.
  induction properties as [|[p v] rest IH]; intros style Hd Hs Hn;
    cbn [fold_left List.map fst snd].
  - split; [exact Hd|]. split; [intros prop v []|reflexivity].
  - apply NoDup_cons in Hn. destruct Hn as [Hp Hn].
    fold (vendorName style p). rewrite (vendorName_dom _ _ _ Hd).
    assert (Hdef : is_Some (style !! vendorName style0 p)).
    { destruct (Hs (p, v)) as [name Hname]; [left; reflexivity|].
      unfold vendorName. cbn [fst] in Hname. rewrite Hname. cbn.
      apply (elem_of_dom (D:=gset string)). unfold StyleObject in *. rewrite Hd.
      apply (elem_of_dom (D:=gset string)).
      exact (getVendorProperty_defined _ _ _ Hname). }
    assert (Hd1 : dom (<[vendorName style0 p := v]> style) =@{gset string} dom style0).
    { unfold StyleObject in *. rewrite dom_insert_lookup_L by exact Hdef. exact Hd. }
    destruct (IH (<[vendorName style0 p := v]> style) Hd1) as (I1 & I2 & I3).
    + intros kv Hkv. apply Hs. right. exact Hkv.
    + exact Hn.
    + split; [exact I1|]. split.
      * intros prop v' [E|Hin].
        -- inversion E. subst prop v'. rewrite I3.
           ++ apply lookup_insert_eq.
           ++ intros Hin. apply Hp. apply list_elem_of_In. exact Hin.
        -- apply I2. exact Hin.
      * intros name Hname. rewrite I3.
        -- apply lookup_insert_ne. intros E. apply Hname. left. exact E.
        -- intros Hin. apply Hname. right. exact Hin.
Qed.

End VendorWrites.

(** X12.  When the style object defines a candidate name for each listed
    property, and no two listed properties resolve to the same name,
    [applyVendorCSS] creates no property: it defines the names it defined
    before, each listed value is read back under the name that
    [getVendorProperty] gives for its property in the original style, the
    prefixed one if there is one, and every other name keeps its value, the
    unprefixed name of a prefixed property included. *)
Theorem applyVendorCSS_supported (style : StyleObject)
  (properties : list (string * CssValue)) :
  (forall kv, In kv properties -> is_Some (getVendorProperty style (fst kv))) ->
  NoDup (List.map (fun kv => vendorName style (fst kv)) properties) ->
  let style' := applyVendorCSS style properties in
  dom style' =@{gset string} dom style /\
  (forall prop v, In (prop, v) properties ->
     style' !! vendorName style prop = Some v) /\
  (forall name,
     ~ In name (List.map (fun kv => vendorName style (fst kv)) properties) ->
     style' !! name = style !! name).
Proof.
  intros Hs Hn. cbv zeta.
  exact (applyVendorCSS_from style properties style eq_refl Hs Hn).
Qed.

(** A style object that defines [transform], [webkitTransform] and
    [opacity]: the transform goes to the prefixed name and the standard
    name keeps its value. *)
Lemma applyVendorCSS_supported_witness :
  let style : StyleObject :=
    {[ "transform" := CssText ""; "webkitTransform" := CssText "";
       "opacity" := CssText "" ]} in
  let style' :=
    applyVendorCSS style
      [("transform", CssTranslate 10 0); ("opacity", CssNumber 1)] in
  style' !! "webkitTransform" = Some (CssTranslate 10 0) /\
  style' !! "opacity" = Some (CssNumber 1) /\
  style' !! "transform" = Some (CssText "").
Proof.
  intros style style'.
  assert (Hs : forall kv,
             In kv [("transform", CssTranslate 10 0); ("opacity", CssNumber 1)] ->
             is_Some (getVendorProperty style (fst kv))).
  { intros kv [<-|[<-|[]]]; vm_compute; eauto. }
  assert (Hn : NoDup (List.map (fun kv => vendorName style (fst kv))
                        [("transform", CssTranslate 10 0); ("opacity", CssNumber 1)])).
  { assert (E : List.map (fun kv => vendorName style (fst kv))
                   [("transform", CssTranslate 10 0); ("opacity", CssNumber 1)]
                 = ["webkitTransform"; "opacity"]) by (vm_compute; reflexivity).
    rewrite E. apply NoDup_cons. split; [|apply NoDup_singleton].
    intros H. apply list_elem_of_In in H. destruct H as [H|[]]. discriminate H. }
  destruct (applyVendorCSS_supported style _ Hs Hn) as (_ & H2 & H3).
  split; [|split].
  - exact (H2 "transform" _ (or_introl eq_refl)).
  - exact (H2 "opacity" _ (or_intror (or_introl eq_refl))).
  - transitivity (style !! "transform"); [|vm_compute; reflexivity].
    apply H3. vm_compute. intros [H|[H|[]]]; discriminate H.
Defined.

(** ** The shadow colour *)

(** X13.  [createShadowStyle] gives black with the intensity clamped to
    [0, 1], for every intensity but NaN: the alpha of a number is between
    0 and 1; it is the intensity when the intensity is in that range, 0
    for a smaller one, minus infinity included, and 1 for a larger one,
    plus infinity included.  For NaN the alpha is NaN: [Math.min] and
    [Math.max] hand it on, and so they do for a missing argument. *)
Theorem createShadowStyle_clamps (intensity : Numeric) :
  let a := alpha (createShadowStyle intensity) in
  createShadowStyle intensity = Rgba 0 0 0 a /\
  (isNaN intensity = true -> a = NaN) /\
  (isNaN intensity = false -> exists q, a = Finite q /\ 0 <= q <= 1) /\
  (forall v, intensity = Finite v ->
     exists q, a = Finite q /\
       (0 <= v <= 1 -> q == v) /\ (v <= 0 -> q = 0) /\ (1 <= v -> q = 1)) /\
  (intensity = NegInfinity -> a = Finite 0) /\
  (intensity = PosInfinity -> a = Finite 1).
Proof.
  cbv zeta. split; [reflexivity|].
  assert (HF : forall v,
            exists q, alpha (createShadowStyle (Finite v)) = Finite q /\
              0 <= q <= 1 /\
              (0 <= v <= 1 -> q == v) /\ (v <= 0 -> q = 0) /\ (1 <= v -> q = 1)).
  { intros v. unfold createShadowStyle, Math_max, Math_min.
    cbn [alpha isNaN orb numeric_ltb].
    destruct (ltb v 1) eqn:E1; cbn [isNaN orb numeric_ltb].
    - apply ltb_lt in E1. destruct (ltb 0 v) eqn:E0.
      + apply ltb_lt in E0. exists v. split; [reflexivity|].
        split; [lra|]. split; [reflexivity|]. split; intros H; exfalso; lra.
      + apply ltb_ge in E0. exists 0. split; [reflexivity|].
        split; [lra|]. split; [lra|]. split; [reflexivity|].
        intros H; exfalso; lra.
    - apply ltb_ge in E1. exists 1. split; [reflexivity|].
      split; [lra|]. split; [lra|]. split; [intros H; exfalso; lra|reflexivity]. }
  split; [|split; [|split; [|split]]].
  - destruct intensity; try discriminate; reflexivity.
  - destruct intensity as [| | | |v]; try discriminate; intros _.
    + exists 1. split; [reflexivity|lra].
    + exists 0. split; [reflexivity|lra].
    + destruct (HF v) as (q & Hq & Hr & _). exists q. split; assumption.
  - intros v ->. destruct (HF v) as (q & Hq & _ & H). exists q. split; assumption.
  - intros ->. reflexivity.
  - intros ->. reflexivity.
Qed.

(** ** The cache of computed styles *)

Section ComputedStyleCache.

Variable d : Document.

Lemma cacheInv_empty : cacheInv emptyStyleCache.
Proof.
  split; [apply NoDup_nil; trivial|].
  intros id. cbn. rewrite lookup_empty. split; [intros [x Hx]; discriminate Hx|tauto].
Qed.

Lemma cacheInv_get (element : nat) (c : StyleCache) :
  cacheInv c -> cacheInv (snd (getCachedComputedStyle d element c)).
Proof.
  intros [Hn Hi]. unfold getCachedComputedStyle. cbv zeta.
  destruct (styleCache c !! cacheKey d element) eqn:E; cbn [snd].
  - split; assumption.
  - split; cbn [pendingDeletes styleCache].
    + apply NoDup_app. split; [exact Hn|]. split; [|apply NoDup_singleton].
      intros x Hx Hx'. apply list_elem_of_In in Hx, Hx'.
      destruct Hx' as [<-|[]].
      apply Hi in Hx. rewrite E in Hx. destruct Hx as [y Hy]. discriminate Hy.
    + intros id. rewrite in_app_iff. cbn [In].
      destruct (decide (id = cacheKey d element)) as [->|Hne].
      * rewrite lookup_insert_eq. split; [auto|eauto].
      * rewrite lookup_insert_ne by congruence. rewrite Hi.
        split; [auto|]. intros [H|[H|[]]]; [exact H|congruence].
Qed.

Lemma cacheInv_delete (k : nat) (c : StyleCache) :
  cacheInv c -> cacheInv (runDelete k c).
Proof.
  intros [Hn Hi]. unfold runDelete.
  destruct (pendingDeletes c !! k) as [id|] eqn:E; [|split; assumption].
  pose proof (take_drop_middle _ _ _ E) as Hl.
  rewrite <- Hl in Hn, Hi.
  apply NoDup_app in Hn. destruct Hn as (N1 & N2 & N3).
  apply NoDup_cons in N3. destruct N3 as [N3 N4].
  split; cbn [pendingDeletes styleCache].
  - apply NoDup_app. split; [exact N1|]. split; [|exact N4].
    intros x Hx Hx'. apply (N2 x Hx). right. exact Hx'.
  - intros id'. rewrite in_app_iff.
    destruct (decide (id' = id)) as [->|Hne].
    + rewrite lookup_delete_eq. split.
      * intros [x Hx]. discriminate Hx.
      * intros [H|H]; exfalso.
        -- apply (N2 id); [apply list_elem_of_In; exact H|left].
        -- apply N3, list_elem_of_In, H.
    + rewrite lookup_delete_ne by congruence. rewrite Hi, in_app_iff. cbn [In].
      split; [intros [H|[H|H]]; [auto|congruence|auto]|intros [H|H]; auto].
Qed.

Lemma cacheInv_run (evs : list CacheEvent) : forall c,
  cacheInv c -> cacheInv (fold_left (cacheStep d) evs c).
Proof.
  induction evs as [|ev evs IH]; intros c H; cbn [fold_left]; [exact H|].
  apply IH. destruct ev; cbn [cacheStep].
  - apply cacheInv_get, H.
  - apply cacheInv_delete, H.
Qed.

End ComputedStyleCache.

(** X14.  The cache of computed styles, from the empty cache and through
    any sequence of calls of [getCachedComputedStyle] and of timeouts that
    fire: every cached key has exactly one pending deletion, and every
    pending deletion is for a cached key.  So no entry outlives its
    timeout, a hit schedules nothing, and when all pending timeouts have
    fired the cache is empty. *)
Theorem styleCache_entries_expire (d : Document) (evs : list CacheEvent) :
  let c := cacheRun d evs in
  NoDup (pendingDeletes c) /\
  (forall id, is_Some (styleCache c !! id) <-> In id (pendingDeletes c)) /\
  (forall element,
     is_Some (styleCache c !! cacheKey d element) ->
     getCachedComputedStyle d element c
     = (default element (styleCache c !! cacheKey d element), c)) /\
  (pendingDeletes c = [] -> styleCache c = ∅).
Proof.
  cbv zeta.
  destruct (cacheInv_run d evs emptyStyleCache (cacheInv_empty)) as [Hn Hi].
  fold (cacheRun d evs) in Hn, Hi.
  split; [exact Hn|]. split; [exact Hi|]. split.
  - intros element [s Hs]. unfold getCachedComputedStyle. cbv zeta.
    rewrite Hs. reflexivity.
  - intros He. apply map_empty. intros id.
    destruct (styleCache (cacheRun d evs) !! id) eqn:E; [|reflexivity].
    assert (H : In id (pendingDeletes (cacheRun d evs))) by (apply Hi; eauto).
    rewrite He in H. destruct H.
Qed.

(** X15.  The cache is keyed by the id of the element, or by its class
    when the id is empty, so two elements with the same key share one
    entry: after a call for one element, a call for another element with
    the same key, possibly on a changed page, returns the declaration that
    the first call returned and leaves the cache as it is.  When the key
    was not cached before, the second element gets the computed style of
    the first. *)
Theorem styleCache_key_collision (d1 d2 : Document) (e1 e2 : nat)
  (c : StyleCache) :
  cacheKey d1 e1 = cacheKey d2 e2 ->
  let r1 := getCachedComputedStyle d1 e1 c in
  let r2 := getCachedComputedStyle d2 e2 (snd r1) in
  fst r2 = fst r1 /\ snd r2 = snd r1 /\
  (styleCache c !! cacheKey d1 e1 = None -> fst r2 = e1).
Proof.
  intros Hk. cbv zeta. unfold getCachedComputedStyle. cbv zeta.
  rewrite <- Hk.
  destruct (styleCache c !! cacheKey d1 e1) eqn:E; cbn [fst snd styleCache].
  - rewrite E. cbn. repeat split. discriminate.
  - rewrite lookup_insert_eq. cbn. repeat split.
Qed.

(** The paragraph and the image of the example page have neither id nor
    class: the image gets the computed style of the paragraph. *)
Lemma styleCache_key_collision_witness :
  cacheKey Sample.page 6 = cacheKey Sample.page 7 /\
  fst (getCachedComputedStyle Sample.page 7
         (snd (getCachedComputedStyle Sample.page 6 emptyStyleCache))) = 6%nat.
Proof.
  assert (Hk : cacheKey Sample.page 6 = cacheKey Sample.page 7)
    by (vm_compute; reflexivity).
  split; [exact Hk|].
  destruct (styleCache_key_collision Sample.page Sample.page 6 7 emptyStyleCache Hk)
    as (_ & _ & H).
  apply H. reflexivity.
Defined.

(** ** The logger *)

(** X16.  In production ([import.meta.env.DEV] is false) the logger
    passes on nothing but errors: after any sequence of calls the console
    has received exactly the [error] calls, in their order, each as one
    [console.error] with the same arguments.  In development every call
    reaches the console as exactly one console call. *)
Theorem logger_production_errors_only (calls : list Logger.LoggerCall)
  (console : list Logger.ConsoleCall) :
  Logger.loggerCalls false calls console = console ++ errorsOf calls /\
  length (Logger.loggerCalls true calls console)
  = (length console + length calls)%nat.
Proof.
  unfold Logger.loggerCalls. split.
  - revert console. induction calls as [|c calls IH]; intros console;
      cbn [fold_left errorsOf flat_map].
    + rewrite app_nil_r. reflexivity.
    + rewrite IH. fold (errorsOf calls).
      destruct c; cbn [Logger.logger app]; rewrite <- ?app_assoc; reflexivity.
  - revert console. induction calls as [|c calls IH]; intros console;
      cbn [fold_left length].
    + lia.
    + rewrite IH. destruct c; cbn [Logger.logger]; rewrite length_app; cbn; lia.
Qed.

(** ** The registry of scroll triggers *)

Set Warnings "-clear-no-such-hyp".

Section Registry.

Import ScrollTriggers.

Variable isDev : bool.

Lemma registryInv_initial : registryInv initialManager.
Proof.
  split.
  - intros t Ht. cbn in Ht. set_solver.
  - intros id t H. cbn in H. rewrite lookup_empty in H. discriminate H.
Qed.

Lemma registryInv_kill_delete id t m :
  registryInv m -> scrollTriggers m !! id = Some t ->
  registryInv (set_scrollTriggers (delete id (scrollTriggers (kill t m))) (kill t m)).
Proof.
  intros [I1 I2] Hid. split; cbn.
  - intros t' Ht'. apply elem_of_difference in Ht'. destruct Ht' as [Ha Hne].
    destruct (I1 t' Ha) as [id' Hid'].
    exists id'. rewrite lookup_delete_ne; [exact Hid'|].
    intros ->. rewrite Hid in Hid'. inversion Hid'. subst. set_solver.
  - intros id' t'. intros H.
    destruct (decide (id' = id)) as [->|Hne].
    + rewrite lookup_delete_eq in H. discriminate H.
    + rewrite lookup_delete_ne in H by congruence. eapply I2, H.
Qed.

Lemma registryInv_killScrollTrigger id m :
  registryInv m -> registryInv (killScrollTrigger id m).
Proof.
  intros H. unfold killScrollTrigger.
  destruct (scrollTriggers m !! id) as [t|] eqn:E; [|exact H].
  cbv zeta. apply registryInv_kill_delete; assumption.
Qed.

(** [killAllScrollTriggers] kills every registered trigger. *)
Lemma killAll_fold (reg : gmap string nat) (m : Manager) :
  let m' := map_fold (fun _ trigger m => kill trigger m) m reg in
  scrollTriggers m' = scrollTriggers m /\ created m' = created m /\
  refreshes m' = refreshes m /\ console m' = console m /\
  resizeTimer m' = resizeTimer m /\ pendingTimeouts m' = pendingTimeouts m /\
  timeouts m' = timeouts m /\
  forall t, t ∈ alive m' <-> t ∈ alive m /\ forall id, reg !! id <> Some t.
Proof.
  cbv zeta.
  apply (map_fold_weak_ind
           (fun m' reg =>
              scrollTriggers m' = scrollTriggers m /\ created m' = created m /\
              refreshes m' = refreshes m /\ console m' = console m /\
              resizeTimer m' = resizeTimer m /\
              pendingTimeouts m' = pendingTimeouts m /\
              timeouts m' = timeouts m /\
              forall t, t ∈ alive m' <-> t ∈ alive m /\ forall id, reg !! id <> Some t)).
  - repeat (split; [reflexivity|]). intros t. split; [|tauto].
    intros H. split; [exact H|]. intros id. rewrite lookup_empty. discriminate.
  - intros id t reg' m' Hnone (E1 & E2 & E3 & E4 & E5 & E6 & E7 & E8).
    clear reg.
    cbn. repeat (split; [assumption|]).
    intros t'. rewrite elem_of_difference, E8, elem_of_singleton. split.
    + intros [[Ha Hr] Hne]. split; [exact Ha|]. intros id'.
      destruct (decide (id' = id)) as [->|Hd].
      * rewrite lookup_insert_eq. congruence.
      * rewrite lookup_insert_ne by congruence. apply Hr.
    + intros [Ha Hr]. split; [split; [exact Ha|]|].
      * intros id' Hid'. apply (Hr id').
        destruct (decide (id' = id)) as [->|Hd]; [congruence|].
        rewrite lookup_insert_ne by congruence. exact Hid'.
      * intros ->. apply (Hr id). apply lookup_insert_eq.
Qed.

Lemma killAllScrollTriggers_spec m :
  registryInv m ->
  let m' := killAllScrollTriggers m in
  scrollTriggers m' = ∅ /\ alive m' = ∅ /\ created m' = created m /\
  refreshes m' = refreshes m /\ console m' = console m /\
  resizeTimer m' = resizeTimer m /\ pendingTimeouts m' = pendingTimeouts m /\
  timeouts m' = timeouts m.
Proof.
  intros [I1 I2]. cbv zeta. unfold killAllScrollTriggers. cbv zeta.
  destruct (killAll_fold (scrollTriggers m) m) as (E1 & E2 & E3 & E4 & E5 & E6 & E7 & E8).
  cbv zeta in E1, E2, E3, E4, E5, E6, E7, E8. cbn.
  split; [reflexivity|]. split; [|auto 10].
  apply set_eq. intros t. rewrite E8. split; [|set_solver].
  intros [Ha Hr]. exfalso. destruct (I1 t Ha) as [id Hid]. exact (Hr id Hid).
Qed.

Lemma registryInv_killAll m : registryInv m -> registryInv (killAllScrollTriggers m).
Proof.
  intros H. destruct (killAllScrollTriggers_spec m H) as (E1 & E2 & _).
  cbv zeta in E1, E2. split.
  - intros t. rewrite E2. set_solver.
  - intros id t. rewrite E1, lookup_empty. discriminate.
Qed.

Lemma registryInv_create id throws m :
  registryInv m -> registryInv (snd (createManagedScrollTrigger isDev id throws m)).
Proof.
  intros [I1 I2]. unfold createManagedScrollTrigger. cbv zeta.
  set (m1 := match scrollTriggers m !! id with
             | Some trigger => kill trigger m
             | None => m
             end).
  assert (H1 : scrollTriggers m1 = scrollTriggers m /\ created m1 = created m /\
               forall t, t ∈ alive m1 ->
                 t ∈ alive m /\ scrollTriggers m !! id <> Some t).
  { subst m1. destruct (scrollTriggers m !! id) as [t0|] eqn:E; cbn.
    - split; [reflexivity|]. split; [reflexivity|].
      intros t Ht. apply elem_of_difference in Ht. destruct Ht as [Ha Hne].
      split; [exact Ha|]. intros Heq. inversion Heq. set_solver.
    - split; [reflexivity|]. split; [reflexivity|].
      intros t Ht. split; [exact Ht|discriminate]. }
  destruct H1 as (R1 & R2 & R3).
  unfold create. destruct throws; cbn [snd].
  - split; cbn.
    + intros t Ht. destruct (R3 t Ht) as [Ha _]. rewrite R1. apply I1, Ha.
    + intros id' t. rewrite R1, R2. apply I2.
  - split; cbn.
    + intros t Ht. apply elem_of_union in Ht. destruct Ht as [Ht|Ht].
      * destruct (R3 t Ht) as [Ha Hne]. destruct (I1 t Ha) as [id' Hid'].
        exists id'. rewrite lookup_insert_ne; [rewrite R1; exact Hid'|].
        intros <-. contradiction.
      * apply elem_of_singleton in Ht. subst t. exists id. apply lookup_insert_eq.
    + intros id' t. rewrite R1, R2.
      destruct (decide (id' = id)) as [->|Hd].
      * rewrite lookup_insert_eq. intros H. inversion H. lia.
      * rewrite lookup_insert_ne by congruence. intros H.
        pose proof (I2 _ _ H). lia.
Qed.

Lemma registryInv_apply m op : registryInv m -> registryInv (apply isDev m op).
Proof.
  intros H. destruct op; cbn [apply].
  - apply registryInv_create, H.
  - apply registryInv_killScrollTrigger, H.
  - apply registryInv_killAll, H.
  - exact H.
  - destruct H as [I1 I2]. unfold onResize, clearTimeout.
    destruct (resizeTimer m); split; cbn; assumption.
  - unfold onTimeout. destruct (bool_decide _); [|exact H].
    destruct H as [I1 I2]. split; cbn; assumption.
  - apply registryInv_killAll, H.
Qed.

Lemma registryInv_applyAll ops : forall m,
  registryInv m -> registryInv (applyAll isDev ops m).
Proof.
  unfold applyAll. induction ops as [|op ops IH]; intros m H; cbn [fold_left].
  - exact H.
  - apply IH, registryInv_apply, H.
Qed.

End Registry.

(** X17.  Whatever the module has been asked to do, every scroll trigger
    that is alive is registered under an id, so that
    [killAllScrollTriggers], and with it the listener of
    [astro:before-swap], leaves no trigger alive and an empty registry; it
    touches nothing else. *)
Theorem killAllScrollTriggers_kills_all (isDev : bool)
  (ops : list ScrollTriggers.Op) :
  let m := ScrollTriggers.applyAll isDev ops ScrollTriggers.initialManager in
  (forall t, t ∈ ScrollTriggers.alive m ->
     exists id, ScrollTriggers.scrollTriggers m !! id = Some t) /\
  ScrollTriggers.alive (ScrollTriggers.killAllScrollTriggers m) = ∅ /\
  ScrollTriggers.scrollTriggers (ScrollTriggers.killAllScrollTriggers m) = ∅ /\
  ScrollTriggers.onBeforeSwap m = ScrollTriggers.killAllScrollTriggers m /\
  ScrollTriggers.refreshes (ScrollTriggers.killAllScrollTriggers m)
  = ScrollTriggers.refreshes m /\
  ScrollTriggers.pendingTimeouts (ScrollTriggers.killAllScrollTriggers m)
  = ScrollTriggers.pendingTimeouts m.
Proof.
  cbv zeta.
  pose proof (registryInv_applyAll isDev ops _ registryInv_initial) as HI.
  destruct (killAllScrollTriggers_spec _ HI) as (E1 & E2 & _ & E4 & _ & _ & E7 & _).
  cbv zeta in E1, E2, E4, E7.
  split; [apply HI|]. split; [exact E2|]. split; [exact E1|].
  split; [reflexivity|]. split; [exact E4|exact E7].
Qed.

(** X18.  [createManagedScrollTrigger] for an id that is registered, in
    any state that the module reaches: the trigger that was registered is
    killed first.  When [ScrollTrigger.create] returns, the new trigger
    differs from the old one, is alive and takes the place of the old one
    in the registry, and nothing is logged.  When it throws, the call
    returns null and logs one error, in production too, and the registry
    keeps the id with the trigger that has just been killed.  The entries
    of the other ids stay as they are. *)
Theorem createManagedScrollTrigger_replaces (isDev : bool)
  (ops : list ScrollTriggers.Op) (id : string) (throws : bool) (t0 : nat) :
  let m := ScrollTriggers.applyAll isDev ops ScrollTriggers.initialManager in
  ScrollTriggers.scrollTriggers m !! id = Some t0 ->
  let r := ScrollTriggers.createManagedScrollTrigger isDev id throws m in
  (t0 ∉ ScrollTriggers.alive (snd r)) /\
  (forall id', id' <> id ->
     ScrollTriggers.scrollTriggers (snd r) !! id'
     = ScrollTriggers.scrollTriggers m !! id') /\
  (throws = false ->
   fst r = Some (ScrollTriggers.created m) /\
   ScrollTriggers.created m <> t0 /\
   ScrollTriggers.scrollTriggers (snd r) !! id = Some (ScrollTriggers.created m) /\
   ScrollTriggers.created m ∈ ScrollTriggers.alive (snd r) /\
   ScrollTriggers.console (snd r) = ScrollTriggers.console m) /\
  (throws = true ->
   fst r = None /\
   ScrollTriggers.scrollTriggers (snd r) !! id = Some t0 /\
   ScrollTriggers.alive (snd r) = ScrollTriggers.alive m ∖ {[ t0 ]} /\
   ScrollTriggers.console (snd r)
   = ScrollTriggers.console m
     ++ [Logger.ConsoleError
           [String.append "Failed to create ScrollTrigger for " (String.append id ":");
            "error"]]).
Proof.
  intros m Hid. cbv zeta.
  pose proof (registryInv_applyAll isDev ops _ registryInv_initial) as [_ I2].
  fold m in I2. pose proof (I2 _ _ Hid) as Hlt.
  unfold ScrollTriggers.createManagedScrollTrigger. cbv zeta. rewrite Hid.
  unfold ScrollTriggers.create.
  destruct throws; cbn.
  - split; [set_solver|]. split; [intros id' Hne; reflexivity|].
    split; [intros Hf; discriminate Hf|]. intros _.
    split; [reflexivity|]. split; [exact Hid|]. split; reflexivity.
  - split; [|split; [|split; [|discriminate]]].
    + apply not_elem_of_union. split; [set_solver|].
      apply not_elem_of_singleton. lia.
    + intros id' Hne. apply lookup_insert_ne. congruence.
    + intros _. split; [reflexivity|]. split; [lia|].
      split; [apply lookup_insert_eq|]. split; [set_solver|reflexivity].
Qed.

(** The trigger of the id "hero" is created, and a second creation for the
    same id throws: the id stays registered with the dead trigger. *)
Lemma createManagedScrollTrigger_replaces_witness :
  let m := ScrollTriggers.applyAll false [ScrollTriggers.Create "hero" false]
             ScrollTriggers.initialManager in
  let r := ScrollTriggers.createManagedScrollTrigger false "hero" true m in
  ScrollTriggers.scrollTriggers m !! "hero" = Some 0%nat /\
  fst r = None /\
  ScrollTriggers.scrollTriggers (snd r) !! "hero" = Some 0%nat /\
  (0%nat ∉ ScrollTriggers.alive (snd r)) /\
  length (ScrollTriggers.console (snd r)) = 1%nat.
Proof.
  intros m r.
  assert (H0 : ScrollTriggers.scrollTriggers m !! "hero" = Some 0%nat)
    by (vm_compute; reflexivity).
  split; [exact H0|].
  destruct (createManagedScrollTrigger_replaces false
              [ScrollTriggers.Create "hero" false] "hero" true 0 H0)
    as (H1 & _ & _ & H3).
  destruct (H3 eq_refl) as (R1 & R2 & _ & R4).
  split; [exact R1|]. split; [exact R2|]. split; [exact H1|].
  subst r m. rewrite R4. rewrite length_app. reflexivity.
Defined.

(** ** The resize listener *)

Section Debounce.

Import ScrollTriggers.

Variable isDev : bool.

Lemma debounceInv_initial : debounceInv initialManager.
Proof. split; [left; reflexivity|]. intros h H. discriminate H. Qed.

Lemma onResize_spec m :
  debounceInv m ->
  let m' := onResize m in
  pendingTimeouts m' = {[ timeouts m ]} /\
  resizeTimer m' = Some (timeouts m) /\
  timeouts m' = S (timeouts m) /\
  refreshes m' = refreshes m /\
  scrollTriggers m' = scrollTriggers m /\
  alive m' = alive m.
Proof.
  intros [I1 I2]. cbv zeta. unfold onResize, clearTimeout. cbv zeta.
  destruct (resizeTimer m) as [h0|] eqn:E; cbn.
  - split; [|auto 10].
    destruct I1 as [He|(h & Hh & Hp)]; [rewrite He; set_solver|].
    inversion Hh. subst h. rewrite Hp. set_solver.
  - split; [|auto 10].
    destruct I1 as [He|(h & Hh & Hp)]; [rewrite He; set_solver|discriminate Hh].
Qed.

Lemma debounceInv_onResize m : debounceInv m -> debounceInv (onResize m).
Proof.
  intros H. destruct (onResize_spec m H) as (E1 & E2 & E3 & _).
  cbv zeta in E1, E2, E3. split.
  - right. exists (timeouts m). split; assumption.
  - intros h. rewrite E2, E3. intros Hh. inversion Hh. lia.
Qed.

Lemma onTimeout_spec h m :
  debounceInv m ->
  let m' := onTimeout h m in
  (h ∈ pendingTimeouts m ->
   pendingTimeouts m' = ∅ /\ refreshes m' = S (refreshes m)) /\
  (h ∉ pendingTimeouts m -> m' = m) /\
  resizeTimer m' = resizeTimer m /\ timeouts m' = timeouts m.
Proof.
  intros [I1 I2]. cbv zeta. unfold onTimeout.
  destruct (bool_decide (h ∈ pendingTimeouts m)) eqn:E.
  - apply bool_decide_eq_true_1 in E. cbn.
    split; [|split; [intros Hn; contradiction|split; reflexivity]].
    intros _. split; [|reflexivity].
    destruct I1 as [He|(h' & _ & Hp)]; [rewrite He in E; set_solver|].
    rewrite Hp in E |- *. set_solver.
  - apply bool_decide_eq_false_1 in E.
    split; [intros Hin; contradiction|]. split; [reflexivity|].
    split; reflexivity.
Qed.

Lemma debounceInv_apply m op : debounceInv m -> debounceInv (apply isDev m op).
Proof.
  intros H. destruct op; cbn [apply].
  - unfold createManagedScrollTrigger, create. cbv zeta.
    destruct (scrollTriggers m !! id); destruct throws; exact H.
  - unfold killScrollTrigger. destruct (scrollTriggers m !! id); exact H.
  - destruct (killAll_fold (scrollTriggers m) m) as (_ & _ & _ & _ & E5 & E6 & E7 & _).
    cbv zeta in E5, E6, E7.
    unfold killAllScrollTriggers, debounceInv. cbn. rewrite E5, E6, E7. exact H.
  - exact H.
  - apply debounceInv_onResize, H.
  - destruct (onTimeout_spec h m H) as (H1 & H2 & H3 & H4).
    cbv zeta in H1, H2, H3, H4.
    destruct (decide (h ∈ pendingTimeouts m)) as [Hin|Hn].
    + destruct (H1 Hin) as [Hp _]. split; [left; exact Hp|].
      rewrite H3, H4. apply H.
    + rewrite (H2 Hn). exact H.
  - destruct (killAll_fold (scrollTriggers m) m) as (_ & _ & _ & _ & E5 & E6 & E7 & _).
    cbv zeta in E5, E6, E7.
    unfold onBeforeSwap, killAllScrollTriggers, debounceInv. cbn.
    rewrite E5, E6, E7. exact H.
Qed.

Lemma debounceInv_applyAll ops : forall m,
  debounceInv m -> debounceInv (applyAll isDev ops m).
Proof.
  unfold applyAll. induction ops as [|op ops IH]; intros m H; cbn [fold_left].
  - exact H.
  - apply IH, debounceInv_apply, H.
Qed.

(** A burst of resize events leaves the timeout of the last one. *)
Lemma resize_burst k : forall m,
  debounceInv m ->
  let m' := applyAll isDev (replicate (S k) Resize) m in
  debounceInv m' /\
  pendingTimeouts m' = {[ (timeouts m + k)%nat ]} /\
  refreshes m' = refreshes m /\
  scrollTriggers m' = scrollTriggers m /\
  alive m' = alive m.
Proof.
  unfold applyAll. induction k as [|k IH]; intros m H.
  - cbn [replicate fold_left apply].
    destruct (onResize_spec m H) as (E1 & _ & _ & E4 & E5 & E6).
    cbv zeta in E1, E4, E5, E6. cbv zeta.
    split; [apply debounceInv_onResize, H|].
    rewrite E1, Nat.add_0_r. auto.
  - change (replicate (S (S k)) Resize) with (Resize :: replicate (S k) Resize).
    cbn [fold_left apply].
    destruct (onResize_spec m H) as (_ & _ & E3 & E4 & E5 & E6).
    cbv zeta in E3, E4, E5, E6.
    destruct (IH (onResize m) (debounceInv_onResize m H)) as (J0 & J1 & J2 & J3 & J4).
    cbv zeta in J0, J1, J2, J3, J4. cbv zeta.
    split; [exact J0|].
    rewrite J1, J2, J3, J4, E3, E4, E5, E6.
    replace (S (timeouts m) + k)%nat with (timeouts m + S k)%nat by lia. auto.
Qed.

End Debounce.

(** X19.  The resize listener debounces.  In every state that the module
    reaches at most one timeout is pending.  After a burst of one or more
    resize events exactly one is pending, the one of the last event; when
    it fires, [ScrollTrigger.refresh()] runs once and nothing is pending
    any more; the timeouts of the earlier events of the burst, which were
    cleared, do nothing.  The registry and the live triggers are not
    touched. *)
Theorem resize_refreshes_once (isDev : bool) (ops : list ScrollTriggers.Op)
  (k : nat) :
  let m := ScrollTriggers.applyAll isDev ops ScrollTriggers.initialManager in
  let burst := ScrollTriggers.applyAll isDev (replicate (S k) ScrollTriggers.Resize) m in
  let last := (ScrollTriggers.timeouts m + k)%nat in
  (ScrollTriggers.pendingTimeouts m = ∅ \/
   exists h, ScrollTriggers.pendingTimeouts m = {[ h ]}) /\
  ScrollTriggers.pendingTimeouts burst = {[ last ]} /\
  ScrollTriggers.refreshes burst = ScrollTriggers.refreshes m /\
  ScrollTriggers.refreshes (ScrollTriggers.onTimeout last burst)
  = S (ScrollTriggers.refreshes m) /\
  ScrollTriggers.pendingTimeouts (ScrollTriggers.onTimeout last burst) = ∅ /\
  (forall h, h <> last -> ScrollTriggers.onTimeout h burst = burst) /\
  ScrollTriggers.scrollTriggers (ScrollTriggers.onTimeout last burst)
  = ScrollTriggers.scrollTriggers m.
Proof.
  cbv zeta.
  pose proof (debounceInv_applyAll isDev ops _ debounceInv_initial) as HI.
  set (m := ScrollTriggers.applyAll isDev ops ScrollTriggers.initialManager) in *.
  destruct (resize_burst isDev k m HI) as (J0 & J1 & J2 & J3 & _).
  cbv zeta in J0, J1, J2, J3.
  set (burst := ScrollTriggers.applyAll isDev (replicate (S k) ScrollTriggers.Resize) m) in *.
  split.
  { destruct HI as [[He|(h & _ & Hp)] _]; [left; exact He|right; eauto]. }
  split; [exact J1|]. split; [exact J2|].
  destruct (onTimeout_spec (ScrollTriggers.timeouts m + k) burst J0) as (H1 & _).
  cbv zeta in H1.
  destruct H1 as [P1 P2]; [rewrite J1; set_solver|].
  split; [rewrite P2, J2; reflexivity|]. split; [exact P1|].
  split.
  - intros h Hne.
    destruct (onTimeout_spec h burst J0) as (_ & H2 & _). cbv zeta in H2.
    apply H2. rewrite J1. set_solver.
  - rewrite <- J3. unfold ScrollTriggers.onTimeout.
    destruct (bool_decide _); reflexivity.
Qed.

(** ** The tree that [createStickerDOM] builds *)

Section LayerTree.

Lemma unused_parent k d n :
  unusedFrom k d -> (k <= n)%nat -> parentOf d !! n = None.
Proof.
  intros [H _] Hn. destruct (parentOf d !! n) eqn:E; [|reflexivity].
  apply H in E. lia.
Qed.

Lemma unused_children k d n :
  unusedFrom k d -> (k <= n)%nat -> childrenOf d !! n = None.
Proof.
  intros [_ H] Hn. destruct (childrenOf d !! n) eqn:E; [|reflexivity].
  apply H in E. lia.
Qed.

Lemma unusedFrom_le k k' d : unusedFrom k d -> (k <= k')%nat -> unusedFrom k' d.
Proof.
  intros [H1 H2] Hk.
  split; intros n x Hn; [apply H1 in Hn|apply H2 in Hn]; lia.
Qed.

Lemma remove_unparented n d : parentOf d !! n = None -> remove n d = d.
Proof. intros H. unfold remove, parentNode. rewrite H. reflexivity. Qed.

Lemma appendChild_maps p n d :
  parentOf d !! n = None ->
  parentOf (appendChild p n d) = <[ n := p ]> (parentOf d) /\
  childrenOf (appendChild p n d) = <[ p := childNodes d p ++ [n] ]> (childrenOf d) /\
  styleOf (appendChild p n d) = styleOf d /\
  classOf (appendChild p n d) = classOf d /\
  nextNode (appendChild p n d) = nextNode d.
Proof.
  intros H. unfold appendChild. rewrite (remove_unparented n d H).
  repeat split.
Qed.

Lemma shape_init d0 : allocated d0 -> shape d0 d0 [].
Proof.
  intros H. split; [exact H|]. split; [intros m Hm; auto|].
  split; [constructor|]. split; [constructor|]. apply NoDup_nil. trivial.
Qed.

Lemma shape_bounds d0 d T : shape d0 d T -> (nextNode d0 <= nextNode d)%nat \/ T = [] .
Proof.
  intros (_ & _ & _ & HB & _). destruct T as [|e T]; [right; reflexivity|].
  left. apply Forall_cons in HB. destruct HB as [HB _]. lia.
Qed.

(** Writing the style or the class of a new node. *)
Lemma tracks_ext d d' e :
  parentOf d' = parentOf d -> childrenOf d' = childrenOf d ->
  styleOf d' !! t_node e = styleOf d !! t_node e ->
  tracks d e -> tracks d' e.
Proof.
  unfold tracks, childNodes. intros -> -> ->. tauto.
Qed.

Lemma shape_setClassName d0 d T x c :
  (nextNode d0 <= x)%nat -> shape d0 d T -> shape d0 (setClassName x c d) T.
Proof.
  intros Hx (HA & HF & HT & HB & HN).
  split; [exact HA|]. split; [|split; [|split; [exact HB|exact HN]]].
  - intros m Hm. destruct (HF m Hm) as (F1 & F2 & F3 & F4).
    cbn. repeat split; try assumption.
    rewrite lookup_insert_ne by lia. exact F4.
  - eapply Forall_impl; [exact HT|]. intros e He.
    apply (tracks_ext d); auto.
Qed.

Lemma shape_setCssText d0 d T e l :
  shape d0 d (e :: T) ->
  shape d0 (setCssText (t_node e) l d)
    (mkTracked (t_node e) (t_parent e) (t_children e) (Some (list_to_map l)) :: T).
Proof.
  intros (HA & HF & HT & HB & HN).
  apply Forall_cons in HT. destruct HT as [He HT].
  apply Forall_cons in HB. destruct HB as [Hbe HB].
  cbn [List.map] in HN. apply NoDup_cons in HN. destruct HN as [Hne HN].
  split; [exact HA|]. split; [|split; [|split]].
  - intros m Hm. destruct (HF m Hm) as (F1 & F2 & F3 & F4).
    cbn. repeat split; try assumption.
    rewrite lookup_insert_ne by lia. exact F3.
  - apply Forall_cons. split.
    + destruct He as (E1 & E2 & E3). unfold tracks. cbn.
      rewrite lookup_insert_eq. auto.
    + apply Forall_forall. intros e' He'.
      pose proof (proj1 (Forall_forall _ _) HT e' He') as Ht.
      apply (tracks_ext d); auto. cbn.
      apply lookup_insert_ne. intros Heq. apply Hne.
      rewrite Heq. apply list_elem_of_fmap. exists e'. auto.
  - apply Forall_cons. split; [exact Hbe|exact HB].
  - cbn [List.map t_node]. apply NoDup_cons. split; assumption.
Qed.

Lemma shape_createElement d0 d T tag x d1 :
  (nextNode d0 <= nextNode d)%nat ->
  createElement tag d = (x, d1) ->
  shape d0 d T ->
  (nextNode d0 <= x)%nat /\ (nextNode d0 <= nextNode d1)%nat /\
  shape d0 d1 (mkTracked x None [] (styleOf d1 !! x) :: T).
Proof.
  intros Hk E (HA & HF & HT & HB & HN).
  unfold createElement in E. inversion E. subst x d1. clear E.
  split; [exact Hk|]. split; [cbn; lia|].
  split; [|split; [|split; [|split]]].
  - apply (unusedFrom_le (nextNode d)); [exact HA|cbn; lia].
  - exact HF.
  - apply Forall_cons. split.
    + unfold tracks, childNodes. cbn.
      rewrite (unused_parent _ _ _ HA (Nat.le_refl _)).
      rewrite (unused_children _ _ _ HA (Nat.le_refl _)). auto.
    + eapply Forall_impl; [exact HT|]. intros e He.
      apply (tracks_ext d); auto.
  - apply Forall_cons. split; [cbn; lia|].
    eapply Forall_impl; [exact HB|]. cbn. intros e He. lia.
  - cbn [List.map t_node]. apply NoDup_cons. split; [|exact HN].
    intros Hin. apply list_elem_of_fmap in Hin. destruct Hin as (e & He & Hin).
    pose proof (proj1 (Forall_forall _ _) HB e Hin) as Hb. cbn in Hb. lia.
Qed.

End LayerTree.

Section CloneTree.

Lemma copyNode_maps n c d :
  parentOf (copyNode n c d) = parentOf d /\
  childrenOf (copyNode n c d) = childrenOf d /\
  nextNode (copyNode n c d) = nextNode d /\
  forall m, m <> c ->
    styleOf (copyNode n c d) !! m = styleOf d !! m /\
    classOf (copyNode n c d) !! m = classOf d !! m.
Proof.
  unfold copyNode. cbn.
  repeat (split; [reflexivity|]).
  intros m Hm. split.
  - destruct (styleOf d !! n); [apply lookup_insert_ne; congruence|reflexivity].
  - destruct (classOf d !! n); [apply lookup_insert_ne; congruence|reflexivity].
Qed.

Lemma cloneNode_maps fuel : forall n d x d1,
  allocated d ->
  cloneNode fuel n d = (x, d1) ->
  x = nextNode d /\ (nextNode d < nextNode d1)%nat /\
  allocated d1 /\ cloneFrame d d1 /\ parentOf d1 !! x = None.
Proof.
  induction fuel as [|fuel IH]; intros n d x d1 HA.
  - cbn [cloneNode]. intros H. inversion H. subst x d1. clear H.
    destruct (copyNode_maps n (nextNode d) d) as (C1 & C2 & C3 & C4).
    split; [reflexivity|]. split; [cbn; lia|].
    split; [|split].
    + unfold allocated, unusedFrom. cbn. fold (parentOf (copyNode n (nextNode d) d)).
      apply (unusedFrom_le (nextNode d)); [|lia].
      unfold unusedFrom. cbn. exact HA.
    + intros m Hm. cbn.
      destruct (C4 m ltac:(lia)) as [S1 S2].
      repeat split; assumption.
    + cbn. apply (unused_parent _ _ _ HA). lia.
  - cbn [cloneNode]. intros H. inversion H as [[Hx Hd]]. clear H.
    set (c := nextNode d) in *.
    set (acc0 := set_nextNode (S c) (copyNode n c d)) in *.
    destruct (copyNode_maps n c d) as (C1 & C2 & C3 & C4).
    assert (Hinv : allocated acc0 /\ (c < nextNode acc0)%nat /\
                   parentOf acc0 !! c = None /\
                   forall m, (m < c)%nat ->
                     parentOf acc0 !! m = parentOf d !! m /\
                     childrenOf acc0 !! m = childrenOf d !! m /\
                     styleOf acc0 !! m = styleOf d !! m /\
                     classOf acc0 !! m = classOf d !! m).
    { split; [|split; [cbn; lia|split]].
      - apply (unusedFrom_le c); [|cbn; lia]. unfold unusedFrom. cbn. exact HA.
      - cbn. apply (unused_parent _ _ _ HA). unfold c. lia.
      - intros m Hm. destruct (C4 m ltac:(lia)) as [S1 S2]. cbn.
        repeat split; assumption. }
    clear Hd. revert Hinv. generalize acc0. clear acc0.
    induction (childNodes d n) as [|child l IHl]; intros acc (I1 & I2 & I3 & I4);
      cbn [fold_left].
    + split; [reflexivity|]. split; [exact I2|]. split; [exact I1|].
      split; [exact I4|exact I3].
    + apply IHl. clear IHl.
      destruct (cloneNode fuel child acc) as [k acc'] eqn:E.
      destruct (IH _ _ _ _ I1 E) as (K1 & K2 & K3 & K4 & K5).
      destruct (appendChild_maps c k acc' K5) as (A1 & A2 & A3 & A4 & A5).
      split; [|split; [rewrite A5; lia|split]].
      * unfold allocated, unusedFrom. rewrite A1, A2, A5. split.
        -- apply map_Forall_insert_2; [lia|apply K3].
        -- apply map_Forall_insert_2; [lia|apply K3].
      * rewrite A1. rewrite lookup_insert_ne by lia.
        destruct (K4 c I2) as (F1 & _). rewrite F1. exact I3.
      * intros m Hm. rewrite A1, A2, A3, A4.
        rewrite !lookup_insert_ne by lia.
        destruct (K4 m ltac:(lia)) as (F1 & F2 & F3 & F4).
        destruct (I4 m Hm) as (G1 & G2 & G3 & G4).
        repeat split; congruence.
Qed.

Lemma shape_cloneNode d0 d T fuel n x d1 :
  (nextNode d0 <= nextNode d)%nat ->
  cloneNode fuel n d = (x, d1) ->
  shape d0 d T ->
  (nextNode d0 <= x)%nat /\ (nextNode d0 <= nextNode d1)%nat /\
  shape d0 d1 (mkTracked x None (childNodes d1 x) (styleOf d1 !! x) :: T).
Proof.
  intros Hk E (HA & HF & HT & HB & HN).
  destruct (cloneNode_maps fuel n d x d1 HA E) as (K1 & K2 & K3 & K4 & K5).
  subst x.
  split; [exact Hk|]. split; [lia|].
  split; [exact K3|]. split; [|split; [|split]].
  - intros m Hm. destruct (K4 m ltac:(lia)) as (F1 & F2 & F3 & F4).
    destruct (HF m Hm) as (G1 & G2 & G3 & G4).
    repeat split; congruence.
  - apply Forall_cons. split; [unfold tracks; cbn; auto|].
    apply Forall_forall. intros e He.
    pose proof (proj1 (Forall_forall _ _) HT e He) as (T1 & T2 & T3).
    pose proof (proj1 (Forall_forall _ _) HB e He) as Hb. cbn in Hb.
    destruct (K4 (t_node e) ltac:(lia)) as (F1 & F2 & F3 & _).
    unfold tracks, childNodes in *. rewrite F1, F2, F3. auto.
  - apply Forall_cons. split; [cbn; lia|].
    eapply Forall_impl; [exact HB|]. cbn. intros e He. lia.
  - cbn [List.map t_node]. apply NoDup_cons. split; [|exact HN].
    intros Hin. apply list_elem_of_fmap in Hin. destruct Hin as (e & He & Hin).
    pose proof (proj1 (Forall_forall _ _) HB e Hin) as Hb. cbn in Hb. lia.
Qed.

(** Appending the new node at position [i] of the list, which has no
    parent yet, to the new node at position [j]. *)
Lemma shape_appendChild d0 d T i j en ep :
  T !! i = Some en -> T !! j = Some ep -> i <> j -> t_parent en = None ->
  shape d0 d T ->
  shape d0 (appendChild (t_node ep) (t_node en) d)
    (<[ i := mkTracked (t_node en) (Some (t_node ep)) (t_children en) (t_style en) ]>
       (<[ j := mkTracked (t_node ep) (t_parent ep) (t_children ep ++ [t_node en])
                  (t_style ep) ]> T)).
Proof.
  intros Hi Hj Hij Hpar (HA & HF & HT & HB & HN).
  pose proof (proj1 (Forall_lookup _ _) HT i en Hi) as (N1 & N2 & N3).
  pose proof (proj1 (Forall_lookup _ _) HT j ep Hj) as (P1 & P2 & P3).
  pose proof (proj1 (Forall_lookup _ _) HB i en Hi) as Bn.
  pose proof (proj1 (Forall_lookup _ _) HB j ep Hj) as Bp.
  cbn in Bn, Bp.
  assert (Hnp : t_node en <> t_node ep).
  { intros Heq. apply Hij.
    apply (NoDup_lookup _ i j (t_node en) HN).
    - rewrite list_lookup_fmap, Hi. reflexivity.
    - rewrite list_lookup_fmap, Hj, Heq. reflexivity. }
  assert (Hnone : parentOf d !! t_node en = None) by (rewrite N1; exact Hpar).
  destruct (appendChild_maps (t_node ep) (t_node en) d Hnone) as (A1 & A2 & A3 & A4 & A5).
  split; [|split; [|split; [|split]]].
  - unfold allocated, unusedFrom. rewrite A1, A2, A5. split.
    + apply map_Forall_insert_2; [lia|apply HA].
    + apply map_Forall_insert_2; [lia|apply HA].
  - intros m Hm. rewrite A1, A2, A3, A4. rewrite !lookup_insert_ne by lia.
    apply HF, Hm.
  - apply Forall_lookup. intros k e Hk.
    destruct (decide (k = i)) as [->|Hki].
    + rewrite list_lookup_insert_eq in Hk.
      * inversion Hk. subst e. unfold tracks, childNodes.
        cbn [t_node t_parent t_children t_style].
        rewrite A1, A2, A3. rewrite lookup_insert_eq.
        rewrite lookup_insert_ne by congruence.
        unfold childNodes in N2. rewrite N2. auto.
      * rewrite length_insert. apply lookup_lt_Some in Hi. exact Hi.
    + rewrite list_lookup_insert_ne in Hk by congruence.
      destruct (decide (k = j)) as [->|Hkj].
      * rewrite list_lookup_insert_eq in Hk by (apply lookup_lt_Some in Hj; exact Hj).
        inversion Hk. subst e. unfold tracks, childNodes.
        cbn [t_node t_parent t_children t_style].
        rewrite A1, A2, A3. rewrite lookup_insert_ne by congruence.
        rewrite lookup_insert_eq. cbn [default]. fold (childNodes d (t_node ep)).
        rewrite P2. auto.
      * rewrite list_lookup_insert_ne in Hk by congruence.
        pose proof (proj1 (Forall_lookup _ _) HT k e Hk) as (E1 & E2 & E3).
        assert (Hen : t_node e <> t_node en).
        { intros Heq. apply Hki.
          apply (NoDup_lookup _ k i (t_node e) HN).
          - rewrite list_lookup_fmap, Hk. reflexivity.
          - rewrite list_lookup_fmap, Hi, Heq. reflexivity. }
        assert (Hep : t_node e <> t_node ep).
        { intros Heq. apply Hkj.
          apply (NoDup_lookup _ k j (t_node e) HN).
          - rewrite list_lookup_fmap, Hk. reflexivity.
          - rewrite list_lookup_fmap, Hj, Heq. reflexivity. }
        unfold tracks, childNodes in *. rewrite A1, A2, A3.
        rewrite !lookup_insert_ne by congruence. auto.
  - apply Forall_lookup. intros k e Hk. rewrite A5.
    destruct (decide (k = i)) as [->|Hki].
    + rewrite list_lookup_insert_eq in Hk.
      * inversion Hk. subst e. cbn. exact Bn.
      * rewrite length_insert. apply lookup_lt_Some in Hi. exact Hi.
    + rewrite list_lookup_insert_ne in Hk by congruence.
      destruct (decide (k = j)) as [->|Hkj].
      * rewrite list_lookup_insert_eq in Hk by (apply lookup_lt_Some in Hj; exact Hj).
        inversion Hk. subst e. cbn. exact Bp.
      * rewrite list_lookup_insert_ne in Hk by congruence.
        exact (proj1 (Forall_lookup _ _) HB k e Hk).
  - assert (E : List.map t_node
                  (<[ i := mkTracked (t_node en) (Some (t_node ep)) (t_children en)
                             (t_style en) ]>
                     (<[ j := mkTracked (t_node ep) (t_parent ep)
                                (t_children ep ++ [t_node en]) (t_style ep) ]> T))
                = List.map t_node T).
    { change (@List.map Tracked nat t_node) with (@fmap list _ Tracked nat t_node).
      rewrite !list_fmap_insert. cbn [t_node].
      rewrite (list_insert_id (t_node <$> T) j (t_node ep))
        by (rewrite list_lookup_fmap, Hj; reflexivity).
      apply list_insert_id. rewrite list_lookup_fmap, Hi. reflexivity. }
    rewrite E. exact HN.
Qed.

End CloneTree.

Section BuildTree.

Ltac tree_bound d0 D :=
  assert ((nextNode d0 <= nextNode D)%nat)
    by (rewrite ?nextNode_appendChild;
        cbn [nextNode setClassName setCssText set_classOf set_styleOf];
        assumption).

Ltac tree_css H :=
  lazymatch type of H with
  | shape ?d0 ?d1 (?e :: ?T) =>
      lazymatch goal with
      | |- context [setCssText ?x ?l d1] =>
          apply (shape_setCssText d0 d1 T e l) in H;
          cbn [t_node t_parent t_children t_style] in H
      end
  end.

Ltac tree_class H :=
  lazymatch type of H with
  | shape ?d0 ?D ?T =>
      lazymatch goal with
      | |- context [setClassName ?x ?c D] =>
          apply (shape_setClassName d0 D T x c) in H; [|assumption]
      end
  end.

Ltac tree_append H i j :=
  lazymatch type of H with
  | shape ?d0 ?D ?T =>
      eapply (shape_appendChild d0 D T i j) in H;
      [|reflexivity|reflexivity|lia|reflexivity];
      cbn [t_node t_parent t_children t_style insert list_insert app] in H
  end.

Ltac tree_element H :=
  lazymatch type of H with
  | shape ?d0 ?D ?T =>
      lazymatch goal with
      | |- context [createElement ?tag D] =>
          let x := fresh "x" in
          let d1 := fresh "d" in
          let E := fresh "E" in
          let Hk := fresh "Hk" in
          let Hx := fresh "Hx" in
          tree_bound d0 D;
          destruct (createElement tag D) as [x d1] eqn:E;
          eapply (shape_createElement d0 D T tag x d1) in H; [|assumption|exact E];
          destruct H as (Hx & Hk & H); clear E
      end
  end.

Ltac tree_clone H :=
  lazymatch type of H with
  | shape ?d0 ?D ?T =>
      lazymatch goal with
      | |- context [cloneNode ?f ?n D] =>
          let x := fresh "x" in
          let d1 := fresh "d" in
          let E := fresh "E" in
          let Hk := fresh "Hk" in
          let Hx := fresh "Hx" in
          tree_bound d0 D;
          destruct (cloneNode f n D) as [x d1] eqn:E;
          eapply (shape_cloneNode d0 D T f n x d1) in H; [|assumption|exact E];
          destruct H as (Hx & Hk & H); clear E
      end
  end.

Lemma createStickerDOM_shape (o : nat) (w h : Q) (d : Document) :
  allocated d ->
  exists c m v f fc b bi bc bs dp fcc bcc fcs bcs ms vs fs bis bss,
    fst (createStickerDOM o w h d) = mkDOMStructure c m v f b bi bs dp /\
    shape d (snd (createStickerDOM o w h d))
      [mkTracked dp (Some v) [] (Some (depthStyle w h));
       mkTracked bs (Some b) [] bss;
       mkTracked bc (Some bi) bcc bcs;
       mkTracked bi (Some b) [bc] bis;
       mkTracked b (Some v) [bi; bs] (Some (backStyle w h));
       mkTracked fc (Some f) fcc fcs;
       mkTracked f (Some v) [fc] fs;
       mkTracked v (Some m) [f; dp; b] vs;
       mkTracked m (Some c) [v] ms;
       mkTracked c None [m] (Some (containerStyle w h))] /\
    fcs = Some contentStyle /\ bcs = Some contentStyle.
Proof.
  intros HA.
  pose proof (shape_init d HA) as H.
  assert (Hk0 : (nextNode d <= nextNode d)%nat) by lia.
  unfold createStickerDOM.
  tree_element H. tree_css H. tree_class H.
  tree_element H. tree_css H. tree_class H.
  tree_element H. tree_css H. tree_class H.
  tree_element H. tree_css H. tree_class H.
  tree_clone H. tree_css H. tree_append H 0%nat 1%nat.
  tree_element H. tree_css H. tree_class H.
  tree_element H. tree_css H. tree_class H.
  tree_clone H. tree_css H. tree_append H 0%nat 1%nat.
  tree_element H. tree_css H. tree_class H.
  tree_element H. tree_css H. tree_class H.
  tree_append H 3%nat 4%nat.
  tree_append H 1%nat 4%nat.
  tree_append H 6%nat 7%nat.
  tree_append H 0%nat 7%nat.
  tree_append H 4%nat 7%nat.
  tree_append H 7%nat 8%nat.
  tree_append H 8%nat 9%nat.
  cbn [fst snd].
  do 19 eexists. split; [reflexivity|]. split; [exact H|]. split; reflexivity.
Qed.

(** X20.  The tree that [createStickerDOM] builds on a document whose
    unallocated references are not in use.  The container is detached and
    holds the mask, the mask holds the move layer, the move layer holds
    the front, the depth shadow and the back face in this order, the back
    face holds the back image and the back shadow, and the two shadows are
    empty.  The front and the back image each hold one copy of the
    original: two different new nodes, never the original, sized to 100%
    of their layer.  The container is an inline block of the given size,
    the back face starts translated by the width, and the depth shadow
    starts parked at (-10000, -10000).  No node of the old document
    changes its parent, its children, its inline style or its class, and
    the unallocated references of the new document are not in use. *)
Theorem createStickerDOM_structure (o : nat) (w h : Q) (d : Document)
  (s : DOMStructure) (d' : Document) :
  allocated d ->
  createStickerDOM o w h d = (s, d') ->
  (parentNode d' (container s) = None /\
   childNodes d' (container s) = [mask s] /\
   childNodes d' (mask s) = [move s] /\
   childNodes d' (move s) = [front s; depth s; back s] /\
   childNodes d' (back s) = [backImg s; backShadow s] /\
   childNodes d' (backShadow s) = [] /\
   childNodes d' (depth s) = []) /\
  (parentNode d' (mask s) = Some (container s) /\
   parentNode d' (move s) = Some (mask s) /\
   parentNode d' (front s) = Some (move s) /\
   parentNode d' (depth s) = Some (move s) /\
   parentNode d' (back s) = Some (move s) /\
   parentNode d' (backImg s) = Some (back s) /\
   parentNode d' (backShadow s) = Some (back s)) /\
  (exists frontContent backContent,
     frontContent <> backContent /\
     (nextNode d <= frontContent)%nat /\ (nextNode d <= backContent)%nat /\
     childNodes d' (front s) = [frontContent] /\
     childNodes d' (backImg s) = [backContent] /\
     parentNode d' frontContent = Some (front s) /\
     parentNode d' backContent = Some (backImg s) /\
     inlineStyle d' frontContent = contentStyle /\
     inlineStyle d' backContent = contentStyle) /\
  (inlineStyle d' (container s) = containerStyle w h /\
   inlineStyle d' (back s) = backStyle w h /\
   inlineStyle d' (depth s) = depthStyle w h) /\
  (forall n, (n < nextNode d)%nat ->
     parentNode d' n = parentNode d n /\
     childNodes d' n = childNodes d n /\
     inlineStyle d' n = inlineStyle d n /\
     classOf d' !! n = classOf d !! n) /\
  allocated d'.
Proof.
  intros HA Hs.
  destruct (createStickerDOM_shape o w h d HA)
    as (c & m & v & f & fc & b & bi & bc & bs & dp & fcc & bcc & fcs & bcs & ms
        & vs & fs & bis & bss & E1 & H & -> & ->).
  rewrite Hs in E1, H. cbn [fst snd] in E1, H. subst s.
  cbn [container mask move front back backImg backShadow depth].
  destruct H as (HA' & HF & HT & HB & HN).
  repeat match goal with
         | H : Forall _ (_ :: _) |- _ =>
             apply Forall_cons in H;
             let H1 := fresh "T" in destruct H as [H1 H]
         end.
  repeat match goal with
         | H : tracks _ _ |- _ =>
             unfold tracks in H; cbn [t_node t_parent t_children t_style] in H;
             let P := fresh "P" in
             let C := fresh "C" in
             let S := fresh "S" in
             destruct H as (P & C & S)
         end.
  cbn [List.map t_node] in *.
  assert (Hne : fc <> bc).
  { intros ->.
    repeat match goal with
           | H : NoDup (_ :: _) |- _ =>
               apply NoDup_cons in H;
               let H1 := fresh "N" in destruct H as [H1 H]
           end.
    match goal with
    | H : bc ∉ _ |- _ => solve [apply H; rewrite !elem_of_cons; auto 10]
    end. }
  unfold parentNode, inlineStyle.
  split; [repeat split; assumption|].
  split; [repeat split; assumption|].
  split.
  { exists fc, bc. split; [exact Hne|].
    split; [lia|]. split; [lia|].
    repeat match goal with
           | H : styleOf _ !! _ = Some _ |- _ => rewrite H
           end.
    repeat split; assumption. }
  split.
  { repeat match goal with
           | H : styleOf _ !! _ = Some _ |- _ => rewrite H
           end.
    repeat split. }
  split; [|exact HA'].
  intros n Hn. destruct (HF n Hn) as (F1 & F2 & F3 & F4).
  unfold childNodes. rewrite F1, F2, F3, F4. repeat split.
Qed.

End BuildTree.

(** The layers for the card of the example page. *)
Lemma createStickerDOM_structure_witness :
  allocated Sample.page /\
  let s := fst (createStickerDOM 5 400 400 Sample.page) in
  let d' := snd (createStickerDOM 5 400 400 Sample.page) in
  childNodes d' (move s) = [front s; depth s; back s] /\
  parentNode d' (container s) = None /\
  parentNode d' 5 = Some 3%nat /\
  getStyle d' (back s) "transform" = CssTranslate 400 0.
Proof.
  assert (HA : allocated Sample.page).
  { split; apply map_Forall_to_list; vm_compute; repeat constructor. }
  split; [exact HA|].
  destruct (createStickerDOM 5 400 400 Sample.page) as [s d'] eqn:E.
  destruct (createStickerDOM_structure 5 400 400 Sample.page s d' HA E)
    as ((P0 & _ & _ & C3 & _) & _ & _ & (_ & S2 & _) & HF & _).
  cbn [fst snd]. split; [exact C3|]. split; [exact P0|].
  split.
  - destruct (HF 5%nat) as (F1 & _); [vm_compute; lia|].
    rewrite F1. vm_compute. reflexivity.
  - unfold getStyle. rewrite S2. vm_compute. reflexivity.
Defined.

(** ** Putting the sticker in place of the original *)

Section InsertSticker.

Lemma removeFrom_head x l : x ∉ l -> removeFrom x (x :: l) = l.
Proof.
  intros Hx. unfold removeFrom. cbn [List.filter]. rewrite Nat.eqb_refl. cbn [negb].
  induction l as [|y l IH]; [reflexivity|].
  apply not_elem_of_cons in Hx. destruct Hx as [Hxy Hx].
  cbn [List.filter].
  destruct (Nat.eqb_spec y x) as [->|_]; [contradiction Hxy; reflexivity|].
  cbn [negb]. f_equal. apply IH, Hx.
Qed.

(** The loop of [insertStickerDOM] on a wrapper whose first children are
    [pre], none of them the original, followed by [rest]. *)
Lemma clearBefore_spec wrapper o rest : forall pre d,
  childNodes d wrapper = pre ++ rest ->
  NoDup (pre ++ rest) ->
  o ∉ pre ->
  (forall x, x ∈ pre -> parentNode d x = Some wrapper) ->
  match rest with [] => True | r :: _ => r = o end ->
  let d' := clearBefore wrapper o (pre ++ rest) d in
  childNodes d' wrapper = rest /\
  (forall x, x ∈ pre -> parentNode d' x = None) /\
  (forall y, y ∉ pre -> parentNode d' y = parentNode d y) /\
  (forall p, p <> wrapper -> childNodes d' p = childNodes d p) /\
  styleOf d' = styleOf d /\
  nextNode d' = nextNode d.
Proof.
  induction pre as [|x pre IH]; intros d Hc Hn Ho Hp Hr; cbv zeta.
  - cbn [app] in *.
    assert (E : clearBefore wrapper o rest d = d).
    { destruct rest as [|r rest']; [reflexivity|]. subst r.
      cbn [clearBefore]. rewrite Nat.eqb_refl. reflexivity. }
    rewrite E. split; [exact Hc|]. split; [intros x Hx; inversion Hx|].
    repeat split.
  - cbn [app clearBefore] in *.
    apply not_elem_of_cons in Ho. destruct Ho as [Hxo Ho].
    destruct (Nat.eqb_spec x o) as [->|_]; [contradiction Hxo; reflexivity|].
    cbn [negb].
    apply NoDup_cons in Hn. destruct Hn as [Hx Hn].
    assert (Hpx : parentNode d x = Some wrapper) by (apply Hp; left).
    assert (Hrem : parentOf (remove x d) = delete x (parentOf d) /\
                   childrenOf (remove x d)
                   = <[ wrapper := pre ++ rest ]> (childrenOf d) /\
                   styleOf (remove x d) = styleOf d /\
                   nextNode (remove x d) = nextNode d).
    { unfold remove. rewrite Hpx. cbn. rewrite Hc.
      rewrite (removeFrom_head x (pre ++ rest) Hx). repeat split. }
    destruct Hrem as (R1 & R2 & R3 & R4).
    destruct (IH (remove x d)) as (I1 & I2 & I3 & I4 & I5 & I6).
    + unfold childNodes. rewrite R2, lookup_insert_eq. reflexivity.
    + exact Hn.
    + exact Ho.
    + intros y Hy. unfold parentNode. rewrite R1.
      rewrite lookup_delete_ne.
      * apply Hp. right. exact Hy.
      * intros ->. apply Hx. apply elem_of_app. left. exact Hy.
    + exact Hr.
    + cbv zeta in I1, I2, I3, I4, I5, I6.
      split; [exact I1|]. split; [|split; [|split; [|split]]].
      * intros y Hy. apply elem_of_cons in Hy. destruct Hy as [->|Hy].
        -- destruct (decide (x ∈ pre)) as [Hin|Hnin]; [apply I2, Hin|].
           rewrite (I3 x Hnin). unfold parentNode. rewrite R1.
           apply lookup_delete_eq.
        -- apply I2, Hy.
      * intros y Hy. apply not_elem_of_cons in Hy. destruct Hy as [Hyx Hy].
        rewrite (I3 y Hy). unfold parentNode. rewrite R1.
        apply lookup_delete_ne. congruence.
      * intros p Hpw. rewrite (I4 p Hpw). unfold childNodes. rewrite R2.
        rewrite lookup_insert_ne by congruence. reflexivity.
      * rewrite I5. exact R3.
      * rewrite I6. exact R4.
Qed.

Lemma placeBefore_head n o post : placeBefore n o (o :: post) = n :: o :: post.
Proof. cbn [placeBefore]. rewrite Nat.eqb_refl. reflexivity. Qed.

Lemma documentNode_clearBefore wrapper o children : forall d,
  documentNode (clearBefore wrapper o children d) = documentNode d.
Proof.
  induction children as [|x l IH]; intros d; cbn [clearBefore]; [reflexivity|].
  destruct (negb _); [|reflexivity].
  rewrite IH. unfold remove. destruct (parentNode d x); reflexivity.
Qed.

(** What [insertStickerDOM] does to the tree and to the styles when the
    original is a child of the wrapper. *)
Lemma insertStickerDOM_maps (wrapper : nat) (s : DOMStructure) (o : nat)
  (d : Document) (pre post : list nat) :
  childNodes d wrapper = pre ++ o :: post ->
  NoDup (pre ++ o :: post) ->
  o ∉ pre ->
  (forall x, x ∈ pre -> parentNode d x = Some wrapper) ->
  parentNode d (container s) = None ->
  parentNode d o = Some wrapper ->
  wrapper <> documentNode d ->
  exists d',
    insertStickerDOM wrapper s o d = (d', Returned tt) /\
    childNodes d' wrapper = container s :: o :: post /\
    parentNode d' (container s) = Some wrapper /\
    (forall x, x ∈ pre -> x <> container s -> parentNode d' x = None) /\
    getStyle d' o "display" = CssText "none" /\
    (forall n prop, n <> o \/ prop <> "display" ->
       getStyle d' n prop = getStyle d n prop) /\
    (forall y, y ∉ pre -> y <> container s -> parentNode d' y = parentNode d y) /\
    (forall q, q <> wrapper -> childNodes d' q = childNodes d q) /\
    nextNode d' = nextNode d.
Proof.
  intros Hc Hn Ho Hp Hdet Hpo Hdoc. unfold insertStickerDOM.
  set (d1 := setStyle o "display" (CssText "none") d).
  assert (D1 : childNodes d1 wrapper = pre ++ o :: post) by exact Hc.
  rewrite D1.
  destruct (clearBefore_spec wrapper o (o :: post) pre d1 D1 Hn Ho Hp eq_refl)
    as (I1 & I2 & I3 & I4 & I5 & I6).
  cbv zeta in I1, I2, I3, I4, I5, I6.
  pose proof (documentNode_clearBefore wrapper o (pre ++ o :: post) d1) as I7.
  set (d2 := clearBefore wrapper o (pre ++ o :: post) d1) in *.
  assert (Hdet2 : parentOf d2 !! container s = None).
  { destruct (decide (container s ∈ pre)) as [Hin|Hnin].
    - apply I2, Hin.
    - rewrite <- Hdet. apply (I3 _ Hnin). }
  assert (Hpo2 : parentNode d2 o = Some wrapper).
  { rewrite (I3 o Ho). exact Hpo. }
  unfold insertBefore.
  rewrite (bool_decide_eq_true_2 _ Hpo2). cbn [negb].
  assert (Hdoc2 : Nat.eqb wrapper (documentNode d2) = false).
  { apply Nat.eqb_neq. rewrite I7. exact Hdoc. }
  rewrite Hdoc2.
  eexists. split; [reflexivity|].
  unfold insert. rewrite (remove_unparented _ _ Hdet2).
  split; [|split; [|split; [|split; [|split; [|split; [|split]]]]]].
  - unfold childNodes at 1. cbn. rewrite lookup_insert_eq. cbn [default].
    rewrite I1. apply placeBefore_head.
  - unfold parentNode. cbn. apply lookup_insert_eq.
  - intros x Hx Hxc. unfold parentNode. cbn.
    rewrite lookup_insert_ne by congruence. apply I2, Hx.
  - unfold getStyle, inlineStyle. cbn. rewrite I5.
    fold (inlineStyle d1 o). fold (getStyle d1 o "display").
    apply getStyle_setStyle_eq.
  - intros n prop Hne. unfold getStyle, inlineStyle. cbn. rewrite I5.
    fold (inlineStyle d1 n). fold (getStyle d1 n prop).
    apply getStyle_setStyle_ne.
    destruct Hne as [H|H]; [left|right]; congruence.
  - intros y Hy Hyc. unfold parentNode. cbn.
    rewrite lookup_insert_ne by congruence. apply (I3 y Hy).
  - intros q Hq. unfold childNodes at 1. cbn.
    rewrite lookup_insert_ne by congruence. apply (I4 q Hq).
  - cbn. exact I6.
Qed.

(** What it does when the original is not a child of the wrapper: the
    wrapper is emptied, and then the insertion throws. *)
Lemma insertStickerDOM_notFound (wrapper : nat) (s : DOMStructure) (o : nat)
  (d : Document) (pre : list nat) :
  childNodes d wrapper = pre ->
  NoDup pre ->
  (forall x, x ∈ pre -> parentNode d x = Some wrapper) ->
  parentNode d (container s) = None ->
  parentNode d o <> Some wrapper ->
  exists d',
    insertStickerDOM wrapper s o d = (d', Thrown NotFoundError) /\
    childNodes d' wrapper = [] /\
    parentNode d' (container s) = None /\
    (forall x, x ∈ pre -> parentNode d' x = None) /\
    getStyle d' o "display" = CssText "none" /\
    (forall n prop, n <> o \/ prop <> "display" ->
       getStyle d' n prop = getStyle d n prop) /\
    (forall y, y ∉ pre -> parentNode d' y = parentNode d y) /\
    (forall q, q <> wrapper -> childNodes d' q = childNodes d q).
Proof.
  intros Hc Hn Hp Hdet Hpo. unfold insertStickerDOM.
  assert (Ho : o ∉ pre) by (intros Hin; apply Hpo, Hp, Hin).
  assert (Hcs : container s ∉ pre).
  { intros Hin. rewrite (Hp _ Hin) in Hdet. discriminate Hdet. }
  set (d1 := setStyle o "display" (CssText "none") d).
  assert (D1 : childNodes d1 wrapper = pre ++ []) by (rewrite app_nil_r; exact Hc).
  rewrite D1.
  rewrite <- (app_nil_r pre) in Hn.
  destruct (clearBefore_spec wrapper o [] pre d1 D1 Hn Ho Hp I)
    as (I1 & I2 & I3 & I4 & I5 & I6).
  cbv zeta in I1, I2, I3, I4, I5, I6.
  set (d2 := clearBefore wrapper o (pre ++ []) d1) in *.
  assert (Hpo2 : parentNode d2 o <> Some wrapper).
  { rewrite (I3 o Ho). exact Hpo. }
  unfold insertBefore.
  rewrite (bool_decide_eq_false_2 _ Hpo2). cbn [negb].
  exists d2. split; [reflexivity|].
  split; [exact I1|]. split; [rewrite (I3 _ Hcs); exact Hdet|].
  split; [exact I2|]. split; [|split; [|split; [exact I3|exact I4]]].
  - unfold getStyle, inlineStyle. rewrite I5.
    fold (inlineStyle d1 o). fold (getStyle d1 o "display").
    apply getStyle_setStyle_eq.
  - intros n prop Hne. unfold getStyle, inlineStyle. rewrite I5.
    fold (inlineStyle d1 n). fold (getStyle d1 n prop).
    apply getStyle_setStyle_ne.
    destruct Hne as [H|H]; [left|right]; congruence.
Qed.



End InsertSticker.

(** X21.  [insertStickerDOM] on a wrapper, an element that is not inside
    the detached sticker structure, whose children are [pre] and then
    [rest], all different and the ones of [pre] children of the wrapper.
    When the original is a child of the wrapper, the first of [rest]: the
    call returns; the original is hidden with [display: none], every child
    in front of the original is removed, the children after it stay, and
    the container is put right before the original, so that the wrapper
    holds the container, the original and what followed it.  When the
    original is not a child of the wrapper: the original is hidden and
    every child of the wrapper is removed all the same, and then
    [insertBefore] throws a NotFoundError; the wrapper stays empty and the
    container detached.  In both cases no other node changes its parent or
    its children, and no other style is written. *)
Theorem insertStickerDOM_children (wrapper : nat) (s : DOMStructure) (o : nat)
  (d : Document) (pre rest : list nat) :
  childNodes d wrapper = pre ++ rest ->
  NoDup (pre ++ rest) ->
  (forall x, x ∈ pre -> parentNode d x = Some wrapper) ->
  parentNode d (container s) = None ->
  wrapper ∉ treeOrder (nextNode d) d (container s) ->
  wrapper <> documentNode d ->
  (forall post, rest = o :: post -> o ∉ pre -> parentNode d o = Some wrapper ->
     exists d',
       insertStickerDOM wrapper s o d = (d', Returned tt) /\
       childNodes d' wrapper = container s :: o :: post /\
       parentNode d' (container s) = Some wrapper /\
       (forall x, x ∈ pre -> x <> container s -> parentNode d' x = None) /\
       getStyle d' o "display" = CssText "none" /\
       (forall n prop, n <> o \/ prop <> "display" ->
          getStyle d' n prop = getStyle d n prop) /\
       (forall y, y ∉ pre -> y <> container s -> parentNode d' y = parentNode d y) /\
       (forall q, q <> wrapper -> childNodes d' q = childNodes d q)) /\
  (rest = [] -> parentNode d o <> Some wrapper ->
     exists d',
       insertStickerDOM wrapper s o d = (d', Thrown NotFoundError) /\
       childNodes d' wrapper = [] /\
       parentNode d' (container s) = None /\
       (forall x, x ∈ pre -> parentNode d' x = None) /\
       getStyle d' o "display" = CssText "none" /\
       (forall n prop, n <> o \/ prop <> "display" ->
          getStyle d' n prop = getStyle d n prop) /\
       (forall y, y ∉ pre -> parentNode d' y = parentNode d y) /\
       (forall q, q <> wrapper -> childNodes d' q = childNodes d q)).
Proof.
  intros Hc Hn Hp Hdet _ Hdoc. split.
  - intros post -> Ho Hpo.
    destruct (insertStickerDOM_maps wrapper s o d pre post Hc Hn Ho Hp Hdet Hpo Hdoc)
      as (d' & H0 & H1 & H2 & H3 & H4 & H5 & H6 & H7 & _).
    exists d'. auto 10.
  - intros -> Hpo. rewrite app_nil_r in Hc, Hn.
    exact (insertStickerDOM_notFound wrapper s o d pre Hc Hn Hp Hdet Hpo).
Qed.

(** A wrapper, reference 3, that holds the header, the card and the
    paragraph of the example page.  With the card as the original the
    header goes and the paragraph stays; with the image, which is a child
    of the card, all three go and the call throws. *)
Lemma insertStickerDOM_children_witness :
  let s := mkDOMStructure 8 9 10 11 12 13 14 15 in
  childNodes Sample.page 3 = [4; 5; 6]%nat /\
  (exists d',
     insertStickerDOM 3 s 5 Sample.page = (d', Returned tt) /\
     childNodes d' 3 = [8; 5; 6]%nat /\
     parentNode d' 4 = None /\
     getStyle d' 5 "display" = CssText "none") /\
  (exists d',
     insertStickerDOM 3 s 7 Sample.page = (d', Thrown NotFoundError) /\
     childNodes d' 3 = [] /\
     parentNode d' 8 = None /\
     parentNode d' 5 = None).
Proof.
  intros s.
  assert (Hc : childNodes Sample.page 3 = [4; 5; 6]%nat)
    by (vm_compute; reflexivity).
  split; [exact Hc|].
  assert (Hn : NoDup [4; 5; 6]%nat).
  { repeat (apply NoDup_cons; split;
            [rewrite ?elem_of_cons, elem_of_nil; lia|]).
    apply NoDup_nil. trivial. }
  assert (Hdet : parentNode Sample.page (container s) = None)
    by (vm_compute; reflexivity).
  assert (Htree : 3%nat ∉ treeOrder (nextNode Sample.page) Sample.page (container s)).
  { assert (E : treeOrder (nextNode Sample.page) Sample.page (container s)
                = [8%nat]) by (vm_compute; reflexivity).
    rewrite E, list_elem_of_singleton. discriminate. }
  assert (Hdoc : 3%nat <> documentNode Sample.page) by discriminate.
  split.
  - destruct (insertStickerDOM_children 3 s 5 Sample.page [4%nat] [5; 6]%nat)
      as [HA _]; try assumption.
    + intros x Hx. apply list_elem_of_singleton in Hx. subst x.
      vm_compute. reflexivity.
    + destruct (HA [6%nat] eq_refl) as (d' & H0 & H1 & _ & H3 & H4 & _).
      * rewrite list_elem_of_singleton. discriminate.
      * vm_compute. reflexivity.
      * exists d'. split; [exact H0|]. split; [exact H1|]. split; [|exact H4].
        apply H3; [left|discriminate].
  - destruct (insertStickerDOM_children 3 s 7 Sample.page [4; 5; 6]%nat [])
      as [_ HB]; try assumption.
    + intros x Hx. rewrite !elem_of_cons, elem_of_nil in Hx.
      destruct Hx as [->|[->|[->|[]]]]; vm_compute; reflexivity.
    + destruct (HB eq_refl) as (d' & H0 & H1 & H2 & H3 & _).
      * vm_compute. discriminate.
      * exists d'. split; [exact H0|]. split; [exact H1|]. split; [exact H2|].
        apply H3. rewrite !elem_of_cons. auto.
Defined.

(** ** Registering and releasing the six listeners *)

Section Registration.

Lemma dropFirst_app_other r l rest :
  (forall r', In r' l -> registration_eqb r r' = false) ->
  dropFirst r (l ++ r :: rest) = l ++ rest.
Proof.
  induction l as [|x l IH]; intros H; cbn [app dropFirst].
  - rewrite registration_eqb_refl. reflexivity.
  - rewrite (H x) by (left; reflexivity). f_equal.
    apply IH. intros r' Hr'. apply H. right. exact Hr'.
Qed.

Lemma registration_eqb_target c ty l r :
  fst (fst r) <> c -> registration_eqb (c, ty, l) r = false.
Proof.
  destruct r as [[t ty'] l']. cbn [fst]. intros H. unfold registration_eqb.
  destruct (Nat.eqb_spec c t) as [->|_]; [contradiction H; reflexivity|].
  reflexivity.
Qed.

End Registration.

(** X22.  The cleanup function of [setupEventHandlers] undoes the setup:
    the setup appends six listeners on the container, for mouseenter,
    mouseleave, mousemove, touchstart, touchend and touchmove in this
    order, and touches nothing else; when no listener was registered on
    the container before, the cleanup after the setup gives back the world
    as it was. *)
Theorem setupEventHandlers_cleanup (dom : DOMStructure) (w : World) :
  (forall r, In r (listeners w) -> fst (fst r) <> container dom) ->
  listeners (setupEventHandlers dom w)
  = listeners w ++ containerListeners (container dom) /\
  document (setupEventHandlers dom w) = document w /\
  timers (setupEventHandlers dom w) = timers w /\
  observed (setupEventHandlers dom w) = observed w /\
  cleanupEvents dom (setupEventHandlers dom w) = w.
Proof.
  intros Hno.
  assert (Hl : listeners (setupEventHandlers dom w)
               = listeners w ++ containerListeners (container dom)).
  { unfold setupEventHandlers, addEventListener, containerListeners. cbn.
    rewrite <- !app_assoc. reflexivity. }
  split; [exact Hl|]. split; [reflexivity|]. split; [reflexivity|].
  split; [reflexivity|].
  assert (Hd : forall ty l r', In r' (listeners w) ->
                 registration_eqb (container dom, ty, l) r' = false).
  { intros ty l r' Hr'. apply registration_eqb_target, Hno, Hr'. }
  unfold cleanupEvents, removeEventListener. cbv zeta.
  cbn [listeners set_listeners]. rewrite Hl. unfold containerListeners.
  rewrite !dropFirst_app_other by (intros r' Hr'; apply Hd, Hr').
  rewrite app_nil_r. destruct w. reflexivity.
Qed.

(** The world of the example page, where nothing is registered. *)
Lemma setupEventHandlers_cleanup_witness :
  let dom := mkDOMStructure 11 12 13 14 17 18 21 22 in
  length (listeners (setupEventHandlers dom Sample.world)) = 6%nat /\
  cleanupEvents dom (setupEventHandlers dom Sample.world) = Sample.world.
Proof.
  intros dom.
  destruct (setupEventHandlers_cleanup dom Sample.world) as (H1 & _ & _ & _ & H5).
  - intros r [].
  - split; [rewrite H1; reflexivity|exact H5].
Defined.

(** ** The wrapper around the original *)

Section Wrapping.

Lemma placeBefore_middle n o pre post :
  o ∉ pre -> placeBefore n o (pre ++ o :: post) = pre ++ n :: o :: post.
Proof.
  induction pre as [|x pre IH]; intros H; cbn [app placeBefore].
  - rewrite Nat.eqb_refl. reflexivity.
  - apply not_elem_of_cons in H. destruct H as [Hox H].
    destruct (Nat.eqb_spec x o) as [->|_]; [contradiction Hox; reflexivity|].
    f_equal. apply IH, H.
Qed.

Lemma removeFrom_notin x l : x ∉ l -> removeFrom x l = l.
Proof.
  unfold removeFrom. induction l as [|y l IH]; intros H; cbn [List.filter];
    [reflexivity|].
  apply not_elem_of_cons in H. destruct H as [Hxy H].
  destruct (Nat.eqb_spec y x) as [->|_]; [contradiction Hxy; reflexivity|].
  cbn [negb]. f_equal. apply IH, H.
Qed.

Lemma removeFrom_middle x pre post :
  x ∉ pre -> x ∉ post -> removeFrom x (pre ++ x :: post) = pre ++ post.
Proof.
  intros H1 H2. unfold removeFrom. rewrite List.filter_app.
  fold (removeFrom x pre). rewrite (removeFrom_notin x pre H1).
  cbn [List.filter]. rewrite Nat.eqb_refl. cbn [negb].
  fold (removeFrom x post). rewrite (removeFrom_notin x post H2). reflexivity.
Qed.

Lemma insert_maps p n ref d :
  parentOf d !! n = None ->
  parentOf (insert p n ref d) = <[ n := p ]> (parentOf d) /\
  childrenOf (insert p n ref d)
  = <[ p := placeBefore n ref (childNodes d p) ]> (childrenOf d) /\
  styleOf (insert p n ref d) = styleOf d /\
  nextNode (insert p n ref d) = nextNode d.
Proof.
  intros H. unfold insert. rewrite (remove_unparented n d H). repeat split.
Qed.

(** What [injectGlobalStyles] changes: nothing, or the new style element
    and the children of the head. *)
Lemma injectGlobalStyles_maps d injected d1 :
  allocated d -> (documentHead d < nextNode d)%nat ->
  injectGlobalStyles d = (injected, d1) ->
  allocated d1 /\ (nextNode d <= nextNode d1)%nat /\
  (forall m, (m < nextNode d)%nat -> parentOf d1 !! m = parentOf d !! m) /\
  (forall q, q <> documentHead d -> (q < nextNode d)%nat ->
     childrenOf d1 !! q = childrenOf d !! q) /\
  styleOf d1 = styleOf d.
Proof.
  intros HA Hh. unfold injectGlobalStyles.
  destruct (getElementById STYLE_ID d).
  - intros E. inversion E. subst. split; [exact HA|]. split; [lia|]. repeat split.
  - cbn [createElement]. intros E. inversion E. clear E. subst injected d1.
    set (x := nextNode d).
    set (d0 := setTextContent x "gradientStyles"
                 (setId x STYLE_ID
                    (set_nextNode (S x)
                       (set_htmlElements ({[x]} ∪ htmlElements d)
                          (set_tagOf (<[x:="style"]> (tagOf d)) d))))).
    assert (Hp : parentOf d0 = parentOf d) by reflexivity.
    assert (Hc : childrenOf d0 = childrenOf d) by reflexivity.
    assert (Hs : styleOf d0 = styleOf d) by reflexivity.
    assert (Hn : nextNode d0 = S x) by reflexivity.
    assert (Hd : documentHead d0 = documentHead d) by reflexivity.
    clearbody d0.
    assert (Hx : parentOf d0 !! x = None).
    { rewrite Hp. apply (unused_parent _ _ _ HA). unfold x. lia. }
    destruct (appendChild_maps (documentHead d0) x d0 Hx) as (A1 & A2 & A3 & A4 & A5).
    rewrite Hd in A1, A2, A3, A4, A5.
    split; [|split; [|split; [|split]]].
    + unfold allocated, unusedFrom. rewrite A1, A2, A5, Hn, Hp, Hc. split.
      * apply map_Forall_insert_2; [lia|].
        apply (unusedFrom_le _ _ _ HA). unfold x. lia.
      * apply map_Forall_insert_2; [unfold x; lia|].
        apply (unusedFrom_le _ _ _ HA). unfold x. lia.
    + rewrite A5, Hn. unfold x. lia.
    + intros m Hm. rewrite A1, Hp. apply lookup_insert_ne. unfold x. lia.
    + intros q Hq _. rewrite A2, Hc. apply lookup_insert_ne. congruence.
    + rewrite A3. exact Hs.
Qed.

(** The wrapper takes the place of the target, and the target goes into
    the wrapper. *)
Lemma wrap_maps d1 W d2 target p pre post :
  allocated d1 ->
  createElement "div" d1 = (W, d2) ->
  parentOf d1 !! target = Some p ->
  childNodes d1 p = pre ++ target :: post ->
  target ∉ pre -> target ∉ post ->
  let D :=
    setStyle W "display" (CssText "inline-block")
      (setStyle W "position" (CssText "relative") d2) in
  let D4 := appendChild W target (insert p W target D) in
  W = nextNode d1 /\
  allocated D4 /\ nextNode D4 = S (nextNode d1) /\
  parentOf D4 !! target = Some W /\
  parentOf D4 !! W = Some p /\
  childNodes D4 W = [target] /\
  childNodes D4 p = pre ++ W :: post /\
  (forall m, m <> target -> m <> W -> parentOf D4 !! m = parentOf d1 !! m) /\
  (forall q, q <> p -> q <> W -> childrenOf D4 !! q = childrenOf d1 !! q) /\
  (forall m, m <> W -> styleOf D4 !! m = styleOf d1 !! m).
Proof.
  intros HA E Hpar Hch Hpre Hpost. cbv zeta.
  unfold createElement in E. inversion E. clear E.
  set (W0 := nextNode d1) in *.
  set (D := setStyle W0 "display" (CssText "inline-block")
              (setStyle W0 "position" (CssText "relative")
                 (set_nextNode (S W0)
                    (set_htmlElements ({[W0]} ∪ htmlElements d1)
                       (set_tagOf (<[W0:="div"]> (tagOf d1)) d1))))).
  assert (Dp : parentOf D = parentOf d1) by reflexivity.
  assert (Dc : childrenOf D = childrenOf d1) by reflexivity.
  assert (Dn : nextNode D = S W0) by reflexivity.
  assert (Ds : forall m, m <> W0 -> styleOf D !! m = styleOf d1 !! m).
  { intros m Hm. subst D. cbn.
    rewrite !lookup_insert_ne by congruence. reflexivity. }
  clearbody D.
  assert (Ht : (target < W0)%nat).
  { destruct HA as [HA1 _]. apply HA1 in Hpar. exact Hpar. }
  assert (Hp : (p < W0)%nat).
  { destruct HA as [_ HA2]. unfold childNodes in Hch.
    destruct (childrenOf d1 !! p) eqn:Ep; [apply HA2 in Ep; exact Ep|].
    cbn in Hch. destruct pre; discriminate Hch. }
  assert (HW : parentOf D !! W0 = None).
  { rewrite Dp. apply (unused_parent _ _ _ HA). unfold W0. lia. }
  destruct (insert_maps p W0 target D HW) as (B1 & B2 & B3 & B4).
  set (D3 := insert p W0 target D) in *. clearbody D3.
  assert (B5 : childNodes D p = pre ++ target :: post).
  { unfold childNodes. rewrite Dc. exact Hch. }
  rewrite B5, (placeBefore_middle W0 target pre post Hpre) in B2.
  assert (R0 : parentNode D3 target = Some p).
  { unfold parentNode. rewrite B1, lookup_insert_ne by lia. rewrite Dp. exact Hpar. }
  assert (R1 : childNodes D3 p = pre ++ W0 :: target :: post).
  { unfold childNodes. rewrite B2, lookup_insert_eq. reflexivity. }
  unfold appendChild, remove. rewrite R0, R1. cbn.
  assert (Er : removeFrom target (pre ++ W0 :: target :: post) = pre ++ W0 :: post).
  { change (pre ++ W0 :: target :: post) with (pre ++ [W0] ++ target :: post).
    rewrite app_assoc. rewrite removeFrom_middle.
    - rewrite <- app_assoc. reflexivity.
    - apply not_elem_of_app. split; [exact Hpre|].
      apply not_elem_of_cons. split; [lia|apply not_elem_of_nil].
    - exact Hpost. }
  rewrite Er, B1, B2, B3, B4, Dn.
  assert (Hcw : childrenOf d1 !! W0 = None).
  { apply (unused_children _ _ _ HA). unfold W0. lia. }
  split; [reflexivity|].
  split; [|split; [reflexivity|split; [|split; [|split; [|split; [|split; [|split]]]]]]].
  - unfold allocated, unusedFrom. cbn. rewrite Dp, Dc. split.
    + apply map_Forall_insert_2; [lia|]. apply map_Forall_delete.
      apply map_Forall_insert_2; [lia|].
      apply (unusedFrom_le _ _ _ HA). unfold W0. lia.
    + apply map_Forall_insert_2; [lia|].
      apply map_Forall_insert_2; [lia|].
      apply map_Forall_insert_2; [lia|].
      apply (unusedFrom_le _ _ _ HA). unfold W0. lia.
  - apply lookup_insert_eq.
  - rewrite lookup_insert_ne by lia. rewrite lookup_delete_ne by lia.
    apply lookup_insert_eq.
  - unfold childNodes. cbn. rewrite lookup_insert_eq. cbn.
    rewrite lookup_insert_ne by lia. rewrite lookup_insert_ne by lia.
    rewrite Dc, Hcw. reflexivity.
  - unfold childNodes. cbn. rewrite lookup_insert_ne by lia.
    rewrite lookup_insert_eq. reflexivity.
  - intros m Hm1 Hm2. rewrite lookup_insert_ne by congruence.
    rewrite lookup_delete_ne by congruence.
    rewrite lookup_insert_ne by congruence. rewrite Dp. reflexivity.
  - intros q Hq1 Hq2. rewrite lookup_insert_ne by congruence.
    rewrite lookup_insert_ne by congruence.
    rewrite lookup_insert_ne by congruence. rewrite Dc. reflexivity.
  - intros m Hm. apply Ds, Hm.
Qed.

End Wrapping.

Section BuiltTree.

(** What construction builds, for a target that is a child of [p]. *)
Lemma useStickerAnimation_built (env : Env) (target p : nat)
  (pre post : list nat) (config : option StickerAnimationConfig) (w : World) :
  target ∈ htmlElements (document w) ->
  childAt (document w) target p pre post ->
  p <> documentNode (document w) ->
  (documentNode (document w) < nextNode (document w))%nat ->
  observerError env config = None ->
  exists w' i,
    useStickerAnimation env (JsObject target) config w = (w', Returned i) /\
    let d := document w in
    let d' := document w' in
    let W := wrapperElement i in
    let C := container (stickerDOM i) in
    ((nextNode d <= W)%nat /\ (W < C)%nat) /\
    (parentNode d' W = Some p /\
     childNodes d' p = pre ++ W :: post /\
     childNodes d' W = [C; target] /\
     parentNode d' C = Some W /\
     parentNode d' target = Some W /\
     getStyle d' target "display" = CssText "none") /\
    (childNodes d' C = [mask (stickerDOM i)] /\
     childNodes d' (move (stickerDOM i))
     = [front (stickerDOM i); depth (stickerDOM i); back (stickerDOM i)]) /\
    (forall m, (m < nextNode d)%nat -> m <> target ->
       parentNode d' m = parentNode d m) /\
    (forall q, (q < nextNode d)%nat -> q <> p -> q <> documentHead d ->
       childNodes d' q = childNodes d q) /\
    (if intersectionObserverInWindow env
     then getStyle d' C "opacity" = CssText "0" /\
          getStyle d' C "transition"
          = CssTransition "opacity" (duration (finalConfig i)) (easing (finalConfig i)) /\
          observed w' = observed w ++ [C]
     else getStyle d' C "opacity" = CssText "" /\
          getStyle d' C "transition" = CssText "" /\
          observed w' = observed w /\
          ~ In CleanupObserver (cleanupFunctions i)).
Proof.
  intros Hin (HA & Hh & Hpar & Hch & Hpre & Hpost & Hph) Hpd Hdn Hacc.
  unfold observerError in Hacc.
  unfold useStickerAnimation, invalidTarget.
  rewrite (bool_decide_eq_true_2 _ Hin). cbn [negb].
  pose proof (checks_world (mergeConfig config) w) as CW.
  pose proof (checks_keep (mergeConfig config) w) as CK.
  cbv zeta in CW, CK.
  destruct (checkDuration (mergeConfig config, w)) as [fc1 w1] eqn:E1.
  destruct (checkShadowIntensity (fc1, w1)) as [fc2 w2] eqn:E2.
  cbn [fst snd] in CW, CK.
  destruct CW as (Hdoc & _ & Hobs & _).
  destruct CK as (_ & _ & _ & _ & Hopt).
  rewrite Hopt, Hacc. clear Hopt Hacc.
  rewrite Hdoc. clear E1 E2 Hdoc.
  set (d := document w) in *.
  assert (Ht : (target < nextNode d)%nat).
  { destruct HA as [HA1 _]. apply HA1 in Hpar. exact Hpar. }
  assert (Hp : (p < nextNode d)%nat).
  { destruct HA as [_ HA2]. unfold childNodes in Hch.
    destruct (childrenOf d !! p) eqn:Ep; [apply HA2 in Ep; exact Ep|].
    cbn in Hch. destruct pre; discriminate Hch. }
  pose proof (documentNode_injectGlobalStyles d) as HI.
  destruct (injectGlobalStyles d) as [injected d1] eqn:EI.
  cbn [snd] in HI.
  destruct (injectGlobalStyles_maps d injected d1 HA Hh EI)
    as (I1 & I2 & I3 & I4 & I5).
  clear EI.
  assert (Hpar1 : parentOf d1 !! target = Some p) by (rewrite I3 by exact Ht; exact Hpar).
  assert (Hch1 : childNodes d1 p = pre ++ target :: post).
  { unfold childNodes. rewrite (I4 p Hph Hp). exact Hch. }
  destruct (createElement "div" d1) as [W d2] eqn:EW.
  assert (EP : parentNode
                 (setStyle W "display" (CssText "inline-block")
                    (setStyle W "position" (CssText "relative") d2)) target
               = Some p).
  { unfold createElement in EW. inversion EW. exact Hpar1. }
  assert (HDd : documentNode
                  (setStyle W "display" (CssText "inline-block")
                     (setStyle W "position" (CssText "relative") d2))
                = documentNode d).
  { unfold createElement in EW. inversion EW. exact HI. }
  destruct (wrap_maps d1 W d2 target p pre post I1 EW Hpar1 Hch1 Hpre Hpost)
    as (W0 & W1 & W2 & W3 & W4 & W5 & W6 & W7 & W8 & W9).
  cbv zeta in W1, W2, W3, W4, W5, W6, W7, W8, W9.
  clear EW.
  set (D := setStyle W "display" (CssText "inline-block")
              (setStyle W "position" (CssText "relative") d2)) in *.
  rewrite EP. unfold insertBefore.
  rewrite (bool_decide_eq_true_2 _ EP). cbn [negb]. rewrite HDd.
  destruct (Nat.eqb_spec p (documentNode d)) as [Hpe|_]; [contradiction (Hpd Hpe)|].
  cbv beta iota.
  assert (HD4 : documentNode (appendChild W target (insert p W target D))
                = documentNode d).
  { rewrite documentNode_appendChild, documentNode_insert. exact HDd. }
  set (D4 := appendChild W target (insert p W target D)) in *.
  clearbody D4. clear EP HDd. clearbody D.
  set (size := getElementSize (getBoundingClientRect env D4 target)
                 (getComputedStyle env D4 target)).
  destruct (createStickerDOM_shape target (width size) (height size) D4 W1)
    as (c & m & v & f & fc & b & bi & bc & bs & dp & fcc & bcc & fcs & bcs & ms
        & vs & fs & bis & bss & S1 & SH & _ & _).
  pose proof (documentNode_createStickerDOM target (width size) (height size) D4)
    as HD5.
  destruct (createStickerDOM target (width size) (height size) D4) as [dom d5].
  cbn [fst snd] in S1, SH, HD5. subst dom.
  destruct SH as (SA & SF & ST & SB & SN).
  repeat match goal with
         | H : Forall _ (_ :: _) |- _ =>
             apply Forall_cons in H;
             let H1 := fresh "T" in destruct H as [H1 H]
         end.
  repeat match goal with
         | H : tracks _ _ |- _ =>
             unfold tracks in H; cbn [t_node t_parent t_children t_style] in H;
             let P := fresh "P" in
             let C := fresh "C" in
             let S := fresh "S" in
             destruct H as (P & C & S)
         end.
  cbn [t_node] in *.
  set (dom := mkDOMStructure c m v f b bi bs dp) in *.
  assert (F5 : forall x, (x < nextNode D4)%nat ->
                 parentNode d5 x = parentOf D4 !! x /\
                 childNodes d5 x = childNodes D4 x /\
                 getStyle d5 x "display" = getStyle D4 x "display").
  { intros x Hx. destruct (SF x Hx) as (F1 & F2 & F3 & _).
    unfold parentNode, childNodes, getStyle, inlineStyle.
    rewrite F1, F2, F3. auto. }
  assert (HW : (W < nextNode D4)%nat) by lia.
  assert (Hc5 : childNodes d5 W = [] ++ [target]).
  { destruct (F5 W HW) as (_ & F & _). rewrite F. exact W5. }
  destruct (insertStickerDOM_maps W dom target d5 [] [] Hc5)
    as (d6 & J0 & J1 & J2 & _ & J4 & J5 & J6 & J7 & _).
  { cbn [app]. apply NoDup_singleton. }
  { apply not_elem_of_nil. }
  { intros x Hx. inversion Hx. }
  { unfold parentNode. cbn [container dom]. assumption. }
  { destruct (F5 target ltac:(lia)) as (F & _). rewrite F. exact W3. }
  { rewrite HD5, HD4. lia. }
  cbn [container dom] in J1, J2, J6.
  rewrite J0. clear J0.
  assert (Hstyle : getStyle d6 c "opacity" = CssText "" /\
                   getStyle d6 c "transition" = CssText "").
  { rewrite !J5 by (right; discriminate).
    unfold getStyle, inlineStyle.
    match goal with
    | H : styleOf d5 !! c = Some _ |- _ => rewrite H
    end.
    split; reflexivity. }
  destruct Hstyle as [Hop Htr].
  assert (Hfinal :
    ((nextNode d <= W)%nat /\ (W < c)%nat) /\
    (parentNode d6 W = Some p /\
     childNodes d6 p = pre ++ W :: post /\
     childNodes d6 W = [c; target] /\
     parentNode d6 c = Some W /\
     parentNode d6 target = Some W /\
     getStyle d6 target "display" = CssText "none") /\
    (childNodes d6 c = [m] /\ childNodes d6 v = [f; dp; b]) /\
    (forall x, (x < nextNode d)%nat -> x <> target ->
       parentNode d6 x = parentNode d x) /\
    (forall q, (q < nextNode d)%nat -> q <> p -> q <> documentHead d ->
       childNodes d6 q = childNodes d q)).
  { split; [lia|].
    split; [|split; [|split]].
    - split.
      { rewrite J6 by (try apply not_elem_of_nil; lia).
        destruct (F5 W HW) as (F & _). rewrite F. exact W4. }
      split.
      { rewrite J7 by lia.
        destruct (F5 p ltac:(lia)) as (_ & F & _). rewrite F. exact W6. }
      split; [exact J1|]. split; [exact J2|]. split; [|exact J4].
      rewrite J6 by (try apply not_elem_of_nil; lia).
      destruct (F5 target ltac:(lia)) as (F & _). rewrite F. exact W3.
    - split; rewrite J7 by lia; assumption.
    - intros x Hx Hxt.
      rewrite J6 by (try apply not_elem_of_nil; lia).
      destruct (F5 x ltac:(lia)) as (F & _). rewrite F.
      rewrite W7 by lia. unfold parentNode. apply I3, Hx.
    - intros q Hq Hqp Hqh.
      rewrite J7 by lia.
      destruct (F5 q ltac:(lia)) as (_ & F & _). rewrite F.
      unfold childNodes. rewrite W8 by lia. rewrite (I4 q Hqh Hq). reflexivity. }
  destruct Hfinal as (G1 & (G2 & G3 & G4 & G5 & G6 & G7) & (G8 & G9) & G10 & G11).
  destruct (intersectionObserverInWindow env).
  - eexists _, _. split; [reflexivity|].
    cbn [wrapperElement stickerDOM container mask move front depth back dom
         document onDocument set_document observe set_observed
         setupEventHandlers addEventListener set_listeners].
    assert (Hs : forall n, parentNode
                   (setStyle c "transition"
                      (CssTransition "opacity" (duration fc2) (easing fc2))
                      (setStyle c "opacity" (CssText "0") d6)) n = parentNode d6 n)
      by reflexivity.
    assert (Hk : forall n, childNodes
                   (setStyle c "transition"
                      (CssTransition "opacity" (duration fc2) (easing fc2))
                      (setStyle c "opacity" (CssText "0") d6)) n = childNodes d6 n)
      by reflexivity.
    rewrite !Hs, !Hk.
    split; [exact G1|].
    split; [|split; [split; assumption|split; [|split]]].
    + repeat (split; [assumption|]).
      rewrite !getStyle_setStyle_ne by (left; lia). exact G7.
    + intros x Hx Hxt. rewrite Hs. apply G10; assumption.
    + intros q Hq Hqp Hqh. rewrite Hk. apply G11; assumption.
    + cbn [finalConfig observed onDocument set_document observe set_observed
           setupEventHandlers addEventListener set_listeners document].
      split; [|split].
      * rewrite getStyle_setStyle_ne by (right; discriminate).
        apply getStyle_setStyle_eq.
      * apply getStyle_setStyle_eq.
      * rewrite Hobs. reflexivity.
  - eexists _, _. split; [reflexivity|].
    cbn [wrapperElement stickerDOM container mask move front depth back dom
         document onDocument set_document
         setupEventHandlers addEventListener set_listeners].
    split; [exact G1|].
    split; [repeat split; assumption|].
    split; [split; assumption|]. split; [assumption|]. split; [assumption|].
    cbn [observed onDocument set_document setupEventHandlers addEventListener
         set_listeners cleanupFunctions document].
    split; [exact Hop|]. split; [exact Htr|]. split; [exact Hobs|].
    rewrite !in_app_iff. cbn [In].
    intros [[[H|[]]|[H|[]]]|[H|[]]]; discriminate H.
Qed.

End BuiltTree.

(** ** When construction throws *)

Section Outcome.

Variable env : Env.




End Outcome.



(** X23.  What construction does to the tree, for a target that is an
    HTMLElement and a child of [p], between [pre] and [post], in a
    document whose unallocated references are not in use and whose head is
    not [p], when [p] is not the document node (the target is not the
    root element, for which [insertBefore] throws) and the constructor of
    the observer, if the window has one, accepts the options of the
    configuration.  Then the call returns; the wrapper and the container
    are new nodes; the wrapper takes the place of the target among the
    children of [p], in the same position, and holds the container and the
    target, in this order; the target is hidden with [display: none]; the
    container holds the mask and the move layer holds front, depth and
    back; and every other node of the old document keeps its parent, and
    its children too when it is neither [p] nor the head. *)
Theorem useStickerAnimation_wraps (env : Env) (target p : nat)
  (pre post : list nat) (config : option StickerAnimationConfig) (w : World) :
  target ∈ htmlElements (document w) ->
  childAt (document w) target p pre post ->
  p <> documentNode (document w) ->
  (documentNode (document w) < nextNode (document w))%nat ->
  observerError env config = None ->
  exists w' i,
    useStickerAnimation env (JsObject target) config w = (w', Returned i) /\
    let d := document w in
    let d' := document w' in
    let W := wrapperElement i in
    let C := container (stickerDOM i) in
    ((nextNode d <= W)%nat /\ (W < C)%nat) /\
    (parentNode d' W = Some p /\
     childNodes d' p = pre ++ W :: post /\
     childNodes d' W = [C; target] /\
     parentNode d' C = Some W /\
     parentNode d' target = Some W /\
     getStyle d' target "display" = CssText "none") /\
    (childNodes d' C = [mask (stickerDOM i)] /\
     childNodes d' (move (stickerDOM i))
     = [front (stickerDOM i); depth (stickerDOM i); back (stickerDOM i)]) /\
    (forall m, (m < nextNode d)%nat -> m <> target ->
       parentNode d' m = parentNode d m) /\
    (forall q, (q < nextNode d)%nat -> q <> p -> q <> documentHead d ->
       childNodes d' q = childNodes d q).
Proof.
  intros Hin HC Hpd Hdn Hacc.
  destruct (useStickerAnimation_built env target p pre post config w
              Hin HC Hpd Hdn Hacc)
    as (w' & i & Hr & H1 & H2 & H3 & H4 & H5 & _).
  exists w', i. split; [exact Hr|]. cbv zeta. auto.
Qed.


(** The card of the example page, between the header and the paragraph. *)
Lemma useStickerAnimation_wraps_witness :
  childAt Sample.page 5 3 [4%nat] [6%nat] /\
  observerError Sample.env None = None /\
  exists w' i,
    useStickerAnimation Sample.env (JsObject 5) None Sample.world = (w', Returned i) /\
    childNodes (document w') 3 = [4%nat; wrapperElement i; 6%nat] /\
    childNodes (document w') (wrapperElement i) = [container (stickerDOM i); 5%nat] /\
    parentNode (document w') 6 = Some 3%nat.
Proof.
  assert (Hin : 5%nat ∈ htmlElements (document Sample.world))
    by (apply isHTMLElement_decide; vm_compute; reflexivity).
  assert (HC : childAt Sample.page 5 3 [4%nat] [6%nat]).
  { split; [split; apply map_Forall_to_list; vm_compute; repeat constructor|].
    split; [vm_compute; lia|]. split; [vm_compute; reflexivity|].
    split; [vm_compute; reflexivity|].
    split; [rewrite elem_of_cons, elem_of_nil; lia|].
    split; [rewrite elem_of_cons, elem_of_nil; lia|].
    vm_compute. lia. }
  split; [exact HC|].
  assert (Hacc : observerError Sample.env None = None)
    by (vm_compute; reflexivity).
  split; [exact Hacc|].
  destruct (useStickerAnimation_wraps Sample.env 5 3 [4%nat] [6%nat] None
              Sample.world Hin HC)
    as (w' & i & Hr & _ & (_ & H2 & H3 & _) & _ & H4 & _);
    [discriminate|vm_compute; lia|exact Hacc|].
  exists w', i. split; [exact Hr|]. split; [exact H2|]. split; [exact H3|].
  rewrite (H4 6%nat); [vm_compute; reflexivity|vm_compute; lia|lia].
Defined.

(** X28.  Without IntersectionObserver in the window the sticker is
    visible at once: construction, on a target that is an HTMLElement and
    a child of [p] as in the last theorem, with [p] not the document node
    (for the root element [insertBefore] throws), returns an instance
    whose container has no inline [opacity] and no inline [transition],
    observes nothing and registers no observer cleanup; and when nothing
    was observed before, intersection entries that are delivered later
    change nothing. *)
Theorem useStickerAnimation_without_observer (env : Env) (target p : nat)
  (pre post : list nat) (config : option StickerAnimationConfig) (w : World) :
  intersectionObserverInWindow env = false ->
  target ∈ htmlElements (document w) ->
  childAt (document w) target p pre post ->
  p <> documentNode (document w) ->
  (documentNode (document w) < nextNode (document w))%nat ->
  exists w' i,
    useStickerAnimation env (JsObject target) config w = (w', Returned i) /\
    getStyle (document w') (container (stickerDOM i)) "opacity" = CssText "" /\
    getStyle (document w') (container (stickerDOM i)) "transition" = CssText "" /\
    observed w' = observed w /\
    ~ In CleanupObserver (cleanupFunctions i) /\
    (observed w = [] ->
     forall entries, step env (mkState w' i) (Intersection entries) = mkState w' i).
Proof.
  intros Hio Hin HC Hpd Hdn.
  assert (Hacc : observerError env config = None)
    by (unfold observerError; rewrite Hio; reflexivity).
  destruct (useStickerAnimation_built env target p pre post config w
              Hin HC Hpd Hdn Hacc)
    as (w' & i & Hr & _ & _ & _ & _ & _ & H6).
  rewrite Hio in H6. cbv zeta in H6. destruct H6 as (O1 & O2 & O3 & O4).
  exists w', i. split; [exact Hr|].
  split; [exact O1|]. split; [exact O2|]. split; [exact O3|]. split; [exact O4|].
  intros Ho entries. cbn [step world]. rewrite O3, Ho. reflexivity.
Qed.

(** The card of the example page in a browser without
    IntersectionObserver. *)
Lemma useStickerAnimation_without_observer_witness :
  let env := mkEnv false (parsesAsMargin Sample.env)
               (getBoundingClientRect Sample.env)
               (getComputedStyle Sample.env) in
  exists w' i,
    useStickerAnimation env (JsObject 5) None Sample.world = (w', Returned i) /\
    getStyle (document w') (container (stickerDOM i)) "opacity" = CssText "" /\
    observed w' = [].
Proof.
  intros env.
  assert (Hin : 5%nat ∈ htmlElements (document Sample.world))
    by (apply isHTMLElement_decide; vm_compute; reflexivity).
  assert (HC : childAt Sample.page 5 3 [4%nat] [6%nat]).
  { split; [split; apply map_Forall_to_list; vm_compute; repeat constructor|].
    split; [vm_compute; lia|]. split; [vm_compute; reflexivity|].
    split; [vm_compute; reflexivity|].
    split; [rewrite elem_of_cons, elem_of_nil; lia|].
    split; [rewrite elem_of_cons, elem_of_nil; lia|].
    vm_compute. lia. }
  destruct (useStickerAnimation_without_observer env 5 3 [4%nat] [6%nat] None
              Sample.world eq_refl Hin HC)
    as (w' & i & Hr & H1 & _ & H3 & _); [discriminate|vm_compute; lia|].
  exists w', i. split; [exact Hr|]. split; [exact H1|exact H3].
Defined.

(** ** What the handlers do to the tree: nothing *)

Section TreeFrame.

Variable env : Env.

Lemma sameTree_refl d : sameTree d d.
Proof. unfold sameTree. auto 10. Qed.

Lemma sameTree_trans d1 d2 d3 : sameTree d1 d2 -> sameTree d2 d3 -> sameTree d1 d3.
Proof.
  unfold sameTree.
  intros (A1 & A2 & A3 & A4 & A5 & A6) (B1 & B2 & B3 & B4 & B5 & B6).
  repeat split; congruence.
Qed.

Lemma sameTree_setStyle d d1 n p v :
  sameTree d d1 -> sameTree d (setStyle n p v d1).
Proof. intros H. exact H. Qed.

Lemma sameTree_setClassName d d1 n c :
  sameTree d d1 -> sameTree d (setClassName n c d1).
Proof. intros H. exact H. Qed.

Lemma sameTree_applyPeelStyles d d1 s v t :
  sameTree d d1 -> sameTree d (applyPeelStyles s v t d1).
Proof.
  intros H. unfold applyPeelStyles. cbv zeta.
  repeat apply sameTree_setStyle. exact H.
Qed.

Lemma sameTree_updateCSSVariables d element variables : forall d1,
  sameTree d d1 -> sameTree d (updateCSSVariables element variables d1).
Proof.
  unfold updateCSSVariables.
  induction variables as [|kv l IH]; intros d1 H; cbn [fold_left]; [exact H|].
  apply IH, sameTree_setStyle, H.
Qed.

Lemma tree_handleMouseEnter e st :
  sameTree (document (world st)) (document (world (handleMouseEnter env e st))).
Proof.
  unfold handleMouseEnter. cbv zeta.
  destruct (stringifiable (finalConfig (instance st)));
    cbn [world document set_document].
  - apply sameTree_applyPeelStyles, sameTree_updateCSSVariables.
    apply sameTree_setClassName, sameTree_setClassName, sameTree_refl.
  - apply sameTree_setClassName, sameTree_setClassName, sameTree_refl.
Qed.

Lemma tree_handleMouseLeave e st :
  sameTree (document (world st)) (document (world (handleMouseLeave e st))).
Proof.
  unfold handleMouseLeave. destruct (savePos (instance st)); [|apply sameTree_refl].
  cbv zeta. cbn [world document set_document setTimeout set_timers].
  apply sameTree_applyPeelStyles, sameTree_refl.
Qed.

Lemma tree_handleMouseMove e st :
  sameTree (document (world st)) (document (world (handleMouseMove env e st))).
Proof.
  unfold handleMouseMove.
  destruct (noSession (instance st) && negb (stringifiable (finalConfig (instance st))));
    [apply tree_handleMouseEnter|].
  set (st1 := match savePos (instance st), elementPos (instance st) with
              | Some _, Some _ => st
              | _, _ => _
              end).
  assert (H1 : sameTree (document (world st)) (document (world st1))).
  { subst st1.
    destruct (savePos (instance st)); [destruct (elementPos (instance st))|];
      first [apply sameTree_refl | apply tree_handleMouseEnter]. }
  cbv zeta. destruct (elementPos (instance st1)); [|exact H1].
  cbn [world document set_document].
  apply sameTree_applyPeelStyles, H1.
Qed.

Lemma tree_handleMouseUp e st :
  sameTree (document (world st)) (document (world (handleMouseUp e st))).
Proof.
  unfold handleMouseUp.
  eapply sameTree_trans; [|apply tree_handleMouseLeave].
  exact (sameTree_refl (document (world st))).
Qed.

Lemma tree_callListener ev st l :
  sameTree (document (world st)) (document (world (callListener env ev st l))).
Proof.
  destruct l, ev; cbn [callListener]; try apply sameTree_refl.
  - apply tree_handleMouseEnter.
  - apply tree_handleMouseLeave.
  - apply tree_handleMouseMove.
  - unfold handleTouchStart. destruct touches; [apply sameTree_refl|].
    apply tree_handleMouseEnter.
  - apply tree_handleMouseLeave.
  - unfold handleTouchMove. destruct touches; [apply sameTree_refl|].
    apply tree_handleMouseMove.
  - apply tree_handleMouseUp.
Qed.

Lemma tree_callListeners ev ls : forall st,
  sameTree (document (world st))
    (document (world (fold_left (callListener env ev) ls st))).
Proof.
  induction ls as [|l ls IH]; intros st; cbn [fold_left].
  - apply sameTree_refl.
  - eapply sameTree_trans; [apply tree_callListener|apply IH].
Qed.

Lemma tree_onEntry st entry :
  sameTree (document (world st)) (document (world (onEntry st entry))).
Proof.
  unfold onEntry. destruct (_ && _); [|apply sameTree_refl].
  cbv zeta. destruct (numeric_ltb 0 _); exact (sameTree_refl (document (world st))).
Qed.

Lemma tree_observerCallback entries : forall st,
  sameTree (document (world st)) (document (world (observerCallback entries st))).
Proof.
  unfold observerCallback.
  induction entries as [|x entries IH]; intros st; cbn [fold_left].
  - apply sameTree_refl.
  - eapply sameTree_trans; [apply tree_onEntry|apply IH].
Qed.

Lemma tree_step st ev :
  notDestroy ev ->
  sameTree (document (world st)) (document (world (step env st ev))).
Proof.
  intros Hn. destruct ev; cbn [step]; try contradiction.
  - apply tree_callListeners.
  - destruct (observed (world st)); [apply sameTree_refl|].
    apply tree_observerCallback.
  - destruct (nth_error _ _) as [[dl task]|]; [|apply sameTree_refl].
    destruct task; cbn [runTask]; exact (sameTree_refl (document (world st))).
  - exact (sameTree_refl (document (world st))).
  - exact (sameTree_refl (document (world st))).
  - unfold trigger. destruct (phase _); exact (sameTree_refl (document (world st))).
Qed.

Lemma tree_run evs : forall st,
  Forall notDestroy evs ->
  sameTree (document (world st)) (document (world (run env evs st))).
Proof.
  unfold run. induction evs as [|ev evs IH]; intros st H; cbn [fold_left].
  - apply sameTree_refl.
  - apply Forall_cons in H. destruct H as [H1 H2].
    eapply sameTree_trans; [apply tree_step, H1|apply IH, H2].
Qed.

End TreeFrame.

(** X25.  No handler touches the structure of the page.  Whatever events
    are dispatched, whatever intersection entries and timeouts arrive, and
    however often [reset()] and [trigger()] are called, every node keeps
    its parent, its children, its tag and its id, and no node is created:
    the handlers write styles and classes only.  Only [destroy()] changes
    the tree. *)
Theorem handlers_keep_tree (env : Env) (st : State) (evs : list Event) :
  Forall notDestroy evs ->
  let d := document (world st) in
  let d' := document (world (run env evs st)) in
  nextNode d' = nextNode d /\
  (forall n, parentNode d' n = parentNode d n /\ childNodes d' n = childNodes d n) /\
  tagOf d' = tagOf d /\ idOf d' = idOf d /\ htmlElements d' = htmlElements d.
Proof.
  intros H. cbv zeta.
  destruct (tree_run env evs st H) as (T1 & T2 & T3 & T4 & T5 & T6).
  split; [exact T1|]. split; [|auto].
  intros n. unfold parentNode, childNodes. rewrite T2, T3. auto.
Qed.

(** The example session on the card of the example page: the wrapper still
    holds the container and the card. *)
Lemma handlers_keep_tree_witness :
  Forall notDestroy exampleSession /\
  exists st0 : State,
    Sample.construct (JsObject 5) None = Some st0 /\
    childNodes (document (world (run Sample.env exampleSession st0)))
      (wrapperElement (instance st0))
    = childNodes (document (world st0)) (wrapperElement (instance st0)).
Proof.
  assert (H : Forall notDestroy exampleSession).
  { unfold exampleSession. repeat (apply Forall_cons; split; [exact I|]).
    apply Forall_nil. trivial. }
  split; [exact H|].
  destruct sample_session as (st0 & E & _).
  exists st0. split; [exact E|].
  destruct (handlers_keep_tree Sample.env st0 exampleSession H) as (_ & H2 & _).
  apply H2.
Defined.
